(* ===== verification/_CoqProject ===== *)
-Q . S2P
Prelude.v
CString.v
Log.v
Xcommon.v
Bitops.v
Hash.v
HList.v
DList.v
Types.v
ErrPtr.v
Icache.v
NfsInode.v
Rpc.v
ParseDev.v
Options.v
Mntent.v
Fstab.v
Mtab.v
MtabLock.v
MntFlags.v
Nfs3.v
Acl.v
Fuse.v
Mount.v
CacheSpec.v
Attrs.v
Lookups.v
Failures.v
Entries.v
Acls.v
Threads.v
Mounted.v
CmdLine.v
Typed.v
Io.v
Dirs.v
Creations.v
DirsPlus.v
FileServer.v
Session.v
Serving.v
Witness.v
WitnessMount.v
WitnessSession.v
WitnessMain.v
