(* ===== verification/Prelude.v ===== *)
(** * Verification of nfs-fuse

    nfs-fuse (HSFS) is an NFSv3 client in user space: the kernel sends file system
    requests through FUSE, a handler translates each into NFSv3 remote procedure
    calls and replies.  Between the two sits an inode cache modelled on that of
    Linux: an inode is known to the kernel by a number of the client's own, and to
    the server by its file id and file handle.  Before that, the program reads its
    command line, parses the device name and the mount options, asks the server's
    mount service for the root and puts the root into the cache.

    ** Parts of the program and files of the development

    Foundations:
    - [Prelude]: C integers, record updates, the monad of programs on a state (a
      run returns, has undefined behaviour, fails an assertion or runs out of fuel),
      its weakest preconditions, and the automation the other files use.
    - [CString]: character buffers and [<string.h>] on them; decimal numbers.
    - [Bitops], [Hash], [HList], [DList]: [include/hsfs/compiler.h], [bitops.h],
      [log2.h], [hash.h], [hashtable.h] and [list.h].  The chains of [HList] and the
      rings of [DList] are the pointer structures of the source, [pprev] slots included.
    - [Log]: [lib/hsfs_log.c].  [Xcommon]: the string functions of [fuse/xcommon.c].
    - [Types]: the structures of [include/hsfs.h], [include/hsfs/hsi_nfs.h],
      [nfs3/nfs3.x], [nfs3/mount.x] and [nfs3/acl3.x]; the state of the process
      ([world]): the live inodes by address, the super block, the RPC handles that are
      open, the static variables of [nfs3/hsi_nfs3_mount.c], the replies sent.  The
      class [Env] is what the program calls and does not define: [malloc], the RPC
      library with the server behind it, the contents of memory before it is written,
      the size of FUSE directory entries.  [EnvOk] is what is assumed of it: a fresh
      address is a fresh address, a fresh handle a fresh handle.  Nothing is assumed
      of the server except where a theorem says so.
    - [ErrPtr]: [include/hsfs/err.h].

    The file system:
    - [Icache]: [lib/hsfs_inode.c], over an arbitrary table of super block operations
      that satisfies the class [SuperOps]; the two hash tables are lists of chains of
      inode addresses, which is what [HList] shows of the pointer structures.
    - [NfsInode]: [nfs_common/hsi_nfs_inode.c] and the instance of [SuperOps] for it.
    - [Rpc]: the RPC part of [nfs3/hsi_nfs3_mount.c] (creating a client, reconnecting,
      calling with retries) and the status tables of [nfs3/hsi_nfs3_unlink.c].
    - [Nfs3]: the operations [nfs3/hsi_nfs3_*.c], one definition per function.
    - [Acl]: [nfs3/hsi_acl3.c], [nfs3/hsi_nfs3_getxattr.c], [nfs3/hsi_nfs3_setxattr.c].
    - [Fuse]: the handlers [fuse/hsx_fuse_*.c] and the table [hsfs_oper] of
      [fuse/hsfs_main.c], which takes a request to its handler.

    Mounting:
    - [ParseDev]: [utils/mount/parse_dev.c].  [Options]: the option parser of
      [nfs3/hsi_nfs3_mount.c].  [Mount]: the rest of that file, from [hsfs_do_mount] to
      the cached root, and unmounting; the class [MountEnv] is the resolver, the mount
      service and the clock.
    - [CmdLine]: the command line and [main] of [fuse/hsfs_main.c]; the class [FuseLib]
      is the option parser and the session of libfuse.  [MntFlags]: the table of mount
      flags and the entries of mtab of the same file.
    - [Mntent]: [nfs3/nfs_mntent.c].  [Fstab]: [nfs3/fstab.c]; the class [MtabEnv] says
      which system calls fail.  [MtabLock]: the lock file between processes.

    Theorems about several parts:
    - [CacheSpec], [Attrs], [Lookups], [Failures], [Entries], [Creations], [Io], [Dirs],
      [DirsPlus], [Acls], [Threads] on the file system; [Mounted] and [Typed] on mounting; [Mtab] on
      the update of mtab.
    - [FileServer], [Session], [Serving]: the specification of the whole program.  A
      server keeps a file system by the rules of NFSv3 ([FileServer]); a relation says what
      a request may reply and do there, and a conversation with the kernel is a run of it
      ([Session]); the start of the program leads to the first state ([Serving]).
    - [Witness], [WitnessMount], [WitnessSession], [WitnessMain]: a concrete allocator,
      NFSv3 servers, mount service and FUSE library, a client that has the server mounted,
      and an instance of each theorem there.

    ** How code becomes definitions

    A C function is a definition of the same name in the monad [M world] (or [M] of the
    state its part has: [mst] in [Fstab], [dmem] in [DList], [smem] in [Xcommon]); pure
    functions are functions on [Z].  An integer is a [Z] with the wrap-around of its
    width written out ([wrap], [sint]); a shift by the width or more, a use of memory
    that holds no live object, a use of a destroyed RPC handle and a string copied
    beyond its buffer are undefined behaviour ([UB]); [assert] and [FUSE_ASSERT], and
    [die], stop the process ([Abort]).  A pointer to an inode is its address, NULL is
    0.  Results through pointer arguments are returned.  The debug macros expand to
    nothing, as in the default build for 64-bit little-endian Linux with glibc.

    Handlers run one at a time, as in the single-threaded session loop.  The default
    loop of [hsfs_main.c] is multi-threaded although the cache has no locks: [Threads]
    treats interleaved lookups of one file, with and without a lock.

    ** What the theorems show

    - The program as a whole ([Session], [Serving]).  With a server that keeps a file
      system by the rules of NFSv3, the program started with a command line it accepts
      mounts it, and a kernel that asks for what exists gets an answer to each request; the
      replies, the files on the server and the lookup counts are those of a run of the
      specification [fs_step] ([serving_implements_file_system]; from any state that
      stands for a file system, [session_implements_file_system]).  These conversations
      hold [lookup], [forget], [getattr], [setattr] but for the size, [readlink], [mknod],
      [mkdir], [unlink], [rmdir], [symlink], [rename], [open], [read], [write], [release],
      [opendir] and [create] but for the exclusive one; the requests left out are [link]
      and truncation, which do not do what they should, and listings, ACLs, [access] and
      [statfs], which have theorems of their own or only pass an answer on.
    - The cache ([CacheSpec], [Lookups]).  Both tables always hold exactly the cached
      inodes, each in the bucket of its key, with unique numbers and unique
      identities, whatever requests and answers come ([requests_keep_the_cache]), and
      so they do from the start of [main] on ([counts_since_the_start]).
      [hsfs_ilookup] and [hsi_nfs_fhget] implement lookup and find-or-create on the
      map from numbers to identities ([ilookup_refines], [fhget_refines]); the loop
      that picks a number ends ([inode_numbers_never_run_out]).
    - The contract with the kernel ([Lookups], [Failures]).  Every request is answered
      once, with the exceptions stated ([requests_are_answered_once]); lookup counts
      are what was handed out minus what was forgotten
      ([lookup_counts_follow_the_kernel]); failures of the server or the connection
      reach the kernel as error numbers and change nothing ([failure_is_reported]).
    - The data ([Io], [Dirs], [DirsPlus], [Entries], [Creations], [Attrs], [Acls]).  What
      [read], [write], [readdir], [readdirplus], [lookup], [getattr], [setattr], the creating requests and the
      ACL requests reply and do, for servers that answer as NFSv3 asks, stated as
      hypotheses on the calls; a directory read in pieces is listed completely
      ([directory_is_listed]).
    - Mounting ([ParseDev], [Mounted], [Typed], [CmdLine]).  Which device names are
      accepted ([devname_parsed]), what options set ([options_applied]), that a mount
      succeeds against a server that exports the directory ([mount_succeeds]), the
      ranges of what is stored ([mount_data_well_typed], [mount_data_validated]) and
      the reading of the command line ([command_line_read]).
    - Mount tables ([Mntent], [Mtab], [MtabLock]).  Entries are read back as written
      ([mount_table_roundtrip]); [update_mtab] implements its specification on the list
      of entries whatever system calls fail ([update_mtab_refines]); the lock excludes
      ([mtab_lock_exclusive]).
    - The libraries ([Bitops], [HList], [DList], [Rpc], [Log], [Xcommon]).  Logarithms,
      rotations, hash tables, rings and string functions meet their specifications;
      calls are retried at most five times; messages go where they were directed.
    - Behaviour that is not as intended is proved as it is: error pointers are not
      recognised ([err_ptr_not_recognised], [lookup_without_attributes_undefined]), an
      entry of [link] is not counted ([link_entry_breaks_forget]), a created file the
      kernel knows ends the process ([creation_replies_entry]), no inode is ever freed
      ([iput_never_frees]), explicit times are not sent ([setattr_request]), a
      truncation after a write may be lost ([truncation_after_write_lost]), a refused
      mount is reported as a success ([refused_mount_reports_success]), the default ACL
      of a directory is overwritten ([directory_default_overwritten]), lookups without a
      lock make two inodes ([unlocked_lookups_duplicate]), a flag that only the FUSE
      library knows ends the program ([unsupported_flag_refuses_mount]).

    ** Bounds

    Loops whose end depends on data take fuel.  [pick_id] gets one probe more than
    there are inodes, which is shown to be enough.  [hsx_fuse_read] and
    [hsx_fuse_write] get one round per byte, enough for every server that transfers
    at least one byte a call (a server that transfers none makes the program loop,
    here [Timeout]).  The retry loop of [hsi_nfs3_clnt_call] is bounded by its own
    counter.  The walk of a chain takes more fuel than the chain has nodes
    ([nodes_fuel]); reading a mount table takes one round per character; the loop of
    [lock_mtab] gets [LOCK_FUEL] rounds, more than its two counters allow;
    [mount_loop] takes the fuel of its caller, and [mount_succeeds] needs one round.
    The theorems on conversations are for a number of requests below 2^31 that memory
    suffices for: reference counts are [int], and no inode is ever freed.

    ** Not modelled

    The text of messages; the freeing of buffers that no later step uses; the macros
    of [list.h] and [hashtable.h] that are variants of the loops modelled and that
    nothing uses; [xrealloc], which nothing uses; code under [#if 0], [__UNUSED__] and
    [HSFS_NFS3_TEST], which is not compiled; [lib/nfs_v4.c], [lib/libnfs*.c], [nfs4/]
    and [nfs/] (third-party code that nothing here calls); the generated XDR routines,
    whose effect is the typed call [nfs3_call]. *)

From Stdlib Require Export ZArith Lia.
From coqutil Require Tactics.RecordEta.
From stdpp Require Export base tactics list gmap strings numbers.

#[global] Open Scope Z_scope.

(** ** Record updates

    [r <| field := v |>] and [r <| field ::= f |>].  The setter of a field is the
    eta expansion of its record with the field replaced; a function that does not
    depend on the new value is refused. *)
Class Setter {R E : Type} (getter : R → E) := set : (E → E) → R → R.
#[global] Arguments set {R E} getter {_} f r.
Definition const {E : Type} (v : E) : E → E := λ _, v.

Ltac setter R getter :=
  let etaR := coqutil.Tactics.RecordEta.eta R in
  lazymatch eval pattern getter in etaR with
  | ?updateR _ =>
      let u := eval cbv beta in (fun updateE => updateR (fun r => updateE (getter r))) in
      lazymatch u with
      | (fun _ => ?b) => fail
      | _ => exact u
      end
  end.
#[global] Hint Extern 1 (@Setter ?R ?E ?getter) => setter R getter : typeclass_instances.

Declare Scope record_scope.
Notation "x <| proj ::= f |>" := (set proj f x)
  (at level 8, f at level 99, left associativity, format "x <| proj  ::=  f |>") : record_scope.
Notation "x <| proj := v |>" := (set proj (const v) x)
  (at level 8, v at level 99, left associativity, format "x <| proj  :=  v |>") : record_scope.
#[global] Open Scope record_scope.

(** ** Machine integers

    An unsigned value of [w] bits is a [Z] in [0 .. 2^w); [wrap w] is the
    conversion to it and [sint w] the conversion to the two's complement signed
    type of the same width. *)
Definition wrap (w z : Z) : Z := z mod 2 ^ w.
Definition sint (w z : Z) : Z :=
  let m := wrap w z in if m <? 2 ^ (w - 1) then m else m - 2 ^ w.
Definition in_range (w z : Z) : Prop := 0 <= z < 2 ^ w.

Declare Scope c_scope.
Delimit Scope c_scope with c.
Notation "x & y" := (Z.land x y) (at level 40, left associativity) : c_scope.
Notation "x `bor` y" := (Z.lor x y) (at level 50, left associativity) : c_scope.
Notation "x << n" := (Z.shiftl x n) (at level 45, left associativity) : c_scope.
Notation "x >> n" := (Z.shiftr x n) (at level 45, left associativity) : c_scope.
#[global] Open Scope c_scope.

(** [v & ~m], the way C clears the bits of a mask. *)
Definition bclear (v m : Z) : Z := Z.ldiff v m.

(** C truth of [v & m]. *)
Definition flag (v m : Z) : bool := negb (Z.land v m =? 0).

(** ** Outcomes and the state monad

    A C function either returns ([Ok]), stops the process in a failed [assert]
    ([Abort]) or executes an operation without defined behaviour ([UB]): a null,
    dangling or wild pointer, or an access outside an object.  A loop whose bound
    is not in the code takes fuel; [Timeout] says it has not ended within it. *)
Inductive res (A : Type) : Type :=
| Ok (a : A)
| Abort
| UB
| Timeout.
Arguments Ok {A} a.
Arguments Abort {A}.
Arguments UB {A}.
Arguments Timeout {A}.

Definition M (W A : Type) : Type := W → res (A * W).

#[global] Instance M_ret W : MRet (M W) := λ A a w, Ok (a, w).
#[global] Instance M_bind W : MBind (M W) := λ A B f m w,
  match m w with
  | Ok (a, w') => f a w'
  | Abort => Abort
  | UB => UB
  | Timeout => Timeout
  end.

Section Monad.
Context {W : Type}.
Definition gets {A} (f : W → A) : M W A := λ w, Ok (f w, w).
Definition modify (f : W → W) : M W unit := λ w, Ok (tt, f w).
Definition ub {A} : M W A := λ _, UB.
Definition abort {A} : M W A := λ _, Abort.
Definition out_of_fuel {A} : M W A := λ _, Timeout.
(** An operation of the machine that may be undefined. *)
Definition of_option {A} (o : option A) : M W A :=
  match o with Some a => mret a | None => ub end.
Definition c_assert (b : bool) : M W unit := if b then mret tt else abort.

(** Weakest liberal precondition: what holds when the code returns. *)
Definition wlp {A} (m : M W A) (Q : A → W → Prop) (w : W) : Prop :=
  match m w with Ok (a, w') => Q a w' | _ => True end.
(** Weakest precondition: the code returns, without abort and without UB. *)
Definition wp {A} (m : M W A) (Q : A → W → Prop) (w : W) : Prop :=
  match m w with Ok (a, w') => Q a w' | _ => False end.

(** [m] keeps the invariant [I]. *)
Definition preserves {A} (I : W → Prop) (m : M W A) : Prop :=
  ∀ w, I w → wlp m (λ _ w', I w') w.

Lemma bind_ok {A B} (m : M W A) (f : A → M W B) w a w' :
  m w = Ok (a, w') → (m ≫= f) w = f a w'.
Proof. intros H. unfold mbind, M_bind. by rewrite H. Qed.

Lemma bind_inv {A B} (m : M W A) (f : A → M W B) w b w' :
  (m ≫= f) w = Ok (b, w') → ∃ a w1, m w = Ok (a, w1) ∧ f a w1 = Ok (b, w').
Proof.
  unfold mbind, M_bind. destruct (m w) as [[a w1]| | |]; intros H; [eauto|done..].
Qed.

Lemma wlp_bind {A B} (m : M W A) (f : A → M W B) Q w :
  wlp m (λ a w1, wlp (f a) Q w1) w → wlp (m ≫= f) Q w.
Proof.
  unfold wlp, mbind, M_bind. by destruct (m w) as [[a w1]| | |].
Qed.

Lemma wp_bind {A B} (m : M W A) (f : A → M W B) Q w :
  wp m (λ a w1, wp (f a) Q w1) w → wp (m ≫= f) Q w.
Proof.
  unfold wp, mbind, M_bind. by destruct (m w) as [[a w1]| | |].
Qed.

Lemma wp_run {A} (m : M W A) Q w : wp m Q w → ∃ a w', m w = Ok (a, w') ∧ Q a w'.
Proof. unfold wp. destruct (m w) as [[a w']| | |]; [eauto|done..]. Qed.

Lemma wlp_mono {A} (m : M W A) (P Q : A → W → Prop) w :
  wlp m P w → (∀ a w', P a w' → Q a w') → wlp m Q w.
Proof. unfold wlp. destruct (m w) as [[a w1]| | |]; auto. Qed.

Lemma preserves_ret {A} I (a : A) : preserves I (mret a).
Proof. by intros w. Qed.
Lemma preserves_gets {A} I (f : W → A) : preserves I (gets f).
Proof. by intros w. Qed.
Lemma preserves_ub {A} I : preserves I (@ub A).
Proof. by intros w. Qed.
Lemma preserves_out_of_fuel {A} I : preserves I (@out_of_fuel A).
Proof. by intros w. Qed.
Lemma preserves_abort {A} I : preserves I (@abort A).
Proof. by intros w. Qed.
Lemma preserves_assert I b : preserves I (c_assert b).
Proof. destruct b; by intros w. Qed.
Lemma preserves_of_option {A} I (o : option A) : preserves I (of_option o).
Proof. destruct o; by intros w. Qed.
Lemma preserves_bind_option {A B} I (o : option A) (f : A → M W B) :
  (∀ a, o = Some a → preserves I (f a)) → preserves I (of_option o ≫= f).
Proof. intros Hf w Hw. destruct o; [by apply (Hf a)|done]. Qed.
Lemma preserves_modify (I : W → Prop) f : (∀ w, I w → I (f w)) → preserves I (modify f).
Proof. intros H w Hw. by apply H. Qed.
Lemma preserves_bind {A B} I (m : M W A) (f : A → M W B) :
  preserves I m → (∀ a, preserves I (f a)) → preserves I (m ≫= f).
Proof.
  intros Hm Hf w Hw. apply wlp_bind. specialize (Hm w Hw). unfold wlp in *.
  destruct (m w) as [[a w1]| | |]; [|done..]. by apply Hf.
Qed.
End Monad.
#[global] Instance: Params (@wlp) 2 := {}.

Create HintDb pres discriminated.
#[export] Hint Constants Opaque : pres.
#[export] Hint Resolve preserves_ret preserves_gets preserves_ub preserves_abort
  preserves_out_of_fuel preserves_assert preserves_of_option : pres.

(** [pres_step] walks through monadic code in a [preserves] goal: binds,
    conditionals and matches; what is left is one goal per primitive that the
    hint database does not know. *)
Ltac pres_step :=
  match goal with
  | |- preserves _ (mbind _ (of_option _)) => apply preserves_bind_option; intros ? ?
  | |- preserves _ (mbind _ _) => apply preserves_bind; [|intros ?]
  | |- preserves _ (match ?x with _ => _ end) => destruct x eqn:?
  | |- preserves _ (let _ := _ in _) => cbv zeta
  | |- preserves _ _ => solve [eauto with pres nocore]
  end.
Ltac pres := repeat pres_step.

(** [mstep H] runs the first call of a bind, whose outcome is [H]; [mstep] alone
    runs one that computes. *)
Tactic Notation "mstep" uconstr(H) :=
  etransitivity; [refine (bind_ok _ _ _ _ _ H)|cbv beta].
Tactic Notation "mstep" := mstep eq_refl.

(** [minv H] decomposes a successful run of a bind. *)
Ltac minv H :=
  match type of H with
  | mbind _ _ _ = Ok _ =>
      let a := fresh "a" in let w := fresh "w" in let E := fresh "E" in
      apply bind_inv in H as (a & w & E & H)
  end.

(** ** Generic facts *)

Lemma wrap_range w z : 0 <= w → in_range w (wrap w z).
Proof. intros. unfold in_range, wrap. apply Z.mod_pos_bound. lia. Qed.
Lemma wrap_small w z : in_range w z → wrap w z = z.
Proof. apply Z.mod_small. Qed.
Lemma wrap_wrap w z : wrap w (wrap w z) = wrap w z.
Proof. apply Zmod_mod. Qed.
Lemma wrap_land w z : 0 <= w → wrap w z = Z.land z (Z.ones w).
Proof. intros. unfold wrap. by rewrite Z.land_ones. Qed.
Lemma wrap_testbit w z i : 0 <= w → 0 <= i →
  Z.testbit (wrap w z) i = (i <? w) && Z.testbit z i.
Proof.
  intros. unfold wrap. destruct (Z.ltb_spec i w).
  - by rewrite Z.mod_pow2_bits_low by lia.
  - by rewrite Z.mod_pow2_bits_high by lia.
Qed.
Lemma in_range_testbit w z i : in_range w z → 0 <= w → w <= i → Z.testbit z i = false.
Proof.
  intros Hz Hw Hi. rewrite <-(wrap_small w z Hz), wrap_testbit by lia.
  by destruct (Z.ltb_spec i w); [lia|].
Qed.


(** A value is in range exactly when it has no bit at or above the width. *)
Lemma bits_in_range w z : 0 <= w →
  (∀ i, w <= i → Z.testbit z i = false) → in_range w z.
Proof.
  intros Hw Hb. replace z with (wrap w z); [by apply wrap_range|].
  apply Z.bits_inj'. intros i Hi. rewrite wrap_testbit by done.
  destruct (Z.ltb_spec i w); [done|]. by rewrite Hb.
Qed.
Lemma lor_range w a b : 0 <= w → in_range w a → in_range w b → in_range w (Z.lor a b).
Proof.
  intros Hw Ha Hb. apply bits_in_range; [done|]. intros i Hi.
  by rewrite Z.lor_spec, !(in_range_testbit w).
Qed.
Lemma land_range w a b : 0 <= w → in_range w a → in_range w (Z.land a b).
Proof.
  intros Hw Ha. apply bits_in_range; [done|]. intros i Hi.
  by rewrite Z.land_spec, (in_range_testbit w).
Qed.
Lemma ldiff_range w a b : 0 <= w → in_range w a → in_range w (Z.ldiff a b).
Proof.
  intros Hw Ha. apply bits_in_range; [done|]. intros i Hi.
  by rewrite Z.ldiff_spec, (in_range_testbit w).
Qed.
Lemma shiftr_range w x n : 0 < n < w → in_range w x → in_range w (Z.shiftr x n).
Proof.
  intros Hn Hx. apply bits_in_range; [lia|]. intros i Hi.
  rewrite Z.shiftr_spec by lia. apply (in_range_testbit w); [done|lia..].
Qed.

Create HintDb arith_c discriminated.
#[export] Hint Resolve wrap_range lor_range land_range ldiff_range shiftr_range : arith_c.

Lemma flag_testbit v n : 0 <= n → flag v (2 ^ n) = Z.testbit v n.
Proof.
  intros Hn. unfold flag.
  assert (Z.land v (2 ^ n) = if Z.testbit v n then 2 ^ n else 0) as ->.
  { apply Z.bits_inj'. intros i Hi. rewrite Z.land_spec, Z.pow2_bits_eqb by done.
    destruct (Z.eqb_spec n i) as [->|Hne].
    - destruct (Z.testbit v i) eqn:E; [by rewrite Z.pow2_bits_true|by rewrite Z.bits_0].
    - rewrite andb_false_r. destruct (Z.testbit v n); [|by rewrite Z.bits_0].
      by rewrite Z.pow2_bits_false. }
  destruct (Z.testbit v n); [|done].
  assert (0 < 2 ^ n) by lia. by destruct (Z.eqb_spec (2 ^ n) 0); [lia|].
Qed.
