(* ===== verification/CString.v ===== *)
(** * C strings

    Character buffers and the functions of [<string.h>] that the mount code uses on
    them.  A buffer is the list of its characters; a pointer into it is an index.  A
    string starts at a pointer and ends before the first NUL; a scan that reaches
    the end of the buffer without finding one is undefined. *)

From Stdlib Require Export Ascii.
From S2P Require Import Prelude.

Definition nul : ascii := zero.
Definition chars (s : string) : list ascii := String.list_ascii_of_string s.
Definition of_chars (l : list ascii) : string := String.string_of_list_ascii l.
(** The buffer of a string: its characters and the NUL. *)
Definition buffer (s : string) : list ascii := chars s ++ [nul].

(** The characters before the first one that stops the scan. *)
Fixpoint scan (stop : ascii → bool) (l : list ascii) : option nat :=
  match l with
  | [] => None
  | c :: l => if stop c then Some 0%nat else S <$> scan stop l
  end.
Definition is_char (c x : ascii) : bool := bool_decide (x = c).

Section CString.
Context {W : Type}.

Definition char_at (b : list ascii) (p : nat) : M W ascii := of_option (b !! p).
Definition strlen_at (b : list ascii) (p : nat) : M W nat :=
  of_option (scan (is_char nul) (drop p b)).
(** The characters of the string at [p]. *)
Definition str_at (b : list ascii) (p : nat) : M W (list ascii) :=
  n ← strlen_at b p; mret (take n (drop p b)).
Definition strchr (b : list ascii) (p : nat) (c : ascii) : M W (option nat) :=
  i ← of_option (scan (λ x, is_char c x || is_char nul x) (drop p b));
  x ← char_at b (p + i);
  mret (if is_char c x then Some (p + i)%nat else None).
(** The string that [strndup(b + p, n)] copies. *)
Definition strndup_at (b : list ascii) (p n : nat) : M W (list ascii) :=
  let l := take n (drop p b) in
  match scan (is_char nul) l with
  | Some k => mret (take k l)
  | None => if (n <=? length l)%nat then mret l else ub
  end.
(** [b[p] = c] *)
Definition store (b : list ascii) (p : nat) (c : ascii) : M W (list ascii) :=
  if (p <? length b)%nat then mret (<[p := c]> b) else ub.
End CString.

(** ** Decimal numbers *)

Definition code (c : ascii) : Z := Z.of_N (N_of_ascii c).
Definition chr (z : Z) : ascii := ascii_of_N (Z.to_N z).
Definition isdigit (c : ascii) : bool := (48 <=? code c) && (code c <=? 57).
Definition digits (l : list ascii) : list ascii :=
  match scan (λ c, negb (isdigit c)) l with Some n => take n l | None => l end.
Definition dec_step (v : Z) (c : ascii) : Z := 10 * v + (code c - 48).
Definition dec_value (l : list ascii) : Z := fold_left dec_step l 0.
(** [atoi] of a string that starts with a digit: [strtol] stops at [LONG_MAX]. *)
Definition atoi (l : list ascii) : Z := sint 32 (Z.min (dec_value (digits l)) (2 ^ 63 - 1)).

(** [%d] of [printf] for an [int]. *)
Fixpoint print_go (fuel : nat) (n : Z) (acc : list ascii) : list ascii :=
  let acc := chr (48 + n mod 10) :: acc in
  match fuel with
  | O => acc
  | S fuel => if n <? 10 then acc else print_go fuel (n / 10) acc
  end.
Definition print_int (n : Z) : list ascii :=
  if n <? 0 then "-"%char :: print_go 10 (- n) [] else print_go 10 n [].

(** A string contains no NUL. *)
Definition no_nul (l : list ascii) : Prop := nul ∉ l.

(** ** Lemmas *)

Lemma scan_app stop l c r : Forall (λ x, stop x = false) l → stop c = true →
  scan stop (l ++ c :: r) = Some (length l).
Proof.
  induction 1 as [|x l Hx _ IH]; cbn; intros Hc; [by rewrite Hc|].
  by rewrite Hx, IH.
Qed.
Lemma scan_Some stop l n : scan stop l = Some n →
  ∃ c r, l = take n l ++ c :: r ∧ Forall (λ x, stop x = false) (take n l) ∧ stop c = true ∧
    (n < length l)%nat.
Proof.
  revert n. induction l as [|x l IH]; intros n; cbn; [done|].
  destruct (stop x) eqn:Hx.
  - intros [= <-]. exists x, l. cbn. split_and!; [done|constructor|done|lia].
  - destruct (scan stop l) as [m|] eqn:Hs; [|done]. intros [= <-].
    destruct (IH m eq_refl) as (c & r & Hl & Hf & Hc & Hlen). exists c, r. cbn.
    split_and!; [by rewrite <-Hl|by constructor|done|lia].
Qed.
Lemma scan_None stop l : scan stop l = None → Forall (λ x, stop x = false) l.
Proof.
  induction l as [|x l IH]; cbn; [constructor|].
  destruct (stop x) eqn:Hx; [done|]. destruct (scan stop l); [done|].
  intros _. constructor; auto.
Qed.

Lemma is_char_false c x : is_char c x = false ↔ x ≠ c.
Proof. unfold is_char. by rewrite bool_decide_eq_false. Qed.
Lemma is_char_true c x : is_char c x = true ↔ x = c.
Proof. unfold is_char. by rewrite bool_decide_eq_true. Qed.
Lemma is_char_refl c : is_char c c = true.
Proof. by apply is_char_true. Qed.
Lemma Forall_not_char c l : c ∉ l → Forall (λ x, is_char c x = false) l.
Proof.
  intros Hc. apply list.Forall_forall. intros x Hx. apply is_char_false. intros ->. contradiction.
Qed.

Lemma no_nul_app a b : no_nul (a ++ b) ↔ no_nul a ∧ no_nul b.
Proof. unfold no_nul. set_solver. Qed.
Lemma no_nul_cons c b : no_nul (c :: b) → no_nul b.
Proof. unfold no_nul. set_solver. Qed.

Section Runs.
Context {W : Type}.
Implicit Types w : W.

Lemma char_at_run b p c w : b !! p = Some c → char_at b p w = Ok (c, w).
Proof. intros Hc. unfold char_at. by rewrite Hc. Qed.

(** Before [p] anything, then the string [s] and its NUL. *)
Lemma strlen_run pre s r w : no_nul s →
  strlen_at (pre ++ s ++ nul :: r) (length pre) w = Ok (length s, w).
Proof.
  intros Hs. unfold strlen_at. rewrite drop_app_length, scan_app; [done| |].
  - by apply Forall_not_char.
  - apply is_char_refl.
Qed.
Lemma str_at_run pre s r w : no_nul s →
  str_at (pre ++ s ++ nul :: r) (length pre) w = Ok (s, w).
Proof.
  intros Hs. unfold str_at. mstep (strlen_run pre s r w Hs).
  rewrite drop_app_length, take_app_length. done.
Qed.
Lemma strchr_found pre s c r w : c ≠ nul → c ∉ s → no_nul s →
  strchr (pre ++ s ++ c :: r) (length pre) c w = Ok (Some (length pre + length s)%nat, w).
Proof.
  intros Hc Hs Hn. unfold strchr.
  rewrite drop_app_length, scan_app.
  - mstep. unfold char_at.
    assert ((pre ++ s ++ c :: r) !! (length pre + length s)%nat = Some c) as ->.
    { rewrite lookup_app_r by lia. rewrite lookup_app_r by lia.
      by replace (length pre + length s - length pre - length s)%nat with 0%nat by lia. }
    mstep. by rewrite is_char_refl.
  - apply list.Forall_forall. intros x Hx. apply orb_false_iff.
    split; apply is_char_false; intros ->; contradiction.
  - by rewrite is_char_refl.
Qed.
Lemma strchr_missing pre s c r w : c ≠ nul → c ∉ s → no_nul s →
  strchr (pre ++ s ++ nul :: r) (length pre) c w = Ok (None, w).
Proof.
  intros Hc Hs Hn. unfold strchr.
  rewrite drop_app_length, scan_app.
  - mstep. unfold char_at.
    assert ((pre ++ s ++ nul :: r) !! (length pre + length s)%nat = Some nul) as ->.
    { rewrite lookup_app_r by lia. rewrite lookup_app_r by lia.
      by replace (length pre + length s - length pre - length s)%nat with 0%nat by lia. }
    mstep. assert (is_char c nul = false) as -> by (by apply is_char_false). done.
  - apply list.Forall_forall. intros x Hx. apply orb_false_iff.
    split; apply is_char_false; intros ->; contradiction.
  - rewrite is_char_refl. apply orb_true_r.
Qed.
Lemma strndup_run pre s r n w : no_nul s → n = length s →
  strndup_at (pre ++ s ++ r) (length pre) n w = Ok (s, w).
Proof.
  intros Hs ->. unfold strndup_at. rewrite drop_app_length, take_app_length.
  destruct (scan (is_char nul) s) as [k|] eqn:Hk.
  - apply scan_Some in Hk as (c & r' & Hl & _ & ->%is_char_true & _).
    exfalso. apply Hs. rewrite Hl. set_solver.
  - by rewrite Nat.leb_refl.
Qed.
Lemma store_run pre x r c w :
  store (pre ++ x :: r) (length pre) c w = Ok (pre ++ c :: r, w).
Proof.
  unfold store. rewrite length_app. cbn [length].
  destruct (Nat.ltb_spec (length pre) (length pre + S (length r))); [|lia].
  unfold mret, M_ret. do 2 f_equal.
  rewrite insert_app_r_alt by lia. by rewrite Nat.sub_diag.
Qed.
End Runs.

Lemma of_chars_chars s : of_chars (chars s) = s.
Proof. apply String.string_of_list_ascii_of_string. Qed.
Lemma chars_of_chars l : chars (of_chars l) = l.
Proof. apply String.list_ascii_of_string_of_list_ascii. Qed.
Lemma chars_app a b : chars (a ++ b)%string = chars a ++ chars b.
Proof. induction a as [|c a IH]; [done|]. change (c :: chars (a ++ b)%string = c :: chars a ++ chars b). by rewrite IH. Qed.

Lemma code_chr z : 0 <= z < 256 → code (chr z) = z.
Proof. intros Hz. unfold code, chr. rewrite N_ascii_embedding by lia. lia. Qed.
Lemma isdigit_chr k : 0 <= k < 10 → isdigit (chr (48 + k)) = true.
Proof.
  intros Hk. unfold isdigit. rewrite code_chr by lia.
  apply andb_true_iff. rewrite !Z.leb_le. lia.
Qed.
Lemma print_go_value fuel : ∀ n acc, 0 <= n < 10 ^ Z.of_nat (S fuel) →
  fold_left dec_step (print_go fuel n acc) 0 = fold_left dec_step acc n.
Proof.
  induction fuel as [|fuel IH]; intros n acc Hn; cbn [print_go].
  - rewrite Z.mod_small by lia. cbn [fold_left]. f_equal. unfold dec_step.
    rewrite code_chr by lia. lia.
  - pose proof (Z.mod_pos_bound n 10 ltac:(lia)). pose proof (Z.div_mod n 10 ltac:(lia)).
    destruct (Z.ltb_spec n 10).
    + rewrite Z.mod_small by lia. cbn [fold_left]. f_equal. unfold dec_step.
      rewrite code_chr by lia. lia.
    + rewrite IH.
      * cbn [fold_left]. f_equal. unfold dec_step. rewrite code_chr by lia. lia.
      * rewrite Nat2Z.inj_succ, Z.pow_succ_r in Hn by lia.
        split; [apply Z.div_pos; lia|apply Z.div_lt_upper_bound; lia].
Qed.
Lemma print_go_digits fuel : ∀ n acc, Forall (λ c, isdigit c = true) acc →
  Forall (λ c, isdigit c = true) (print_go fuel n acc).
Proof.
  assert (∀ n, isdigit (chr (48 + n mod 10)) = true) as Hd.
  { intros n. apply isdigit_chr. apply Z.mod_pos_bound. lia. }
  induction fuel as [|fuel IH]; intros n acc Hacc; cbn [print_go]; [by constructor|].
  destruct (n <? 10); [by constructor|]. apply IH. by constructor.
Qed.
Lemma print_go_length fuel : ∀ j n acc, 0 <= n < 10 ^ Z.of_nat (S j) →
  (length (print_go fuel n acc) <= S j + length acc)%nat.
Proof.
  induction fuel as [|fuel IH]; intros j n acc Hn; cbn [print_go]; [cbn; lia|].
  destruct (Z.ltb_spec n 10); [cbn; lia|]. destruct j as [|j]; [cbn in Hn; lia|].
  rewrite Nat2Z.inj_succ, Z.pow_succ_r in Hn by lia.
  etransitivity; [apply (IH j)|cbn; lia].
  split; [apply Z.div_pos; lia|apply Z.div_lt_upper_bound; lia].
Qed.
Lemma print_go_cons fuel n acc : ∃ c l, print_go fuel n acc = c :: l.
Proof.
  revert n acc. induction fuel as [|fuel IH]; intros n acc; cbn [print_go]; [eauto|].
  destruct (n <? 10); eauto.
Qed.

(** A non-negative [int] is printed as digits, and [atoi] reads it back. *)
Lemma print_int_digits n : 0 <= n → Forall (λ c, isdigit c = true) (print_int n).
Proof.
  intros Hn. unfold print_int. destruct (Z.ltb_spec n 0); [lia|]. by apply print_go_digits.
Qed.
Lemma print_int_length n : 0 <= n < 2 ^ 31 → (length (print_int n) <= 10)%nat.
Proof.
  intros Hn. unfold print_int. destruct (Z.ltb_spec n 0); [lia|].
  etransitivity; [apply (print_go_length 10 9)|done]. cbn. lia.
Qed.
Lemma print_int_cons n : 0 <= n → ∃ c l, print_int n = c :: l ∧ isdigit c = true.
Proof.
  intros Hn. pose proof (print_int_digits n Hn) as Hd. unfold print_int in *.
  destruct (Z.ltb_spec n 0); [lia|].
  destruct (print_go_cons 10 n []) as (c & l & Hl). rewrite Hl in *. exists c, l.
  by apply Forall_inv in Hd.
Qed.
Lemma digits_app d r : Forall (λ c, isdigit c = true) d →
  match r with c :: _ => isdigit c = false | [] => True end → digits (d ++ r) = d.
Proof.
  intros Hd Hr. unfold digits. destruct r as [|c r].
  - rewrite app_nil_r. destruct (scan _ d) as [n|] eqn:Hs; [|done].
    apply scan_Some in Hs as (c & r & Hl & _ & Hc & _).
    rewrite Hl in Hd. apply Forall_app in Hd as [_ Hc'%Forall_inv].
    cbn in Hc'. by rewrite Hc' in Hc.
  - rewrite scan_app.
    + by rewrite take_app_length.
    + eapply Forall_impl; [|exact Hd]. by intros x ->.
    + by rewrite Hr.
Qed.
Lemma atoi_print n r : 0 <= n < 2 ^ 31 →
  match r with c :: _ => isdigit c = false | [] => True end → atoi (print_int n ++ r) = n.
Proof.
  intros Hn Hr. unfold atoi. rewrite digits_app by (auto using print_int_digits with lia).
  assert (dec_value (print_int n) = n) as ->.
  { unfold dec_value, print_int. destruct (Z.ltb_spec n 0); [lia|].
    rewrite print_go_value; [done|]. cbn. lia. }
  rewrite Z.min_l by lia. unfold sint, wrap. rewrite Z.mod_small by lia.
  by destruct (Z.ltb_spec n (2 ^ (32 - 1))); [|lia].
Qed.

(** A character splits a string at its first occurrence. *)
Lemma split_first c (l : list ascii) : c ∈ l → ∃ a b, l = a ++ c :: b ∧ c ∉ a.
Proof.
  induction l as [|x l IH]; [by intros ?%elem_of_nil|].
  destruct (decide (x = c)) as [->|Hx].
  - intros _. exists [], l. split; [done|]. by intros ?%elem_of_nil.
  - intros [->|Hl]%elem_of_cons; [done|]. destruct (IH Hl) as (a & b & -> & Ha).
    exists (x :: a), b. split; [done|]. by intros [->|?]%elem_of_cons.
Qed.
