(* ===== verification/Log.v ===== *)
(** * Logging

    [lib/hsfs_log.c]: where a message goes (standard error, syslog or the handler the
    caller installed) and with which priority.  A message is the text its format and
    arguments make; a handler is known by its address. *)

From S2P Require Import Prelude CString.

(** [enum hsfs_log_level] *)
Definition hsfs_LOG_EMERG : Z := 0.
Definition hsfs_LOG_ALERT : Z := 1.
Definition hsfs_LOG_CRIT : Z := 2.
Definition hsfs_LOG_ERR : Z := 3.
Definition hsfs_LOG_WARNING : Z := 4.
Definition hsfs_LOG_NOTICE : Z := 5.
Definition hsfs_LOG_INFO : Z := 6.
Definition hsfs_LOG_DEBUG : Z := 7.

(** [<syslog.h>] of glibc *)
Definition LOG_EMERG : Z := 0.
Definition LOG_ALERT : Z := 1.
Definition LOG_CRIT : Z := 2.
Definition LOG_ERR : Z := 3.
Definition LOG_WARNING : Z := 4.
Definition LOG_NOTICE : Z := 5.
Definition LOG_INFO : Z := 6.
Definition LOG_DEBUG : Z := 7.

Definition MAX_SYSLOG_LINE_LEN : Z := 512.

(** What leaves the process. *)
Inductive log_out :=
| To_stderr (text : list ascii)
| To_syslog (priority : Z) (text : list ascii)
| To_handler (func level : Z) (text : list ascii)
| Openlog (ident : list ascii) (option facility : Z)
| Closelog.

(** The static variables, and the output so far, the last first.  [log_func] is 0
    while it is [default_log_func]. *)
Record logst := { to_syslog : bool; log_func : Z; log_outs : list log_out }.
Definition log_init : logst := {| to_syslog := false; log_func := 0; log_outs := [] |}.

Definition emit (o : log_out) : M logst unit := modify (λ s, s <| log_outs ::= cons o |>).

(** The switch of [default_log_func]. *)
Definition sys_log_level (level : Z) : Z :=
  if level =? hsfs_LOG_DEBUG then LOG_DEBUG
  else if level =? hsfs_LOG_INFO then LOG_INFO
  else if level =? hsfs_LOG_NOTICE then LOG_NOTICE
  else if level =? hsfs_LOG_WARNING then LOG_WARNING
  else if level =? hsfs_LOG_ERR then LOG_ERR
  else if level =? hsfs_LOG_CRIT then LOG_CRIT
  else if level =? hsfs_LOG_ALERT then LOG_ALERT
  else if level =? hsfs_LOG_EMERG then LOG_EMERG
  else LOG_ERR.

(** [vsnprintf] into a buffer of [MAX_SYSLOG_LINE_LEN] bytes keeps one for the NUL. *)
Definition default_log_func (level : Z) (text : list ascii) : M logst unit :=
  s ← gets id;
  if to_syslog s
  then emit (To_syslog (sys_log_level level) (take (Z.to_nat (MAX_SYSLOG_LINE_LEN - 1)) text))
  else emit (To_stderr text).

Definition hsfs_set_log_func (func : Z) : M logst unit := modify (λ s, s <| log_func := func |>).
Definition hsfs_log (level : Z) (text : list ascii) : M logst unit :=
  s ← gets id;
  if log_func s =? 0 then default_log_func level text else emit (To_handler (log_func s) level text).
Definition hsfs_log_enable_syslog (ident : list ascii) (option facility : Z) : M logst unit :=
  modify (λ s, s <| to_syslog := true |>);; emit (Openlog ident option facility).
Definition hsfs_log_close_syslog : M logst unit := emit Closelog.

(** ** Sequences of calls *)

Inductive log_call :=
| C_log (level : Z) (text : list ascii)
| C_set (func : Z)
| C_enable (ident : list ascii) (option facility : Z)
| C_close.
Definition do_call (c : log_call) : M logst unit :=
  match c with
  | C_log level text => hsfs_log level text
  | C_set func => hsfs_set_log_func func
  | C_enable ident option facility => hsfs_log_enable_syslog ident option facility
  | C_close => hsfs_log_close_syslog
  end.
Fixpoint do_calls (cs : list log_call) : M logst unit :=
  match cs with [] => mret tt | c :: cs => do_call c;; do_calls cs end.

(** The handler installed last, 0 for none or a NULL; whether syslog was ever enabled. *)
Definition last_handler (cs : list log_call) : Z :=
  fold_left (λ h c, match c with C_set func => func | _ => h end) cs 0.
Definition syslog_enabled (cs : list log_call) : bool :=
  existsb (λ c, match c with C_enable _ _ _ => true | _ => false end) cs.

(** Where a message goes in a state. *)
Lemma hsfs_log_run level text s : hsfs_log level text s =
  emit (if negb (log_func s =? 0) then To_handler (log_func s) level text
        else if to_syslog s then To_syslog (sys_log_level level) (take 511 text) else To_stderr text) s.
Proof.
  unfold hsfs_log, default_log_func. mstep. unfold id. destruct (log_func s =? 0); [|done].
  mstep. unfold id. by destruct (to_syslog s).
Qed.

Lemma do_calls_state cs : ∀ s, ∃ outs,
  do_calls cs s = Ok (tt, {| to_syslog := to_syslog s || syslog_enabled cs;
    log_func := fold_left (λ h c, match c with C_set func => func | _ => h end) cs (log_func s);
    log_outs := outs ++ log_outs s |}).
Proof.
  induction cs as [|c cs IH]; intros s.
  - exists []. cbn. rewrite orb_false_r. by destruct s.
  - assert (∃ o s1, do_call c s = Ok (tt, s1) ∧
      s1 = {| to_syslog := to_syslog s || match c with C_enable _ _ _ => true | _ => false end;
              log_func := match c with C_set func => func | _ => log_func s end;
              log_outs := o ++ log_outs s |}) as (o & s1 & Hrun & Hs1).
    { destruct s as [b h outs], c as [level text|func|ident opt fac|]; cbn.
      - rewrite orb_false_r, hsfs_log_run. eexists [_], _; split; reflexivity.
      - rewrite orb_false_r. eexists [], _; split; reflexivity.
      - rewrite orb_true_r. eexists [_], _; split; reflexivity.
      - rewrite orb_false_r. eexists [_], _; split; reflexivity. }
    destruct (IH s1) as (outs & Hcs). exists (outs ++ o). cbn [do_calls]. mstep Hrun.
    rewrite Hcs, Hs1. cbn. by rewrite orb_assoc, app_assoc.
Qed.

(** The levels are those of syslog; any other number is logged as an error. *)
Lemma sys_log_level_id level : sys_log_level level = if (0 <=? level) && (level <=? 7) then level else LOG_ERR.
Proof.
  unfold sys_log_level, hsfs_LOG_DEBUG, hsfs_LOG_INFO, hsfs_LOG_NOTICE, hsfs_LOG_WARNING, hsfs_LOG_ERR,
    hsfs_LOG_CRIT, hsfs_LOG_ALERT, hsfs_LOG_EMERG.
  repeat match goal with |- context [level =? ?k] => destruct (Z.eqb_spec level k) as [->|]; [done|] end.
  destruct (Z.leb_spec 0 level), (Z.leb_spec level 7); cbn; (done || lia).
Qed.

(** Where a message goes, after any calls: to the handler installed last; without one,
    to syslog once it was enabled, with its own level as the priority and cut at 511
    characters; before that to standard error.  Closing syslog changes nothing. *)
Theorem message_is_routed cs level text :
  ∃ s outs, do_calls (cs ++ [C_log level text]) log_init = Ok (tt, s) ∧ log_outs s =
    (if negb (last_handler cs =? 0) then To_handler (last_handler cs) level text
     else if syslog_enabled cs
     then To_syslog (if (0 <=? level) && (level <=? 7) then level else LOG_ERR) (take 511 text)
     else To_stderr text) :: outs.
Proof.
  assert (∀ c s, do_calls (cs ++ [c]) s = (do_calls cs;; do_call c) s) as Happ.
  { intros c. induction cs as [|c0 cs0 IH]; intros s; cbn [app do_calls].
    - unfold mbind, M_bind. cbn. destruct (do_call c s) as [[[] ?]| | |]; done.
    - unfold mbind, M_bind in *. destruct (do_call c0 s) as [[[] s1]| | |]; [|done..]. by rewrite IH. }
  destruct (do_calls_state cs log_init) as (outs & Hcs). cbn [to_syslog log_func log_outs log_init] in Hcs.
  rewrite orb_false_l, app_nil_r in Hcs. fold (last_handler cs) in Hcs.
  rewrite <-(sys_log_level_id level). rewrite Happ. unfold mbind, M_bind. rewrite Hcs.
  cbn [do_call]. rewrite hsfs_log_run. cbn [log_func to_syslog]. eexists _, _. split; reflexivity.
Qed.
