(* ===== verification/Xcommon.v ===== *)
(** * Strings on the heap

    The string functions of [fuse/xcommon.c] on a memory of character buffers: they
    measure their arguments, allocate, copy and (some of them) free.  A pointer is the
    address of a buffer, NULL is 0; a copy that does not fit its buffer and a [free]
    of anything but an allocated buffer are undefined.  [die] ends the process. *)

From S2P Require Import Prelude CString.

(** The buffers from [malloc], and those of the literals. *)
Record smem := { s_heap : gmap Z (list ascii); s_static : gmap Z (list ascii) }.

(** The C library: [malloc] given the addresses in use, what a new buffer holds, and
    [realpath]; the address of the literal "". *)
Class StrEnv := {
  str_malloc : Z → gset Z → option Z;
  str_junk : Z → list ascii;
  str_realpath : list ascii → option (list ascii);
  str_empty : Z;
}.
Class StrEnvOk (E : StrEnv) : Prop := {
  str_malloc_fresh : ∀ size used a, str_malloc size used = Some a → a ∉ used ∧ a ≠ 0;
  str_junk_size : ∀ size, length (str_junk size) = Z.to_nat size;
  str_empty_address : str_empty ≠ 0;
}.

Section Xcommon.
Context {E : StrEnv}.

(** ** Buffers *)

Definition load_buf (p : Z) : M smem (list ascii) :=
  m ← gets id; of_option ((s_heap m ∪ s_static m) !! p).
(** Only allocated buffers are written to. *)
Definition own_buf (p : Z) : M smem (list ascii) := m ← gets id; of_option (s_heap m !! p).
Definition store_buf (p : Z) (b : list ascii) : M smem unit := modify (λ m, m <| s_heap ::= <[p := b]> |>).
Definition in_use (m : smem) : gset Z := dom (s_heap m) ∪ dom (s_static m).

Definition string_at (p : Z) : M smem (list ascii) := b ← load_buf p; str_at b 0.
Definition strlen_p (p : Z) : M smem Z := s ← string_at p; mret (Z.of_nat (length s)).
(** [strcpy], [strcat] and [strncpy] *)
Definition put_at (p : Z) (off : nat) (l : list ascii) : M smem unit :=
  b ← own_buf p;
  if (off + length l <=? length b)%nat then store_buf p (take off b ++ l ++ drop (off + length l) b) else ub.
Definition strcpy (dst src : Z) : M smem unit := s ← string_at src; put_at dst 0 (s ++ [nul]).
Definition strcat (dst src : Z) : M smem unit :=
  d ← string_at dst; s ← string_at src; put_at dst (length d) (s ++ [nul]).
Definition strncpy (dst src n : Z) : M smem unit :=
  b ← load_buf src; s ← strndup_at b 0 (Z.to_nat n);
  put_at dst 0 (s ++ replicate (Z.to_nat n - length s) nul).
Definition free_buf (p : Z) : M smem unit :=
  if p =? 0 then mret tt else _ ← own_buf p; modify (λ m, m <| s_heap ::= delete p |>).

(** ** The functions *)

Definition malloc_chars (size : Z) : M smem Z :=
  m ← gets id;
  match str_malloc size (in_use m) with
  | None => mret 0
  | Some a => store_buf a (str_junk size);; mret a
  end.
Definition die_if_null (t : Z) : M smem unit := if t =? 0 then abort else mret tt.
Definition xmalloc_chars (size : Z) : M smem Z :=
  if size =? 0 then mret 0 else t ← malloc_chars size; die_if_null t;; mret t.
Definition xstrdup_p (s : Z) : M smem Z :=
  if s =? 0 then mret 0 else
  l ← string_at s;
  t ← malloc_chars (Z.of_nat (length l) + 1); die_if_null t;;
  put_at t 0 (l ++ [nul]);; mret t.
(** [n] is an [int]: [n + 1] may overflow, and a negative size is a huge one. *)
Definition xstrndup (s n : Z) : M smem Z :=
  if s =? 0 then abort else
  if n =? 2 ^ 31 - 1 then ub else
  t ← xmalloc_chars (wrap 64 (n + 1));
  strncpy t s (wrap 64 n);;
  (if n <? 0 then ub else put_at t (Z.to_nat n) [nul]);;
  mret t.

Definition or_empty (s : Z) : Z := if s =? 0 then str_empty else s.
Definition xstrconcat2 (s t : Z) : M smem Z :=
  let s := or_empty s in let t := or_empty t in
  ls ← strlen_p s; lt ← strlen_p t;
  res ← xmalloc_chars (ls + lt + 1);
  strcpy res s;; strcat res t;; mret res.
Definition xstrconcat3 (s t u : Z) : M smem Z :=
  let s := or_empty s in let t := or_empty t in let u := or_empty u in
  ls ← strlen_p s; lt ← strlen_p t; lu ← strlen_p u;
  res ← xmalloc_chars (ls + lt + lu + 1);
  strcpy res s;; strcat res t;; strcat res u;; free_buf s;; mret res.
Definition xstrconcat4 (s t u v : Z) : M smem Z :=
  let s := or_empty s in let t := or_empty t in let u := or_empty u in let v := or_empty v in
  ls ← strlen_p s; lt ← strlen_p t; lu ← strlen_p u; lv ← strlen_p v;
  res ← xmalloc_chars (ls + lt + lu + lv + 1);
  strcpy res s;; strcat res t;; strcat res u;; strcat res v;; free_buf s;; mret res.

(** The result of [realpath] is copied from a buffer of its own. *)
Definition canonicalize (path : Z) : M smem Z :=
  if path =? 0 then mret 0 else
  s ← string_at path;
  if bool_decide (s ∈ [chars "none"; chars "proc"; chars "devpts"]) then xstrdup_p path else
  match str_realpath s with
  | Some canonical =>
      t ← malloc_chars (Z.of_nat (length canonical) + 1); die_if_null t;;
      put_at t 0 (canonical ++ [nul]);; mret t
  | None => xstrdup_p path
  end.

(** ** Strings in memory *)

Definition is_str (m : smem) (p : Z) (s : list ascii) : Prop :=
  no_nul s ∧ ∃ r, (s_heap m ∪ s_static m) !! p = Some (s ++ nul :: r).
(** An argument: a string, or NULL for the empty one. *)
Definition is_arg (m : smem) (p : Z) (s : list ascii) : Prop := p = 0 ∧ s = [] ∨ p ≠ 0 ∧ is_str m p s.
Record smem_ok (m : smem) : Prop := {
  sm_null : 0 ∉ in_use m;
  sm_disjoint : s_heap m ##ₘ s_static m;
  sm_empty : s_static m !! str_empty = Some [nul];
}.

Lemma string_at_run m p s : is_str m p s → string_at p m = Ok (s, m).
Proof.
  intros [Hs [r Hp]]. unfold string_at, load_buf, mbind, M_bind, gets, id. rewrite Hp.
  exact (str_at_run [] s r m Hs).
Qed.
Lemma strlen_p_run m p s : is_str m p s → strlen_p p m = Ok (Z.of_nat (length s), m).
Proof. intros H. unfold strlen_p. by mstep (string_at_run _ _ _ H). Qed.

Lemma is_str_own m a d r : s_heap m !! a = Some (d ++ nul :: r) → no_nul d → is_str m a d.
Proof. intros Ha Hd. split; [done|]. exists r. by apply lookup_union_Some_l. Qed.
(** Writing to another buffer does not change a string. *)
Lemma is_str_put m a b p s : p ≠ a → is_str m p s → is_str (m <| s_heap ::= <[a := b]> |>) p s.
Proof.
  intros Hne [Hs [r Hp]]. split; [done|]. exists r. cbn. rewrite <-insert_union_l.
  by rewrite lookup_insert_ne.
Qed.

Lemma put_at_run m a b off l : s_heap m !! a = Some b → (off + length l <= length b)%nat →
  put_at a off l m = Ok (tt, m <| s_heap ::= <[a := take off b ++ l ++ drop (off + length l) b]> |>).
Proof.
  intros Ha Hl. unfold put_at, own_buf, mbind, M_bind, gets, id. rewrite Ha.
  unfold of_option, mret, M_ret. by rewrite (proj2 (Nat.leb_le _ _) Hl).
Qed.
Lemma strcpy_run m a b p s : is_str m p s → s_heap m !! a = Some b → (length s < length b)%nat →
  strcpy a p m = Ok (tt, m <| s_heap ::= <[a := s ++ nul :: drop (S (length s)) b]> |>).
Proof.
  intros Hs Ha Hl. unfold strcpy. mstep (string_at_run _ _ _ Hs).
  rewrite (put_at_run _ _ _ _ _ Ha); rewrite length_app; cbn [length]; [|lia].
  by rewrite <-app_assoc, Nat.add_0_l, Nat.add_1_r.
Qed.
Lemma strcat_run m a d r p s : is_str m p s → s_heap m !! a = Some (d ++ nul :: r) → no_nul d →
  (length s <= length r)%nat →
  strcat a p m = Ok (tt, m <| s_heap ::= <[a := (d ++ s) ++ nul :: drop (length s) r]> |>).
Proof.
  intros Hs Ha Hd Hl. unfold strcat.
  mstep (string_at_run _ _ _ (is_str_own _ _ _ _ Ha Hd)). mstep (string_at_run _ _ _ Hs).
  rewrite (put_at_run _ _ _ _ _ Ha); rewrite !length_app; cbn [length]; [|lia].
  rewrite take_app_length, drop_app_ge by lia.
  replace (length d + (length s + 1) - length d)%nat with (S (length s)) by lia.
  cbn [drop]. by rewrite <-!app_assoc.
Qed.

(** The new buffer, or the end of the process. *)
Lemma xmalloc_run `{!StrEnvOk E} m size : 0 < size →
  xmalloc_chars size m =
    match str_malloc size (in_use m) with
    | None => Abort
    | Some a => Ok (a, m <| s_heap ::= <[a := str_junk size]> |>)
    end.
Proof.
  intros Hs. unfold xmalloc_chars, malloc_chars. rewrite (proj2 (Z.eqb_neq size 0)) by lia.
  unfold mbind, M_bind, gets, id, die_if_null. cbn.
  destruct (str_malloc size (in_use m)) as [a|] eqn:Ha; [|done].
  destruct (str_malloc_fresh _ _ _ Ha) as [_ Hz]. cbn. by rewrite (proj2 (Z.eqb_neq a 0)).
Qed.

(** The memory with the buffer that is being filled. *)
Definition with_buf (m : smem) (a : Z) (b : list ascii) : smem := m <| s_heap ::= <[a := b]> |>.
Lemma with_buf_put m a b b' : (with_buf m a b) <| s_heap ::= <[a := b']> |> = with_buf m a b'.
Proof. unfold with_buf. cbv [set]. cbn. by rewrite insert_insert_eq. Qed.

Lemma strcpy_buf m a b p s : is_str m p s → p ≠ a → (length s < length b)%nat →
  strcpy a p (with_buf m a b) = Ok (tt, with_buf m a (s ++ nul :: drop (S (length s)) b)).
Proof.
  intros Hs Hne Hl. rewrite (strcpy_run _ a b p s); [|by apply is_str_put|apply lookup_insert_eq|done].
  by rewrite with_buf_put.
Qed.
Lemma strcat_buf m a d r p s : is_str m p s → p ≠ a → no_nul d → (length s <= length r)%nat →
  strcat a p (with_buf m a (d ++ nul :: r)) = Ok (tt, with_buf m a ((d ++ s) ++ nul :: drop (length s) r)).
Proof.
  intros Hs Hne Hd Hl. rewrite (strcat_run _ a d r p s); [|by apply is_str_put|apply lookup_insert_eq|done..].
  by rewrite with_buf_put.
Qed.
Lemma free_buf_run m a b p : p ≠ 0 → p ≠ a →
  free_buf p (with_buf m a b) =
    if bool_decide (p ∈ dom (s_heap m))
    then Ok (tt, m <| s_heap := delete p (<[a := b]> (s_heap m)) |>) else UB.
Proof.
  intros Hp Hne. unfold free_buf, own_buf, mbind, M_bind, gets, id. rewrite (proj2 (Z.eqb_neq p 0)) by done.
  cbn. rewrite lookup_insert_ne by done. case_bool_decide as Hd.
  - apply elem_of_dom in Hd as [x ->]. cbn. by destruct m.
  - apply not_elem_of_dom in Hd as ->. done.
Qed.

Lemma or_empty_arg `{!StrEnvOk E} m p s : smem_ok m → is_arg m p s → is_str m (or_empty p) s ∧ or_empty p ≠ 0.
Proof.
  intros [Hz Hd He] [[-> ->]|[Hp Hs]]; unfold or_empty.
  - cbn. split; [|apply str_empty_address]. split; [by intros ?%elem_of_nil|].
    exists []. apply lookup_union_Some_r; done.
  - by rewrite (proj2 (Z.eqb_neq p 0)).
Qed.
Lemma is_str_used m p s : is_str m p s → p ∈ in_use m.
Proof. intros [_ [r Hr]]. unfold in_use. rewrite <-dom_union. by eapply elem_of_dom_2. Qed.

(** What a function that makes [l] returns: a new buffer that the string fills, with
    [after] applied to the memory, or the end of the process without memory. *)
Definition returns_copy (m : smem) (l : list ascii) (after : Z → res (Z * smem)) : res (Z * smem) :=
  match str_malloc (Z.of_nat (length l) + 1) (in_use m) with None => Abort | Some a => after a end.

Lemma xmalloc_then `{!StrEnvOk E} m l k after :
  (∀ a b, length b = S (length l) → (∀ p s, is_str m p s → p ≠ a) → k a (with_buf m a b) = after a) →
  (xmalloc_chars (Z.of_nat (length l) + 1) ≫= k) m = returns_copy m l after.
Proof.
  intros Hk. unfold mbind, M_bind. rewrite xmalloc_run by lia. unfold returns_copy.
  destruct (str_malloc _ (in_use m)) as [a|] eqn:Ha; [|done]. apply Hk.
  - rewrite str_junk_size. lia.
  - intros p s Hs ->. destruct (str_malloc_fresh _ _ _ Ha) as [Hf _]. by apply Hf, (is_str_used _ _ s).
Qed.

Lemma free_first `{!StrEnvOk E} m s ss a l : smem_ok m → is_arg m s ss → or_empty s ≠ a →
  (free_buf (or_empty s);; mret a) (with_buf m a (l ++ [nul])) =
    if bool_decide (s ∈ dom (s_heap m))
    then Ok (a, m <| s_heap := delete s (<[a := l ++ [nul]]> (s_heap m)) |>) else UB.
Proof.
  intros Hm Hs Ha. destruct (or_empty_arg m s ss Hm Hs) as [_ Hz]. unfold mbind, M_bind.
  rewrite free_buf_run by done. unfold or_empty in *. destruct (Z.eqb_spec s 0) as [->|]; [|by case_bool_decide].
  destruct Hm as [Hnull Hd He]. rewrite !bool_decide_false; [done|unfold in_use in Hnull; set_solver|].
  intros [x Hx]%elem_of_dom. by eapply map_disjoint_spec.
Qed.

(** One [strcat] into the buffer. *)
Ltac appending Hp Hd Hfresh :=
  etransitivity;
  [eapply bind_ok, (strcat_buf _ _ _ _ _ _ Hp (Hfresh _ _ Hp) Hd); rewrite ?length_drop; lia|cbv beta].

(** [xstrconcat2], [3] and [4] return the concatenation in a buffer of exactly its size,
    and write nothing beyond it.  The last two free their first argument, which must
    therefore be allocated: with NULL they free the literal "". *)
Theorem concatenations `{!StrEnvOk E} m s t u v ss ts us vs :
  smem_ok m → is_arg m s ss → is_arg m t ts → is_arg m u us → is_arg m v vs →
  let freeing l a := if bool_decide (s ∈ dom (s_heap m))
    then Ok (a, m <| s_heap := delete s (<[a := l ++ [nul]]> (s_heap m)) |>) else UB in
  xstrconcat2 s t m = returns_copy m (ss ++ ts) (λ a, Ok (a, with_buf m a ((ss ++ ts) ++ [nul]))) ∧
  xstrconcat3 s t u m = returns_copy m (ss ++ ts ++ us) (freeing (ss ++ ts ++ us)) ∧
  xstrconcat4 s t u v m = returns_copy m (ss ++ ts ++ us ++ vs) (freeing (ss ++ ts ++ us ++ vs)).
Proof.
  intros Hm Hs Ht Hu Hv freeing.
  assert (∀ a l, or_empty s ≠ a → (free_buf (or_empty s);; mret a) (with_buf m a (l ++ [nul])) = freeing l a)
    as Hfree by (intros; by eapply free_first).
  destruct (or_empty_arg m s ss Hm Hs) as [Hs' _], (or_empty_arg m t ts Hm Ht) as [Ht' _],
    (or_empty_arg m u us Hm Hu) as [Hu' _], (or_empty_arg m v vs Hm Hv) as [Hv' _].
  pose proof (proj2 (no_nul_app _ _) (conj (proj1 Hs') (proj1 Ht'))) as Hst. pose proof (proj2 (no_nul_app _ _) (conj Hst (proj1 Hu'))) as Hstu.
  split_and!; [unfold xstrconcat2|unfold xstrconcat3|unfold xstrconcat4]; cbv zeta;
    mstep (strlen_p_run _ _ _ Hs'); mstep (strlen_p_run _ _ _ Ht').
  - replace (_ + _ + 1) with (Z.of_nat (length (ss ++ ts)) + 1) by (rewrite !length_app; lia).
    apply xmalloc_then. intros a b Hb Hfresh. rewrite !length_app in Hb.
    mstep (strcpy_buf m a b _ _ Hs' (Hfresh _ _ Hs') ltac:(lia)).
    appending Ht' (proj1 Hs') Hfresh. by rewrite drop_drop, drop_ge by lia.
  - mstep (strlen_p_run _ _ _ Hu').
    replace (_ + _ + 1) with (Z.of_nat (length (ss ++ ts ++ us)) + 1) by (rewrite !length_app; lia).
    apply xmalloc_then. intros a b Hb Hfresh. rewrite !length_app in Hb.
    mstep (strcpy_buf m a b _ _ Hs' (Hfresh _ _ Hs') ltac:(lia)).
    appending Ht' (proj1 Hs') Hfresh. appending Hu' Hst Hfresh.
    rewrite !drop_drop, drop_ge, (app_assoc ss) by lia. apply Hfree, (Hfresh _ _ Hs').
  - mstep (strlen_p_run _ _ _ Hu'). mstep (strlen_p_run _ _ _ Hv').
    replace (_ + _ + 1) with (Z.of_nat (length (ss ++ ts ++ us ++ vs)) + 1) by (rewrite !length_app; lia).
    apply xmalloc_then. intros a b Hb Hfresh. rewrite !length_app in Hb.
    mstep (strcpy_buf m a b _ _ Hs' (Hfresh _ _ Hs') ltac:(lia)).
    appending Ht' (proj1 Hs') Hfresh. appending Hu' Hst Hfresh. appending Hv' Hstu Hfresh.
    rewrite !drop_drop, drop_ge, (app_assoc ss), (app_assoc (ss ++ ts)) by lia. apply Hfree, (Hfresh _ _ Hs').
Qed.

Lemma strndup_take s r n (m : smem) : no_nul s → strndup_at (s ++ nul :: r) 0 n m = Ok (take n s, m).
Proof.
  intros Hs. unfold strndup_at. rewrite drop_0. destruct (Nat.le_gt_cases n (length s)) as [Hle|Hgt].
  - rewrite take_app_le by done. destruct (scan (is_char nul) (take n s)) as [k|] eqn:Hk.
    + apply scan_Some in Hk as (c & r' & Hl & _ & ->%is_char_true & _). destruct Hs.
      apply (subseteq_take n). rewrite Hl. set_solver.
    + by rewrite length_take, Nat.min_l, Nat.leb_refl by done.
  - rewrite take_app_ge, (take_ge s n) by lia. destruct (n - length s)%nat as [|k] eqn:Hk; [lia|]. cbn [take].
    rewrite scan_app by (apply Forall_not_char, Hs || apply is_char_refl). by rewrite take_app_length.
Qed.

(** [xstrndup] of a string, for a length that is not negative and below [INT_MAX]: the
    first [n] characters at most, padded with NULs to [n + 1]. *)
Theorem xstrndup_copies `{!StrEnvOk E} m p s n :
  smem_ok m → p ≠ 0 → is_str m p s → 0 <= n < 2 ^ 31 - 1 →
  xstrndup p n m =
    match str_malloc (n + 1) (in_use m) with
    | None => Abort
    | Some a => Ok (a, with_buf m a (take (Z.to_nat n) s ++ replicate (S (Z.to_nat n) - Nat.min (Z.to_nat n) (length s)) nul))
    end.
Proof.
  intros Hm Hp Hs Hn. unfold xstrndup. rewrite (proj2 (Z.eqb_neq p 0)), (proj2 (Z.eqb_neq n _)) by lia.
  rewrite !wrap_small by (unfold in_range; lia). unfold mbind at 1, M_bind at 1. rewrite xmalloc_run by lia.
  destruct (str_malloc _ (in_use m)) as [a|] eqn:Ha; [|done].
  destruct (str_malloc_fresh _ _ _ Ha) as [Hfresh _].
  assert (Hne : p ≠ a) by (intros ->; by apply Hfresh, (is_str_used _ _ s)).
  fold (with_buf m a (str_junk (n + 1))). set (b := str_junk (n + 1)).
  assert (Hb : length b = S (Z.to_nat n)) by (unfold b; rewrite str_junk_size; lia).
  set (l := take (Z.to_nat n) s ++ replicate (Z.to_nat n - length (take (Z.to_nat n) s)) nul).
  assert (Hl : length l = Z.to_nat n) by (unfold l; rewrite length_app, length_replicate, length_take; lia).
  assert (strncpy a p n (with_buf m a b) = Ok (tt, with_buf m a (l ++ drop (Z.to_nat n) b))) as Hcpy.
  { destruct (is_str_put m a b p s Hne Hs) as [Hnn [r Hr]]. fold (with_buf m a b) in Hr.
    unfold strncpy, load_buf, mbind, M_bind, gets, id. rewrite Hr. unfold of_option, mret, M_ret.
    rewrite strndup_take by done. fold l. rewrite (put_at_run _ _ b); [|apply lookup_insert_eq|lia].
    by rewrite with_buf_put, Hl, Nat.add_0_l. }
  mstep Hcpy. rewrite (proj2 (Z.ltb_ge n 0)) by lia. unfold mbind, M_bind.
  rewrite (put_at_run _ _ (l ++ drop (Z.to_nat n) b)) by
    (apply lookup_insert_eq || (rewrite length_app, length_drop; cbn; lia)).
  rewrite with_buf_put. cbn [length]. rewrite take_app_le, take_ge, drop_ge by (rewrite ?length_app, ?length_drop; lia).
  rewrite app_nil_r. unfold l. rewrite <-app_assoc, length_take. do 4 f_equal.
  replace (S (Z.to_nat n) - _)%nat with (Z.to_nat n - Nat.min (Z.to_nat n) (length s) + 1)%nat by lia.
  by rewrite replicate_add.
Qed.
End Xcommon.
