(* ===== verification/Bitops.v ===== *)
(** * Bit operations

    The bit helpers of [include/hsfs/compiler.h], [include/hsfs/bitops.h] and
    [include/hsfs/log2.h] on 32 and 64-bit words.  A result [None] is an
    operation C leaves undefined: [__builtin_clz(0)] or a shift by the width of
    its operand or more. *)

From S2P Require Import Prelude.

(** ** C shifts, with their undefined cases *)

(** Left and right shift of an unsigned [w]-bit operand. *)
Definition shl_u (w x n : Z) : option Z :=
  if (0 <=? n) && (n <? w) then Some (wrap w (x << n)) else None.
Definition shr_u (w x n : Z) : option Z :=
  if (0 <=? n) && (n <? w) then Some (x >> n) else None.

(** Shifts of a non-negative operand promoted to [int]: the left shift is
    undefined when the value leaves the positive range. *)
Definition shl_int (x n : Z) : option Z :=
  if (0 <=? n) && (n <? 32) && (x << n <? 2 ^ 31) then Some (x << n) else None.
Definition shr_int (x n : Z) : option Z :=
  if (0 <=? n) && (n <? 32) then Some (x >> n) else None.

(** ** compiler.h *)

(** [__builtin_clz] and [__builtin_clzll]: undefined at 0. *)
Definition clz (w x : Z) : option Z :=
  if wrap w x =? 0 then None else Some (w - 1 - Z.log2 (wrap w x)).

Definition fls (x : Z) : option Z := c ← clz 32 x; Some (32 - c).
Definition fls64 (x : Z) : option Z := c ← clz 64 x; Some (64 - c).

(** [__builtin_ffs] of the argument converted to [int]: one plus the index of
    the lowest set bit, 0 when there is none. *)
Definition __ffs (x : Z) : Z :=
  let v := wrap 32 x in if v =? 0 then 0 else 1 + Z.log2 (Z.land v (- v)).

(** ** bitops.h *)

Definition get_bitmask_order (count : Z) : option Z := fls count.

Definition get_count_order (count : Z) : option Z :=
  o ← fls count;
  let order := o - 1 in
  Some (if negb (count & wrap 32 (count - 1) =? 0) then order + 1 else order).

Definition rol64 (word shift : Z) : option Z :=
  l ← shl_u 64 word shift; r ← shr_u 64 word (wrap 32 (64 - shift)); Some (Z.lor l r).
Definition ror64 (word shift : Z) : option Z :=
  r ← shr_u 64 word shift; l ← shl_u 64 word (wrap 32 (64 - shift)); Some (Z.lor r l).
Definition rol32 (word shift : Z) : option Z :=
  l ← shl_u 32 word shift; r ← shr_u 32 word (wrap 32 (32 - shift)); Some (Z.lor l r).
Definition ror32 (word shift : Z) : option Z :=
  r ← shr_u 32 word shift; l ← shl_u 32 word (wrap 32 (32 - shift)); Some (Z.lor r l).
Definition rol16 (word shift : Z) : option Z :=
  l ← shl_int word shift; r ← shr_int word (wrap 32 (16 - shift)); Some (wrap 16 (Z.lor l r)).
Definition ror16 (word shift : Z) : option Z :=
  r ← shr_int word shift; l ← shl_int word (wrap 32 (16 - shift)); Some (wrap 16 (Z.lor r l)).
Definition rol8 (word shift : Z) : option Z :=
  l ← shl_int word shift; r ← shr_int word (wrap 32 (8 - shift)); Some (wrap 8 (Z.lor l r)).
Definition ror8 (word shift : Z) : option Z :=
  r ← shr_int word shift; l ← shl_int word (wrap 32 (8 - shift)); Some (wrap 8 (Z.lor r l)).

(** [sign_extend32]: the left shift is done on [u32], the right shift on [s32]
    (arithmetic, as the supported compilers do it). *)
Definition sign_extend32 (value index : Z) : option Z :=
  let shift := wrap 8 (31 - index) in
  v ← shl_u 32 value shift;
  if shift <? 32 then Some (sint 32 v >> shift) else None.

(** [sizeof(long) == 8] on the modelled target. *)
Definition fls_long (l : Z) : option Z := fls64 l.

(** [BITS_PER_LONG == 64]: the argument is passed on to an [int] parameter. *)
Definition __ffs64 (word : Z) : Z := __ffs word.

(** ** log2.h *)

Definition __ilog2_u32 (n : Z) : option Z := o ← fls n; Some (o - 1).
Definition __ilog2_u64 (n : Z) : option Z := o ← fls64 n; Some (o - 1).

Definition is_power_of_2 (n : Z) : bool :=
  negb (n =? 0) && (n & wrap 64 (n - 1) =? 0).

Definition __roundup_pow_of_two (n : Z) : option Z :=
  o ← fls_long (wrap 64 (n - 1)); shl_u 64 1 o.
Definition __rounddown_pow_of_two (n : Z) : option Z :=
  o ← fls_long n; shl_u 64 1 (wrap 32 (o - 1)).

(** The constant arm of the [ilog2] macro: bits 63 to 0 tested in turn, with
    the link-time error [____ilog2_NaN] when there is none. *)
Fixpoint ilog2_chain (k : nat) (n : Z) : option Z :=
  match k with
  | O => None
  | S k' => if flag n (2 ^ Z.of_nat k') then Some (Z.of_nat k') else ilog2_chain k' n
  end.
Definition ilog2_const (n : Z) : option Z :=
  if n <? 1 then None else ilog2_chain 64 n.

Definition ilog2 (constant_p small : bool) (n : Z) : option Z :=
  if constant_p then ilog2_const n
  else if small then __ilog2_u32 n else __ilog2_u64 n.

Definition roundup_pow_of_two (constant_p : bool) (n : Z) : option Z :=
  if constant_p
  then if n =? 1 then Some 1 else o ← ilog2_const (n - 1); shl_u 64 1 (o + 1)
  else __roundup_pow_of_two n.
Definition rounddown_pow_of_two (constant_p : bool) (n : Z) : option Z :=
  if constant_p then o ← ilog2_const n; shl_u 64 1 o else __rounddown_pow_of_two n.

Definition order_base_2 (constant_p : bool) (n : Z) : option Z :=
  r ← roundup_pow_of_two constant_p n; ilog2 constant_p false r.

(** ** Lemmas *)

Lemma log2_bound w x : 0 <= w → 0 < x < 2 ^ w → 0 <= Z.log2 x < w.
Proof.
  intros Hw [Hx Hxw]. split; [apply Z.log2_nonneg|]. by apply Z.log2_lt_pow2.
Qed.

Lemma clz_pos w x : 0 < x < 2 ^ w → clz w x = Some (w - 1 - Z.log2 x).
Proof.
  intros Hx. unfold clz. rewrite wrap_small by (unfold in_range; lia).
  destruct (Z.eqb_spec x 0); [lia|done].
Qed.

Lemma fls_pos x : 0 < x < 2 ^ 32 → fls x = Some (Z.log2 x + 1).
Proof. intros. unfold fls. rewrite clz_pos by lia. cbn. f_equal. lia. Qed.

Lemma fls64_pos x : 0 < x < 2 ^ 64 → fls64 x = Some (Z.log2 x + 1).
Proof. intros. unfold fls64. rewrite clz_pos by lia. cbn. f_equal. lia. Qed.

Lemma shl_u_one k : 0 <= k < 64 → shl_u 64 1 k = Some (2 ^ k).
Proof.
  intros Hk. unfold shl_u.
  destruct (Z.leb_spec 0 k), (Z.ltb_spec k 64); try lia. cbn.
  rewrite Z.shiftl_1_l, wrap_small; [done|].
  unfold in_range. split; [lia|]. apply Z.pow_lt_mono_r; lia.
Qed.

Lemma ilog2_chain_log2 k n : 0 < n < 2 ^ Z.of_nat k → ilog2_chain k n = Some (Z.log2 n).
Proof.
  induction k as [|k IH]; cbn [ilog2_chain]; intros Hn; [cbn in Hn; lia|].
  rewrite flag_testbit by lia. destruct (Z.testbit n (Z.of_nat k)) eqn:E.
  - f_equal. symmetry. apply Z.log2_unique; [lia|]. split.
    + destruct (Z.le_gt_cases (2 ^ Z.of_nat k) n) as [|Hlt]; [done|exfalso].
      rewrite Z.bits_above_log2 in E; [done|lia|]. apply Z.log2_lt_pow2; lia.
    + lia.
  - apply IH. split; [lia|]. apply Z.log2_lt_cancel.
    rewrite Z.log2_pow2 by lia.
    assert (Z.log2 n < Z.of_nat (S k)) by (apply Z.log2_lt_pow2; lia).
    destruct (Z.eq_dec (Z.log2 n) (Z.of_nat k)) as [Heq|]; [|lia].
    rewrite <-Heq, Z.bit_log2 in E by lia. done.
Qed.

Lemma ilog2_const_log2 n : 0 < n < 2 ^ 64 → ilog2_const n = Some (Z.log2 n).
Proof.
  intros Hn. unfold ilog2_const. destruct (Z.ltb_spec n 1); [lia|].
  by apply ilog2_chain_log2.
Qed.

(** A power of two has no bit in common with its predecessor. *)
Lemma land_pred_pow2 k : 0 <= k → Z.land (2 ^ k) (2 ^ k - 1) = 0.
Proof.
  intros Hk. replace (2 ^ k - 1) with (Z.ones k) by (rewrite Z.ones_equiv; lia).
  rewrite Z.land_ones by done. apply Z_mod_same_full.
Qed.

(** A positive number that is no power of two shares its top bit with its
    predecessor. *)
Lemma land_pred_nonpow2 n : 0 < n → n ≠ 2 ^ Z.log2 n → Z.land n (n - 1) ≠ 0.
Proof.
  intros Hn Hp H0. pose proof (Z.log2_spec n Hn) as [H1 H2].
  assert (Z.log2 (n - 1) = Z.log2 n) as Hl.
  { pose proof (Z.log2_nonneg n). apply Z.log2_unique; lia. }
  assert (0 < 2 ^ Z.log2 n) by (apply Z.pow_pos_nonneg; [lia|apply Z.log2_nonneg]).
  assert (Z.testbit (Z.land n (n - 1)) (Z.log2 n) = true) as Hb.
  { rewrite Z.land_spec, Z.bit_log2 by lia. rewrite <-Hl at 1. by rewrite Z.bit_log2 by lia. }
  by rewrite H0, Z.bits_0 in Hb.
Qed.

(** * Properties *)

(** The constant arm of [ilog2] and the run-time arm compute the same number,
    the floor of the base 2 logarithm, on every 64-bit value but 0. *)
Theorem ilog2_arms_agree n :
  0 < n < 2 ^ 64 →
  ilog2 true false n = Some (Z.log2 n) ∧ ilog2 false false n = Some (Z.log2 n).
Proof.
  intros Hn. cbn. split; [by apply ilog2_const_log2|].
  unfold __ilog2_u64. rewrite fls64_pos by done. cbn. f_equal. lia.
Qed.

(** [is_power_of_2] recognises exactly the 64 powers of two of an [unsigned long]. *)
Lemma is_power_of_2_spec n :
  in_range 64 n → is_power_of_2 n = true ↔ ∃ k, 0 <= k < 64 ∧ n = 2 ^ k.
Proof.
  intros Hn. unfold is_power_of_2, in_range in *. split.
  - destruct (Z.eqb_spec n 0) as [|Hn0]; [done|]. rewrite wrap_small by (unfold in_range; lia).
    cbn. intros Hz%Z.eqb_eq.
    destruct (Z.eq_dec n (2 ^ Z.log2 n)) as [He|Hne].
    + exists (Z.log2 n). split; [apply log2_bound; lia|done].
    + exfalso. by apply (land_pred_nonpow2 n ltac:(lia) Hne).
  - intros (k & Hk & ->). assert (2 ^ k < 2 ^ 64) by (apply Z.pow_lt_mono_r; lia).
    assert (0 < 2 ^ k) by lia.
    destruct (Z.eqb_spec (2 ^ k) 0); [lia|]. rewrite wrap_small by (unfold in_range; lia).
    by rewrite land_pred_pow2 by lia.
Qed.

(** [roundup_pow_of_two] is the least power of two at or above its argument,
    by either arm of the macro. *)
Lemma roundup_pow_of_two_least n c :
  2 <= n <= 2 ^ 63 →
  roundup_pow_of_two c n = Some (2 ^ Z.log2_up n) ∧
  n <= 2 ^ Z.log2_up n ∧ ∀ k, 0 <= k → n <= 2 ^ k → 2 ^ Z.log2_up n <= 2 ^ k.
Proof.
  intros Hn. unfold roundup_pow_of_two, __roundup_pow_of_two, fls_long.
  pose proof (Z.log2_up_eqn n ltac:(lia)) as Hup.
  replace (Z.pred n) with (n - 1) in Hup by lia.
  assert (0 <= Z.log2 (n - 1) < 63) by (apply log2_bound; lia).
  split_and!.
  - destruct c.
    + destruct (Z.eqb_spec n 1); [lia|]. rewrite ilog2_const_log2 by lia. cbn.
      rewrite shl_u_one by lia. by rewrite Hup.
    + rewrite wrap_small by (unfold in_range; lia). rewrite fls64_pos by lia. cbn.
      rewrite shl_u_one by lia. by rewrite Hup.
  - apply Z.log2_up_spec. lia.
  - intros k Hk Hle. apply Z.pow_le_mono_r; [lia|].
    rewrite <-(Z.log2_up_pow2 k) by done. by apply Z.log2_up_le_mono.
Qed.

(** [get_count_order] is the ceiling of the base 2 logarithm. *)
Lemma get_count_order_log2_up count :
  0 < count < 2 ^ 32 → get_count_order count = Some (Z.log2_up count).
Proof.
  intros Hc. unfold get_count_order. rewrite fls_pos by done. cbn.
  rewrite wrap_small by (unfold in_range; lia). f_equal.
  destruct (Z.eq_dec count (2 ^ Z.log2 count)) as [He|Hne].
  - rewrite He at 1 2. rewrite land_pred_pow2 by apply Z.log2_nonneg. cbn.
    rewrite He at 2. rewrite Z.log2_up_pow2; [lia|apply Z.log2_nonneg].
  - pose proof (land_pred_nonpow2 count ltac:(lia) Hne).
    destruct (Z.eqb_spec (Z.land count (count - 1)) 0); [done|]. cbn.
    pose proof (Z.le_log2_log2_up count). pose proof (Z.le_log2_up_succ_log2 count).
    assert (Z.log2 count ≠ Z.log2_up count); [|lia].
    intros [b Hb]%Z.log2_log2_up_exact; [|lia]. apply Hne.
    destruct (Z.le_gt_cases 0 b); [by rewrite Hb, Z.log2_pow2|].
    rewrite Z.pow_neg_r in Hb by done. lia.
Qed.

(** ** Rotations

    All eight rotations are the same function of the width; [rotl] states it
    and [rotl_testbit] gives its bits. *)
Definition rotl (w x s : Z) : Z := Z.lor (wrap w (x << s)) (x >> (w - s)).

Lemma rotl_testbit w x s i :
  in_range w x → 0 < s < w → 0 <= i < w →
  Z.testbit (rotl w x s) i = Z.testbit x ((i - s) mod w).
Proof.
  intros Hx Hs Hi. unfold rotl.
  rewrite Z.lor_spec, wrap_testbit, Z.shiftl_spec, Z.shiftr_spec by lia.
  destruct (Z.ltb_spec i w); [|lia]. cbn [andb].
  destruct (Z.lt_ge_cases i s).
  - rewrite Z.testbit_neg_r by lia. cbn [orb]. f_equal.
    rewrite <-(Z_mod_plus_full _ 1), Z.mod_small by lia. lia.
  - rewrite (in_range_testbit w x (i + (w - s))) by (done || lia). rewrite orb_false_r. f_equal.
    by rewrite Z.mod_small by lia.
Qed.

Lemma rotl_range w x s : in_range w x → 0 < s < w → in_range w (rotl w x s).
Proof.
  intros Hx Hs. apply lor_range; [lia|apply wrap_range; lia|].
  apply shiftr_range; [lia|done].
Qed.

Lemma rotl_inverse w x s : in_range w x → 0 < s < w → rotl w (rotl w x s) (w - s) = x.
Proof.
  intros Hx Hs. apply Z.bits_inj'. intros i Hi.
  destruct (Z.lt_ge_cases i w).
  - pose proof (Z.mod_pos_bound (i - (w - s)) w ltac:(lia)).
    rewrite rotl_testbit by (try apply rotl_range; lia || done).
    rewrite rotl_testbit by (lia || done).
    f_equal. rewrite Zminus_mod_idemp_l. replace (i - (w - s) - s) with (i + (-1) * w) by lia.
    rewrite Z_mod_plus_full. by apply Z.mod_small.
  - rewrite !(in_range_testbit w); [done|done|lia|done| |lia|done].
    apply rotl_range; [by apply rotl_range|lia].
Qed.

Lemma shl_u_val w x s : 0 <= s < w → shl_u w x s = Some (wrap w (x << s)).
Proof. intros. unfold shl_u. destruct (Z.leb_spec 0 s), (Z.ltb_spec s w); by try lia. Qed.
Lemma shr_u_val w x s : 0 <= s < w → shr_u w x s = Some (x >> s).
Proof. intros. unfold shr_u. destruct (Z.leb_spec 0 s), (Z.ltb_spec s w); by try lia. Qed.

Lemma shr_int_val x s : 0 <= s < 32 → shr_int x s = Some (x >> s).
Proof. intros. unfold shr_int. destruct (Z.leb_spec 0 s), (Z.ltb_spec s 32); by try lia. Qed.
Lemma shl_int_val w x s :
  in_range w x → 0 <= s <= 31 - w → 0 <= w → shl_int x s = Some (x << s).
Proof.
  intros Hx Hs Hw. unfold shl_int, in_range in *.
  destruct (Z.leb_spec 0 s), (Z.ltb_spec s 32); try lia.
  destruct (Z.ltb_spec (x << s) (2 ^ 31)) as [|Hge]; [done|exfalso].
  rewrite Z.shiftl_mul_pow2 in Hge by lia.
  assert (2 ^ w * 2 ^ s <= 2 ^ 31) by (rewrite <-Z.pow_add_r by lia; apply Z.pow_le_mono_r; lia).
  assert (0 < 2 ^ s) by lia. nia.
Qed.

Lemma wrap_lor_shr w x a n : in_range w x → 0 <= n → 0 <= w →
  wrap w (Z.lor a (x >> n)) = Z.lor (wrap w a) (x >> n).
Proof.
  intros Hx Hn Hw. apply Z.bits_inj'. intros i Hi.
  rewrite wrap_testbit, !Z.lor_spec, wrap_testbit, Z.shiftr_spec by done.
  destruct (Z.ltb_spec i w); [done|]. cbn.
  by rewrite (in_range_testbit w) by (done || lia).
Qed.

Lemma rol_u_rotl w x s :
  w = 64 ∨ w = 32 → 0 < s < w →
  (l ← shl_u w x s; r ← shr_u w x (wrap 32 (w - s)); Some (Z.lor l r)) = Some (rotl w x s).
Proof.
  intros Hw Hs. rewrite wrap_small by (unfold in_range; lia).
  by rewrite shl_u_val, shr_u_val by lia.
Qed.

Lemma ror_u_rotl w x s :
  w = 64 ∨ w = 32 → 0 < s < w →
  (r ← shr_u w x s; l ← shl_u w x (wrap 32 (w - s)); Some (Z.lor r l)) = Some (rotl w x (w - s)).
Proof.
  intros Hw Hs. rewrite wrap_small by (unfold in_range; lia).
  rewrite shr_u_val, shl_u_val by lia. cbn. f_equal. unfold rotl.
  rewrite Z.lor_comm. do 2 f_equal. lia.
Qed.

Lemma rol_int_rotl w x s :
  w = 16 ∨ w = 8 → in_range w x → 0 < s < w →
  (l ← shl_int x s; r ← shr_int x (wrap 32 (w - s)); Some (wrap w (Z.lor l r)))
  = Some (rotl w x s).
Proof.
  intros Hw Hx Hs. rewrite (wrap_small 32) by (unfold in_range; lia).
  rewrite (shl_int_val w), shr_int_val by (done || lia). cbn.
  rewrite wrap_lor_shr by (done || lia). done.
Qed.

Lemma ror_int_rotl w x s :
  w = 16 ∨ w = 8 → in_range w x → 0 < s < w →
  (r ← shr_int x s; l ← shl_int x (wrap 32 (w - s)); Some (wrap w (Z.lor r l)))
  = Some (rotl w x (w - s)).
Proof.
  intros Hw Hx Hs. rewrite (wrap_small 32) by (unfold in_range; lia).
  rewrite (shl_int_val w), shr_int_val by (done || lia). cbn.
  rewrite Z.lor_comm, wrap_lor_shr by (done || lia).
  unfold rotl. do 3 f_equal. lia.
Qed.

(** At every width the right rotation undoes the left rotation by the same
    amount, and the left rotation moves bit [i - s] (modulo the width) to
    bit [i]. *)
Lemma rotations_correct w x s (rol ror : Z → Z → option Z) :
  (w, rol, ror) ∈ [(64, rol64, ror64); (32, rol32, ror32); (16, rol16, ror16); (8, rol8, ror8)] →
  in_range w x → 0 < s < w →
  ∃ y, rol x s = Some y ∧ ror y s = Some x ∧
       ∀ i, 0 <= i < w → Z.testbit y i = Z.testbit x ((i - s) mod w).
Proof.
  intros Hin Hx Hs. exists (rotl w x s).
  pose proof (rotl_range w x s Hx Hs).
  assert (rol x s = Some (rotl w x s) ∧ ror (rotl w x s) s = Some (rotl w (rotl w x s) (w - s)))
    as [Hl Hr].
  { rewrite !elem_of_cons, elem_of_nil in Hin.
    destruct_or!; simplify_eq; split;
      first [apply rol_u_rotl | apply ror_u_rotl | apply rol_int_rotl | apply ror_int_rotl];
      auto. }
  rewrite Hl, Hr, rotl_inverse by done. split_and!; [done..|].
  intros. by apply rotl_testbit.
Qed.

(** Rotating by 0 shifts by the whole width: undefined at 64 and 32 bits, the
    identity at 16 and 8 bits where the operand is promoted to [int]. *)
Lemma rotate_by_zero :
  (∀ x, rol64 x 0 = None ∧ ror64 x 0 = None ∧ rol32 x 0 = None ∧ ror32 x 0 = None) ∧
  (∀ x, in_range 8 x → rol8 x 0 = Some x).
Proof.
  split; [by intros x|]. intros x Hx. unfold rol8. change (wrap 32 (8 - 0)) with 8.
  rewrite (shl_int_val 8), shr_int_val by (done || lia).
  assert (x >> 8 = 0) as E by (rewrite Z.shiftr_div_pow2 by lia; by apply Z.div_small).
  unfold mbind, option_bind. by rewrite E, Z.shiftl_0_r, Z.lor_0_r, wrap_small.
Qed.
