(* ===== verification/Hash.v ===== *)
(** * Integer hashing

    [include/hsfs/hash.h]: the multiplicative hashes of the two inode tables,
    and the [hash_min] selector of [include/hsfs/hashtable.h]. *)

From S2P Require Import Prelude Bitops.

(** 2^31 + 2^29 - 2^25 + 2^22 - 2^19 - 2^16 + 1 *)
Definition GOLDEN_RATIO_PRIME_32 : Z := 0x9e370001.
(** 2^63 + 2^61 - 2^57 + 2^54 - 2^51 - 2^18 + 1 *)
Definition GOLDEN_RATIO_PRIME_64 : Z := 0x9e37fffffffc0001.

(** The shift-and-add form of the source, on [u64]: [n <<= 18; hash -= n; ...].
    The final right shift is undefined for [bits = 0]. *)
Definition hash_64 (val bits : Z) : option Z :=
  let hash := val in
  let n := hash in
  let n := wrap 64 (n << 18) in let hash := wrap 64 (hash - n) in
  let n := wrap 64 (n << 33) in let hash := wrap 64 (hash - n) in
  let n := wrap 64 (n << 3) in let hash := wrap 64 (hash + n) in
  let n := wrap 64 (n << 3) in let hash := wrap 64 (hash - n) in
  let n := wrap 64 (n << 4) in let hash := wrap 64 (hash + n) in
  let n := wrap 64 (n << 2) in let hash := wrap 64 (hash + n) in
  shr_u 64 hash (wrap 32 (64 - bits)).

Definition hash_32 (val bits : Z) : option Z :=
  let hash := wrap 32 (val * GOLDEN_RATIO_PRIME_32) in
  shr_u 32 hash (wrap 32 (32 - bits)).

(** [BITS_PER_LONG == 64]. *)
Definition hash_long (val bits : Z) : option Z := hash_64 val bits.
Definition hash_ptr (ptr bits : Z) : option Z := hash_long (wrap 64 ptr) bits.

(** [hash_min(val, bits)]: [size] is [sizeof(val)]. *)
Definition hash_min (size val bits : Z) : option Z :=
  if size <=? 4 then hash_32 (wrap 32 val) bits else hash_long (wrap 64 val) bits.

(** ** Lemmas *)

(** One step of the shift-and-add chain, kept as a multiple of [val]. *)
Lemma wrap_shl val k j :
  0 <= j → wrap 64 (wrap 64 (val * k) << j) = wrap 64 (val * (k * 2 ^ j)).
Proof.
  intros Hj. unfold wrap. rewrite Z.shiftl_mul_pow2 by done.
  rewrite Zmult_mod_idemp_l. f_equal. ring.
Qed.
Lemma wrap_add val a b : wrap 64 (wrap 64 (val * a) + wrap 64 (val * b)) = wrap 64 (val * (a + b)).
Proof. unfold wrap. rewrite <-Zplus_mod. f_equal. ring. Qed.
Lemma wrap_sub val a b : wrap 64 (wrap 64 (val * a) - wrap 64 (val * b)) = wrap 64 (val * (a - b)).
Proof. unfold wrap. rewrite <-Zminus_mod. f_equal. ring. Qed.

Lemma shr_top w x bits :
  in_range w x → 0 < bits <= w → w <= 64 →
  shr_u w x (wrap 32 (w - bits)) = Some (x >> (w - bits)) ∧ in_range bits (x >> (w - bits)).
Proof.
  intros Hx Hb Hw. rewrite wrap_small by (unfold in_range; lia).
  split; [apply shr_u_val; lia|]. unfold in_range in *.
  rewrite Z.shiftr_div_pow2 by lia. split; [apply Z.div_pos; lia|].
  apply Z.div_lt_upper_bound; [lia|]. rewrite <-Z.pow_add_r by lia.
  replace (w - bits + bits) with w by lia. lia.
Qed.

(** * Properties *)

(** The shift-and-add sequence of [hash_64] is multiplication by the 64-bit
    golden ratio prime: the result is the top [bits] bits of the product
    modulo 2^64. *)
Lemma hash_64_multiplicative val bits :
  in_range 64 val → 0 < bits <= 64 →
  hash_64 val bits = Some (wrap 64 (val * GOLDEN_RATIO_PRIME_64) >> (64 - bits)).
Proof.
  intros Hv Hb. unfold hash_64. cbv zeta.
  assert (wrap 64 (val << 18) = wrap 64 (val * 2 ^ 18)) as ->
    by (by rewrite Z.shiftl_mul_pow2).
  assert (wrap 64 (val - wrap 64 (val * 2 ^ 18)) = wrap 64 (val * (1 - 2 ^ 18))) as ->.
  { unfold wrap. rewrite Zminus_mod_idemp_r. f_equal. ring. }
  rewrite !wrap_shl, wrap_sub, wrap_add, wrap_sub, !wrap_add by lia.
  pose proof (wrap_range 64 (val * GOLDEN_RATIO_PRIME_64) ltac:(lia)) as Hr.
  destruct (shr_top 64 _ bits Hr Hb ltac:(lia)) as [<- _].
  match goal with |- shr_u _ (wrap _ (_ * ?k)) _ = _ =>
    replace k with GOLDEN_RATIO_PRIME_64 by (vm_compute; reflexivity) end.
  reflexivity.
Qed.

(** Every bucket index the table macros compute is below the table size. *)
Lemma hash_min_in_table size val bits :
  0 < bits <= 32 → ∃ b, hash_min size val bits = Some b ∧ 0 <= b < 2 ^ bits.
Proof.
  intros Hb. unfold hash_min. destruct (Z.leb_spec size 4).
  - unfold hash_32.
    destruct (shr_top 32 (wrap 32 (wrap 32 val * GOLDEN_RATIO_PRIME_32)) bits) as [-> Hr];
      [apply wrap_range; lia|lia..|]. eauto.
  - unfold hash_long. rewrite hash_64_multiplicative by (apply wrap_range || lia; lia).
    destruct (shr_top 64 (wrap 64 (wrap 64 val * GOLDEN_RATIO_PRIME_64)) bits) as [_ Hr];
      [apply wrap_range; lia|lia..|]. eauto.
Qed.
