(* ===== verification/HList.v ===== *)
(** * Hash lists and hash tables

    [include/hsfs/list.h] (the [hlist] half) and [include/hsfs/hashtable.h] at
    the level of their pointers: a node holds [next] and [pprev], where [pprev]
    is the address of the pointer that points to the node.  The theorems say
    that each operation acts on the chain of a head as the corresponding
    function acts on a list, and leaves every other chain alone; the inode cache
    is modelled on top of that abstraction. *)

From S2P Require Import Prelude Bitops Hash.

(** ** Memory *)

(** A [struct hlist_node *]: NULL, [LIST_POISON1] or the address of a node. *)
Inductive nptr := NNull | NPoison1 | NNode (a : Z).
(** A [struct hlist_node **]: NULL, [LIST_POISON2], [&h->first] or [&n->next]. *)
Inductive slot := SNull | SPoison2 | SFirst (h : Z) | SNext (a : Z).

#[global] Instance nptr_eq_dec : EqDecision nptr.
Proof. solve_decision. Defined.
#[global] Instance slot_eq_dec : EqDecision slot.
Proof. solve_decision. Defined.

Record hlist_node := { next : nptr; pprev : slot }.
(** [heads] are the [struct hlist_head]s (their [first] field), [nodes] the nodes. *)
Record hmem := { heads : gmap Z nptr; nodes : gmap Z hlist_node }.

Definition set_heads (f : gmap Z nptr → gmap Z nptr) (m : hmem) : hmem :=
  {| heads := f (heads m); nodes := nodes m |}.
Definition set_nodes (f : gmap Z hlist_node → gmap Z hlist_node) (m : hmem) : hmem :=
  {| heads := heads m; nodes := f (nodes m) |}.

Definition first (h : Z) : M hmem nptr := λ m,
  match heads m !! h with Some p => Ok (p, m) | None => UB end.
Definition node_at (p : nptr) : M hmem hlist_node := λ m,
  match p with
  | NNode a => match nodes m !! a with Some n => Ok (n, m) | None => UB end
  | _ => UB
  end.
Definition set_next (a : Z) (p : nptr) : M hmem unit :=
  n ← node_at (NNode a); modify (set_nodes <[a := {| next := p; pprev := pprev n |}]>).
Definition set_pprev (p : nptr) (s : slot) : M hmem unit :=
  match p with
  | NNode a =>
      n ← node_at p; modify (set_nodes <[a := {| next := next n; pprev := s |}]>)
  | _ => ub
  end.
(** [*s = p]. *)
Definition set_slot (s : slot) (p : nptr) : M hmem unit :=
  match s with
  | SFirst h => _ ← first h; modify (set_heads <[h := p]>)
  | SNext a => set_next a p
  | _ => ub
  end.

(** ** list.h *)

Definition INIT_HLIST_HEAD (h : Z) : M hmem unit := set_slot (SFirst h) NNull.
Definition INIT_HLIST_NODE (n : Z) : M hmem unit :=
  set_next n NNull;; set_pprev (NNode n) SNull.

Definition hlist_unhashed (h : Z) : M hmem bool :=
  n ← node_at (NNode h); mret (bool_decide (pprev n = SNull)).

Definition hlist_empty (h : Z) : M hmem bool :=
  p ← first h; mret (bool_decide (p = NNull)).

Definition __hlist_del (n : Z) : M hmem unit :=
  nd ← node_at (NNode n);
  let nxt := next nd in
  let ppr := pprev nd in
  set_slot ppr nxt;;
  if bool_decide (nxt = NNull) then mret tt else set_pprev nxt ppr.

Definition hlist_del (n : Z) : M hmem unit :=
  __hlist_del n;; set_next n NPoison1;; set_pprev (NNode n) SPoison2.

Definition hlist_del_init (n : Z) : M hmem unit :=
  nd ← node_at (NNode n);
  if bool_decide (pprev nd = SNull) then mret tt
  else __hlist_del n;; INIT_HLIST_NODE n.

Definition hlist_add_head (n h : Z) : M hmem unit :=
  p ← first h;
  set_next n p;;
  (if bool_decide (p = NNull) then mret tt else set_pprev p (SNext n));;
  set_slot (SFirst h) (NNode n);;
  set_pprev (NNode n) (SFirst h).

(** The source's comment: [next] must be non-NULL. *)
Definition hlist_add_before (n nxt : Z) : M hmem unit :=
  nd ← node_at (NNode nxt);
  set_pprev (NNode n) (pprev nd);;
  set_next n (NNode nxt);;
  set_pprev (NNode nxt) (SNext n);;
  nn ← node_at (NNode n);
  set_slot (pprev nn) (NNode n).

Definition hlist_add_after (n nxt : Z) : M hmem unit :=
  nd ← node_at (NNode n);
  set_next nxt (next nd);;
  set_next n (NNode nxt);;
  set_pprev (NNode nxt) (SNext n);;
  nn ← node_at (NNode nxt);
  if bool_decide (next nn = NNull) then mret tt else set_pprev (next nn) (SNext nxt).

(** [hlist_for_each_entry(tpos, pos, head, member) { if (test(tpos)) break; }]:
    the cursor [pos] after the loop, NULL when no entry passes the test.  [fuel]
    bounds the walk: a cyclic chain would never end. *)
Fixpoint hlist_walk (fuel : nat) (test : Z → bool) (pos : nptr) : M hmem nptr :=
  match fuel with
  | O => out_of_fuel
  | S fuel =>
      match pos with
      | NNode a =>
          nd ← node_at pos;
          if test a then mret pos else hlist_walk fuel test (next nd)
      | NNull => mret NNull
      | NPoison1 => ub
      end
  end.
Definition hlist_for_each_entry (fuel : nat) (test : Z → bool) (h : Z) : M hmem nptr :=
  p ← first h; hlist_walk fuel test p.

(** ** hashtable.h

    A table of [2^bits] heads at the addresses [ht .. ht + 2^bits). *)

Fixpoint __hash_init_loop (ht : Z) (i : Z) (sz : nat) : M hmem unit :=
  match sz with
  | O => mret tt
  | S sz => INIT_HLIST_HEAD (ht + i);; __hash_init_loop ht (i + 1) sz
  end.
Definition __hash_init (ht : Z) (sz : nat) : M hmem unit := __hash_init_loop ht 0 sz.
Definition hash_init (ht : Z) (bits : nat) : M hmem unit := __hash_init ht (2 ^ bits)%nat.

(** [hash_min(key, HASH_BITS(table))] for a 64-bit key, [None] being the shift C
    leaves undefined. *)
Definition hash_bucket (bits : nat) (key : Z) : option Z := hash_min 8 key (Z.of_nat bits).
Definition head_of (ht : Z) (bits : nat) (key : Z) : M hmem Z :=
  match hash_bucket bits key with Some b => mret (ht + b) | None => ub end.

Definition hash_add (ht : Z) (bits : nat) (node key : Z) : M hmem unit :=
  h ← head_of ht bits key; hlist_add_head node h.

Definition hash_hashed (node : Z) : M hmem bool :=
  u ← hlist_unhashed node; mret (negb u).

Fixpoint __hash_empty_loop (ht : Z) (i : Z) (sz : nat) : M hmem bool :=
  match sz with
  | O => mret true
  | S sz =>
      e ← hlist_empty (ht + i);
      if (e : bool) then __hash_empty_loop ht (i + 1) sz else mret false
  end.
Definition __hash_empty (ht : Z) (sz : nat) : M hmem bool := __hash_empty_loop ht 0 sz.
Definition hash_empty (ht : Z) (bits : nat) : M hmem bool := __hash_empty ht (2 ^ bits)%nat.

Definition hash_del (node : Z) : M hmem unit := hlist_del_init node.

Definition hash_for_each_possible (fuel : nat) (ht : Z) (bits : nat) (test : Z → bool)
    (key : Z) : M hmem nptr :=
  h ← head_of ht bits key; hlist_for_each_entry fuel test h.

(** ** The list a head represents *)

(** What a slot holds and which slot a node says it hangs from. *)
Definition deref (m : hmem) (s : slot) : option nptr :=
  match s with
  | SFirst h => heads m !! h
  | SNext a => next <$> nodes m !! a
  | _ => None
  end.
Definition back (m : hmem) (a : Z) : option slot := pprev <$> nodes m !! a.

(** Following the pointers from slot [s] visits the nodes [l], each with its back
    pointer right, and arrives at slot [e]. *)
Fixpoint seg (m : hmem) (s : slot) (l : list Z) (e : slot) : Prop :=
  match l with
  | [] => s = e
  | a :: l => deref m s = Some (NNode a) ∧ back m a = Some s ∧ seg m (SNext a) l e
  end.
Definition chain (m : hmem) (h : Z) (l : list Z) : Prop :=
  NoDup l ∧ ∃ e, seg m (SFirst h) l e ∧ deref m e = Some NNull.

(** A memory holding the chains [C], no node on two of them. *)
Record chains (m : hmem) (C : gmap Z (list Z)) : Prop := {
  chains_at : map_Forall (chain m) C;
  chains_disj : ∀ h1 h2 l1 l2 a,
    C !! h1 = Some l1 → C !! h2 = Some l2 → a ∈ l1 → a ∈ l2 → h1 = h2;
}.

(** ** Lemmas *)

Section WpRules.
Context (m : hmem).

Lemma wp_ret {A} (a : A) Q : Q a m → wp (mret a) Q m.
Proof. done. Qed.
Lemma wp_first h p Q : deref m (SFirst h) = Some p → Q p m → wp (first h) Q m.
Proof. unfold wp, first. cbn. by intros ->. Qed.
Lemma wp_node_at a nd Q : nodes m !! a = Some nd → Q nd m → wp (node_at (NNode a)) Q m.
Proof. unfold wp, node_at. by intros ->. Qed.

Lemma wp_set_next a p Q :
  is_Some (deref m (SNext a)) →
  (∀ m', (∀ t, deref m' t = if decide (t = SNext a) then Some p else deref m t) →
         (∀ b, back m' b = back m b) → Q tt m') →
  wp (set_next a p) Q m.
Proof.
  cbn. intros [q Hq] HQ. apply fmap_Some in Hq as (nd & Hnd & ->).
  apply wp_bind, (wp_node_at _ nd); [done|]. unfold wp, modify. apply HQ.
  - intros [| |h|b]; cbn; [done..|]. destruct (decide (SNext b = SNext a)) as [[= ->]|Hne].
    + by rewrite lookup_insert_eq.
    + by rewrite lookup_insert_ne by congruence.
  - intros b. unfold back. cbn. destruct (decide (a = b)) as [->|Hne].
    + by rewrite lookup_insert_eq, Hnd.
    + by rewrite lookup_insert_ne.
Qed.

Lemma wp_set_slot s p Q :
  is_Some (deref m s) →
  (∀ m', (∀ t, deref m' t = if decide (t = s) then Some p else deref m t) →
         (∀ b, back m' b = back m b) → Q tt m') →
  wp (set_slot s p) Q m.
Proof.
  intros Hs HQ. destruct s as [| |h|a]; cbn in Hs; try by destruct Hs.
  - destruct Hs as [q Hq]. apply wp_bind, (wp_first h q); [done|].
    unfold wp, modify. apply HQ; [|done]. intros [| |h'|b]; cbn; [done..| |done].
    destruct (decide (SFirst h' = SFirst h)) as [[= ->]|Hne].
    + by rewrite lookup_insert_eq.
    + by rewrite lookup_insert_ne by congruence.
  - by apply wp_set_next.
Qed.

Lemma wp_set_pprev a s Q :
  is_Some (back m a) →
  (∀ m', (∀ t, deref m' t = deref m t) →
         (∀ b, back m' b = if decide (b = a) then Some s else back m b) → Q tt m') →
  wp (set_pprev (NNode a) s) Q m.
Proof.
  unfold back at 1. intros [q Hq] HQ. apply fmap_Some in Hq as (nd & Hnd & ->).
  apply wp_bind, (wp_node_at _ nd); [done|]. unfold wp, modify. apply HQ.
  - intros [| |h|b]; cbn; [done..|]. destruct (decide (a = b)) as [->|Hne].
    + by rewrite lookup_insert_eq, Hnd.
    + by rewrite lookup_insert_ne.
  - intros b. unfold back. cbn. destruct (decide (b = a)) as [->|Hne].
    + by rewrite lookup_insert_eq.
    + by rewrite lookup_insert_ne.
Qed.
End WpRules.

Lemma back_node m a s :
  back m a = Some s → ∃ q, nodes m !! a = Some {| next := q; pprev := s |} ∧ deref m (SNext a) = Some q.
Proof.
  unfold back. cbn. destruct (nodes m !! a) as [[q s']|]; cbn; intros [= ->]. eauto.
Qed.
Lemma deref_back m a q : deref m (SNext a) = Some q → is_Some (back m a).
Proof. cbn. unfold back. by destruct (nodes m !! a) as [[??]|]; cbn; [eauto|]. Qed.

(** The slots whose contents [seg] depends on. *)
Fixpoint reads (s : slot) (l : list Z) : list slot :=
  match l with [] => [] | a :: l => s :: reads (SNext a) l end.

Lemma reads_sub s l t : t ∈ reads s l → t = s ∨ ∃ a, a ∈ l ∧ t = SNext a.
Proof.
  revert s. induction l as [|a l IH]; intros s; cbn; [by intros ?%elem_of_nil|].
  rewrite elem_of_cons. intros [->|[->|(b & Hb & ->)]%IH]; [by left| |]; right;
    eexists; (split; [|done]); set_solver.
Qed.

Lemma seg_frame m m' s l e :
  (∀ t, t ∈ reads s l → deref m' t = deref m t) →
  (∀ a, a ∈ l → back m' a = back m a) →
  seg m s l e → seg m' s l e.
Proof.
  revert s. induction l as [|a l IH]; intros s HD HB; cbn; [done|].
  intros (H1 & H2 & H3). rewrite HD, HB by set_solver. split_and!; [done..|].
  apply IH; [| |done]; set_solver.
Qed.

Lemma seg_app m s l1 l2 e :
  seg m s (l1 ++ l2) e ↔ ∃ e1, seg m s l1 e1 ∧ seg m e1 l2 e.
Proof.
  revert s. induction l1 as [|a l1 IH]; intros s; cbn.
  - split; [eauto|]. by intros (? & -> & ?).
  - setoid_rewrite IH. split.
    + intros (? & ? & e1 & ? & ?). eauto 10.
    + intros (e1 & (? & ? & ?) & ?). eauto 10.
Qed.

(** The end of a segment is its start or hangs off its last node. *)
Lemma seg_end m s l e : seg m s l e → (l = [] ∧ e = s) ∨ (∃ a, a ∈ l ∧ e = SNext a).
Proof.
  revert s. induction l as [|a l IH]; intros s; cbn; [naive_solver|].
  intros (_ & _ & [[-> ->]|(b & Hb & ->)]%IH); right; eexists; (split; [|done]); set_solver.
Qed.

Lemma seg_end_not_read m s l e :
  seg m s l e → NoDup l → (∀ a, a ∈ l → s ≠ SNext a) → e ∉ reads s l.
Proof.
  revert s. induction l as [|a l IH]; intros s Hseg Hnd Hs; cbn; [set_solver|].
  destruct Hseg as (_ & _ & Hseg). apply list.NoDup_cons in Hnd as [Ha Hnd].
  rewrite elem_of_cons. intros [->|Hr].
  - apply seg_end in Hseg as [[-> ->]|(b & Hb & ->)].
    + apply (Hs a); [set_solver|done].
    + apply (Hs b); [set_solver|done].
  - revert Hr. apply IH; [done..|]. intros b Hb [= <-]. done.
Qed.

Lemma seg_back m s l e a : seg m s l e → a ∈ l → is_Some (back m a).
Proof.
  revert s. induction l as [|b l IH]; intros s; cbn; [set_solver|].
  intros (_ & Hb & Hl) [->|Hin]%elem_of_cons; eauto.
Qed.

Lemma chain_frame m m' h l :
  deref m' (SFirst h) = deref m (SFirst h) →
  (∀ a, a ∈ l → deref m' (SNext a) = deref m (SNext a) ∧ back m' a = back m a) →
  chain m h l → chain m' h l.
Proof.
  intros Hh Hl (Hnd & e & Hseg & He). split; [done|]. exists e. split.
  - apply (seg_frame m); [|naive_solver|done].
    intros t [->|(a & Ha & ->)]%reads_sub; naive_solver.
  - apply seg_end in Hseg as [[-> ->]|(a & Ha & ->)]; naive_solver congruence.
Qed.

(** One chain changes; the others are out of reach of the change. *)
Lemma chains_update m m' C h l l' :
  chains m C → C !! h = Some l → chain m' h l' →
  (∀ a, a ∈ l' → a ∈ l ∨ ∀ h2 l2, C !! h2 = Some l2 → a ∉ l2) →
  (∀ h', h' ≠ h → deref m' (SFirst h') = deref m (SFirst h')) →
  (∀ a, (∃ h2 l2, h2 ≠ h ∧ C !! h2 = Some l2 ∧ a ∈ l2) →
     deref m' (SNext a) = deref m (SNext a) ∧ back m' a = back m a) →
  chains m' (<[h := l']> C).
Proof.
  intros [Hat Hdisj] Hh Hch Hnew Hheads Hnodes. split.
  - intros h2 l2 [[-> ->]|[Hne Hl2]]%lookup_insert_Some; [done|].
    apply (chain_frame m); [auto| |by apply Hat]. intros a Ha. apply Hnodes. eauto.
  - intros h1 h2 l1 l2 a. rewrite !lookup_insert_Some. naive_solver.
Qed.

(** Writing the back pointer of the node a slot points to, when there is one. *)
Lemma wp_set_back m p s Q :
  (p = NNull ∨ ∃ b, p = NNode b ∧ is_Some (back m b)) →
  (∀ m', (∀ t, deref m' t = deref m t) →
         (∀ c, back m' c = if decide (p = NNode c) then Some s else back m c) → Q tt m') →
  wp (if bool_decide (p = NNull) then mret tt else set_pprev p s) Q m.
Proof.
  intros [->|(b & -> & Hb)] HQ; cbn.
  - apply wp_ret, HQ; [done|]. intros c. by destruct (decide (NNull = NNode c)).
  - apply wp_set_pprev; [done|]. intros m' HD HB. apply HQ; [done|]. intros c.
    rewrite HB. destruct (decide (c = b)), (decide (NNode b = NNode c)); congruence.
Qed.

(** The pointer at the start of a segment that ends in NULL. *)
Lemma seg_start m s l e :
  seg m s l e → deref m e = Some NNull →
  deref m s = Some (match l with [] => NNull | b :: _ => NNode b end).
Proof. destruct l; cbn; [by intros ->|naive_solver]. Qed.

(** A segment can be hung from another slot that points to its first node. *)
Lemma seg_rehang m m' s s' l e :
  seg m s l e → deref m e = Some NNull → NoDup l →
  (∀ a, a ∈ l → s ≠ SNext a ∧ s' ≠ SNext a) →
  deref m' s' = Some (match l with [] => NNull | b :: _ => NNode b end) →
  (∀ a, a ∈ l → deref m' (SNext a) = deref m (SNext a)) →
  (∀ a, a ∈ l → back m' a = if decide (head l = Some a) then Some s' else back m a) →
  ∃ e', seg m' s' l e' ∧ deref m' e' = Some NNull.
Proof.
  destruct l as [|b l]; intros Hseg He Hnd Hs Hs' HD HB; [by exists s'|].
  destruct Hseg as (H1 & H2 & Hseg). apply list.NoDup_cons in Hnd as [Hb Hnd].
  exists e. split; [split_and!|].
  - done.
  - rewrite HB by set_solver. by destruct (decide _).
  - apply (seg_frame m); [| |done].
    + intros t [->|(a & Ha & ->)]%reads_sub; apply HD; set_solver.
    + intros a Ha. rewrite HB by set_solver. destruct (decide _) as [Heq|]; [|done].
      cbn in Heq. by simplify_eq.
  - destruct (seg_end _ _ _ _ Hseg) as [[-> ->]|(a & Ha & ->)]; rewrite HD by set_solver; done.
Qed.

(** ** Each operation acts on the represented lists *)

Section Refinement.
Context (m : hmem) (C : gmap Z (list Z)).
Hypothesis HC : chains m C.

Let fresh_node (n : Z) : Prop := is_Some (back m n) ∧ ∀ h l, C !! h = Some l → n ∉ l.

Lemma add_head_chains n h l :
  C !! h = Some l → fresh_node n →
  wp (hlist_add_head n h) (λ _ m', chains m' (<[h := n :: l]> C)) m.
Proof using HC.
  intros Hh [[s0 Hn0] Hfresh]. destruct (back_node _ _ _ Hn0) as (q0 & _ & Hq0).
  destruct (chains_at _ _ HC _ _ Hh) as (Hnd & e & Hseg & He).
  pose proof (seg_start _ _ _ _ Hseg He) as Hfirst. pose proof (Hfresh _ _ Hh) as Hnl.
  set (p := match l with [] => NNull | b :: _ => NNode b end) in *.
  apply wp_bind, (wp_first _ _ p); [done|].
  apply wp_bind, wp_set_next; [by rewrite Hq0|]. intros m1 D1 B1.
  apply wp_bind, wp_set_back.
  { subst p. destruct l as [|b l]; [by left|right]. exists b. split; [done|].
    rewrite B1. eapply seg_back; [done|set_solver]. }
  intros m2 D2 B2. apply wp_bind, wp_set_slot; [rewrite D2, D1, decide_False by done; by rewrite Hfirst|].
  intros m3 D3 B3. apply wp_set_pprev; [rewrite B3, B2, B1, Hn0; by destruct (decide _)|].
  intros m4 D4 B4.
  assert (Hb4 : ∀ a, a ≠ n → back m4 a = if decide (p = NNode a) then Some (SNext n) else back m a).
  { intros a Ha. by rewrite B4, B3, B2, B1, (decide_False (P := a = n)). }
  assert (Hd4 : ∀ a, a ≠ n → deref m4 (SNext a) = deref m (SNext a)).
  { intros a Ha. rewrite D4, D3, D2, D1, !decide_False; congruence. }
  eapply (chains_update m); [done|done| | | |].
  - destruct (seg_rehang m m4 (SFirst h) (SNext n) l e) as (e' & Hseg' & He'); try done.
    + intros a Ha. split; [done|]. intros [= ->]. done.
    + by rewrite D4, D3, D2, D1, decide_False, decide_True.
    + intros a Ha. apply Hd4. set_solver.
    + intros a Ha. rewrite Hb4 by set_solver. subst p.
      destruct l as [|b l]; cbn; [set_solver|].
      destruct (decide (NNode b = NNode a)), (decide (Some b = Some a)); congruence.
    + split; [by apply NoDup_cons_2|]. exists e'. split; [|done]. cbn [seg]. split_and!; [| |done].
      * by rewrite D4, D3, decide_True.
      * by rewrite B4, decide_True.
  - intros a [->|Ha]%elem_of_cons; eauto.
  - intros h' Hne. rewrite D4, D3, D2, D1, !decide_False; congruence.
  - intros a (h2 & l2 & Hne & Hl2 & Ha).
    assert (a ≠ n) by (intros ->; by eapply Hfresh). split; [by apply Hd4|].
    rewrite Hb4 by done. destruct (decide (p = NNode a)) as [Hp|]; [|done].
    subst p. destruct l as [|b l]; [done|]. injection Hp as ->.
    destruct Hne. eapply (chains_disj _ _ HC); [done..|]. set_solver.
Qed.

Lemma del_chains n h l1 l2 :
  C !! h = Some (l1 ++ n :: l2) →
  wp (__hlist_del n)
    (λ _ m', chains m' (<[h := l1 ++ l2]> C) ∧ is_Some (back m' n)) m.
Proof using HC.
  intros Hh. destruct (chains_at _ _ HC _ _ Hh) as (Hnd & e & Hseg & He).
  apply seg_app in Hseg as (s1 & Hseg1 & Hn & Hback & Hseg2).
  destruct (back_node _ _ _ Hback) as (q & Hnode & Hq).
  rewrite (seg_start _ _ _ _ Hseg2 He) in Hq. injection Hq as Hq.
  apply list.NoDup_app in Hnd as (Hnd1 & Hdj & [Hn2 Hnd2]%list.NoDup_cons).
  assert (Hn1 : n ∉ l1) by set_solver.
  pose proof (seg_end_not_read _ _ _ _ Hseg1 Hnd1 ltac:(done)) as Hs1.
  apply wp_bind, (wp_node_at _ _ _ _ Hnode). cbn [next pprev].
  apply wp_bind, wp_set_slot; [by rewrite Hn|]. intros m1 D1 B1.
  apply wp_set_back.
  { rewrite <-Hq. destruct l2 as [|b l2]; [by left|right]. exists b. split; [done|].
    rewrite B1. eapply seg_back; [apply Hseg2|set_solver]. }
  intros m2 D2 B2.
  assert (Hb2 : ∀ a, a ∉ l2 → back m2 a = back m a).
  { intros a Ha. rewrite B2, B1, decide_False; [done|]. rewrite <-Hq. destruct l2; set_solver. }
  split; [|rewrite Hb2 by done; by rewrite Hback].
  assert (Hs1l : s1 = SFirst h ∨ ∃ a, a ∈ l1 ∧ s1 = SNext a).
  { destruct (seg_end _ _ _ _ Hseg1) as [[_ ->]|?]; auto. }
  eapply (chains_update m); [done|done| | | |].
  - destruct (seg_rehang m m2 (SNext n) s1 l2 e) as (e' & Hseg' & He'); try done.
    + intros a Ha. split; [congruence|]. destruct Hs1l as [->|(b & Hb & ->)]; [done|].
      intros [= ->]. set_solver.
    + by rewrite D2, D1, decide_True, Hq.
    + intros a Ha. rewrite D2, D1, decide_False; [done|].
      destruct Hs1l as [->|(b & Hb & ->)]; [done|]. intros [= ->]. set_solver.
    + intros a Ha. rewrite B2, B1, <-Hq. destruct l2 as [|b l2]; cbn; [set_solver|].
      destruct (decide (NNode b = NNode a)), (decide (Some b = Some a)); congruence.
    + split; [apply list.NoDup_app; set_solver|]. exists e'. split; [|done].
      apply seg_app. exists s1. split; [|done]. apply (seg_frame m); [| |done].
      * intros t Ht. rewrite D2, D1, decide_False; [done|]. by intros ->.
      * intros a Ha. apply Hb2. set_solver.
  - intros a Ha. left. set_solver.
  - intros h' Hne. rewrite D2, D1, decide_False; [done|].
    destruct Hs1l as [->|(b & Hb & ->)]; congruence.
  - intros a (h2 & l2' & Hne & Hl2 & Ha).
    assert (a ∉ l1 ++ n :: l2) as Hal.
    { intros Hin. destruct Hne. by eapply (chains_disj _ _ HC). }
    split; [|apply Hb2; set_solver]. rewrite D2, D1, decide_False; [done|].
    destruct Hs1l as [->|(b & Hb & ->)]; [done|]. intros [= ->]. set_solver.
Qed.

(** A node outside every chain can be rewritten freely. *)
Lemma chains_off_node m' n :
  (∀ h l, C !! h = Some l → n ∉ l) →
  (∀ h, deref m' (SFirst h) = deref m (SFirst h)) →
  (∀ a, a ≠ n → deref m' (SNext a) = deref m (SNext a) ∧ back m' a = back m a) →
  chains m' C.
Proof using HC.
  intros Hn Hh Ha. split; [|apply (chains_disj _ _ HC)]. intros h l Hl.
  apply (chain_frame m); [done| |by apply HC]. intros a Hin. apply Ha.
  intros ->. by eapply Hn.
Qed.

Lemma init_node_chains n :
  is_Some (back m n) → (∀ h l, C !! h = Some l → n ∉ l) →
  wp (INIT_HLIST_NODE n) (λ _ m', chains m' C ∧
    nodes m' !! n = Some {| next := NNull; pprev := SNull |}) m.
Proof using HC.
  intros [s0 Hn0] Hn. destruct (back_node _ _ _ Hn0) as (q0 & _ & Hq0).
  apply wp_bind, wp_set_next; [by rewrite Hq0|]. intros m1 D1 B1.
  apply wp_set_pprev; [by rewrite B1, Hn0|]. intros m2 D2 B2. split.
  - apply (chains_off_node _ n); [done|intros h; by rewrite D2, D1, decide_False|].
    intros a Ha. rewrite D2, D1, B2, B1, !decide_False; [done|congruence..].
  - specialize (B2 n). rewrite decide_True in B2 by done.
    destruct (back_node _ _ _ B2) as (q & -> & Hq).
    rewrite D2, D1, decide_True in Hq by done. congruence.
Qed.
End Refinement.

(** The other nodes of a chain hang from a real slot, so [hlist_del_init] takes
    its branch. *)
Lemma chain_hashed m h l a s : chain m h l → a ∈ l → back m a = Some s → s ≠ SNull.
Proof.
  intros (_ & e & Hseg & _) Ha Hs ->. apply list_elem_of_split in Ha as (l1 & l2 & ->).
  apply seg_app in Hseg as (s1 & _ & Hd & Hb & _). rewrite Hs in Hb. by simplify_eq.
Qed.

(** ** Tables *)

(** The buckets of the table at [ht], one list per head. *)
Definition table (m : hmem) (ht : Z) (bits : nat) (T : list (list Z)) : Prop :=
  length T = (2 ^ bits)%nat ∧ chains m (map_seqZ ht T).

Lemma bucket_lookup bits key (T : list (list Z)) :
  (0 < bits <= 32)%nat → length T = (2 ^ bits)%nat →
  ∃ b l, hash_bucket bits key = Some (Z.of_nat b) ∧ T !! b = Some l.
Proof.
  intros Hb HT. unfold hash_bucket.
  destruct (hash_min_in_table 8 key (Z.of_nat bits)) as (b & -> & Hlt); [lia|].
  destruct (lookup_lt_is_Some_2 T (Z.to_nat b)) as [l Hl].
  { rewrite HT. apply Nat2Z.inj_lt. rewrite Nat2Z.inj_pow. lia. }
  exists (Z.to_nat b), l. by rewrite Z2Nat.id by lia.
Qed.

Lemma alter_insert_eq {A} (f : A → A) (l : list A) i x :
  l !! i = Some x → <[i := f x]> l = alter f i l.
Proof.
  intros Hi. apply list_eq. intros j. destruct (decide (i = j)) as [<-|Hne].
  - rewrite list_lookup_insert_eq by (by eapply lookup_lt_Some).
    by rewrite list_lookup_alter_eq, Hi.
  - by rewrite list_lookup_insert_ne, list_lookup_alter_ne by done.
Qed.

Lemma head_of_ok ht bits key b m :
  hash_bucket bits key = Some b → head_of ht bits key m = Ok (ht + b, m).
Proof. unfold head_of. by intros ->. Qed.

(** Initialising heads [i ..] of a table leaves the chains of the earlier ones. *)
Lemma hash_init_loop_chains ht sz : ∀ m T,
  chains m (map_seqZ ht T) →
  (∀ j, (length T <= j < length T + sz)%nat → is_Some (heads m !! (ht + Z.of_nat j))) →
  wp (__hash_init_loop ht (Z.of_nat (length T)) sz)
    (λ _ m', chains m' (map_seqZ ht (T ++ replicate sz []))) m.
Proof.
  induction sz as [|sz IH]; intros m T HC Hh; [by rewrite app_nil_r|].
  destruct (Hh (length T)) as [q Hq]; [lia|].
  apply wp_bind, wp_set_slot; [by exists q|]. intros m1 D1 B1.
  replace (Z.of_nat (length T) + 1) with (Z.of_nat (length (T ++ [[] : list Z])))
    by (rewrite length_app; cbn; lia).
  replace (T ++ replicate (S sz) []) with ((T ++ [[] : list Z]) ++ replicate sz [])
    by (by rewrite <-app_assoc).
  apply IH.
  - rewrite map_seqZ_snoc. split.
    + apply map_Forall_insert_2.
      * split; [apply NoDup_nil_2|]. eexists. split; [reflexivity|].
        by rewrite D1, decide_True.
      * intros h l Hl. pose proof Hl as [Hge Hlt%lookup_lt_Some]%lookup_map_seqZ_Some.
        apply (chain_frame m); [|intros a _; split; [by rewrite D1, decide_False|done]|by apply HC].
        rewrite D1, decide_False; [done|]. intros [= ->]. lia.
    + intros h1 h2 l1 l2 a. rewrite !lookup_insert_Some.
      intros [[<- <-]|[? ?]] [[<- <-]|[? ?]]; [done|set_solver..|].
      by apply (chains_disj _ _ HC).
  - intros j Hj. rewrite length_app in Hj. cbn in Hj.
    pose proof (D1 (SFirst (ht + Z.of_nat j))) as HD. cbn in HD. rewrite HD.
    destruct (decide _); [eauto|]. apply Hh. lia.
Qed.

(** * Properties *)

(** [hash_init] makes every bucket of a table empty. *)
Lemma hash_init_refines m ht bits :
  (∀ j, (j < 2 ^ bits)%nat → is_Some (heads m !! (ht + Z.of_nat j))) →
  ∃ m', hash_init ht bits m = Ok (tt, m') ∧ table m' ht bits (replicate (2 ^ bits) []).
Proof.
  intros Hh. assert (chains m (map_seqZ ht [])) as HC by (split; [apply map_Forall_empty|set_solver]).
  destruct (wp_run _ _ _ (hash_init_loop_chains ht (2 ^ bits) m [] HC
    ltac:(cbn; intros; apply Hh; lia))) as ([] & m' & Hrun & HC').
  exists m'. split; [done|]. split; [by rewrite length_replicate|done].
Qed.

(** [hlist_add_head] puts a fresh node in front of the chain of its head and
    leaves every other chain of the memory as it was. *)
Lemma hlist_add_head_refines m C n h l :
  chains m C → C !! h = Some l →
  is_Some (nodes m !! n) → (∀ h' l', C !! h' = Some l' → n ∉ l') →
  ∃ m', hlist_add_head n h m = Ok (tt, m') ∧ chains m' (<[h := n :: l]> C).
Proof.
  intros HC Hh Hn Hfresh.
  assert (is_Some (back m n)) as Hb by (by apply fmap_is_Some).
  destruct (wp_run _ _ _ (add_head_chains m C HC n h l Hh (conj Hb Hfresh))) as ([] & ?). eauto.
Qed.

(** [hlist_del_init] (= [hash_del]) removes a node from the middle of its chain,
    leaves the other chains alone and marks the node unhashed; a second call is a
    no-op. *)
Theorem hash_del_refines m C n h l1 l2 :
  chains m C → C !! h = Some (l1 ++ n :: l2) →
  ∃ m', hash_del n m = Ok (tt, m') ∧ chains m' (<[h := l1 ++ l2]> C) ∧
        hash_hashed n m = Ok (true, m) ∧ hash_hashed n m' = Ok (false, m') ∧
        hash_del n m' = Ok (tt, m').
Proof.
  intros HC Hh. pose proof (chains_at _ _ HC _ _ Hh) as Hch.
  destruct Hch as (Hnd & e & (s1 & _ & _ & Hb & _)%seg_app & _).
  destruct (back_node _ _ _ Hb) as (q & Hnode & _).
  assert (s1 ≠ SNull) as Hs1 
    by (eapply (chain_hashed _ _ _ n); [by apply HC|set_solver|done]).
  assert (wp (hash_del n) (λ _ m', chains m' (<[h := l1 ++ l2]> C) ∧
    nodes m' !! n = Some {| next := NNull; pprev := SNull |}) m) as Hwp.
  { apply wp_bind, (wp_node_at _ _ _ _ Hnode). cbn [pprev]. rewrite bool_decide_eq_false_2 by done.
    destruct (wp_run _ _ _ (del_chains m C HC n h l1 l2 Hh)) as ([] & m1 & Hdel & HC1 & Hn1).
    unfold wp. rewrite (bind_ok _ _ _ _ _ Hdel).
    apply (init_node_chains m1 _ HC1); [done|]. intros h' l' [[<- <-]|[Hne Hl']]%lookup_insert_Some Hin.
    - apply list.NoDup_app in Hnd as (_ & Hdj & [Hn2 _]%list.NoDup_cons). set_solver.
    - apply Hne. eapply (chains_disj _ _ HC); [done..| |done]. set_solver. }
  destruct (wp_run _ _ _ Hwp) as ([] & m' & Hrun & HC' & Hn').
  exists m'. rewrite Hrun.
  unfold hash_hashed, hash_del, hlist_unhashed, hlist_del_init, node_at, mbind, M_bind.
  rewrite Hnode, Hn'. cbn. rewrite bool_decide_eq_false_2 by done. done.
Qed.

(** Walking a chain finds the first entry that passes the test, for a walk as
    long as the chain, and changes nothing. *)
Lemma hlist_for_each_entry_finds m C h l test fuel :
  chains m C → C !! h = Some l → (length l < fuel)%nat →
  hlist_for_each_entry fuel test h m =
    Ok (match List.find test l with Some a => NNode a | None => NNull end, m).
Proof.
  intros HC Hh Hfuel. destruct (chains_at _ _ HC _ _ Hh) as (_ & e & Hseg & He).
  unfold hlist_for_each_entry. pose proof (seg_start _ _ _ _ Hseg He) as Hf.
  assert (∀ s, seg m s l e → hlist_walk fuel test
    (match l with [] => NNull | b :: _ => NNode b end) m =
    Ok (match List.find test l with Some a => NNode a | None => NNull end, m)) as Hwalk.
  { clear Hseg Hf Hh. revert fuel Hfuel. induction l as [|a l IH]; intros [|fuel] Hfuel s Hseg;
      cbn in Hfuel; [lia|done|lia|].
    destruct Hseg as (_ & Hb & Hseg). destruct (back_node _ _ _ Hb) as (q & Hnode & Hq).
    cbn. unfold mbind, M_bind, node_at. rewrite Hnode. cbn. destruct (test a); [done|].
    rewrite (seg_start _ _ _ _ Hseg He) in Hq. injection Hq as <-. eapply IH; [lia|done]. }
  erewrite bind_ok; [by eapply Hwalk|]. unfold first. cbn in Hf. by rewrite Hf.
Qed.

(** [hash_add] on a well-formed table puts the node in front of exactly the
    bucket its key hashes to; the bucket index is always inside the table. *)
Lemma hash_add_refines m ht bits T node key :
  (0 < bits <= 32)%nat → table m ht bits T →
  is_Some (nodes m !! node) → Forall (λ l, node ∉ l) T →
  ∃ m' b, hash_bucket bits key = Some (Z.of_nat b) ∧ (b < length T)%nat ∧
    hash_add ht bits node key m = Ok (tt, m') ∧
    table m' ht bits (alter (cons node) b T).
Proof.
  intros Hbits [HT HC] Hn Hfresh.
  destruct (bucket_lookup bits key T Hbits HT) as (b & l & Hb & Hl).
  assert (b < length T)%nat as Hlt by (by eapply lookup_lt_Some).
  destruct (hlist_add_head_refines m _ node (ht + Z.of_nat b) l HC) as (m' & Hrun & HC').
  - by apply lookup_map_seqZ_Some_inv.
  - done.
  - intros h' l' [_ Hl']%lookup_map_seqZ_Some. by eapply (Forall_lookup_1 _ _ _ _ Hfresh).
  - exists m', b. split_and!; [done..| |].
    + unfold hash_add. by rewrite (bind_ok _ _ _ _ _ (head_of_ok _ _ _ _ _ Hb)).
    + split; [by rewrite length_alter|].
      replace (alter (cons node) b T) with (<[b := node :: l]> T); [by rewrite map_seqZ_insert|].
      by apply alter_insert_eq.
Qed.

(** [hash_for_each_possible] finds the first entry of the key's bucket that passes
    the test and nothing else. *)
Lemma hash_for_each_possible_refines m ht bits T test key fuel :
  (0 < bits <= 32)%nat → table m ht bits T → Forall (λ l, length l < fuel)%nat T →
  ∃ b l, hash_bucket bits key = Some (Z.of_nat b) ∧ T !! b = Some l ∧
    hash_for_each_possible fuel ht bits test key m =
      Ok (match List.find test l with Some a => NNode a | None => NNull end, m).
Proof.
  intros Hbits [HT HC] Hfuel.
  destruct (bucket_lookup bits key T Hbits HT) as (b & l & Hb & Hl).
  exists b, l. split_and!; [done..|]. unfold hash_for_each_possible.
  rewrite (bind_ok _ _ _ _ _ (head_of_ok _ _ _ _ _ Hb)).
  eapply hlist_for_each_entry_finds; [done|by apply lookup_map_seqZ_Some_inv|].
  by eapply (Forall_lookup_1 _ _ _ _ Hfuel).
Qed.
