(* ===== verification/DList.v ===== *)
(** * Doubly linked lists

    The [list_head] half of [include/hsfs/list.h] at the level of its pointers.  A
    list is a ring through a head; the memory holds one map for each of the two
    fields of the nodes, so that a store to one field leaves the other alone.  Each
    operation is shown to act on the lists the rings stand for; the chains of
    [nfs3/fstab.c] are rings of the same kind. *)

From S2P Require Import Prelude.

(** ** Memory *)

Record dmem := { d_next : gmap Z Z; d_prev : gmap Z Z }.

Definition LIST_POISON1 : Z := 0x00100100.
Definition LIST_POISON2 : Z := 0x00200200.

Definition next_of (p : Z) : M dmem Z := λ m,
  match d_next m !! p with Some q => Ok (q, m) | None => UB end.
Definition prev_of (p : Z) : M dmem Z := λ m,
  match d_prev m !! p with Some q => Ok (q, m) | None => UB end.
Definition upd_next (p q : Z) (m : dmem) : dmem := m <| d_next ::= <[p := q]> |>.
Definition upd_prev (p q : Z) (m : dmem) : dmem := m <| d_prev ::= <[p := q]> |>.
(** [p->next = q] and [p->prev = q] *)
Definition set_nextp (p q : Z) : M dmem unit := _ ← next_of p; modify (upd_next p q).
Definition set_prevp (p q : Z) : M dmem unit := _ ← prev_of p; modify (upd_prev p q).

(** ** list.h *)

Definition INIT_LIST_HEAD (ptr : Z) : M dmem unit := set_nextp ptr ptr;; set_prevp ptr ptr.

Definition __list_add (new prev next : Z) : M dmem unit :=
  set_prevp next new;; set_nextp new next;; set_prevp new prev;; set_nextp prev new.
Definition list_add (new head : Z) : M dmem unit :=
  next ← next_of head; __list_add new head next.
Definition list_add_tail (new head : Z) : M dmem unit :=
  prev ← prev_of head; __list_add new prev head.

Definition __list_del (prev next : Z) : M dmem unit := set_prevp next prev;; set_nextp prev next.
(** [__list_del(entry->prev, entry->next)] *)
Definition unlink_entry (entry : Z) : M dmem unit :=
  prev ← prev_of entry; next ← next_of entry; __list_del prev next.
Definition list_del (entry : Z) : M dmem unit :=
  unlink_entry entry;; set_nextp entry LIST_POISON1;; set_prevp entry LIST_POISON2.
Definition list_del_init (entry : Z) : M dmem unit := unlink_entry entry;; INIT_LIST_HEAD entry.
Definition list_move (list head : Z) : M dmem unit := unlink_entry list;; list_add list head.
Definition list_move_tail (list head : Z) : M dmem unit := unlink_entry list;; list_add_tail list head.

Definition list_empty (head : Z) : M dmem bool := next ← next_of head; mret (next =? head).

Definition __list_splice (list head : Z) : M dmem unit :=
  first ← next_of list; last ← prev_of list; at_ ← next_of head;
  set_prevp first head;; set_nextp head first;;
  set_nextp last at_;; set_prevp at_ last.
Definition list_splice (list head : Z) : M dmem unit :=
  e ← list_empty list; if (e : bool) then mret tt else __list_splice list head.
Definition list_splice_init (list head : Z) : M dmem unit :=
  e ← list_empty list;
  if (e : bool) then mret tt else __list_splice list head;; INIT_LIST_HEAD list.

(** [list_for_each(pos, head)] and [list_for_each_prev(pos, head)]: the positions the
    loop visits. *)
Fixpoint positions (step : Z → M dmem Z) (fuel : nat) (pos head : Z) : M dmem (list Z) :=
  match fuel with
  | O => out_of_fuel
  | S fuel =>
      if pos =? head then mret [] else
      next ← step pos; l ← positions step fuel next head; mret (pos :: l)
  end.
Definition list_for_each (fuel : nat) (head : Z) : M dmem (list Z) :=
  pos ← next_of head; positions next_of fuel pos head.
Definition list_for_each_prev (fuel : nat) (head : Z) : M dmem (list Z) :=
  pos ← prev_of head; positions prev_of fuel pos head.

(** ** The lists rings stand for *)

(** [p->next == q && q->prev == p] *)
Definition linked (m : dmem) (p q : Z) : Prop := d_next m !! p = Some q ∧ d_prev m !! q = Some p.

(** From [p] over the nodes [l] to [q], in both directions. *)
Fixpoint links (m : dmem) (p : Z) (l : list Z) (q : Z) : Prop :=
  match l with
  | [] => linked m p q
  | a :: l => linked m p a ∧ links m a l q
  end.
Definition ring (m : dmem) (h : Z) (l : list Z) : Prop := NoDup (h :: l) ∧ links m h l h.

(** A memory of rings, no node on two of them. *)
Record rings (m : dmem) (R : gmap Z (list Z)) : Prop := {
  rings_at : map_Forall (ring m) R;
  rings_disj : ∀ h1 h2 l1 l2 a,
    R !! h1 = Some l1 → R !! h2 = Some l2 → a ∈ h1 :: l1 → a ∈ h2 :: l2 → h1 = h2;
}.

(** A node that can be linked: allocated, and on no ring. *)
Definition node_mem (m : dmem) (a : Z) : Prop := is_Some (d_next m !! a) ∧ is_Some (d_prev m !! a).
Definition spare (m : dmem) (R : gmap Z (list Z)) (a : Z) : Prop :=
  node_mem m a ∧ ∀ h l, R !! h = Some l → a ∉ h :: l.

(** ** Lemmas *)

(** The effect of making [q] follow [p]. *)
Definition link (p q : Z) (m : dmem) : dmem :=
  {| d_next := <[p := q]> (d_next m); d_prev := <[q := p]> (d_prev m) |}.

Lemma linked_link m p q : linked (link p q m) p q.
Proof. split; apply lookup_insert_eq. Qed.

Lemma links_frame m m' p l q :
  (∀ x, x ∈ p :: l → d_next m' !! x = d_next m !! x) →
  (∀ x, x ∈ q :: l → d_prev m' !! x = d_prev m !! x) →
  links m p l q → links m' p l q.
Proof.
  revert p. induction l as [|a l IH]; intros p HN HP; cbn; unfold linked.
  - by rewrite HN, HP by set_solver.
  - rewrite HN, HP by set_solver. intros [H Hl]. split; [done|]. apply IH; [set_solver..|done].
Qed.

(** A new link disturbs no segment it does not start or end in. *)
Lemma links_link m p l q a b :
  a ∉ p :: l → b ∉ q :: l → links m p l q → links (link a b m) p l q.
Proof.
  intros Ha Hb. apply links_frame; intros x Hx; cbn; apply lookup_insert_ne; set_solver.
Qed.

Lemma links_app m p l1 a l2 q : links m p (l1 ++ a :: l2) q ↔ links m p l1 a ∧ links m a l2 q.
Proof.
  revert p. induction l1 as [|b l1 IH]; intros p; cbn; [done|]. rewrite IH. tauto.
Qed.

(** Where a segment starts and ends. *)
Lemma links_first m p l q : links m p l q → linked m p (default q (list.head l)).
Proof. destruct l; cbn; [done|by intros []]. Qed.
Lemma links_last m p l q : links m p l q → linked m (default p (list.last l)) q.
Proof.
  revert p. induction l as [|a l IH]; intros p; cbn [links]; [done|].
  intros [_ H]. specialize (IH a H). rewrite list.last_cons. by destruct (list.last l).
Qed.
Lemma links_mem m p l q x : links m p l q → x ∈ l → node_mem m x.
Proof.
  revert p. induction l as [|a l IH]; intros p; cbn; [set_solver|].
  intros [[H1 H2] H] [->|Hx]%elem_of_cons; [|eauto].
  split; [|by rewrite H2]. apply links_first in H as [H _]. by rewrite H.
Qed.
Lemma ring_mem m h l x : ring m h l → x ∈ h :: l → node_mem m x.
Proof.
  intros [_ H] [->|Hx]%elem_of_cons; [|by eapply links_mem].
  destruct (links_first _ _ _ _ H) as [H1 _], (links_last _ _ _ _ H) as [_ H2].
  split; [by rewrite H1|by rewrite H2].
Qed.

Lemma node_mem_link m p q x : node_mem m x → node_mem (link p q m) x.
Proof.
  intros [H1 H2]. split; cbn; apply lookup_insert_is_Some'; auto.
Qed.
#[local] Hint Resolve node_mem_link : core.

(** Loads and stores run on allocated nodes. *)
Lemma next_of_run m p q : d_next m !! p = Some q → next_of p m = Ok (q, m).
Proof. unfold next_of. by intros ->. Qed.
Lemma prev_of_run m p q : d_prev m !! p = Some q → prev_of p m = Ok (q, m).
Proof. unfold prev_of. by intros ->. Qed.
Lemma set_nextp_run m p q : is_Some (d_next m !! p) →
  set_nextp p q m = Ok (tt, upd_next p q m).
Proof. intros [x Hx]. unfold set_nextp. by mstep (next_of_run _ _ _ Hx). Qed.
Lemma set_prevp_run m p q : is_Some (d_prev m !! p) →
  set_prevp p q m = Ok (tt, upd_prev p q m).
Proof. intros [x Hx]. unfold set_prevp. by mstep (prev_of_run _ _ _ Hx). Qed.

Lemma list_del_run m p q : node_mem m p → node_mem m q → __list_del p q m = Ok (tt, link p q m).
Proof.
  intros [Hp _] [_ Hq]. unfold __list_del. mstep (set_prevp_run _ _ _ Hq). by apply set_nextp_run.
Qed.
Lemma init_run m p : node_mem m p → INIT_LIST_HEAD p m = Ok (tt, link p p m).
Proof.
  intros [Hp Hq]. unfold INIT_LIST_HEAD. mstep (set_nextp_run _ _ _ Hp). by apply set_prevp_run.
Qed.
Lemma list_add_run m n p q :
  node_mem m n → node_mem m p → node_mem m q →
  __list_add n p q m = Ok (tt, link p n (link n q m)).
Proof.
  intros [Hn Hn'] [Hp _] [_ Hq]. unfold __list_add. mstep (set_prevp_run _ _ _ Hq).
  mstep (set_nextp_run (upd_prev q n m) n q Hn).
  mstep (set_prevp_run (upd_next n q (upd_prev q n m)) n p ltac:(apply lookup_insert_is_Some'; auto)).
  apply (set_nextp_run (upd_prev n p (upd_next n q (upd_prev q n m)))), lookup_insert_is_Some'. auto.
Qed.

(** A segment hung from another node, and one that ends in another node. *)
Lemma links_rehang m p p' l q :
  links m p l q → NoDup l → q ∉ l → p' ∉ l → links (link p' (default q (list.head l)) m) p' l q.
Proof.
  destruct l as [|a l]; cbn [list.head from_option links]; [intros; apply linked_link|].
  intros [_ H] [Ha Hnd]%list.NoDup_cons Hq Hp. split; [apply linked_link|].
  apply links_link; [set_solver..|done].
Qed.
Lemma links_retarget m p l q q' :
  links m p l q → NoDup (p :: l) → q' ∉ l → links (link (default p (list.last l)) q' m) p l q'.
Proof.
  destruct l as [|a l _] using rev_ind; [intros; apply linked_link|].
  rewrite list.last_snoc. cbn [from_option]. intros H Hnd Hq.
  apply links_app in H as [H _]. apply links_app. split; [|apply linked_link].
  rewrite app_comm_cons in Hnd. apply list.NoDup_app in Hnd as (_ & Hd & _).
  apply links_link; [set_solver..|done].
Qed.

Lemma link_comm m a b c d : a ≠ c → b ≠ d → link a b (link c d m) = link c d (link a b m).
Proof. intros. unfold link. cbn. f_equal; by apply insert_insert_ne. Qed.

(** *** One ring *)

Lemma ring_add m h l n :
  ring m h l → n ∉ h :: l →
  ring (link h n (link n (default h (list.head l)) m)) h (n :: l).
Proof.
  intros [Hnd H] Hn. split.
  - apply list.NoDup_cons in Hnd as [Hh Hnd]. apply list.NoDup_cons. split; [set_solver|].
    apply list.NoDup_cons. split; [set_solver|done].
  - apply list.NoDup_cons in Hnd as [Hh Hnd]. split; [apply linked_link|].
    apply links_link; [set_solver..|]. apply (links_rehang _ h); [done..|set_solver].
Qed.
Lemma ring_add_tail m h l n :
  ring m h l → n ∉ h :: l →
  ring (link (default h (list.last l)) n (link n h m)) h (l ++ [n]).
Proof.
  intros [Hnd H] Hn. assert (Ha : default h (list.last l) ≠ n).
  { destruct (list.last l) as [a|] eqn:E; cbn; [|set_solver].
    apply last_Some_elem_of in E. set_solver. }
  split.
  - rewrite app_comm_cons. apply list.NoDup_app. split; [done|]. split; [set_solver|apply list.NoDup_singleton].
  - rewrite (link_comm m _ n n h Ha) by (intros ->; set_solver). apply links_app. split; [|apply linked_link].
    clear Ha. pose proof Hnd as [Hh _]%list.NoDup_cons.
    apply links_link; [done|set_solver|]. apply (links_retarget _ _ _ h); [done..|set_solver].
Qed.
Lemma ring_del m h l1 n l2 :
  ring m h (l1 ++ n :: l2) →
  linked m (default h (list.last l1)) n ∧ linked m n (default h (list.head l2)) ∧
  ring (link (default h (list.last l1)) (default h (list.head l2)) m) h (l1 ++ l2).
Proof.
  intros [Hnd H]. pose proof H as [H1 H2]%links_app.
  split; [by eapply links_last|]. split; [by apply links_first|].
  assert (Hnd' : NoDup (h :: l1 ++ l2)).
  { eapply sublist_NoDup; [exact Hnd|]. apply sublist_skip, sublist_app; [done|by apply sublist_cons]. }
  split; [done|]. rewrite app_comm_cons in Hnd, Hnd'. apply list.NoDup_app in Hnd' as (Hn1 & Hd & Hn2).
  destruct l2 as [|c l2]; cbn [list.head from_option].
  - rewrite app_nil_r. apply (links_retarget _ _ _ n); [done..|]. apply list.NoDup_cons in Hn1 as [? _]. done.
  - destruct H2 as [_ H2]. apply list.NoDup_cons in Hn2 as [Hc Hn2]. apply links_app. split.
    + apply (links_retarget _ _ _ n); [done..|]. intros Hin. apply (Hd c); set_solver.
    + apply links_link; [| |done].
      * assert (default h (list.last l1) ∈ h :: l1).
        { destruct (list.last l1) eqn:E; cbn; [|set_solver]. apply last_Some_elem_of in E. set_solver. }
        intros Hin. by apply (Hd (default h (list.last l1))).
      * intros [Hch|Hin]%elem_of_cons; [|done]. simpl in Hch; subst c. apply (Hd h); set_solver.
Qed.
Lemma ring_splice m k l h r :
  ring m k l → ring m h r → l ≠ [] → (∀ x, x ∈ k :: l → x ∉ h :: r) →
  ring (link (default k (list.last l)) (default h (list.head r))
         (link h (default k (list.head l)) m)) h (l ++ r).
Proof.
  intros [Hndl Hl] [Hndr Hr] Hne Hd. pose proof Hndl as [Hk Hndl']%list.NoDup_cons.
  pose proof Hndr as [Hh Hndr']%list.NoDup_cons.
  assert (Hlast : default h (list.last l) = default k (list.last l)).
  { destruct l as [|a l _] using rev_ind; [done|]. by rewrite list.last_snoc. }
  assert (Hin : default k (list.last l) ∈ l).
  { destruct l as [|a l _] using rev_ind; [done|]. rewrite list.last_snoc. cbn. set_solver. }
  assert (Hnh : NoDup (h :: l)).
  { apply list.NoDup_cons. split; [|done]. intros Hx. apply (Hd h); set_solver. }
  assert (Hin' : default k (list.head l) ∈ l) by (destruct l; cbn; [done|set_solver]).
  assert (Hat : default h (list.head r) ∉ l).
  { intros Hx. apply (Hd (default h (list.head r))); [set_solver|]. destruct r; cbn; set_solver. }
  pose proof (links_rehang _ _ h _ _ Hl Hndl' Hk ltac:(set_solver)) as H1.
  pose proof (links_retarget _ _ _ _ _ H1 Hnh Hat) as H2. rewrite Hlast in H2. split.
  - rewrite app_comm_cons. apply list.NoDup_app. split; [done|]. split; [|done].
    intros x [->|Hx]%elem_of_cons Hxr; [done|]. apply (Hd x); set_solver.
  - destruct r as [|b r]; [by rewrite app_nil_r|]. apply links_app. split; [done|].
    cbn [list.head from_option] in *. destruct Hr as [_ Hr]. apply list.NoDup_cons in Hndr' as [Hb Hndr'].
    apply links_link; [| |apply links_link; [| |done]].
    + intros Hx. apply (Hd (default k (list.last l))); set_solver.
    + set_solver.
    + set_solver.
    + intros Hx. apply (Hd (default k (list.head l))); set_solver.
Qed.

(** *** A memory of rings *)

(** The fields of [x] are what they were. *)
Definition same_node (m m' : dmem) (x : Z) : Prop :=
  d_next m' !! x = d_next m !! x ∧ d_prev m' !! x = d_prev m !! x.
Lemma same_node_link m m' a b x : x ≠ a → x ≠ b → same_node m m' x → same_node m (link a b m') x.
Proof. intros Ha Hb [H1 H2]. split; cbn; by rewrite lookup_insert_ne by congruence. Qed.
Lemma ring_same m m' h l : (∀ x, x ∈ h :: l → same_node m m' x) → ring m h l → ring m' h l.
Proof. intros Hs [Hnd Hl]. split; [done|]. apply (links_frame m); [apply Hs..|done]. Qed.

(** Some rings change; the others are out of reach of the change. *)
Lemma rings_change m m' R R' :
  rings m R →
  (∀ h l, R' !! h = Some l → ring m' h l ∨ R !! h = Some l ∧ ∀ x, x ∈ h :: l → same_node m m' x) →
  (∀ h1 h2 l1 l2 a, R' !! h1 = Some l1 → R' !! h2 = Some l2 → a ∈ h1 :: l1 → a ∈ h2 :: l2 → h1 = h2) →
  rings m' R'.
Proof.
  intros [Hat _] Hch Hd. split; [|done]. intros h l Hl.
  destruct (Hch _ _ Hl) as [?|[Ho Hs]]; [done|]. apply (ring_same m); [done|by apply Hat].
Qed.

Lemma rings_change1 m m' R h l l' :
  rings m R → R !! h = Some l → ring m' h l' →
  (∀ x, x ∈ l' → x ∈ l ∨ ∀ h2 l2, R !! h2 = Some l2 → x ∉ h2 :: l2) →
  (∀ x h2 l2, h2 ≠ h → R !! h2 = Some l2 → x ∈ h2 :: l2 → same_node m m' x) →
  rings m' (<[h := l']> R).
Proof.
  intros HR Hh Hring Hnew Hs. pose proof (rings_disj _ _ HR) as Hd. apply (rings_change m _ R); [done| |].
  - intros h2 l2 [[-> ->]|[Hne Hl2]]%lookup_insert_Some; [by left|right]. eauto.
  - assert (Hdl : ∀ h2 l2 a, h2 ≠ h → R !! h2 = Some l2 → a ∈ h :: l' → a ∈ h2 :: l2 → False).
    { intros h2 l2 a Hne Hl2 [->|Ha]%elem_of_cons Ha2.
      - apply Hne. eapply (Hd h2 h); [done..| |]; set_solver.
      - destruct (Hnew a Ha) as [Ha'|Hno]; [|by eapply Hno].
        apply Hne. eapply (Hd h2 h); [done..|]. set_solver. }
    intros h1 h2 l1 l2 a [[<- <-]|[Hn1 Hl1]]%lookup_insert_Some [[<- <-]|[Hn2 Hl2]]%lookup_insert_Some Ha1 Ha2;
      [done|exfalso; eauto..|eauto].
Qed.

(** ** Each operation acts on the lists *)

Section Operations.
Context (m : dmem) (R : gmap Z (list Z)).
Hypothesis HR : rings m R.

Lemma rings_mem h l x : R !! h = Some l → x ∈ h :: l → node_mem m x.
Proof using HR. intros Hl. apply ring_mem. by apply (rings_at _ _ HR). Qed.
Lemma ring_ends h l : R !! h = Some l →
  default h (list.head l) ∈ h :: l ∧ default h (list.last l) ∈ h :: l ∧
  d_next m !! h = Some (default h (list.head l)) ∧ d_prev m !! h = Some (default h (list.last l)).
Proof using HR.
  intros Hl. destruct (rings_at _ _ HR _ _ Hl) as [_ Hlk].
  destruct (links_first _ _ _ _ Hlk) as [H1 _], (links_last _ _ _ _ Hlk) as [_ H2].
  split_and!; [| |done..].
  - destruct l; cbn; set_solver.
  - destruct (list.last l) eqn:E; cbn; [|set_solver]. apply last_Some_elem_of in E. set_solver.
Qed.
(** A node of one ring is not a node of another. *)
Lemma rings_apart h1 h2 l1 l2 x y :
  h2 ≠ h1 → R !! h1 = Some l1 → R !! h2 = Some l2 → x ∈ h2 :: l2 → y ∈ h1 :: l1 → x ≠ y.
Proof using HR. intros Hne H1 H2 Hx Hy ->. apply Hne. by eapply (rings_disj _ _ HR). Qed.

(** Adding in front or at the end: what both share. *)
Lemma add_rings n h l l' p q :
  R !! h = Some l → spare m R n → p ∈ h :: l → q ∈ h :: l → (∀ x, x ∈ l' → x ∈ n :: l) →
  ring (link p n (link n q m)) h l' →
  ∃ m', __list_add n p q m = Ok (tt, m') ∧ rings m' (<[h := l']> R).
Proof using HR.
  intros Hh [Hn Hsp] Hp Hq Hl' Hring. eexists. split.
  { apply list_add_run; [done|by eapply rings_mem..]. }
  eapply rings_change1; [done..| |].
  - intros x [->|Hx]%Hl'%elem_of_cons; auto.
  - intros x h2 l2 Hne Hl2 Hx. assert (x ≠ n) by (intros ->; by eapply Hsp).
    apply same_node_link; [by apply (rings_apart h h2 l l2)|done|].
    apply same_node_link; [done|by apply (rings_apart h h2 l l2)|done].
Qed.
Lemma list_add_rings n h l :
  R !! h = Some l → spare m R n →
  ∃ m', list_add n h m = Ok (tt, m') ∧ rings m' (<[h := n :: l]> R).
Proof using HR.
  intros Hh Hn. destruct (ring_ends _ _ Hh) as (Hf & _ & Hnx & _).
  destruct (add_rings n h l (n :: l) h (default h (list.head l))) as (m' & Hrun & Hm');
    [done..|set_solver|done|set_solver| |].
  { apply ring_add; [by apply (rings_at _ _ HR)|by apply Hn]. }
  exists m'. split; [|done]. unfold list_add. by mstep (next_of_run _ _ _ Hnx).
Qed.
Lemma list_add_tail_rings n h l :
  R !! h = Some l → spare m R n →
  ∃ m', list_add_tail n h m = Ok (tt, m') ∧ rings m' (<[h := l ++ [n]]> R).
Proof using HR.
  intros Hh Hn. destruct (ring_ends _ _ Hh) as (_ & Hla & _ & Hpv).
  destruct (add_rings n h l (l ++ [n]) (default h (list.last l)) h) as (m' & Hrun & Hm');
    [done..|set_solver|set_solver| |].
  { apply ring_add_tail; [by apply (rings_at _ _ HR)|by apply Hn]. }
  exists m'. split; [|done]. unfold list_add_tail. by mstep (prev_of_run _ _ _ Hpv).
Qed.

(** Taking a node out leaves it spare, with its own pointers as they were. *)
Lemma unlink_rings n h l1 l2 :
  R !! h = Some (l1 ++ n :: l2) →
  ∃ m', unlink_entry n m = Ok (tt, m') ∧ rings m' (<[h := l1 ++ l2]> R) ∧
        spare m' (<[h := l1 ++ l2]> R) n.
Proof using HR.
  intros Hh. pose proof (rings_at _ _ HR _ _ Hh) as Hring. destruct (ring_del _ _ _ _ _ Hring) as ([Hp1 Hp2] & [Hq1 Hq2] & Hdel).
  set (p := default h (list.last l1)) in *. set (q := default h (list.head l2)) in *.
  assert (Hmem : ∀ x, x ∈ h :: l1 ++ n :: l2 → node_mem m x) by (intros; by eapply rings_mem).
  assert (Hp : p ∈ h :: l1 ++ n :: l2).
  { subst p. destruct (list.last l1) eqn:E; cbn; [apply last_Some_elem_of in E|]; set_solver. }
  assert (Hq : q ∈ h :: l1 ++ n :: l2) by (subst q; destruct l2; cbn; set_solver).
  exists (link p q m). split_and!.
  - unfold unlink_entry. mstep (prev_of_run _ _ _ Hp2). mstep (next_of_run _ _ _ Hq1).
    by apply list_del_run; apply Hmem.
  - eapply rings_change1; [done..| |].
    + intros x Hx. left. set_solver.
    + intros x h2 l3 Hne Hl3 Hx. by apply same_node_link; [apply (rings_apart h h2 (l1 ++ n :: l2) l3)..|].
  - split; [apply node_mem_link, Hmem; set_solver|]. intros h2 l3.
    rewrite lookup_insert_Some. intros [[<- <-]|[Hne Hl3]].
    + destruct Hring as [Hnd _]. clear -Hnd. rewrite app_comm_cons in Hnd |- *.
      apply list.NoDup_app in Hnd as (_ & Hd & [Hn _]%list.NoDup_cons). rewrite elem_of_app. set_solver.
    + intros Hx. eapply (rings_apart h h2 _ l3 n n); [done..| |done]; set_solver.
Qed.

(** A spare node becomes an empty list. *)
Lemma init_rings n : spare m R n →
  ∃ m', INIT_LIST_HEAD n m = Ok (tt, m') ∧ rings m' (<[n := []]> R).
Proof using HR.
  intros [Hn Hsp]. exists (link n n m). split; [by apply init_run|].
  assert (Hx : ∀ h l x, R !! h = Some l → x ∈ h :: l → x ≠ n) by (intros h l x Hl Hx ->; by eapply Hsp).
  apply (rings_change m _ R); [done| |].
  - intros h l [[<- <-]|[Hne Hl]]%lookup_insert_Some; [left|right].
    + split; [apply list.NoDup_singleton|apply linked_link].
    + split; [done|]. intros x Hin. by apply same_node_link; [eapply Hx..|].
  - intros h1 h2 l1 l2 a. rewrite !lookup_insert_Some.
    intros [[<- <-]|[Hn1 Hl1]] [[<- <-]|[Hn2 Hl2]] Ha1 Ha2; [done| | |by eapply (rings_disj _ _ HR)].
    + apply list_elem_of_singleton in Ha1 as ->. by destruct (Hsp _ _ Hl2).
    + apply list_elem_of_singleton in Ha2 as ->. by destruct (Hsp _ _ Hl1).
Qed.
End Operations.

(** The loops visit the nodes in order. *)
Lemma positions_next m fuel p l h :
  links m p l h → h ∉ l → (length l < fuel)%nat →
  positions next_of fuel (default h (list.head l)) h m = Ok (l, m).
Proof.
  revert p fuel. induction l as [|a l IH]; intros p fuel Hlk Hh Hf; (destruct fuel as [|fuel]; [cbn in Hf; lia|]);
    cbn [positions list.head from_option id].
  - by rewrite Z.eqb_refl.
  - destruct Hlk as [_ Hlk]. destruct (Z.eqb_spec a h) as [->|]; [set_solver|].
    destruct (links_first _ _ _ _ Hlk) as [Hn _]. mstep (next_of_run _ _ _ Hn).
    mstep (IH a fuel Hlk ltac:(set_solver) ltac:(cbn in Hf; lia)). done.
Qed.
Lemma positions_prev m fuel p l h :
  links m p l h → p ∉ l → (length l < fuel)%nat →
  positions prev_of fuel (default p (list.last l)) p m = Ok (reverse l, m).
Proof.
  revert h fuel. induction l as [|a l IH] using rev_ind; intros h fuel Hlk Hp Hf;
    (destruct fuel as [|fuel]; [cbn in Hf; lia|]); cbn [positions].
  - cbn. by rewrite Z.eqb_refl.
  - rewrite list.last_snoc, reverse_snoc. cbn [from_option id]. apply links_app in Hlk as [Hlk _].
    destruct (Z.eqb_spec a p) as [->|]; [set_solver|]. rewrite length_app in Hf. cbn in Hf.
    destruct (links_last _ _ _ _ Hlk) as [_ Hn]. mstep (prev_of_run _ _ _ Hn).
    mstep (IH a fuel Hlk ltac:(set_solver) ltac:(lia)). done.
Qed.

Section Splice.
Context (m : dmem) (R : gmap Z (list Z)).
Hypothesis HR : rings m R.

(** The nodes of the list [k] move in front of those of [h]; [k] itself is spare. *)
Lemma splice_rings k h l r :
  R !! k = Some l → R !! h = Some r → k ≠ h → l ≠ [] →
  ∃ m', __list_splice k h m = Ok (tt, m') ∧ rings m' (delete k (<[h := l ++ r]> R)) ∧
        spare m' (delete k (<[h := l ++ r]> R)) k.
Proof using HR.
  intros Hk Hh Hne Hl. destruct (ring_ends _ _ HR _ _ Hk) as (_ & Hla & Hk1 & Hk2).
  destruct (ring_ends _ _ HR _ _ Hh) as (Hat & _ & Hh1 & _).
  assert (Hdisj : ∀ x, x ∈ k :: l → x ∉ h :: r).
  { intros x Hx Hx'. apply Hne. by eapply (rings_disj _ _ HR). }
  pose proof (ring_splice _ _ _ _ _ (rings_at _ _ HR _ _ Hk) (rings_at _ _ HR _ _ Hh) Hl Hdisj) as Hring.
  assert (Hfi : default k (list.head l) ∈ l) by (destruct l; cbn; [done|set_solver]).
  set (first := default k (list.head l)) in *. set (last := default k (list.last l)) in *.
  set (at_ := default h (list.head r)) in *.
  assert (Hmk : ∀ x, x ∈ k :: l → node_mem m x) by (intros x; exact (rings_mem m R HR k l x Hk)).
  assert (Hmh : ∀ x, x ∈ h :: r → node_mem m x) by (intros x; exact (rings_mem m R HR h r x Hh)).
  assert (Hd : ∀ h2 l2 a, h2 ≠ k → h2 ≠ h → R !! h2 = Some l2 → a ∈ h2 :: l2 → a ∉ k :: l ∧ a ∉ h :: r).
  { intros h2 l2 a N1 N2 Hl2 Ha. split; intros Ha';
      [eapply (rings_apart m R HR k h2)|eapply (rings_apart m R HR h h2)]; done. }
  exists (link last at_ (link h first m)). split_and!.
  - unfold __list_splice. mstep (next_of_run _ _ _ Hk1). mstep (prev_of_run _ _ _ Hk2).
    mstep (next_of_run _ _ _ Hh1).
    mstep (set_prevp_run m first h (proj2 (Hmk first ltac:(apply elem_of_cons; by right)))).
    mstep (set_nextp_run (upd_prev first h m) h first (proj1 (Hmh h ltac:(apply elem_of_cons; by left)))).
    destruct (node_mem_link m h first last ltac:(by apply Hmk)) as [Hs1 _].
    destruct (node_mem_link m h first at_ ltac:(by apply Hmh)) as [_ Hs2].
    mstep (set_nextp_run (upd_next h first (upd_prev first h m)) last at_ Hs1).
    exact (set_prevp_run (upd_next last at_ (upd_next h first (upd_prev first h m))) at_ last Hs2).
  - apply (rings_change m _ R); [done| |].
    + intros h2 l2 [Hnk [[<- <-]|[Hnh Hl2]]%lookup_insert_Some]%lookup_delete_Some; [by left|right].
      split; [done|]. intros x Hx. destruct (Hd h2 l2 x) as [Hx1 Hx2]; [done..|].
      apply same_node_link; [intros ->; by apply Hx1|intros ->; by apply Hx2|].
      apply same_node_link; [| |done].
      * intros ->. apply Hx2. set_solver.
      * intros ->. apply Hx1, elem_of_cons. by right.
    + intros h1 h2 l1 l2 a. rewrite !lookup_delete_Some, !lookup_insert_Some.
      intros [N1 [[<- <-]|[M1 Hl1]]] [N2 [[<- <-]|[M2 Hl2]]] Ha1 Ha2; [done| | |by eapply (rings_disj _ _ HR)].
      * destruct (Hd h2 l2 a) as [Hx1 Hx2]; [done..|]. set_solver.
      * destruct (Hd h1 l1 a) as [Hx1 Hx2]; [done..|]. set_solver.
  - split; [apply node_mem_link, node_mem_link, Hmk; set_solver|].
    intros h2 l2 [Hnk [[<- <-]|[Hnh Hl2]]%lookup_insert_Some]%lookup_delete_Some Hx.
    + destruct (rings_at _ _ HR _ _ Hk) as [[Hkl _]%list.NoDup_cons _]. set_solver.
    + destruct (Hd h2 l2 k) as [Hx1 Hx2]; [done..|]. set_solver.
Qed.
End Splice.

(** * Properties *)

(** C33. The list operations act on the lists the rings stand for: adding in front and at
    the end, deleting with a fresh empty list left behind, moving within a list or
    to another, splicing, and the two loops.  Every other list stays as it is. *)
Theorem list_operations_refine m R h l n :
  rings m R → R !! h = Some l →
  (spare m R n →
    (∃ m', list_add n h m = Ok (tt, m') ∧ rings m' (<[h := n :: l]> R)) ∧
    (∃ m', list_add_tail n h m = Ok (tt, m') ∧ rings m' (<[h := l ++ [n]]> R))) ∧
  (∀ l1 l2, l = l1 ++ n :: l2 →
    (∃ m', list_del_init n m = Ok (tt, m') ∧ rings m' (<[n := []]> (<[h := l1 ++ l2]> R))) ∧
    (∀ h2 r, <[h := l1 ++ l2]> R !! h2 = Some r →
      (∃ m', list_move n h2 m = Ok (tt, m') ∧ rings m' (<[h2 := n :: r]> (<[h := l1 ++ l2]> R))) ∧
      (∃ m', list_move_tail n h2 m = Ok (tt, m') ∧ rings m' (<[h2 := r ++ [n]]> (<[h := l1 ++ l2]> R))))) ∧
  (∀ h2 r, R !! h2 = Some r → h ≠ h2 →
    ∃ m', list_splice_init h h2 m = Ok (tt, m') ∧ rings m' (<[h := []]> (<[h2 := l ++ r]> R))) ∧
  list_for_each (S (length l)) h m = Ok (l, m) ∧
  list_for_each_prev (S (length l)) h m = Ok (reverse l, m).
Proof.
  intros HR Hh. split_and!.
  - intros Hn. split; [by apply list_add_rings|by apply list_add_tail_rings].
  - intros l1 l2 ->. destruct (unlink_rings _ _ HR _ _ _ _ Hh) as (m1 & Hrun & Hm1 & Hsp). split.
    + destruct (init_rings _ _ Hm1 _ Hsp) as (m2 & Hi & Hm2). exists m2. split; [|done].
      unfold list_del_init. by mstep Hrun.
    + intros h2 r Hh2. unfold list_move, list_move_tail.
      destruct (list_add_rings _ _ Hm1 _ _ _ Hh2 Hsp) as (m2 & Ha & Hm2).
      destruct (list_add_tail_rings _ _ Hm1 _ _ _ Hh2 Hsp) as (m3 & Ht & Hm3).
      split; [exists m2|exists m3]; (split; [by mstep Hrun|done]).
  - intros h2 r Hh2 Hne. unfold list_splice_init, list_empty.
    destruct (ring_ends _ _ HR _ _ Hh) as (_ & _ & Hnx & _). destruct l as [|a l].
    + exists m. split.
      * etransitivity; [refine (bind_ok _ _ _ true m _)|done]. mstep (next_of_run _ _ _ Hnx).
        cbn. by rewrite Z.eqb_refl.
      * cbn [app]. by rewrite (insert_id R h2 r), (insert_id R h []).
    + destruct (splice_rings _ _ HR h h2 _ _ Hh Hh2 Hne) as (m1 & Hs & Hm1 & Hsp); [done|].
      destruct (init_rings _ _ Hm1 _ Hsp) as (m2 & Hi & Hm2). exists m2. split.
      * etransitivity; [refine (bind_ok _ _ _ false m _)|by mstep Hs]. mstep (next_of_run _ _ _ Hnx).
        cbn. destruct (rings_at _ _ HR _ _ Hh) as [[Hha _]%list.NoDup_cons _].
        by rewrite (proj2 (Z.eqb_neq a h)) by set_solver.
      * by rewrite insert_delete_eq in Hm2.
  - destruct (rings_at _ _ HR _ _ Hh) as [[Hhl _]%list.NoDup_cons Hlk].
    destruct (links_first _ _ _ _ Hlk) as [Hn _]. unfold list_for_each. mstep (next_of_run _ _ _ Hn).
    apply (positions_next m _ h); [done..|lia].
  - destruct (rings_at _ _ HR _ _ Hh) as [[Hhl _]%list.NoDup_cons Hlk].
    destruct (links_last _ _ _ _ Hlk) as [_ Hn]. unfold list_for_each_prev. mstep (prev_of_run _ _ _ Hn).
    apply (positions_prev m _ h _ h); [done..|lia].
Qed.
