(* ===== verification/Types.v ===== *)
(** * Data structures

    The structures of [include/hsfs.h], [include/hsfs/hsi_nfs.h] and
    [include/conn.h], the NFSv3 protocol types of [nfs3/nfs3.x] the client reads
    and writes, and the state of the process: the heap of inodes, the super
    block, the RPC clients, and the part of the world outside the program (the
    server behind the RPC library, the allocator), which is a parameter. *)

From S2P Require Import Prelude.

(** ** Constants *)

Definition EPERM : Z := 1.
Definition ENOENT : Z := 2.
Definition EIO : Z := 5.
Definition ENXIO : Z := 6.
Definition EAGAIN : Z := 11.
Definition ENOMEM : Z := 12.
Definition EACCES : Z := 13.
Definition EEXIST : Z := 17.
Definition EXDEV : Z := 18.
Definition ENODEV : Z := 19.
Definition ENOTDIR : Z := 20.
Definition EISDIR : Z := 21.
Definition EINVAL : Z := 22.
Definition EFBIG : Z := 27.
Definition ENOSPC : Z := 28.
Definition EROFS : Z := 30.
Definition EMLINK : Z := 31.
Definition ERANGE : Z := 34.
Definition ENAMETOOLONG : Z := 36.
Definition ENOTEMPTY : Z := 39.
Definition ENODATA : Z := 61.
Definition EREMOTE : Z := 66.
Definition EOPNOTSUPP : Z := 95.
Definition ECONNRESET : Z := 104.
Definition ENOTCONN : Z := 107.
Definition ESTALE : Z := 116.
Definition EDQUOT : Z := 122.

Definition S_IFMT : Z := 0xf000.
Definition S_IFSOCK : Z := 0xc000.
Definition S_IFLNK : Z := 0xa000.
Definition S_IFREG : Z := 0x8000.
Definition S_IFBLK : Z := 0x6000.
Definition S_IFDIR : Z := 0x4000.
Definition S_IFCHR : Z := 0x2000.
Definition S_IFIFO : Z := 0x1000.
(** [S_IRWXU|S_IRWXG|S_IRWXO], and the same with setuid, setgid and sticky. *)
Definition S_IRWXUGO : Z := 0x1ff.
Definition S_IALLUGO : Z := 0xfff.
Definition S_ISREG (m : Z) : bool := m & S_IFMT =? S_IFREG.
Definition S_ISDIR (m : Z) : bool := m & S_IFMT =? S_IFDIR.

Definition LLONG_MAX : Z := 2 ^ 63 - 1.
Definition INT_MIN : Z := - 2 ^ 31.

(** [hsfs_iattr.valid], hsfs.h. *)
Definition HSFS_ATTR_MODE : Z := 2 ^ 0.
Definition HSFS_ATTR_UID : Z := 2 ^ 1.
Definition HSFS_ATTR_GID : Z := 2 ^ 2.
Definition HSFS_ATTR_SIZE : Z := 2 ^ 3.
Definition HSFS_ATTR_ATIME : Z := 2 ^ 4.
Definition HSFS_ATTR_MTIME : Z := 2 ^ 5.
Definition HSFS_ATTR_CTIME : Z := 2 ^ 6.
Definition HSFS_ATTR_ATIME_SET : Z := 2 ^ 7.
Definition HSFS_ATTR_MTIME_SET : Z := 2 ^ 8.

Definition I_NEW : Z := 2 ^ 3.

(** The tests of hsfs.h on a [valid] mask. *)
Definition S_ISSETMODE (to_set : Z) : bool := flag to_set HSFS_ATTR_MODE.
Definition S_ISSETUID (to_set : Z) : bool := flag to_set HSFS_ATTR_UID.
Definition S_ISSETGID (to_set : Z) : bool := flag to_set HSFS_ATTR_GID.
Definition S_ISSETSIZE (to_set : Z) : bool := flag to_set HSFS_ATTR_SIZE.
Definition S_ISSETATIME (to_set : Z) : bool := flag to_set HSFS_ATTR_ATIME_SET.
Definition S_ISSETMTIME (to_set : Z) : bool := flag to_set HSFS_ATTR_MTIME_SET.
Definition S_ISSETATIMENOW (to_set : Z) : bool := flag to_set HSFS_ATTR_ATIME.
Definition S_ISSETMTIMENOW (to_set : Z) : bool := flag to_set HSFS_ATTR_MTIME.

(** [nfs_fattr.valid], hsi_nfs.h. *)
Definition NFS_ATTR_FATTR_TYPE : Z := 2 ^ 0.
Definition NFS_ATTR_FATTR_MODE : Z := 2 ^ 1.
Definition NFS_ATTR_FATTR_NLINK : Z := 2 ^ 2.
Definition NFS_ATTR_FATTR_OWNER : Z := 2 ^ 3.
Definition NFS_ATTR_FATTR_GROUP : Z := 2 ^ 4.
Definition NFS_ATTR_FATTR_RDEV : Z := 2 ^ 5.
Definition NFS_ATTR_FATTR_SIZE : Z := 2 ^ 6.
Definition NFS_ATTR_FATTR_SPACE_USED : Z := 2 ^ 9.
Definition NFS_ATTR_FATTR_FSID : Z := 2 ^ 10.
Definition NFS_ATTR_FATTR_FILEID : Z := 2 ^ 11.
Definition NFS_ATTR_FATTR_ATIME : Z := 2 ^ 12.
Definition NFS_ATTR_FATTR_MTIME : Z := 2 ^ 13.
Definition NFS_ATTR_FATTR_CTIME : Z := 2 ^ 14.
Definition NFS_ATTR_FATTR_CHANGE : Z := 2 ^ 17.
Definition NFS_ATTR_FATTR : Z :=
  NFS_ATTR_FATTR_TYPE `bor` NFS_ATTR_FATTR_MODE `bor` NFS_ATTR_FATTR_NLINK
  `bor` NFS_ATTR_FATTR_OWNER `bor` NFS_ATTR_FATTR_GROUP `bor` NFS_ATTR_FATTR_RDEV
  `bor` NFS_ATTR_FATTR_SIZE `bor` NFS_ATTR_FATTR_FSID `bor` NFS_ATTR_FATTR_FILEID
  `bor` NFS_ATTR_FATTR_ATIME `bor` NFS_ATTR_FATTR_MTIME `bor` NFS_ATTR_FATTR_CTIME.
Definition NFS_ATTR_FATTR_V3 : Z := NFS_ATTR_FATTR `bor` NFS_ATTR_FATTR_SPACE_USED.
Definition NFS_ATTR_FATTR_V4 : Z :=
  NFS_ATTR_FATTR `bor` NFS_ATTR_FATTR_SPACE_USED `bor` NFS_ATTR_FATTR_CHANGE.

Definition NFS_INO_STALE : Z := 2 ^ 1.
Definition NFS_MAXFHSIZE : Z := 128.

(** ** hsfs.h and hsi_nfs.h *)

Record timespec := { tv_sec : Z; tv_nsec : Z }.

Record hsfs_iattr := {
  ia_valid : Z; ia_mode : Z; ia_uid : Z; ia_gid : Z; ia_size : Z;
  ia_atime : timespec; ia_mtime : timespec; ia_ctime : timespec;
}.

(** The two [hlist_node] members are the membership of the inode in the two hash
    tables of the super block. *)
Record hsfs_inode := {
  i_sb : Z; i_iattr : hsfs_iattr; i_state : Z; i_nlink : Z; i_blocks : Z;
  i_private : Z; i_count : Z; real_ino : Z; i_blkbits : Z; i_ino : Z;
  i_rdev : Z; i_generation : Z;
}.

Record nfs_fh := { fh_size : Z; fh_data : list Z }.

(** The bytes of a file handle: the first [size] bytes of its array. *)
Definition fh_bytes (fh : nfs_fh) : list Z := take (Z.to_nat (fh_size fh)) (fh_data fh).

Record nfs_fattr := {
  fa_valid : Z; fa_mode : Z; fa_nlink : Z; fa_uid : Z; fa_gid : Z; fa_rdev : Z;
  fa_size : Z;
  (** the 8 bytes of the union [du]: [nfs3.used], or the pair [nfs2] *)
  fa_du : Z;
  fa_fsid_major : Z; fa_fsid_minor : Z; fa_fileid : Z;
  fa_atime : timespec; fa_mtime : timespec; fa_ctime : timespec;
}.

Record nfs_inode := {
  n_fileid : Z; n_fh : nfs_fh; n_flags : Z; n_attrtimeo : Z;
  n_inode : hsfs_inode; n_cookieverf : Z;
}.

(** ** NFSv3 protocol types (nfs3.x) *)

Definition NFS3_FHSIZE : Z := 64.
Definition NF3REG : Z := 1.
Definition NF3DIR : Z := 2.
Definition NF3BLK : Z := 3.
Definition NF3CHR : Z := 4.
Definition NF3LNK : Z := 5.
Definition NF3SOCK : Z := 6.
Definition NF3FIFO : Z := 7.

Record nfstime3 := { seconds : Z; nseconds : Z }.
Record fattr3 := {
  f3_type : Z; f3_mode : Z; f3_nlink : Z; f3_uid : Z; f3_gid : Z; f3_size : Z;
  f3_used : Z; f3_rdev_major : Z; f3_rdev_minor : Z; f3_fsid : Z; f3_fileid : Z;
  f3_atime : nfstime3; f3_mtime : nfstime3; f3_ctime : nfstime3;
}.
(** [post_op_attr] and [post_op_fh3]: optional data; a file handle is its bytes. *)
Definition post_op_attr := option fattr3.
Definition post_op_fh3 := option (list Z).

Inductive time_how := DONT_CHANGE | SET_TO_SERVER_TIME | SET_TO_CLIENT_TIME (t : nfstime3).
(** A field that is [None] is not set. *)
Record sattr3 := {
  sa_mode : option Z; sa_uid : option Z; sa_gid : option Z; sa_size : option Z;
  sa_atime : time_how; sa_mtime : time_how;
}.
Record diropargs3 := { do_dir : list Z; do_name : string }.
Inductive createhow3 :=
| CREATE_ATTR (mode : Z) (obj_attributes : sattr3)
| CREATE_EXCLUSIVE (verf : Z).
Inductive mknoddata3 :=
| MKNOD_DEVICE (type : Z) (attr : sattr3) (major minor : Z)
| MKNOD_PIPE (type : Z) (attr : sattr3)
| MKNOD_OTHER (type : Z).

(** A result union: the [resok] arm, or a failure status (not [NFS3_OK]). *)
Inductive nfs3res (A : Type) :=
| Res_ok (a : A)
| Res_fail (status : Z).
Arguments Res_ok {A} a.
Arguments Res_fail {A} status.

Record lookup3resok := { lk_object : list Z; lk_obj_attributes : post_op_attr }.
Record read3resok := { rd_count : Z; rd_eof : Z; rd_data : list Z }.
Record write3resok := { wr_count : Z }.
Record diropres3ok := { dr_obj : post_op_fh3; dr_obj_attributes : post_op_attr }.
Record entry3 := { e_fileid : Z; e_name : string; e_cookie : Z }.
Record readdir3resok := {
  rr_dir_attributes : post_op_attr; rr_cookieverf : Z; rr_entries : list entry3 }.
Record entryplus3 := {
  ep_entry : entry3; ep_name_attributes : post_op_attr; ep_name_handle : post_op_fh3 }.
Record readdirplus3resok := {
  rp_dir_attributes : post_op_attr; rp_cookieverf : Z; rp_entries : list entryplus3 }.
Record fsstat3resok := {
  fs_tbytes : Z; fs_fbytes : Z; fs_abytes : Z; fs_tfiles : Z; fs_ffiles : Z; fs_afiles : Z }.
Record fsinfo3resok := {
  fi_obj_attributes : post_op_attr; fi_rtmax : Z; fi_rtpref : Z; fi_rtmult : Z;
  fi_wtmax : Z; fi_wtpref : Z; fi_wtmult : Z; fi_dtpref : Z; fi_maxfilesize : Z;
  fi_time_delta : nfstime3; fi_properties : Z }.

(** acl3.x: an entry of an ACL and the two ACLs of a file, with a mask that says
    which of the fields count. *)
Record aclent := { ae_type : Z; ae_id : Z; ae_perm : Z }.
Record secattr := {
  sc_mask : Z; sc_aclcnt : Z; sc_aclent : list aclent; sc_dfaclcnt : Z; sc_dfaclent : list aclent }.

(** The procedures of the NFSv3 program and of the ACL program with their arguments,
    indexed by the type of their results. *)
Inductive nfs3_call : Type → Type :=
| NFSPROC3_NULL : nfs3_call unit
| NFSPROC3_GETATTR (fh : list Z) : nfs3_call (nfs3res fattr3)
| NFSPROC3_SETATTR (fh : list Z) (a : sattr3) : nfs3_call (nfs3res post_op_attr)
| NFSPROC3_LOOKUP (what : diropargs3) : nfs3_call (nfs3res lookup3resok)
| NFSPROC3_ACCESS (fh : list Z) (access : Z) : nfs3_call (nfs3res Z)
| NFSPROC3_READLINK (fh : list Z) : nfs3_call (nfs3res string)
| NFSPROC3_READ (fh : list Z) (offset count : Z) : nfs3_call (nfs3res read3resok)
| NFSPROC3_WRITE (fh : list Z) (offset count stable : Z) (data : list Z) :
    nfs3_call (nfs3res write3resok)
| NFSPROC3_CREATE (where_ : diropargs3) (how : createhow3) : nfs3_call (nfs3res diropres3ok)
| NFSPROC3_MKDIR (where_ : diropargs3) (attributes : sattr3) : nfs3_call (nfs3res diropres3ok)
| NFSPROC3_SYMLINK (where_ : diropargs3) (attributes : sattr3) (data : string) :
    nfs3_call (nfs3res diropres3ok)
| NFSPROC3_MKNOD (where_ : diropargs3) (what : mknoddata3) : nfs3_call (nfs3res diropres3ok)
| NFSPROC3_REMOVE (object : diropargs3) : nfs3_call (nfs3res unit)
| NFSPROC3_RMDIR (object : diropargs3) : nfs3_call (nfs3res unit)
| NFSPROC3_RENAME (from to : diropargs3) : nfs3_call (nfs3res unit)
| NFSPROC3_LINK (fh : list Z) (link : diropargs3) : nfs3_call (nfs3res post_op_attr)
| NFSPROC3_READDIR (fh : list Z) (cookie verf count : Z) : nfs3_call (nfs3res readdir3resok)
| NFSPROC3_READDIRPLUS (fh : list Z) (cookie verf dircount maxcount : Z) :
    nfs3_call (nfs3res readdirplus3resok)
| NFSPROC3_FSSTAT (fh : list Z) : nfs3_call (nfs3res fsstat3resok)
| NFSPROC3_FSINFO (fh : list Z) : nfs3_call (nfs3res fsinfo3resok)
| NFSPROC3_PATHCONF (fh : list Z) : nfs3_call (nfs3res Z)
| ACLPROC3_GETACL (fh : list Z) (mask : Z) : nfs3_call (nfs3res secattr)
| ACLPROC3_SETACL (fh : list Z) (acl : secattr) : nfs3_call (nfs3res unit).

(** [clnt_call]: the decoded results, or a failure with the [re_errno] that
    [clnt_geterr] reports for it. *)
Inductive clnt_stat (R : Type) :=
| RPC_SUCCESS (out : R)
| RPC_FAILED (re_errno : Z).
Arguments RPC_SUCCESS {R} out.
Arguments RPC_FAILED {R} re_errno.

(** ** conn.h *)

Record pmap := { pm_prog : Z; pm_vers : Z; pm_prot : Z; pm_port : Z }.
Record sockaddr_in := { sin_addr : Z; sin_port : Z }.
Record clnt_addr_t := { ca_saddr : sockaddr_in; ca_pmap : pmap }.

(** ** The super block *)

Record hsfs_super := {
  fh_table : list (list Z); id_table : list (list Z);
  curr_id : Z; clntp : Z; acl_clntp : Z; sb_flags : Z;
  rsize : Z; wsize : Z; timeo : Z; retrans : Z;
  acregmin : Z; acregmax : Z; acdirmin : Z; acdirmax : Z;
  sb_saddr : sockaddr_in; namlen : Z; dtsize : Z; bsize : Z; bsize_bits : Z; sb_root : Z;
  rtmax : Z; rtpref : Z; rtmult : Z; wtmax : Z; wtpref : Z; wtmult : Z; dtpref : Z;
  maxfilesize : Z; time_delta : nfstime3; properties : Z;
  tbytes : Z; fbytes : Z; abytes : Z; tfiles : Z; ffiles : Z; afiles : Z;
}.

(** ** FUSE *)

Record stat := {
  st_dev : Z; st_ino : Z; st_mode : Z; st_nlink : Z; st_uid : Z; st_gid : Z; st_rdev : Z;
  st_size : Z; st_blksize : Z; st_blocks : Z;
  st_atim : timespec; st_mtim : timespec; st_ctim : timespec;
}.
Record statvfs := {
  f_bsize : Z; f_frsize : Z; f_blocks : Z; f_bfree : Z; f_bavail : Z; f_files : Z;
  f_ffree : Z; f_favail : Z; f_fsid : Z; f_flag : Z; f_namemax : Z;
}.
Record fuse_entry_param := {
  fe_ino : Z; fe_generation : Z; fe_attr : stat; fe_attr_timeout : Z; fe_entry_timeout : Z }.
Record fuse_file_info := { fi_flags : Z; fi_fh : Z; fi_direct_io : bool }.

(** An entry of a directory buffer, plain or with its attributes. *)
Inductive dirent :=
| Dirent (name : string) (ino off : Z)
| DirentPlus (name : string) (e : fuse_entry_param) (off : Z).

(** What a handler sends back for a request. *)
Inductive fuse_reply :=
| reply_err (err : Z)
| reply_none
| reply_entry (e : fuse_entry_param)
| reply_create (e : fuse_entry_param) (fi : fuse_file_info)
| reply_attr (st : stat) (timeout : Z)
| reply_readlink (link : string)
| reply_open (fi : fuse_file_info)
| reply_write (count : Z)
| reply_buf (data : list Z)
| reply_xattr (count : Z)
| reply_dirbuf (entries : list dirent) (len : Z)
| reply_statfs (st : statvfs).

(** ** The world outside *)

(** What the program calls and does not define: the allocator and the RPC library
    with the server behind it.  [est] is their state. *)
Class Env := {
  est : Type;
  (** the addresses of the super block and of [bad_hsfs_inode] *)
  sb_addr : Z;
  bad_hsfs_inode : Z;
  (** [malloc(size)] given the addresses in use; [None] is NULL *)
  env_malloc : Z → gset Z → est → option Z * est;
  (** [clntudp_bufcreate]/[clnttcp_create]: a new client handle *)
  env_clnt_create : bool → clnt_addr_t → Z → Z → gset Z → est → option Z * est;
  env_authunix_create : est → bool * est;
  (** [clnt_call(clnt, proc, args, timeout)] *)
  env_clnt_call : ∀ R, Z → nfs3_call R → Z * Z → est → clnt_stat R * est;
  (** the contents of a stack variable before it is written *)
  stack_fattr : nfs_fattr;
  stack_fh : nfs_fh;
  stack_stat : stat;
  stack_iattr : hsfs_iattr;
  (** the contents of memory from [malloc] before it is written *)
  heap_junk : nfs_inode;
  heap_byte : Z;
  (** the bytes [fuse_add_direntry] and [fuse_add_direntry_plus] need for a name *)
  direntry_size : string → Z;
  direntry_plus_size : string → Z;
}.
Arguments env_clnt_call {_ R}.

(** What the program relies on in the outside world: [malloc] returns an address
    that is not NULL, not in use, in the user half of the address space and
    clear of the static object [bad_hsfs_inode]; a new client handle is new. *)
Class EnvOk (E : Env) : Prop := {
  bad_inode_user : 4096 <= bad_hsfs_inode ∧ bad_hsfs_inode + 4096 < 2 ^ 47;
  malloc_fresh : ∀ size used e a e', env_malloc size used e = (Some a, e') →
    a ∉ used ∧ 0 < a < 2 ^ 47 ∧ ¬ (bad_hsfs_inode - 4096 < a < bad_hsfs_inode + 4096);
  create_fresh : ∀ t addr s r used e a e',
    env_clnt_create t addr s r used e = (Some a, e') → a ∉ used ∧ a ≠ 0;
  stack_fh_size : length (fh_data stack_fh) = Z.to_nat NFS_MAXFHSIZE;
}.

(** ** The state of the process *)

Section World.
Context {E : Env}.

Record world := {
  (** live [struct nfs_inode]s, by the address of their [hsfs_inode] *)
  w_heap : gmap Z nfs_inode;
  w_sb : hsfs_super;
  (** live RPC client handles *)
  w_clients : gset Z;
  (** the static variables of hsi_nfs3_mount.c *)
  nfs_server_bak : clnt_addr_t;
  acl_server_bak : clnt_addr_t;
  ssize_bak : Z;
  rsize_bak : Z;
  (** [HSFS_PAGE_SIZE], set by [hsfs_init] *)
  w_page_size : Z;
  (** replies sent, latest first *)
  w_replies : list fuse_reply;
  w_est : est;
}.

Definition load (a : Z) : M world nfs_inode := λ w,
  match w_heap w !! a with Some n => Ok (n, w) | None => UB end.
Definition upd (a : Z) (f : nfs_inode → nfs_inode) : M world unit := λ w,
  match w_heap w !! a with
  | Some n => Ok (tt, w <| w_heap ::= <[a := f n]> |>)
  | None => UB
  end.
(** [inode->field] and [inode->field = v] for the embedded [hsfs_inode]. *)
Definition get_inode (a : Z) : M world hsfs_inode := n ← load a; mret (n_inode n).
Definition upd_inode (a : Z) (f : hsfs_inode → hsfs_inode) : M world unit :=
  upd a (λ n, n <| n_inode ::= f |>).
Definition get_sb : M world hsfs_super := gets w_sb.
Definition upd_sb (f : hsfs_super → hsfs_super) : M world unit :=
  modify (λ w, w <| w_sb ::= f |>).
(** Dereferencing [inode->sb]. *)
Definition inode_sb (a : Z) : M world hsfs_super :=
  i ← get_inode a; if i_sb i =? sb_addr then get_sb else ub.

(** A call of the outside world. *)
Definition ext {A} (f : est → A * est) : M world A := λ w,
  let '(a, e) := f (w_est w) in Ok (a, w <| w_est := e |>).
(** [malloc] of a buffer that holds no inode: only its success matters. *)
Definition malloc_buf (size : Z) : M world bool :=
  h ← gets w_heap; r ← ext (env_malloc size (dom h)); mret (bool_decide (is_Some r)).
(** [malloc] of an inode and [free] of it. *)
Definition malloc_inode (size : Z) (contents : nfs_inode) : M world Z :=
  h ← gets w_heap; r ← ext (env_malloc size (dom h));
  match r with
  | Some a => modify (λ w, w <| w_heap ::= <[a := contents]> |>);; mret a
  | None => mret 0
  end.
Definition free_inode (a : Z) : M world unit :=
  _ ← load a; modify (λ w, w <| w_heap ::= delete a |>).
Definition reply (r : fuse_reply) : M world unit :=
  modify (λ w, w <| w_replies ::= cons r |>).

(** [malloc] does not fail while these addresses are in use. *)
Definition memory_plenty (used : gset Z) : Prop := ∀ size e, is_Some (env_malloc size used e).1.

Lemma malloc_buf_any w size : ∃ ok e, malloc_buf size w = Ok (ok, w <| w_est := e |>) ∧
  (memory_plenty (dom (w_heap w)) → ok = true).
Proof.
  destruct (env_malloc size (dom (w_heap w)) (w_est w)) as [o e] eqn:Hm.
  exists (bool_decide (is_Some o)), e. split.
  { unfold malloc_buf. mstep.
    assert (ext (env_malloc size (dom (w_heap w))) w = Ok (o, w <| w_est := e |>)) as He
      by (unfold ext; by rewrite Hm).
    by mstep He. }
  intros Hp.
  apply bool_decide_eq_true. specialize (Hp size (w_est w)). by rewrite Hm in Hp.
Qed.
End World.
