(* ===== verification/ErrPtr.v ===== *)
(** * Error pointers

    [include/hsfs/err.h]: an errno stored in a pointer, as an offset from the
    static object [bad_hsfs_inode]. *)

From S2P Require Import Prelude Types.

Section ErrPtr.
Context {E : Env}.

(** [sizeof(struct hsfs_inode)] on a 64-bit Linux target: 8 (sb), 72 (iattr),
    4 + 4, 8, 2 * 16 (the two hash nodes), 8, 4 (+ 4 padding), 8, 4 (+ 4), 8, 8, 8. *)
Definition sizeof_hsfs_inode : Z := 184.
Definition MAX_ERRNO : Z := sizeof_hsfs_inode.

Definition IS_ERR_VALUE (x : Z) : bool := wrap 64 (- MAX_ERRNO) <=? x.

(** Both branches of the source subtract. *)
Definition ERR_PTR (error : Z) : M world Z :=
  let tmp := wrap 64 (bad_hsfs_inode - error) in
  c_assert (tmp <? bad_hsfs_inode + sizeof_hsfs_inode);;
  mret tmp.

Definition PTR_ERR (ptr : Z) : Z := sint 64 ptr - sint 64 bad_hsfs_inode.

Definition IS_ERR (ptr : Z) : bool := IS_ERR_VALUE ptr.
Definition IS_ERR_OR_NULL (ptr : Z) : bool := (ptr =? 0) || IS_ERR_VALUE ptr.

(** * Properties *)

Lemma ERR_PTR_run `{!EnvOk E} error w :
  - 184 < error < 4096 → ERR_PTR error w = Ok (bad_hsfs_inode - error, w).
Proof.
  intros He. pose proof bad_inode_user as [H1 H2]. unfold ERR_PTR.
  assert (2 ^ 47 < 2 ^ 64) by (vm_compute; reflexivity).
  rewrite wrap_small by (unfold in_range; lia). unfold sizeof_hsfs_inode, c_assert.
  destruct (Z.ltb_spec (bad_hsfs_inode - error) (bad_hsfs_inode + 184)); [done|lia].
Qed.

Lemma PTR_ERR_small `{!EnvOk E} d :
  - 4096 < d < 4096 → PTR_ERR (bad_hsfs_inode + d) = d.
Proof.
  intros Hd. pose proof bad_inode_user as [H1 H2]. unfold PTR_ERR, sint.
  assert (2 ^ 47 < 2 ^ (64 - 1)) by (vm_compute; reflexivity).
  assert (2 ^ (64 - 1) < 2 ^ 64) by (vm_compute; reflexivity).
  rewrite !wrap_small by (unfold in_range; lia).
  destruct (Z.ltb_spec (bad_hsfs_inode + d) (2 ^ (64 - 1))); [|lia].
  destruct (Z.ltb_spec bad_hsfs_inode (2 ^ (64 - 1))); [lia|lia].
Qed.

Lemma IS_ERR_user ptr : 0 <= ptr < 2 ^ 47 → IS_ERR ptr = false.
Proof.
  intros Hp. unfold IS_ERR, IS_ERR_VALUE. apply Z.leb_gt.
  change (wrap 64 (- MAX_ERRNO)) with (2 ^ 64 - 184).
  assert (2 ^ 47 < 2 ^ 64 - 184) by (vm_compute; reflexivity). lia.
Qed.

(** [PTR_ERR] recovers from [ERR_PTR(-e)] the positive errno [e], but [IS_ERR]
    does not recognise the pointer as an error: the encoding is relative to
    [bad_hsfs_inode] while the test looks at the top of the address space. *)
Theorem err_ptr_not_recognised `{!EnvOk E} e w :
  0 < e < MAX_ERRNO →
  ∃ p, ERR_PTR (- e) w = Ok (p, w) ∧ PTR_ERR p = e ∧ IS_ERR p = false.
Proof.
  unfold MAX_ERRNO, sizeof_hsfs_inode. intros He. pose proof bad_inode_user as [H1 H2].
  exists (bad_hsfs_inode + e). split_and!.
  - rewrite ERR_PTR_run by lia. do 2 f_equal. lia.
  - apply PTR_ERR_small. lia.
  - apply IS_ERR_user. lia.
Qed.

End ErrPtr.
