(* ===== verification/Icache.v ===== *)
(** * The inode cache

    [lib/hsfs_inode.c]: inodes are found by number ([id_table]) and by file
    identity ([fh_table]).  The tables are the arrays of buckets whose chains
    [HList] relates to lists; an inode is the address of its object in the heap.

    The file system supplies a table of operations ([struct hsfs_super_ops]);
    here it is a record, and what the cache relies on is the class [SuperOps]. *)

From S2P Require Import Prelude Bitops Hash HList Types.

Definition HSFS_FH_HASH_BITS : nat := 10.
Definition HSFS_ID_HASH_BITS : nat := 10.

Section Icache.
Context {E : Env}.

(** ** Operations the file system supplies *)

(** An absent entry is NULL; [alloc_inode] returns 0 for NULL. *)
Record hsfs_super_ops := {
  sop_alloc_inode : option (M world Z);
  sop_destroy_inode : option (Z → M world unit);
  sop_drop_inode : option (Z → M world unit);
  sop_setattr : option (Z → nfs_fattr → hsfs_iattr → M world (Z * nfs_fattr));
}.
Context (sop : hsfs_super_ops).

(** ** hsfs_inode.c *)

Definition hsfs_unlock_new_inode (inode : Z) : M world unit :=
  upd_inode inode (λ i, i <| i_state ::= λ s, bclear s I_NEW |>).

(** The fields [st_dev] and the like are left as they are in [stat]. *)
Definition hsfs_generic_fillattr (inode : Z) (st : stat) : M world stat :=
  i ← get_inode inode;
  blksize ← of_option (shl_int 1 (i_blkbits i));
  mret (st <| st_ino := real_ino i |>
           <| st_mode := ia_mode (i_iattr i) |>
           <| st_nlink := i_nlink i |>
           <| st_uid := ia_uid (i_iattr i) |>
           <| st_gid := ia_gid (i_iattr i) |>
           <| st_rdev := i_rdev i |>
           <| st_atim := ia_atime (i_iattr i) |>
           <| st_mtim := ia_mtime (i_iattr i) |>
           <| st_ctim := ia_ctime (i_iattr i) |>
           <| st_size := ia_size (i_iattr i) |>
           <| st_blocks := i_blocks i |>
           <| st_blksize := blksize |>).

(** [HSFS_PAGE_SIZE = sysconf(_SC_PAGE_SIZE)]. *)
Definition hsfs_init (page : Z) : M world Z :=
  modify (λ w, w <| w_page_size := wrap 32 page |>);; mret 0.

Definition hsfs_init_icache : M world Z :=
  upd_sb (λ s, s <| id_table := replicate (2 ^ HSFS_ID_HASH_BITS) [] |>);;
  upd_sb (λ s, s <| fh_table := replicate (2 ^ HSFS_FH_HASH_BITS) [] |>);;
  mret 0.

(** Four empty functions of the source. *)
Definition wait_on_inode (inode : Z) : M world unit := mret tt.
Definition wake_up_inode (inode : Z) : M world unit := mret tt.
Definition generic_delete_inode (inode : Z) : M world unit := mret tt.
Definition __iget (inode : Z) : M world unit := mret tt.

(** The chain of the bucket a key hashes to. *)
Definition bucket_of (table : list (list Z)) (bits : nat) (key : Z) : M world (list Z) :=
  b ← of_option (hash_bucket bits key); of_option (table !! Z.to_nat b).

(** The loop over a chain: the first inode that passes the test, or NULL. *)
Fixpoint chain_find (test : Z → M world bool) (l : list Z) : M world Z :=
  match l with
  | [] => mret 0
  | a :: l => t ← test a; if (t : bool) then mret a else chain_find test l
  end.

Definition __id_ifind (key : Z) : M world Z :=
  s ← get_sb;
  l ← bucket_of (id_table s) HSFS_ID_HASH_BITS key;
  chain_find (λ inode, i ← get_inode inode; mret (i_ino i =? key)) l.

Definition __fh_ifind (key : Z) (test : Z → M world bool) (wait : bool) : M world Z :=
  s ← get_sb;
  l ← bucket_of (fh_table s) HSFS_FH_HASH_BITS key;
  inode ← chain_find test l;
  if inode =? 0 then mret 0
  else __iget inode;; (if wait then wait_on_inode inode else mret tt);; mret inode.

Definition hsfs_ilookup (ino : Z) : M world Z :=
  inode ← __id_ifind ino;
  (if inode =? 0 then mret tt else __iget inode);;
  mret inode.

Definition destroy_inode (inode : Z) : M world unit :=
  _ ← inode_sb inode;
  match sop_destroy_inode sop with
  | Some destroy => destroy inode
  | None => free_inode inode
  end.

Definition inode_init_always (inode : Z) : M world Z :=
  upd_inode inode (λ i, i <| i_sb := sb_addr |> <| i_generation := 0 |> <| i_private := 0 |>
                          <| i_ino := 0 |> <| i_blocks := 0 |> <| i_nlink := 1 |>);;
  s ← get_sb;
  upd_inode inode (λ i, i <| i_blkbits := bsize_bits s |>);;
  mret 0.

Definition alloc_inode : M world Z :=
  inode ← match sop_alloc_inode sop with
          | Some alloc => alloc
          | None => malloc_inode 184 heap_junk
          end;
  if inode =? 0 then mret 0 else
  r ← inode_init_always inode;
  if r =? 0 then mret inode
  else destroy_inode inode;; mret 0.

(** [sb->curr_id++; if (!sb->curr_id) sb->curr_id = 2;] *)
Definition next_id (c : Z) : Z :=
  let c := wrap 64 (c + 1) in if c =? 0 then 2 else c.

(** The [do ... while] loop that picks the next free inode number.  [fuel] bounds
    the probes. *)
Fixpoint pick_id (fuel : nat) : M world unit :=
  match fuel with
  | O => out_of_fuel
  | S fuel =>
      upd_sb (λ s, s <| curr_id ::= next_id |>);;
      s ← get_sb;
      r ← __id_ifind (curr_id s);
      if r =? 0 then mret tt else pick_id fuel
  end.

(** [hash_add(table, node, key)]: the inode becomes the first of the bucket. *)
Definition table_add (table : list (list Z)) (bits : nat) (key inode : Z) :
    M world (list (list Z)) :=
  b ← of_option (hash_bucket bits key);
  l ← of_option (table !! Z.to_nat b);
  mret (<[Z.to_nat b := inode :: l]> table).

(** One probe more than there are inodes: see [inode_numbers_never_run_out]. *)
Definition __inode_add_to_lists (key inode : Z) : M world unit :=
  h ← gets w_heap;
  pick_id (S (size h));;
  s ← get_sb;
  upd_inode inode (λ i, i <| i_ino := curr_id s |>);;
  i ← get_inode inode;
  t ← table_add (id_table s) HSFS_ID_HASH_BITS (i_ino i) inode;
  upd_sb (λ s, s <| id_table := t |>);;
  t ← table_add (fh_table s) HSFS_FH_HASH_BITS key inode;
  upd_sb (λ s, s <| fh_table := t |>).

Definition get_new_inode (key : Z) (set_ : Z → M world Z) : M world Z :=
  inode ← alloc_inode;
  if inode =? 0 then mret inode else
  r ← set_ inode;
  if r =? 0 then
    __inode_add_to_lists key inode;;
    upd_inode inode (λ i, i <| i_state := I_NEW |>);;
    mret inode
  else destroy_inode inode;; mret 0.

Definition hsfs_iget5_locked (hashval : Z) (test : Z → M world bool) (set_ : Z → M world Z) :
    M world Z :=
  inode ← __fh_ifind hashval test true;
  if inode =? 0 then get_new_inode hashval set_ else mret inode.

Definition generic_forget_inode (inode : Z) : M world unit :=
  wake_up_inode inode;; destroy_inode inode.

Definition generic_drop_inode (inode : Z) : M world unit :=
  i ← get_inode inode;
  if i_nlink i =? 0 then generic_delete_inode inode else generic_forget_inode inode.

Definition iput_final (inode : Z) : M world unit :=
  _ ← inode_sb inode;
  match sop_drop_inode sop with
  | Some drop => drop inode
  | None => generic_drop_inode inode
  end.

(** [i_count] is an [int]: decrementing [INT_MIN] is undefined. *)
Definition hsfs_iput (inode : Z) : M world unit :=
  if inode =? 0 then mret tt else
  i ← get_inode inode;
  if i_count i =? INT_MIN then ub else
  upd_inode inode (λ i, i <| i_count ::= λ c, c - 1 |>);;
  i ← get_inode inode;
  if i_count i =? 0 then iput_final inode else mret tt.

(** ** The invariant *)

Definition ino_of (n : nfs_inode) : Z := i_ino (n_inode n).

(** Table [t] indexes exactly the inodes of [h], each in the bucket of its key. *)
Record table_ok (key : nfs_inode → Z) (h : gmap Z nfs_inode) (t : list (list Z)) : Prop := {
  t_len : length t = (2 ^ 10)%nat;
  t_sound : ∀ b l a, t !! b = Some l → a ∈ l →
    ∃ n, h !! a = Some n ∧ hash_bucket 10 (key n) = Some (Z.of_nat b);
  t_complete : ∀ a n, h !! a = Some n →
    ∃ b l, hash_bucket 10 (key n) = Some (Z.of_nat b) ∧ t !! b = Some l ∧ a ∈ l;
}.

(** What holds of every cached inode. *)
Record inode_ok (a : Z) (n : nfs_inode) : Prop := {
  ok_addr : 0 < a < 2 ^ 47;
  ok_sb : i_sb (n_inode n) = sb_addr;
  ok_ino : 0 < ino_of n < 2 ^ 64;
  ok_count : i_count (n_inode n) <= 0;
  ok_flags : n_flags n = 0;
  ok_blkbits : 0 <= i_blkbits (n_inode n) < 31;
  ok_private : in_range 64 (i_private (n_inode n));
  ok_fh : 0 <= fh_size (n_fh n) <= NFS_MAXFHSIZE ∧ length (fh_data (n_fh n)) = Z.to_nat NFS_MAXFHSIZE;
}.

(** The identity of a file on the server. *)
Definition ident (n : nfs_inode) : Z * list Z := (n_fileid n, fh_bytes (n_fh n)).

(** The cache on the inodes [h]: both tables index [h]; inode numbers and file
    identities are unique. *)
Record cache_ok (h : gmap Z nfs_inode) (idt fht : list (list Z)) (c bits : Z) : Prop := {
  c_id : table_ok ino_of h idt;
  c_fh : table_ok n_fileid h fht;
  c_node : map_Forall inode_ok h;
  c_ino_inj : ∀ a1 a2 n1 n2, h !! a1 = Some n1 → h !! a2 = Some n2 →
    ino_of n1 = ino_of n2 → a1 = a2;
  c_ident_inj : ∀ a1 a2 n1 n2, h !! a1 = Some n1 → h !! a2 = Some n2 →
    ident n1 = ident n2 → a1 = a2;
  c_curr : 0 <= c < 2 ^ 64;
  c_bits : 0 <= bits < 31;
}.

(** The same without unique identities. *)
Record indexed (h : gmap Z nfs_inode) (idt fht : list (list Z)) (c bits : Z) : Prop := {
  x_id : table_ok ino_of h idt;
  x_fh : table_ok n_fileid h fht;
  x_node : map_Forall inode_ok h;
  x_ino_inj : ∀ a1 a2 n1 n2, h !! a1 = Some n1 → h !! a2 = Some n2 →
    ino_of n1 = ino_of n2 → a1 = a2;
  x_curr : 0 <= c < 2 ^ 64;
  x_bits : 0 <= bits < 31;
}.
Definition icache_indexed (w : world) : Prop :=
  indexed (w_heap w) (id_table (w_sb w)) (fh_table (w_sb w)) (curr_id (w_sb w))
    (bsize_bits (w_sb w)).

Definition icache_wf (w : world) : Prop :=
  cache_ok (w_heap w) (id_table (w_sb w)) (fh_table (w_sb w)) (curr_id (w_sb w))
    (bsize_bits (w_sb w)).

(** ** What the cache relies on *)

(** A new object as [alloc_inode] must return it. *)
Definition blank_inode (n : nfs_inode) : Prop :=
  i_count (n_inode n) = 0 ∧ n_flags n = 0 ∧ length (fh_data (n_fh n)) = Z.to_nat NFS_MAXFHSIZE.

Class SuperOps : Prop := {
  alloc_spec : ∃ alloc, sop_alloc_inode sop = Some alloc ∧ ∀ w, ∃ a e,
    (a = 0 ∧ alloc w = Ok (0, w <| w_est := e |>)) ∨
    (0 < a < 2 ^ 47 ∧ w_heap w !! a = None ∧ ∃ n, blank_inode n ∧
     alloc w = Ok (a, w <| w_est := e |> <| w_heap ::= <[a := n]> |>));
  destroy_spec : ∃ destroy, sop_destroy_inode sop = Some destroy ∧ ∀ a w,
    is_Some (w_heap w !! a) → destroy a w = Ok (tt, w <| w_heap ::= delete a |>);
}.

(** A [set] callback gives the inode the identity [k] and touches nothing else
    the invariant mentions. *)
Definition init_ok (k : Z * list Z) (n n' : nfs_inode) : Prop :=
  ident n' = k ∧ n_flags n' = n_flags n ∧ n_attrtimeo n' = n_attrtimeo n ∧
  n_inode n' = (n_inode n) <| real_ino := k.1 |> ∧
  0 <= fh_size (n_fh n') <= NFS_MAXFHSIZE ∧ length (fh_data (n_fh n')) = length (fh_data (n_fh n)).
Definition sets_ident (k : Z * list Z) (set_ : Z → M world Z) : Prop :=
  ∀ a n w, w_heap w !! a = Some n → length (fh_data (n_fh n)) = Z.to_nat NFS_MAXFHSIZE →
    ∃ n', init_ok k n n' ∧ set_ a w = Ok (0, w <| w_heap ::= <[a := n']> |>).
(** A [test] callback decides whether an inode has the identity [k]. *)
Definition tests_ident (k : Z * list Z) (test : Z → M world bool) : Prop :=
  ∀ a n w, w_heap w !! a = Some n → inode_ok a n →
    test a w = Ok (bool_decide (ident n = k), w).

(** ** Lemmas *)

Lemma cache_ok_indexed h idt fht c bits : cache_ok h idt fht c bits → indexed h idt fht c bits.
Proof. by intros []. Qed.
Lemma indexed_cache_ok h idt fht c bits :
  indexed h idt fht c bits →
  (∀ a1 a2 n1 n2, h !! a1 = Some n1 → h !! a2 = Some n2 → ident n1 = ident n2 → a1 = a2) →
  cache_ok h idt fht c bits.
Proof. by intros []. Qed.

Lemma get_inode_run w a n : w_heap w !! a = Some n → get_inode a w = Ok (n_inode n, w).
Proof. intros H. unfold get_inode, load, mbind, M_bind. by rewrite H. Qed.
Lemma upd_run w a n f :
  w_heap w !! a = Some n → upd a f w = Ok (tt, w <| w_heap ::= <[a := f n]> |>).
Proof. intros H. unfold upd. by rewrite H. Qed.
Lemma heap_upd_upd w a n1 n2 :
  w <| w_heap ::= <[a := n1]> |> <| w_heap ::= <[a := n2]> |> = w <| w_heap ::= <[a := n2]> |>.
Proof. destruct w. cbv [set]. cbn. by rewrite insert_insert_eq. Qed.
Lemma of_option_run {A} (o : option A) (x : A) (w : world) :
  o = Some x → of_option o w = Ok (x, w).
Proof. by intros ->. Qed.

Lemma bucket_of_run t key w :
  length t = (2 ^ 10)%nat →
  ∃ b l, hash_bucket 10 key = Some (Z.of_nat b) ∧ t !! b = Some l ∧
         bucket_of t 10 key w = Ok (l, w).
Proof.
  intros Ht. destruct (bucket_lookup 10 key t ltac:(lia) Ht) as (b & l & Hb & Hl).
  exists b, l. split_and!; [done..|]. unfold bucket_of.
  mstep (of_option_run _ _ _ Hb). rewrite Nat2Z.id. by apply of_option_run.
Qed.

(** The walk returns the first inode that passes, whatever the test decides. *)
Lemma chain_find_run test (T : nfs_inode → bool) (h : gmap Z nfs_inode) l w :
  (∀ a, a ∈ l → a ≠ 0 ∧ ∃ n, h !! a = Some n ∧ test a w = Ok (T n, w)) →
  ∃ r, chain_find test l w = Ok (r, w) ∧
    ((r = 0 ∧ ∀ a n, a ∈ l → h !! a = Some n → T n = false) ∨
     (r ≠ 0 ∧ r ∈ l ∧ ∃ n, h !! r = Some n ∧ T n = true)).
Proof.
  induction l as [|a l IH]; intros Hl; cbn.
  - exists 0. split; [done|left]. split; [done|]. by intros a n ?%elem_of_nil.
  - destruct (Hl a) as (Ha0 & n & Hn & Ht); [set_solver|].
    rewrite (bind_ok _ _ _ _ _ Ht). destruct (T n) eqn:HT.
    + exists a. split; [done|right]. split_and!; [done|set_solver|eauto].
    + destruct IH as (r & Hr & Hres); [set_solver|]. exists r. split; [done|].
      destruct Hres as [[-> Hno]|(? & ? & ?)]; [left|right; set_solver].
      split; [done|]. intros a' n' [->|Hin]%elem_of_cons Hn'; [congruence|eauto].
Qed.

Lemma ok_nonzero a n : inode_ok a n → a ≠ 0.
Proof. intros [Ha _ _ _ _ _ _ _]. lia. Qed.

Section Lookup.
Context (h : gmap Z nfs_inode) (w : world).
Hypothesis Hsub : h ⊆ w_heap w.
Hypothesis Hnode : map_Forall inode_ok h.

Lemma id_ifind_run key :
  table_ok ino_of h (id_table (w_sb w)) →
  ∃ r, __id_ifind key w = Ok (r, w) ∧
    ((r = 0 ∧ ∀ a n, h !! a = Some n → ino_of n ≠ key) ∨
     (r ≠ 0 ∧ ∃ n, h !! r = Some n ∧ ino_of n = key)).
Proof using Hsub Hnode.
  intros Ht. destruct (bucket_of_run _ key w (t_len _ _ _ Ht)) as (b & l & Hb & Hl & Hrun).
  destruct (chain_find_run (λ inode, i ← get_inode inode; mret (i_ino i =? key))
    (λ n, ino_of n =? key) h l w) as (r & Hr & Hres).
  { intros a Ha. destruct (t_sound _ _ _ Ht _ _ _ Hl Ha) as (n & Hn & _).
    split; [by eapply ok_nonzero, Hnode|]. exists n. split; [done|].
    by mstep (get_inode_run _ _ _ (lookup_weaken _ _ _ _ Hn Hsub)). }
  exists r. split.
  { unfold __id_ifind. mstep. by mstep Hrun. }
  destruct Hres as [[-> Hno]|(Hr0 & Hin & n & Hn & HT)].
  - left. split; [done|]. intros a n Hn Hk.
    destruct (t_complete _ _ _ Ht _ _ Hn) as (b' & l' & Hb' & Hl' & Ha).
    rewrite Hk, Hb in Hb'. simplify_eq.
    specialize (Hno _ _ Ha Hn). by apply Z.eqb_neq in Hno.
  - right. split; [done|]. exists n. split; [done|]. by apply Z.eqb_eq.
Qed.

Lemma fh_ifind_run k test :
  table_ok n_fileid h (fh_table (w_sb w)) → tests_ident k test →
  ∃ r, __fh_ifind k.1 test true w = Ok (r, w) ∧
    ((r = 0 ∧ ∀ a n, h !! a = Some n → ident n ≠ k) ∨
     (r ≠ 0 ∧ ∃ n, h !! r = Some n ∧ ident n = k)).
Proof using Hsub Hnode.
  intros Ht Htest. destruct (bucket_of_run _ k.1 w (t_len _ _ _ Ht)) as (b & l & Hb & Hl & Hrun).
  destruct (chain_find_run test (λ n, bool_decide (ident n = k)) h l w) as (r & Hr & Hres).
  { intros a Ha. destruct (t_sound _ _ _ Ht _ _ _ Hl Ha) as (n & Hn & _).
    split; [by eapply ok_nonzero, Hnode|]. exists n. split; [done|].
    apply Htest; [by eapply lookup_weaken|by apply Hnode]. }
  exists r. split.
  { unfold __fh_ifind. mstep. mstep Hrun. mstep Hr. destruct (Z.eqb_spec r 0); by subst. }
  destruct Hres as [[-> Hno]|(Hr0 & Hin & n & Hn & HT)].
  - left. split; [done|]. intros a n Hn Hk.
    destruct (t_complete _ _ _ Ht _ _ Hn) as (b' & l' & Hb' & Hl' & Ha).
    replace (n_fileid n) with k.1 in Hb' by (by rewrite <-Hk).
    rewrite Hb in Hb'. simplify_eq.
    specialize (Hno _ _ Ha Hn). by apply bool_decide_eq_false in Hno.
  - right. split; [done|]. exists n. split; [done|]. by apply bool_decide_eq_true in HT.
Qed.
End Lookup.

(** *** Inode numbers *)

(** The numbers the loop tries, from [curr_id = c]. *)
Fixpoint probes (k : nat) (c : Z) : list Z :=
  match k with O => [] | S k => next_id c :: probes k (next_id c) end.

Definition cycle : Z := 2 ^ 64 - 2.

Lemma next_id_range c : 0 <= c < 2 ^ 64 → 0 < next_id c < 2 ^ 64.
Proof.
  intros Hc. unfold next_id. pose proof (wrap_range 64 (c + 1) ltac:(lia)) as [? ?].
  destruct (Z.eqb_spec (wrap 64 (c + 1)) 0); lia.
Qed.

(** From a number that is not 0 the probes run through the cycle 2 .. 2^64 - 1. *)
Lemma next_id_cycle c : 1 <= c < 2 ^ 64 → next_id c = 2 + (c - 1) mod cycle.
Proof.
  intros Hc. unfold next_id, wrap. destruct (Z.eq_dec c (2 ^ 64 - 1)) as [->|Hne].
  - reflexivity.
  - rewrite (Z.mod_small (c + 1)) by lia. destruct (Z.eqb_spec (c + 1) 0); [lia|].
    rewrite Z.mod_small by (unfold cycle; lia). lia.
Qed.

Lemma probes_cycle k c : 1 <= c < 2 ^ 64 →
  probes k c = (λ i, 2 + (c - 2 + Z.of_nat i) mod cycle) <$> seq 1 k.
Proof.
  revert c. induction k as [|k IH]; intros c Hc; [done|]. cbn. f_equal.
  - rewrite next_id_cycle by done. f_equal. f_equal. lia.
  - rewrite IH by (pose proof (next_id_range c); lia).
    rewrite <-(fmap_S_seq 1 k), <-list_fmap_compose. apply list_fmap_ext. intros i x Hx.
    cbn. rewrite next_id_cycle by done. unfold cycle.
    replace (2 + (c - 1) `mod` (2 ^ 64 - 2) - 2 + Z.of_nat x)
      with ((c - 1) `mod` (2 ^ 64 - 2) + Z.of_nat x) by lia.
    rewrite Zplus_mod_idemp_l. do 2 f_equal. lia.
Qed.

Lemma probes_NoDup k c : 0 <= c < 2 ^ 64 → Z.of_nat k <= cycle → NoDup (probes k c).
Proof.
  assert (∀ k c, 1 <= c < 2 ^ 64 → Z.of_nat k <= cycle → NoDup (probes k c)) as Hpos.
  { clear k c. intros k c Hc Hk. rewrite probes_cycle by done.
    apply NoDup_fmap_2_strong; [|apply NoDup_ListNoDup, seq_NoDup].
    intros i j [Hi1 Hi2]%elem_of_seq [Hj1 Hj2]%elem_of_seq Heq.
    assert (cycle ≠ 0) by (unfold cycle; lia).
    assert ((c - 2 + Z.of_nat i) mod cycle = (c - 2 + Z.of_nat j) mod cycle) as Hm by lia.
    apply Z.cong_iff_ex in Hm as [q Hq]. unfold cycle in *. nia. }
  intros Hc Hk. destruct (Z.eq_dec c 0) as [->|Hc0]; [|apply Hpos; lia].
  destruct k as [|k]; [apply NoDup_nil_2|]. cbn [probes].
  change (next_id 0) with 1. apply NoDup_cons_2; [|apply Hpos; lia]. rewrite probes_cycle by lia.
  intros (i & Hi & _)%list_elem_of_fmap. pose proof (Z.mod_pos_bound (1 - 2 + Z.of_nat i) cycle).
  unfold cycle in *. lia.
Qed.

(** The number [c] is not in use, and it is the next one if that is not in use. *)
Definition numbered (h : gmap Z nfs_inode) (curr c : Z) : Prop :=
  (∀ a n, h !! a = Some n → ino_of n ≠ c) ∧
  ((∀ a n, h !! a = Some n → ino_of n ≠ next_id curr) → c = next_id curr).

(** The loop stops at the first number no hashed inode has, or tried them all. *)
Lemma pick_id_run h fuel : ∀ w,
  h ⊆ w_heap w → map_Forall inode_ok h → table_ok ino_of h (id_table (w_sb w)) →
  0 <= curr_id (w_sb w) < 2 ^ 64 →
  (∃ c, pick_id fuel w = Ok (tt, w <| w_sb ::= λ s, s <| curr_id := c |> |>) ∧
        0 < c < 2 ^ 64 ∧ numbered h (curr_id (w_sb w)) c) ∨
  (pick_id fuel w = Timeout ∧
   ∀ c, c ∈ probes fuel (curr_id (w_sb w)) → ∃ a n, h !! a = Some n ∧ ino_of n = c).
Proof.
  induction fuel as [|fuel IH]; intros w Hsub Hnode Ht Hc.
  - right. split; [done|]. by intros c ?%elem_of_nil.
  - set (w1 := w <| w_sb ::= λ s, s <| curr_id ::= next_id |> |>).
    pose proof (next_id_range _ Hc) as Hc1.
    destruct (id_ifind_run h w1 Hsub Hnode (next_id (curr_id (w_sb w))) Ht) as (r & Hr & Hres).
    assert (pick_id (S fuel) w = (if r =? 0 then mret tt else pick_id fuel) w1) as ->.
    { cbn [pick_id]. mstep. mstep. by mstep Hr. }
    destruct Hres as [[-> Hno]|(Hr0 & n & Hn & Hino)].
    + left. exists (next_id (curr_id (w_sb w))). split_and!; [done|lia..|by split].
    + apply Z.eqb_neq in Hr0 as ->.
      destruct (IH w1 Hsub Hnode Ht ltac:(cbn; lia)) as [(c & Hrun & Hcr & Hno & _)|[Hrun Hall]].
      * left. exists c. split_and!; [|lia..|split; [done|]].
        -- rewrite Hrun. by destruct w as [? []].
        -- intros Hfree. by destruct (Hfree _ _ Hn).
      * right. split; [done|]. intros c [->|Hin]%elem_of_cons; [eauto|]. by apply Hall.
Qed.

(** One probe per hashed inode and one more find a free number: pigeonhole. *)
Lemma probes_exceed (h : gmap Z nfs_inode) k c :
  0 <= c < 2 ^ 64 → Z.of_nat k <= cycle → (size h < k)%nat →
  ¬ (∀ i, i ∈ probes k c → ∃ a n, h !! a = Some n ∧ ino_of n = i).
Proof.
  intros Hc Hk Hsz Hall.
  set (inos := (λ p, ino_of p.2) <$> map_to_list h).
  assert (length (probes k c) <= length inos)%nat as Hlen.
  { apply submseteq_length, NoDup_submseteq; [by apply probes_NoDup|].
    intros i (a & n & Hn & <-)%Hall. apply list_elem_of_fmap. exists (a, n).
    split; [done|]. by apply elem_of_map_to_list. }
  assert (∀ k c, length (probes k c) = k) as Hpl.
  { clear. induction k; intros; cbn; auto. }
  rewrite Hpl in Hlen. unfold inos in Hlen. rewrite length_fmap in Hlen.
  rewrite length_map_to_list in Hlen. lia.
Qed.

(** *** Adding to a table *)

Lemma table_add_run key h t a n w :
  table_ok key h t → h !! a = None →
  ∃ t', table_add t 10 (key n) a w = Ok (t', w) ∧ table_ok key (<[a := n]> h) t'.
Proof.
  intros Ht Ha. destruct (bucket_lookup 10 (key n) t ltac:(lia) (t_len _ _ _ Ht)) as (b & l & Hb & Hl).
  exists (<[b := a :: l]> t). split.
  { unfold table_add. mstep (of_option_run _ _ _ Hb). rewrite Nat2Z.id.
    by mstep (of_option_run _ _ _ Hl). }
  assert (b < length t)%nat as Hlt by (by eapply lookup_lt_Some).
  split.
  - rewrite length_insert. apply Ht.
  - intros b' l' a' Hl' Ha'. destruct (decide (b = b')) as [<-|Hne].
    + rewrite list_lookup_insert_eq in Hl' by done. simplify_eq.
      apply elem_of_cons in Ha' as [->|Ha']; [exists n; by rewrite lookup_insert_eq|].
      destruct (t_sound _ _ _ Ht _ _ _ Hl Ha') as (n' & Hn' & Hb'). exists n'.
      split; [|done]. rewrite lookup_insert_ne; [done|]. congruence.
    + rewrite list_lookup_insert_ne in Hl' by done.
      destruct (t_sound _ _ _ Ht _ _ _ Hl' Ha') as (n' & Hn' & Hb'). exists n'.
      split; [|done]. rewrite lookup_insert_ne; [done|]. congruence.
  - intros a' n' [[<- <-]|[Hne Hn']]%lookup_insert_Some.
    + exists b, (a :: l). rewrite list_lookup_insert_eq by done. split_and!; [done..|set_solver].
    + destruct (t_complete _ _ _ Ht _ _ Hn') as (b' & l' & Hb' & Hl' & Ha').
      destruct (decide (b = b')) as [<-|Hneb].
      * exists b, (a :: l). rewrite list_lookup_insert_eq by done. simplify_eq.
        split_and!; [done..|set_solver].
      * exists b', l'. rewrite list_lookup_insert_ne by done. done.
Qed.

(** An update that keeps the key of an inode keeps the table. *)
Lemma table_ok_upd key h t a n n' :
  table_ok key h t → h !! a = Some n → key n' = key n → table_ok key (<[a := n']> h) t.
Proof.
  intros Ht Hn Hk. split; [apply Ht| |].
  - intros b l a' Hl Ha'. destruct (t_sound _ _ _ Ht _ _ _ Hl Ha') as (m & Hm & Hb).
    destruct (decide (a = a')) as [<-|Hne].
    + exists n'. rewrite lookup_insert_eq. split; [done|]. rewrite Hk. by simplify_eq.
    + exists m. by rewrite lookup_insert_ne.
  - intros a' m [[<- <-]|[Hne Hm]]%lookup_insert_Some; [rewrite Hk|]; by apply Ht.
Qed.

(** *** New inodes *)

(** What a step leaves alone: everything but the heap, the tables, the inode
    counter and the outside world. *)
Definition same_rest (w w' : world) : Prop :=
  ∃ h s e, w' = w <| w_heap := h |> <| w_sb := s |> <| w_est := e |> ∧
    s = (w_sb w) <| id_table := id_table s |> <| fh_table := fh_table s |> <| curr_id := curr_id s |>.

(** A fresh object, ready to be hashed. *)
Record ready (a : Z) (n : nfs_inode) : Prop := {
  ready_addr : 0 < a < 2 ^ 47;
  ready_sb : i_sb (n_inode n) = sb_addr;
  ready_count : i_count (n_inode n) <= 0;
  ready_flags : n_flags n = 0;
  ready_blkbits : 0 <= i_blkbits (n_inode n) < 31;
  ready_private : in_range 64 (i_private (n_inode n));
  ready_fh : 0 <= fh_size (n_fh n) <= NFS_MAXFHSIZE ∧ length (fh_data (n_fh n)) = Z.to_nat NFS_MAXFHSIZE;
}.

Lemma add_to_lists_run w h a n :
  w_heap w = <[a := n]> h → h !! a = None →
  indexed h (id_table (w_sb w)) (fh_table (w_sb w)) (curr_id (w_sb w)) (bsize_bits (w_sb w)) →
  ready a n →
  (∃ c w', __inode_add_to_lists (n_fileid n) a w = Ok (tt, w') ∧ icache_indexed w' ∧
     w_heap w' = <[a := n <| n_inode ::= λ i, i <| i_ino := c |> |>]> h ∧ same_rest w w' ∧
     numbered h (curr_id (w_sb w)) c) ∨
  (__inode_add_to_lists (n_fileid n) a w = Timeout ∧ cycle < Z.of_nat (size h) + 2).
Proof.
  intros Hh Ha HC Hrd.
  assert (h ⊆ w_heap w) as Hsub by (rewrite Hh; by apply insert_subseteq).
  destruct (pick_id_run h (S (size (w_heap w))) w Hsub (x_node _ _ _ _ _ HC) (x_id _ _ _ _ _ HC)
    (x_curr _ _ _ _ _ HC)) as [(c & Hrun & Hc & Hnum)|[Hrun Hall]]; cycle 1.
  { right. split.
    - unfold __inode_add_to_lists, mbind, M_bind, gets. by rewrite Hrun.
    - apply Z.nle_gt. intros Hle. revert Hall. apply probes_exceed.
      + apply HC.
      + rewrite Hh, map_size_insert_None by done. lia.
      + rewrite Hh, map_size_insert_None by done. lia. }
  pose proof (proj1 Hnum) as Hfree.
  left. set (w1 := w <| w_sb ::= λ s, s <| curr_id := c |> |>) in *.
  set (n' := n <| n_inode ::= λ i, i <| i_ino := c |> |>).
  assert (Hn1 : w_heap w1 !! a = Some n) by (cbn; by rewrite Hh, lookup_insert_eq).
  set (w2 := w1 <| w_heap ::= <[a := n']> |>).
  assert (Hn2 : w_heap w2 !! a = Some n') by (cbn; by rewrite lookup_insert_eq).
  destruct (table_add_run ino_of h (id_table (w_sb w)) a n' w2 (x_id _ _ _ _ _ HC) Ha) as (t1 & Ht1 & Hok1).
  set (w3 := w2 <| w_sb ::= λ s, s <| id_table := t1 |> |>).
  destruct (table_add_run n_fileid h (fh_table (w_sb w)) a n' w3 (x_fh _ _ _ _ _ HC) Ha) as (t2 & Ht2 & Hok2).
  set (w4 := w3 <| w_sb ::= λ s, s <| fh_table := t2 |> |>).
  assert (w_heap w4 = <[a := n']> h) as Hh4 by (cbn; by rewrite Hh, insert_insert_eq).
  exists c, w4. split_and!.
  - unfold __inode_add_to_lists. mstep. mstep Hrun. mstep.
    mstep (upd_run w1 _ _ _ Hn1). mstep (get_inode_run _ _ _ Hn2). mstep Ht1. mstep.
    mstep Ht2. reflexivity.
  - unfold icache_indexed. rewrite Hh4. split.
    + apply Hok1.
    + apply Hok2.
    + apply map_Forall_insert_2; [|apply HC]. destruct Hrd. by split.
    + intros a1 a2 n1 n2 [[<- <-]|[? H1]]%lookup_insert_Some [[<- <-]|[? H2]]%lookup_insert_Some Heq.
      * done.
      * by destruct (Hfree _ _ H2).
      * by destruct (Hfree _ _ H1).
      * by eapply (x_ino_inj _ _ _ _ _ HC).
    + change (0 <= c < 2 ^ 64). lia.
    + apply HC.
  - done.
  - exists (w_heap w4), (w_sb w4), (w_est w). split; [by destruct w as [? []]|].
    by destruct w as [? []].
  - done.
Qed.

(** An update of an inode that keeps its number, identity and owner. *)
Record keeps (n n' : nfs_inode) : Prop := {
  k_ino : ino_of n' = ino_of n;
  k_fileid : n_fileid n' = n_fileid n;
  k_fh : n_fh n' = n_fh n;
  k_sb : i_sb (n_inode n') = i_sb (n_inode n);
  k_count : i_count (n_inode n') <= i_count (n_inode n);
  k_flags : n_flags n' = n_flags n;
  k_blkbits : i_blkbits (n_inode n') = i_blkbits (n_inode n);
  k_private : in_range 64 (i_private (n_inode n)) → in_range 64 (i_private (n_inode n'));
}.

Lemma indexed_upd h idt fht c b a n n' :
  indexed h idt fht c b → h !! a = Some n → keeps n n' → indexed (<[a := n']> h) idt fht c b.
Proof.
  intros HC Hn [Hino Hfid Hfh Hsb Hcnt Hfl Hbb Hpr]. pose proof (x_node _ _ _ _ _ HC _ _ Hn) as [].
  split.
  - by eapply table_ok_upd; [apply HC| |].
  - by eapply table_ok_upd; [apply HC| |].
  - apply map_Forall_insert_2; [|apply HC]. split; try congruence; (lia || auto).
  - intros a1 a2 n1 n2 [[<- <-]|[? H1]]%lookup_insert_Some [[<- <-]|[? H2]]%lookup_insert_Some Heq;
      [done|eapply (x_ino_inj _ _ _ _ _ HC); eauto; congruence..].
  - apply HC.
  - apply HC.
Qed.
Lemma cache_ok_upd h idt fht c b a n n' :
  cache_ok h idt fht c b → h !! a = Some n → keeps n n' → cache_ok (<[a := n']> h) idt fht c b.
Proof.
  intros HC Hn Hk. apply indexed_cache_ok; [by eapply indexed_upd; [apply cache_ok_indexed|..]|].
  assert (ident n' = ident n) as Hid by (destruct Hk as [_ Hfid Hfh]; unfold ident; by rewrite Hfid, Hfh).
  intros a1 a2 n1 n2 [[<- <-]|[? H1]]%lookup_insert_Some [[<- <-]|[? H2]]%lookup_insert_Some Heq;
    [done|eapply (c_ident_inj _ _ _ _ _ HC); eauto; congruence..].
Qed.

Lemma inode_init_always_run w a n :
  w_heap w !! a = Some n →
  ∃ n', inode_init_always a w = Ok (0, w <| w_heap ::= <[a := n']> |>) ∧
    n' = n <| n_inode ::= λ i, i <| i_sb := sb_addr |> <| i_generation := 0 |> <| i_private := 0 |>
                <| i_ino := 0 |> <| i_blocks := 0 |> <| i_nlink := 1 |>
                <| i_blkbits := bsize_bits (w_sb w) |> |>.
Proof.
  intros Hn. eexists. split; cycle 1; [reflexivity|]. unfold inode_init_always, upd_inode.
  mstep (upd_run w _ _ _ Hn). mstep.
  mstep (upd_run _ a _ _ (lookup_insert_eq _ _ _)). cbn. unfold mret, M_ret.
  do 2 f_equal. apply heap_upd_upd.
Qed.

(** What [get_new_inode] leaves: [WF] of the cache, and no inode or a new one. *)
Definition new_inode_post (WF : world → Prop) (k : Z * list Z) (w : world) (r : Z) (w' : world) : Prop :=
  WF w' ∧ same_rest w w' ∧
  ((r = 0 ∧ w_heap w' = w_heap w ∧ alloc_inode w = Ok (0, w')) ∨
   (r ≠ 0 ∧ w_heap w !! r = None ∧ ∃ n, w_heap w' = <[r := n]> (w_heap w) ∧ ident n = k ∧
      i_state (n_inode n) = I_NEW ∧ i_private (n_inode n) = 0 ∧
      numbered (w_heap w) (curr_id (w_sb w)) (ino_of n) ∧ i_count (n_inode n) = 0)).

(** It does not look whether the identity is cached. *)
Lemma get_new_inode_indexed `{!SuperOps} w k set_ :
  icache_indexed w → sets_ident k set_ →
  (∃ r w', get_new_inode k.1 set_ w = Ok (r, w') ∧ new_inode_post icache_indexed k w r w') ∨
  (get_new_inode k.1 set_ w = Timeout ∧ cycle < Z.of_nat (size (w_heap w)) + 2).
Proof.
  intros Hwf Hset. destruct alloc_spec as (alloc & Halloc & Hspec).
  destruct (Hspec w) as (a & e & [[-> Hrun]|(Ha0 & Ha & n0 & Hblank & Hrun)]).
  { left. exists 0, (w <| w_est := e |>). split.
    { assert (alloc_inode w = Ok (0, w <| w_est := e |>)) as Hal
        by (unfold alloc_inode; rewrite Halloc; by mstep Hrun).
      unfold get_new_inode. by mstep Hal. }
    split_and!; [done| |left]; [exists (w_heap w), (w_sb w), e; by destruct w as [? []]|].
    split_and!; [done..|]. unfold alloc_inode. rewrite Halloc. by mstep Hrun. }
  set (w1 := w <| w_est := e |> <| w_heap ::= <[a := n0]> |>) in *.
  destruct (inode_init_always_run w1 a n0 (lookup_insert_eq _ _ _)) as (n1 & Hinit & Hn1).
  set (w2 := w1 <| w_heap ::= <[a := n1]> |>) in *.
  destruct Hblank as (Hcnt & Hfl & Hfh).
  destruct (Hset a n1 w2 (lookup_insert_eq _ _ _)) as (n2 & Hi & Hsetrun); [by subst n1|].
  set (w3 := w2 <| w_heap ::= <[a := n2]> |>) in *.
  destruct Hi as (Hident & Hfl2 & _ & Hin2 & Hsz2 & Hlen2).
  assert (w_heap w3 = <[a := n2]> (w_heap w)) as Hh3 by (cbn; by rewrite !insert_insert_eq).
  assert (k.1 = n_fileid n2) as Hk1 by (by rewrite <-Hident).
  assert (get_new_inode k.1 set_ w =
    (__inode_add_to_lists (n_fileid n2) a;; upd_inode a (λ i, i <| i_state := I_NEW |>);; mret a) w3)
    as ->.
  { assert (a =? 0 = false) as Hz by (apply Z.eqb_neq; lia). assert (alloc_inode w = Ok (a, w2)) as Hal.
    { unfold alloc_inode. rewrite Halloc. mstep Hrun. rewrite Hz. by mstep Hinit. }
    unfold get_new_inode. mstep Hal. rewrite Hz. mstep Hsetrun. by rewrite Hk1. }
  destruct (add_to_lists_run w3 (w_heap w) a n2 Hh3 Ha Hwf) as [(c & w4 & Hadd & Hwf4 & Hh4 & Hrest & Hnum)|[Hub Hsz]].
  - subst n1. split; [done|by rewrite Hin2|rewrite Hin2; cbn; by rewrite Hcnt|by rewrite Hfl2|rewrite Hin2; apply Hwf|by rewrite Hin2|]. by rewrite Hlen2.
  - left. set (n3 := n2 <| n_inode ::= λ i, i <| i_ino := c |> |>) in *.
    assert (w_heap w4 !! a = Some n3) as Hn3 by (by rewrite Hh4, lookup_insert_eq).
    eexists a, _. split; [mstep Hadd; by mstep (upd_run _ _ _ _ Hn3)|]. split_and!.
    + by apply (indexed_upd _ _ _ _ _ _ n3).
    + destruct Hrest as (h' & s' & e' & -> & Hs'). eexists _, s', e'. split; [|exact Hs'].
      by destruct w as [? []].
    + right. split_and!; [lia|done|]. eexists. cbn. rewrite Hh4, insert_insert_eq.
      split; [reflexivity|]. cbn. split; [done|]. split; [done|]. split; [|split].
      * rewrite Hin2. by subst n1.
      * exact Hnum.
      * rewrite Hin2. by subst n1.
  - right. split; [|done]. unfold mbind at 1, M_bind. by rewrite Hub.
Qed.

(** On an identity that is not cached. *)
Lemma get_new_inode_run `{!SuperOps} w k set_ :
  icache_wf w → sets_ident k set_ → (∀ a n, w_heap w !! a = Some n → ident n ≠ k) →
  (∃ r w', get_new_inode k.1 set_ w = Ok (r, w') ∧ new_inode_post icache_wf k w r w') ∨
  (get_new_inode k.1 set_ w = Timeout ∧ cycle < Z.of_nat (size (w_heap w)) + 2).
Proof.
  intros Hwf Hset Hno.
  destruct (get_new_inode_indexed w k set_ (cache_ok_indexed _ _ _ _ _ Hwf) Hset)
    as [(r & w' & Hrun & Hix & Hrest & Hp)|Htime]; [left|by right].
  exists r, w'. split; [done|]. split; [|done]. apply indexed_cache_ok; [done|].
  destruct Hp as [(_ & -> & _)|(_ & _ & n & -> & Hid & _)]; [apply (c_ident_inj _ _ _ _ _ Hwf)|].
  intros a1 a2 n1 n2 [[<- <-]|[? H1]]%lookup_insert_Some [[<- <-]|[? H2]]%lookup_insert_Some Heq.
  - done.
  - destruct (Hno _ _ H2). congruence.
  - destruct (Hno _ _ H1). congruence.
  - by eapply (c_ident_inj _ _ _ _ _ Hwf).
Qed.

Lemma ilookup_run w ino :
  icache_wf w →
  ∃ r, hsfs_ilookup ino w = Ok (r, w) ∧
    ((r = 0 ∧ ∀ a n, w_heap w !! a = Some n → ino_of n ≠ ino) ∨
     (r ≠ 0 ∧ ∃ n, w_heap w !! r = Some n ∧ ino_of n = ino)).
Proof.
  intros Hwf.
  destruct (id_ifind_run (w_heap w) w (reflexivity _) (c_node _ _ _ _ _ Hwf) ino (c_id _ _ _ _ _ Hwf))
    as (r & Hr & Hres).
  exists r. split; [|done]. unfold hsfs_ilookup. mstep Hr. by destruct (r =? 0).
Qed.

Lemma iget5_run `{!SuperOps} w k test set_ :
  icache_wf w → tests_ident k test → sets_ident k set_ →
  (∃ r n, hsfs_iget5_locked k.1 test set_ w = Ok (r, w) ∧ r ≠ 0 ∧
          w_heap w !! r = Some n ∧ ident n = k) ∨
  ((∀ a n, w_heap w !! a = Some n → ident n ≠ k) ∧
   ((∃ r w', hsfs_iget5_locked k.1 test set_ w = Ok (r, w') ∧ new_inode_post icache_wf k w r w') ∨
    (hsfs_iget5_locked k.1 test set_ w = Timeout ∧ cycle < Z.of_nat (size (w_heap w)) + 2))).
Proof.
  intros Hwf Ht Hs.
  destruct (fh_ifind_run (w_heap w) w (reflexivity _) (c_node _ _ _ _ _ Hwf) k test
    (c_fh _ _ _ _ _ Hwf) Ht) as (r & Hr & [[-> Hno]|(Hr0 & n & Hn & Hid)]).
  - right. split; [done|]. assert (hsfs_iget5_locked k.1 test set_ w = get_new_inode k.1 set_ w) as ->.
    { unfold hsfs_iget5_locked. by mstep Hr. }
    by apply get_new_inode_run.
  - left. exists r, n. split_and!; [|done..]. unfold hsfs_iget5_locked. mstep Hr.
    by apply Z.eqb_neq in Hr0 as ->.
Qed.

(** The reference count starts at zero or below and only falls, so dropping a
    reference never reaches [iput_final]. *)
Lemma iput_run w a n :
  icache_wf w → w_heap w !! a = Some n →
  hsfs_iput a w =
    if i_count (n_inode n) =? INT_MIN then UB
    else Ok (tt, w <| w_heap ::= <[a := n <| n_inode ::= λ i, i <| i_count ::= λ c, c - 1 |> |>]> |>).
Proof.
  intros Hwf Hn. pose proof (c_node _ _ _ _ _ Hwf _ _ Hn) as Hok.
  pose proof (ok_nonzero _ _ Hok) as Ha. pose proof (ok_count _ _ Hok) as Hc.
  unfold hsfs_iput. apply Z.eqb_neq in Ha as ->. unfold upd_inode.
  destruct (Z.eqb_spec (i_count (n_inode n)) INT_MIN) as [He|He].
  - unfold mbind, M_bind. rewrite (get_inode_run _ _ _ Hn).
    by rewrite (proj2 (Z.eqb_eq _ _) He).
  - mstep (get_inode_run _ _ _ Hn). apply Z.eqb_neq in He as ->.
    mstep (upd_run _ _ _ _ Hn). mstep (get_inode_run _ _ _ (lookup_insert_eq _ _ _)).
    cbn. by destruct (Z.eqb_spec (i_count (n_inode n) - 1) 0); [lia|].
Qed.

Lemma ilookup_known w a n ino :
  icache_wf w → w_heap w !! a = Some n → ino_of n = ino → hsfs_ilookup ino w = Ok (a, w).
Proof.
  intros Hwf Hn Hi. destruct (ilookup_run w ino Hwf) as (r & -> & [[_ Hno]|(_ & n' & Hn' & Hi')]).
  - by destruct (Hno a n).
  - do 2 f_equal. apply (c_ino_inj _ _ _ _ _ Hwf r a n' n); congruence.
Qed.
Lemma inode_sb_run w a n :
  icache_wf w → w_heap w !! a = Some n → inode_sb a w = Ok (w_sb w, w).
Proof.
  intros Hwf Hn. unfold inode_sb. mstep (get_inode_run _ _ _ Hn).
  by rewrite (proj2 (Z.eqb_eq _ _) (ok_sb _ _ (c_node _ _ _ _ _ Hwf _ _ Hn))).
Qed.

(** What [hsfs_generic_fillattr] makes of an inode. *)
Definition stat_of (i : hsfs_inode) (st : stat) : stat := {|
  st_dev := st_dev st; st_ino := real_ino i; st_mode := ia_mode (i_iattr i);
  st_nlink := i_nlink i; st_uid := ia_uid (i_iattr i); st_gid := ia_gid (i_iattr i);
  st_rdev := i_rdev i; st_size := ia_size (i_iattr i); st_blksize := 2 ^ i_blkbits i;
  st_blocks := i_blocks i; st_atim := ia_atime (i_iattr i); st_mtim := ia_mtime (i_iattr i);
  st_ctim := ia_ctime (i_iattr i) |}.
Lemma fillattr_run w a n st :
  icache_wf w → w_heap w !! a = Some n →
  hsfs_generic_fillattr a st w = Ok (stat_of (n_inode n) st, w).
Proof.
  intros Hwf Hn. pose proof (ok_blkbits _ _ (c_node _ _ _ _ _ Hwf _ _ Hn)) as Hb.
  unfold hsfs_generic_fillattr. mstep (get_inode_run _ _ _ Hn).
  assert (shl_int 1 (i_blkbits (n_inode n)) = Some (2 ^ i_blkbits (n_inode n))) as Hs.
  { unfold shl_int. rewrite Z.shiftl_1_l.
    assert (2 ^ i_blkbits (n_inode n) < 2 ^ 31) by (apply Z.pow_lt_mono_r; lia).
    rewrite !(proj2 (Z.leb_le _ _)), !(proj2 (Z.ltb_lt _ _)) by lia. done. }
  by mstep (of_option_run _ _ _ Hs).
Qed.

(** *** Preservation, for the code that uses the cache *)

(** [P] counts the lookups of each inode number; the [private] field of an inode
    holds its count, in 64 bits.  A number that is not in use has count 0. *)
Record counts (P : Z → Z) (h : gmap Z nfs_inode) : Prop := {
  cnt_used : ∀ a n, h !! a = Some n → i_private (n_inode n) = wrap 64 (P (ino_of n));
  cnt_free : ∀ i, (∀ a n, h !! a = Some n → ino_of n ≠ i) → wrap 64 (P i) = 0;
}.

(** The cache is well formed, the lookup counts are [P], the replies sent [R]. *)
Record Inv (P : Z → Z) (R : list fuse_reply) (w : world) : Prop := {
  inv_wf : icache_wf w;
  inv_counts : counts P (w_heap w);
  inv_replies : w_replies w = R;
}.

Lemma counts_upd P h a n n' :
  counts P h → h !! a = Some n → ino_of n' = ino_of n →
  i_private (n_inode n') = i_private (n_inode n) → counts P (<[a := n']> h).
Proof.
  intros [Hu Hf] Hn Hi Hp. split.
  - intros a' m [[<- <-]|[_ Hm]]%lookup_insert_Some; [rewrite Hp, Hi|]; eauto.
  - intros i Hno. apply Hf. intros a' m Hm. destruct (decide (a = a')) as [<-|Hne].
    + simplify_eq. rewrite <-Hi. eapply (Hno a). apply lookup_insert_eq.
    + apply (Hno a'). by rewrite <-Hm; apply lookup_insert_ne.
Qed.

Lemma counts_new P h a n :
  counts P h → h !! a = None → (∀ a' m, h !! a' = Some m → ino_of m ≠ ino_of n) →
  i_private (n_inode n) = 0 → counts P (<[a := n]> h).
Proof.
  intros [Hu Hf] Ha Hfresh Hp. split.
  - intros a' m [[<- <-]|[_ Hm]]%lookup_insert_Some; [|eauto]. rewrite Hp. symmetry. eauto.
  - intros i Hno. apply Hf. intros a' m Hm. apply (Hno a').
    rewrite lookup_insert_ne; [done|]. congruence.
Qed.

Context (P : Z → Z) (R : list fuse_reply).

Lemma preserves_load I a : preserves I (load a).
Proof. intros w Hw. unfold wlp, load. by destruct (w_heap w !! a). Qed.
Lemma preserves_get_inode I a : preserves I (get_inode a).
Proof. apply preserves_bind; [apply preserves_load|]. intros. apply preserves_ret. Qed.
Lemma preserves_inode_sb I a : preserves I (inode_sb a).
Proof.
  apply preserves_bind; [apply preserves_get_inode|]. intros i. destruct (_ =? _); by intros w.
Qed.

Lemma preserves_upd a f :
  (∀ n, keeps n (f n) ∧ i_private (n_inode (f n)) = i_private (n_inode n)) →
  preserves (Inv P R) (upd a f).
Proof.
  intros Hk w [Hwf Hc Hr]. unfold wlp, upd. destruct (w_heap w !! a) as [n|] eqn:Hn; [|done].
  destruct (Hk n) as [Hkn Hp]. split; [by apply (cache_ok_upd _ _ _ _ _ _ n)| |done].
  apply (counts_upd _ _ _ n); [done..|apply Hkn|done].
Qed.
Lemma preserves_upd_inode a f :
  (∀ i, i_ino (f i) = i_ino i ∧ i_sb (f i) = i_sb i ∧ i_count (f i) <= i_count i ∧
        i_blkbits (f i) = i_blkbits i ∧ i_private (f i) = i_private i) →
  preserves (Inv P R) (upd_inode a f).
Proof.
  intros Hf. apply preserves_upd. intros n. destruct (Hf (n_inode n)) as (?&?&?&?&Hp). split; [|done].
  split; try done. cbn. by rewrite Hp.
Qed.
Lemma preserves_upd_sb f :
  (∀ s, id_table (f s) = id_table s ∧ fh_table (f s) = fh_table s ∧
        curr_id (f s) = curr_id s ∧ bsize_bits (f s) = bsize_bits s) →
  preserves (Inv P R) (upd_sb f).
Proof.
  intros Hf w [Hwf [Hu Hfr] Hr]. unfold wlp, upd_sb, modify. split; [|by split|done].
  unfold icache_wf. cbn. destruct (Hf (w_sb w)) as (-> & -> & -> & ->). done.
Qed.
Lemma preserves_ext {A} (f : est → A * est) : preserves (Inv P R) (ext f).
Proof.
  intros w [Hwf [Hu Hfr] Hr]. unfold wlp, ext. by destruct (f (w_est w)).
Qed.
Lemma preserves_malloc_buf size : preserves (Inv P R) (malloc_buf size).
Proof.
  apply preserves_bind; [apply preserves_gets|intros h].
  apply preserves_bind; [apply preserves_ext|intros r; apply preserves_ret].
Qed.

Lemma preserves_ilookup ino : preserves (Inv P R) (hsfs_ilookup ino).
Proof.
  intros w Hw. destruct (ilookup_run w ino (inv_wf _ _ _ Hw)) as (r & Hr & _).
  unfold wlp. by rewrite Hr.
Qed.
Lemma same_rest_replies w w' : same_rest w w' → w_replies w' = w_replies w.
Proof. by intros (h & s & e & -> & _). Qed.

Lemma preserves_iput a : preserves (Inv P R) (hsfs_iput a).
Proof.
  intros w [Hwf Hc Hr]. unfold wlp. destruct (w_heap w !! a) as [n|] eqn:Hn.
  - rewrite (iput_run _ _ _ Hwf Hn). destruct (_ =? _); [done|].
    split; [|by apply (counts_upd _ _ _ n)|done].
    apply (cache_ok_upd _ _ _ _ _ _ n); [done..|]. split; try done. cbn. lia.
  - unfold hsfs_iput. destruct (a =? 0); [done|].
    unfold get_inode, load, mbind, M_bind. by rewrite Hn.
Qed.
Lemma preserves_fillattr I a st : preserves I (hsfs_generic_fillattr a st).
Proof.
  apply preserves_bind; [apply preserves_get_inode|intros i].
  apply preserves_bind; [apply preserves_of_option|intros b; apply preserves_ret].
Qed.

(** Every well-formed state has its counts. *)
Lemma icache_wf_Inv w : icache_wf w → ∃ P, Inv P (w_replies w) w ∧ ∀ i, in_range 64 (P i).
Proof.
  intros Hwf.
  set (l := (λ p, (ino_of p.2, i_private (n_inode p.2))) <$> map_to_list (w_heap w)).
  set (m := list_to_map l : gmap Z Z).
  assert (∀ a n, w_heap w !! a = Some n → m !! ino_of n = Some (i_private (n_inode n))) as Hm.
  { intros a n Hn. apply elem_of_list_to_map_1'.
    - intros y ((a' & n') & Heq & Hn'%elem_of_map_to_list)%list_elem_of_fmap. cbn in Heq.
      injection Heq as Hi ->. assert (a' = a) as -> by (by eapply (c_ino_inj _ _ _ _ _ Hwf)).
      by simplify_eq.
    - apply list_elem_of_fmap. exists (a, n). split; [done|]. by apply elem_of_map_to_list. }
  assert (∀ i v, m !! i = Some v → ∃ a n, w_heap w !! a = Some n ∧ ino_of n = i ∧
    i_private (n_inode n) = v) as Hm'.
  { intros i v Hv%elem_of_list_to_map_2. apply list_elem_of_fmap in Hv as ((a & n) & Heq & Hn).
    injection Heq as -> ->. apply elem_of_map_to_list in Hn. eauto. }
  exists (λ i, default 0 (m !! i)). split; [split; [done| |done]; split|].
  - intros a n Hn. rewrite (Hm _ _ Hn). symmetry. apply wrap_small, (c_node _ _ _ _ _ Hwf _ _ Hn).
  - intros i Hno. destruct (m !! i) as [v|] eqn:Hv; [|done]. exfalso.
    apply Hm' in Hv as (a & n & Hn & Hi & _). by eapply (Hno a n).
  - intros i. destruct (m !! i) as [v|] eqn:Hv; [|done].
    apply Hm' in Hv as (a & n & Hn & _ & <-). apply (c_node _ _ _ _ _ Hwf _ _ Hn).
Qed.

End Icache.

#[export] Hint Resolve preserves_load preserves_get_inode preserves_inode_sb preserves_ext
  preserves_malloc_buf preserves_ilookup preserves_iput preserves_fillattr : pres.
