(* ===== verification/NfsInode.v ===== *)
(** * NFS inodes

    The inline helpers of [include/hsfs/hsi_nfs.h] and the live code of
    [nfs_common/hsi_nfs_inode.c]: file handles, the callbacks the inode cache
    uses to find and initialise an inode, [hsi_nfs_fhget], and the update of
    cached attributes from what the server returns.

    [struct nfs_inode] embeds [struct hsfs_inode]; both are named by the address
    of the embedded one, so [NFS_I] is the identity on addresses. *)

From S2P Require Import Prelude Bitops Hash HList Types ErrPtr Icache.

(** ** hsi_nfs.h *)

(** [memcpy(dst, src, n)] into an object of [length dst] bytes from one of
    [length src]; outside of them it is undefined. *)
Definition memcpy (dst src : list Z) (n : Z) : option (list Z) :=
  if (0 <=? n) && (n <=? Z.of_nat (length dst)) && (n <=? Z.of_nat (length src))
  then Some (take (Z.to_nat n) src ++ drop (Z.to_nat n) dst) else None.

(** True when the handles differ. *)
Definition nfs_compare_fh (a b : nfs_fh) : bool :=
  negb (fh_size a =? fh_size b) ||
  negb (bool_decide (take (Z.to_nat (fh_size a)) (fh_data a) =
                     take (Z.to_nat (fh_size a)) (fh_data b))).

Definition nfs_copy_fh (target source : nfs_fh) : option nfs_fh :=
  d ← memcpy (fh_data target) (fh_data source) (fh_size source);
  Some {| fh_size := fh_size source; fh_data := d |}.

(** [len] is converted to the [unsigned short] field; the copy uses it as it is. *)
Definition nfs_copy_fh3 (target : nfs_fh) (len : Z) (source : list Z) : option nfs_fh :=
  d ← memcpy (fh_data target) source len;
  Some {| fh_size := wrap 16 len; fh_data := d |}.

Definition nfs_init_fattr (attr : nfs_fattr) : nfs_fattr := attr <| fa_valid := 0 |>.

Definition nfs_size_to_off_t (size : Z) : Z :=
  if LLONG_MAX - 1 <? size then LLONG_MAX - 1 else size.

Definition nfs_calc_block_size (tsize : Z) : Z :=
  let used := wrap 64 (tsize + 511) >> 9 in
  if LLONG_MAX <? used then LLONG_MAX else used.

Section NfsInode.
Context {E : Env}.

Definition NFS_FH (inode : Z) : M world nfs_fh := n ← load inode; mret (n_fh n).
Definition NFS_FILEID (inode : Z) : M world Z := n ← load inode; mret (n_fileid n).
Definition set_nfs_fileid (inode fileid : Z) : M world unit :=
  upd inode (λ n, n <| n_fileid := fileid |>);;
  upd_inode inode (λ i, i <| real_ino := fileid |>).
Definition NFS_STALE (inode : Z) : M world bool :=
  n ← load inode; mret (flag (n_flags n) NFS_INO_STALE).
Definition is_bad_inode (inode : Z) : M world bool :=
  i ← get_inode inode; mret (i_ino i =? 0).

(** ** hsi_nfs_inode.c *)

Definition nfs_find_actor (fh : nfs_fh) (fattr : nfs_fattr) (inode : Z) : M world bool :=
  fileid ← NFS_FILEID inode;
  if negb (fileid =? fa_fileid fattr) then mret false else
  ifh ← NFS_FH inode;
  if nfs_compare_fh ifh fh then mret false else
  bad ← is_bad_inode inode;
  stale ← NFS_STALE inode;
  mret (negb ((bad : bool) || stale)).

Definition nfs_init_locked (fh : nfs_fh) (fattr : nfs_fattr) (inode : Z) : M world Z :=
  set_nfs_fileid inode (fa_fileid fattr);;
  ifh ← NFS_FH inode;
  ifh' ← of_option (nfs_copy_fh ifh fh);
  upd inode (λ n, n <| n_fh := ifh' |>);;
  mret 0.

(** What [bzero] leaves in a [struct nfs_inode]. *)
Definition zero_time : timespec := {| tv_sec := 0; tv_nsec := 0 |}.
Definition zero_iattr : hsfs_iattr := {|
  ia_valid := 0; ia_mode := 0; ia_uid := 0; ia_gid := 0; ia_size := 0;
  ia_atime := zero_time; ia_mtime := zero_time; ia_ctime := zero_time |}.
Definition zero_nfs_inode : nfs_inode := {|
  n_fileid := 0; n_fh := {| fh_size := 0; fh_data := replicate 128 0 |};
  n_flags := 0; n_attrtimeo := 0;
  n_inode := {| i_sb := 0; i_iattr := zero_iattr; i_state := 0; i_nlink := 0; i_blocks := 0;
    i_private := 0; i_count := 0; real_ino := 0; i_blkbits := 0; i_ino := 0; i_rdev := 0;
    i_generation := 0 |};
  n_cookieverf := 0 |}.
Definition sizeof_nfs_inode : Z := 352.

Definition nfs_alloc_inode : M world Z := malloc_inode sizeof_nfs_inode zero_nfs_inode.
Definition nfs_destroy_inode (inode : Z) : M world unit := free_inode inode.

(** The blocks [fattr] reports: the [nfs3.used] bytes in 512-byte units, or the
    [nfs2.blocks] half of the union. *)
Definition fattr_blocks (fattr : nfs_fattr) : Z :=
  if flag (fa_valid fattr) (NFS_ATTR_FATTR_V3 `bor` NFS_ATTR_FATTR_V4)
  then nfs_calc_block_size (fa_du fattr) else fa_du fattr >> 32.

(** Returns 0 or [-ESTALE]. *)
Definition nfs_update_inode (inode : Z) (fattr : nfs_fattr) : M world Z :=
  n ← load inode;
  if negb (n_fileid n =? fa_fileid fattr) then mret (- ESTALE) else
  if negb (ia_mode (i_iattr (n_inode n)) & S_IFMT =? fa_mode fattr & S_IFMT)
  then mret (- ESTALE) else
  let new_isize := nfs_size_to_off_t (fa_size fattr) in
  upd_inode inode (λ i, i
    <| i_iattr ::= λ ia, ia <| ia_size := new_isize |> <| ia_mtime := fa_mtime fattr |>
         <| ia_ctime := fa_ctime fattr |> <| ia_atime := fa_atime fattr |>
         <| ia_mode := fa_mode fattr |> <| ia_uid := fa_uid fattr |> <| ia_gid := fa_gid fattr |> |>
    <| i_nlink := fa_nlink fattr |>
    <| i_blocks := fattr_blocks fattr |>);;
  mret 0.

Definition nfs_refresh_inode (inode : Z) (fattr : nfs_fattr) : M world Z :=
  if fa_valid fattr & NFS_ATTR_FATTR =? 0 then mret 0 else nfs_update_inode inode fattr.

Context (sop : hsfs_super_ops).

(** The first attributes of a new inode. *)
Definition fill_new_inode (inode : Z) (fattr : nfs_fattr) : M world unit :=
  set_nfs_fileid inode (fa_fileid fattr);;
  upd_inode inode (λ i, i
    <| i_iattr ::= λ ia, ia <| ia_mode := fa_mode fattr |> <| ia_atime := fa_atime fattr |>
         <| ia_mtime := fa_mtime fattr |> <| ia_ctime := fa_ctime fattr |>
         <| ia_size := nfs_size_to_off_t (fa_size fattr) |>
         <| ia_uid := fa_uid fattr |> <| ia_gid := fa_gid fattr |> |>
    <| i_nlink := fa_nlink fattr |>
    <| i_blocks := fattr_blocks fattr |>);;
  hsfs_unlock_new_inode inode.

Definition hsi_nfs_fhget (fh : nfs_fh) (fattr : nfs_fattr) : M world Z :=
  err ← ERR_PTR (- ENOENT);
  if fa_valid fattr & NFS_ATTR_FATTR =? 0 then mret err else
  if fa_nlink fattr =? 0 then mret err else
  let hash := fa_fileid fattr in
  inode ← hsfs_iget5_locked sop hash (nfs_find_actor fh fattr) (nfs_init_locked fh fattr);
  if inode =? 0 then ERR_PTR (- ENOMEM) else
  i ← get_inode inode;
  (if flag (i_state i) I_NEW then fill_new_inode inode fattr
   else _ ← nfs_refresh_inode inode fattr; mret tt);;
  mret inode.

Definition NFS_VALID_ATTRS : Z :=
  HSFS_ATTR_MODE `bor` HSFS_ATTR_UID `bor` HSFS_ATTR_GID `bor` HSFS_ATTR_SIZE
  `bor` HSFS_ATTR_ATIME `bor` HSFS_ATTR_ATIME_SET `bor` HSFS_ATTR_MTIME `bor` HSFS_ATTR_MTIME_SET.

Definition hsi_nfs_setattr (inode : Z) (attr : hsfs_iattr) : M world Z :=
  i ← get_inode inode;
  let attr :=
    if flag (ia_valid attr) HSFS_ATTR_SIZE &&
       (negb (S_ISREG (ia_mode (i_iattr i))) || (ia_size attr =? ia_size (i_iattr i)))
    then attr <| ia_valid ::= λ v, bclear v HSFS_ATTR_SIZE |> else attr in
  let attr := attr <| ia_valid ::= λ v, v & NFS_VALID_ATTRS |> in
  if ia_valid attr =? 0 then mret 0 else
  _ ← inode_sb inode;
  match sop_setattr sop with
  | None => ub
  | Some setattr =>
      '(error, fattr) ← setattr inode stack_fattr attr;
      (if error =? 0 then _ ← nfs_refresh_inode inode fattr; mret tt else mret tt);;
      mret error
  end.

Definition nfs_setattr_update_inode (inode : Z) (attr : hsfs_iattr) : M world unit :=
  (if flag (ia_valid attr) (HSFS_ATTR_MODE `bor` HSFS_ATTR_UID `bor` HSFS_ATTR_GID) then
    (if flag (ia_valid attr) HSFS_ATTR_MODE then
       upd_inode inode (λ i, i <| i_iattr ::= λ ia, ia <| ia_mode ::= λ m,
         Z.lor (ia_mode attr & S_IALLUGO) (bclear m S_IALLUGO) |> |>)
     else mret tt);;
    (if flag (ia_valid attr) HSFS_ATTR_UID then
       upd_inode inode (λ i, i <| i_iattr ::= λ ia, ia <| ia_uid := ia_uid attr |> |>)
     else mret tt);;
    (if flag (ia_valid attr) HSFS_ATTR_GID then
       upd_inode inode (λ i, i <| i_iattr ::= λ ia, ia <| ia_gid := ia_gid attr |> |>)
     else mret tt)
   else mret tt);;
  (if flag (ia_valid attr) HSFS_ATTR_SIZE then
     upd_inode inode (λ i, i <| i_iattr ::= λ ia, ia <| ia_size := ia_size attr |> |>)
   else mret tt).

(** [hsfs_ll_setattr], lib/hsfs_inode.c. *)
Definition hsfs_ll_setattr (inode : Z) (sattr : hsfs_iattr) : M world Z :=
  hsi_nfs_setattr inode sattr.

(** ** Lemmas *)

(** A file handle as the code builds it. *)
Definition fh_ok (fh : nfs_fh) : Prop :=
  0 <= fh_size fh <= NFS_MAXFHSIZE ∧ length (fh_data fh) = Z.to_nat NFS_MAXFHSIZE.

Lemma fh_bytes_length fh : fh_ok fh → length (fh_bytes fh) = Z.to_nat (fh_size fh).
Proof. intros [Hs Hl]. unfold fh_bytes, NFS_MAXFHSIZE in *. rewrite length_take. lia. Qed.

Lemma nfs_compare_fh_bytes a b :
  fh_ok a → fh_ok b → nfs_compare_fh a b = negb (bool_decide (fh_bytes a = fh_bytes b)).
Proof.
  intros Ha Hb. unfold nfs_compare_fh. destruct (Z.eqb_spec (fh_size a) (fh_size b)) as [He|He]; cbn.
  - do 2 f_equal. apply bool_decide_ext. unfold fh_bytes. by rewrite He.
  - rewrite bool_decide_eq_false_2; [done|]. intros Heq. apply He.
    apply (f_equal length) in Heq. rewrite !fh_bytes_length in Heq by done.
    destruct Ha, Hb. lia.
Qed.

Lemma memcpy_take dst src n d :
  memcpy dst src n = Some d →
  length d = length dst ∧ take (Z.to_nat n) d = take (Z.to_nat n) src ∧
  0 <= n <= Z.of_nat (length dst) ∧ n <= Z.of_nat (length src).
Proof.
  unfold memcpy. destruct (_ && _) eqn:Hc; [|done]. intros [= <-].
  rewrite !andb_true_iff, !Z.leb_le in Hc. split_and!; try lia.
  - rewrite length_app, length_take, length_drop. lia.
  - rewrite take_app_le by (rewrite length_take; lia). rewrite take_take. f_equal. lia.
Qed.

Lemma nfs_copy_fh_ok t s :
  fh_ok s → length (fh_data t) = Z.to_nat NFS_MAXFHSIZE →
  ∃ t', nfs_copy_fh t s = Some t' ∧ fh_ok t' ∧ fh_bytes t' = fh_bytes s ∧
        length (fh_data t') = length (fh_data t).
Proof.
  intros [Hs Hl] Ht. unfold nfs_copy_fh.
  destruct (memcpy (fh_data t) (fh_data s) (fh_size s)) as [d|] eqn:Hm.
  - apply memcpy_take in Hm as (Hd & Htk & _ & _). eexists. split; [done|].
    split; [split; cbn; [done|congruence]|]. split; [|done]. unfold fh_bytes. done.
  - exfalso. revert Hm. unfold memcpy. rewrite !(proj2 (Z.leb_le _ _)); [done|lia..].
Qed.

Lemma nfs_copy_fh3_ok t len src t' :
  length (fh_data t) = Z.to_nat NFS_MAXFHSIZE →
  nfs_copy_fh3 t len src = Some t' →
  fh_ok t' ∧ fh_size t' = len ∧ fh_bytes t' = take (Z.to_nat len) src.
Proof.
  intros Ht. unfold nfs_copy_fh3. destruct (memcpy _ _ _) as [d|] eqn:Hm; [|done].
  intros [= <-]. apply memcpy_take in Hm as (Hd & Htk & Hr & _).
  unfold NFS_MAXFHSIZE in *. assert (wrap 16 len = len) as Hw by (apply wrap_small; unfold in_range; lia).
  split_and!; cbn; [|done|].
  - split; cbn; [rewrite Hw; unfold NFS_MAXFHSIZE; lia|unfold NFS_MAXFHSIZE; congruence].
  - unfold fh_bytes. cbn. by rewrite Hw.
Qed.

Lemma load_run w a n : w_heap w !! a = Some n → load a w = Ok (n, w).
Proof. intros H. unfold load. by rewrite H. Qed.

Lemma NFS_FH_run w a n : w_heap w !! a = Some n → NFS_FH a w = Ok (n_fh n, w).
Proof. intros H. unfold NFS_FH. by mstep (load_run _ _ _ H). Qed.
Lemma NFS_FILEID_run w a n : w_heap w !! a = Some n → NFS_FILEID a w = Ok (n_fileid n, w).
Proof. intros H. unfold NFS_FILEID. by mstep (load_run _ _ _ H). Qed.
Lemma NFS_STALE_run w a n :
  w_heap w !! a = Some n → NFS_STALE a w = Ok (flag (n_flags n) NFS_INO_STALE, w).
Proof. intros H. unfold NFS_STALE. by mstep (load_run _ _ _ H). Qed.
Lemma is_bad_inode_run w a n : w_heap w !! a = Some n → is_bad_inode a w = Ok (ino_of n =? 0, w).
Proof. intros H. unfold is_bad_inode. by mstep (get_inode_run _ _ _ H). Qed.

(** The two callbacks of the inode cache do what it asks of them. *)
Lemma find_actor_tests fh fattr :
  fh_ok fh → tests_ident (fa_fileid fattr, fh_bytes fh) (nfs_find_actor fh fattr).
Proof.
  intros Hfh a n w Hn [Ha Hsb Hino Hcnt Hfl _ _ Hok].
  unfold nfs_find_actor. mstep (NFS_FILEID_run _ _ _ Hn).
  destruct (Z.eqb_spec (n_fileid n) (fa_fileid fattr)) as [He|He]; cbn [negb].
  - mstep (NFS_FH_run _ _ _ Hn). rewrite nfs_compare_fh_bytes by done.
    case_bool_decide as Hb; cbn [negb].
    + mstep (is_bad_inode_run _ _ _ Hn). mstep (NFS_STALE_run _ _ _ Hn). rewrite Hfl.
      rewrite (proj2 (Z.eqb_neq (ino_of n) 0)) by lia.
      rewrite bool_decide_eq_true_2; [done|]. unfold ident. by rewrite He, Hb.
    + rewrite bool_decide_eq_false_2; [done|]. by intros [= ? ?].
  - rewrite bool_decide_eq_false_2; [done|]. by intros [= ? ?].
Qed.

Lemma init_locked_sets fh fattr :
  fh_ok fh → sets_ident (fa_fileid fattr, fh_bytes fh) (nfs_init_locked fh fattr).
Proof.
  intros Hfh a n w Hn Hlen.
  destruct (nfs_copy_fh_ok (n_fh n) fh Hfh Hlen) as (fh' & Hcp & Hok & Hb & Hl').
  exists (n <| n_fileid := fa_fileid fattr |> <| n_inode ::= λ i, i <| real_ino := fa_fileid fattr |> |>
            <| n_fh := fh' |>).
  split.
  { destruct Hok as [[? ?] ?]. split_and!; try done.
    exact (f_equal (pair (fa_fileid fattr)) Hb). }
  unfold nfs_init_locked, set_nfs_fileid, upd_inode.
  erewrite bind_ok; [|mstep (upd_run _ _ _ _ Hn); apply upd_run, lookup_insert_eq].
  rewrite heap_upd_upd.
  mstep (NFS_FH_run _ _ _ (lookup_insert_eq _ _ _)).
  mstep (of_option_run _ _ _ Hcp). mstep (upd_run _ _ _ _ (lookup_insert_eq _ _ _)).
  by rewrite heap_upd_upd.
Qed.

(** The operations table of the NFS client satisfies what the cache asks. *)
Lemma nfs_super_ops_ok `{!EnvOk E} :
  sop_alloc_inode sop = Some nfs_alloc_inode →
  sop_destroy_inode sop = Some nfs_destroy_inode → SuperOps sop.
Proof.
  intros Ha Hd. split.
  - eexists. split; [done|]. intros w. unfold nfs_alloc_inode, malloc_inode, ext.
    destruct (env_malloc sizeof_nfs_inode (dom (w_heap w)) (w_est w)) as [[a|] e] eqn:Hm.
    + apply malloc_fresh in Hm as Hf. destruct Hf as (Hf & Hpos & _). exists a, e. right.
      split; [exact Hpos|]. split; [by apply not_elem_of_dom|]. exists zero_nfs_inode. split; [done|].
      unfold mbind, M_bind, gets. rewrite Hm. done.
    + exists 0, e. left. split; [done|]. unfold mbind, M_bind, gets. by rewrite Hm.
  - eexists. split; [done|]. intros a w [n Hn]. unfold nfs_destroy_inode, free_inode.
    by mstep (load_run _ _ _ Hn).
Qed.

(** The attributes of [fattr], as [nfs_update_inode] stores them. *)
Definition with_fattr (fattr : nfs_fattr) (n : nfs_inode) : nfs_inode :=
  n <| n_inode ::= λ i, i
    <| i_iattr ::= λ ia, ia <| ia_size := nfs_size_to_off_t (fa_size fattr) |>
         <| ia_mtime := fa_mtime fattr |>
         <| ia_ctime := fa_ctime fattr |> <| ia_atime := fa_atime fattr |>
         <| ia_mode := fa_mode fattr |> <| ia_uid := fa_uid fattr |> <| ia_gid := fa_gid fattr |> |>
    <| i_nlink := fa_nlink fattr |>
    <| i_blocks := fattr_blocks fattr |> |>.

(** The inode is still the same object: same file id and same type. *)
Definition same_object (n : nfs_inode) (fattr : nfs_fattr) : bool :=
  (n_fileid n =? fa_fileid fattr) &&
  (ia_mode (i_iattr (n_inode n)) & S_IFMT =? fa_mode fattr & S_IFMT).

Lemma update_inode_run w a n fattr :
  w_heap w !! a = Some n →
  nfs_update_inode a fattr w =
    if same_object n fattr then Ok (0, w <| w_heap ::= <[a := with_fattr fattr n]> |>)
    else Ok (- ESTALE, w).
Proof.
  intros Hn. unfold nfs_update_inode, same_object. mstep (load_run _ _ _ Hn).
  destruct (n_fileid n =? fa_fileid fattr); cbn [negb andb]; [|done].
  destruct (_ =? fa_mode fattr & S_IFMT); cbn [negb]; [|done].
  unfold upd_inode. by mstep (upd_run _ _ _ _ Hn).
Qed.

Lemma refresh_inode_run w a n fattr :
  w_heap w !! a = Some n →
  nfs_refresh_inode a fattr w =
    if fa_valid fattr & NFS_ATTR_FATTR =? 0 then Ok (0, w)
    else if same_object n fattr then Ok (0, w <| w_heap ::= <[a := with_fattr fattr n]> |>)
    else Ok (- ESTALE, w).
Proof.
  intros Hn. unfold nfs_refresh_inode. destruct (_ =? 0); [done|]. by apply update_inode_run.
Qed.

Lemma with_fattr_keeps fattr n : keeps n (with_fattr fattr n).
Proof. by split. Qed.

(** The state of an inode [fill_new_inode] leaves. *)
Definition new_attrs (fattr : nfs_fattr) (n : nfs_inode) : nfs_inode :=
  (with_fattr fattr n) <| n_fileid := fa_fileid fattr |>
    <| n_inode ::= λ i, i <| real_ino := fa_fileid fattr |> <| i_state ::= λ s, bclear s I_NEW |> |>.

Lemma fill_new_inode_run w a n fattr :
  w_heap w !! a = Some n →
  fill_new_inode a fattr w = Ok (tt, w <| w_heap ::= <[a := new_attrs fattr n]> |>).
Proof.
  intros Hn. unfold fill_new_inode, set_nfs_fileid, hsfs_unlock_new_inode, upd_inode.
  erewrite bind_ok; [|mstep (upd_run _ _ _ _ Hn); apply upd_run, lookup_insert_eq].
  rewrite heap_upd_upd. mstep (upd_run _ _ _ _ (lookup_insert_eq _ _ _)).
  rewrite heap_upd_upd, (upd_run _ _ _ _ (lookup_insert_eq _ _ _)), heap_upd_upd. done.
Qed.

(** The attributes [hsi_nfs_fhget] accepts. *)
Definition usable (fattr : nfs_fattr) : bool :=
  negb (fa_valid fattr & NFS_ATTR_FATTR =? 0) && negb (fa_nlink fattr =? 0).

(** A cached inode after [hsi_nfs_fhget] saw new attributes. *)
Definition refreshed (fattr : nfs_fattr) (n : nfs_inode) : nfs_inode :=
  if flag (i_state (n_inode n)) I_NEW then new_attrs fattr n
  else if same_object n fattr then with_fattr fattr n else n.

(** What [hsi_nfs_fhget] returns for the identity [k]: an error pointer, with the
    cache as it was; or the inode of [k], the only one touched, which is a new one
    exactly when [k] was not cached. *)
Definition fhget_post (k : Z * list Z) (fattr : nfs_fattr) (w : world) (r : Z) (w' : world) : Prop :=
  icache_wf w' ∧ same_rest w w' ∧
  ((((r = bad_hsfs_inode + ENOENT ∧ usable fattr = false) ∨
     (r = bad_hsfs_inode + ENOMEM ∧ alloc_inode sop w = Ok (0, w') ∧
      ∀ a n, w_heap w !! a = Some n → ident n ≠ k)) ∧
    w_heap w' = w_heap w) ∨
   (∃ n0, w_heap w !! r = Some n0 ∧ ident n0 = k ∧
      ∃ n, w_heap w' = <[r := n]> (w_heap w) ∧ keeps n0 n ∧
           i_private (n_inode n) = i_private (n_inode n0) ∧ n = refreshed fattr n0) ∨
   (w_heap w !! r = None ∧ (∀ a n, w_heap w !! a = Some n → ident n ≠ k) ∧
      ∃ n, w_heap w' = <[r := new_attrs fattr n]> (w_heap w) ∧ ident (new_attrs fattr n) = k ∧
           i_private (n_inode n) = 0 ∧ numbered (w_heap w) (curr_id (w_sb w)) (ino_of n) ∧
           i_count (n_inode n) = 0)).

Lemma new_attrs_keeps fattr n : n_fileid n = fa_fileid fattr → keeps n (new_attrs fattr n).
Proof. intros H. by split. Qed.

Lemma same_rest_heap w w' h : same_rest w w' → same_rest w (w' <| w_heap := h |>).
Proof.
  intros (h' & s' & e' & -> & Hs). exists h, s', e'. split; [by destruct w|done].
Qed.
Lemma same_rest_refl w : same_rest w w.
Proof. exists (w_heap w), (w_sb w), (w_est w). by destruct w as [? []]. Qed.

Lemma fhget_run `{!EnvOk E, !SuperOps sop} w fh fattr :
  icache_wf w → fh_ok fh →
  (∃ r w', hsi_nfs_fhget fh fattr w = Ok (r, w') ∧
     fhget_post (fa_fileid fattr, fh_bytes fh) fattr w r w') ∨
  (hsi_nfs_fhget fh fattr w = Timeout ∧ cycle < Z.of_nat (size (w_heap w)) + 2).
Proof.
  intros Hwf Hfh. set (k := (fa_fileid fattr, fh_bytes fh)).
  assert (Herr : (hsi_nfs_fhget fh fattr w = Ok (bad_hsfs_inode + ENOENT, w) ∧ usable fattr = false) ∨
    hsi_nfs_fhget fh fattr w =
      (inode ← hsfs_iget5_locked sop k.1 (nfs_find_actor fh fattr) (nfs_init_locked fh fattr);
       if inode =? 0 then ERR_PTR (- ENOMEM) else
       i ← get_inode inode;
       (if flag (i_state i) I_NEW then fill_new_inode inode fattr
        else _ ← nfs_refresh_inode inode fattr; mret tt);; mret inode) w ∧ usable fattr = true).
  { unfold hsi_nfs_fhget. rewrite (bind_ok _ _ _ _ _ (ERR_PTR_run (- ENOENT) w ltac:(unfold ENOENT; lia))).
    unfold usable. destruct (_ & NFS_ATTR_FATTR =? 0); [by left|].
    destruct (fa_nlink fattr =? 0); [by left|by right]. }
  destruct Herr as [[-> Hus]|[-> Hus]].
  { left. eexists _, w. split; [done|]. split_and!; [done|apply same_rest_refl|]. auto 10. }
  destruct (iget5_run sop w k _ _ Hwf (find_actor_tests fh fattr Hfh) (init_locked_sets fh fattr Hfh))
    as [(r & n & Hrun & Hr0 & Hn & Hid)|[Hno [(r & w' & Hrun & Hwf' & Hrest & Hres)|[Hrun Hsz]]]].
  - left. apply Z.eqb_neq in Hr0 as Hz.
    assert (fa_valid fattr & NFS_ATTR_FATTR =? 0 = false) as Hv
      by (unfold usable in Hus; by destruct (_ & NFS_ATTR_FATTR =? 0)).
    set (n' := refreshed fattr n).
    assert (keeps n n' ∧ i_private (n_inode n') = i_private (n_inode n) ∧
      (if flag (i_state (n_inode n)) I_NEW then fill_new_inode r fattr
       else _ ← nfs_refresh_inode r fattr; mret tt) w = Ok (tt, w <| w_heap ::= <[r := n']> |>))
      as (Hk & Hpriv & Hstep).
    { assert (n_fileid n = fa_fileid fattr) as Hf by (by injection Hid).
      unfold n', refreshed. destruct (flag _ _).
      - rewrite (fill_new_inode_run _ _ _ _ Hn). split_and!; [by apply new_attrs_keeps|done..].
      - unfold mbind, M_bind. rewrite (refresh_inode_run _ _ _ _ Hn), Hv.
        destruct (same_object n fattr); [by split|]. split_and!; [by split|done|].
        destruct w. cbv [set]. cbn in *. by rewrite insert_id. }
    exists r, (w <| w_heap ::= <[r := n']> |>). split.
    { mstep Hrun. rewrite Hz. mstep (get_inode_run _ _ _ Hn). by mstep Hstep. }
    split_and!; [by apply (cache_ok_upd _ _ _ _ _ _ n)| |].
    + exists (<[r := n']> (w_heap w)), (w_sb w), (w_est w). by destruct w as [? []].
    + right. left. exists n. split_and!; [done..|]. by exists n'.
  - destruct Hres as [(-> & Hh & Hal)|(Hr0 & Hnone & n & Hh & Hid & Hst & Hpriv & Hfr & Hcnt)].
    + left. exists (bad_hsfs_inode + ENOMEM), w'. split.
      { mstep Hrun. cbn [Z.eqb]. by rewrite ERR_PTR_run by (unfold ENOMEM; lia). }
      split_and!; [done..|]. left. split; [right; by split_and!|done].
    + left. apply Z.eqb_neq in Hr0 as Hz.
      assert (w_heap w' !! r = Some n) as Hn by (by rewrite Hh, lookup_insert_eq).
      exists r, (w' <| w_heap ::= <[r := new_attrs fattr n]> |>). split.
      { mstep Hrun. rewrite Hz. mstep (get_inode_run _ _ _ Hn). rewrite Hst.
        by mstep (fill_new_inode_run _ _ _ _ Hn). }
      assert (n_fileid n = fa_fileid fattr) as Hf by (by injection Hid).
      split_and!.
      * apply (cache_ok_upd _ _ _ _ _ _ n); [done..|by apply new_attrs_keeps].
      * by apply (same_rest_heap _ _ (<[r := new_attrs fattr n]> (w_heap w'))) in Hrest.
      * right. right. split_and!; [done..|]. exists n. cbn. rewrite Hh, insert_insert_eq.
        split; [done|]. split; [|done]. unfold k. by injection Hid as _ <-.
  - right. split; [|done]. unfold mbind at 1, M_bind. by rewrite Hrun.
Qed.

(** *** Preservation *)

Context (P : Z → Z) (R : list fuse_reply).

Lemma preserves_update_inode a fattr : preserves (Inv P R) (nfs_update_inode a fattr).
Proof.
  unfold nfs_update_inode, upd_inode. pres. apply preserves_upd. intros n. by split.
Qed.
Lemma preserves_refresh a fattr : preserves (Inv P R) (nfs_refresh_inode a fattr).
Proof. unfold nfs_refresh_inode. destruct (_ =? 0); [by intros w|apply preserves_update_inode]. Qed.
Lemma preserves_fhget `{!EnvOk E, !SuperOps sop} fh fattr :
  fh_ok fh → preserves (Inv P R) (hsi_nfs_fhget fh fattr).
Proof.
  intros Hfh w [Hwf Hc Hr]. unfold wlp.
  destruct (fhget_run w fh fattr Hwf Hfh) as [(r & w' & -> & Hwf' & Hrest & Hp)|[-> _]]; [|done].
  split; [done| |by rewrite (same_rest_replies _ _ Hrest)].
  destruct Hp as [[_ ->]|[(n0 & Hn0 & _ & n & -> & Hk & Hpr & _)|(Hnone & _ & n & -> & Hid & Hp & Hfr & _)]].
  - done.
  - apply (counts_upd _ _ _ n0); [done..|apply Hk|done].
  - destruct Hfr as [Hfr _]. by apply counts_new.
Qed.
Lemma preserves_nfs_fh I a : preserves I (NFS_FH a).
Proof. unfold NFS_FH. pres. Qed.

(** What [hsi_nfs_setattr] relies on: the protocol's [setattr] keeps the cache. *)
Class SuperSetattr : Prop := {
  setattr_spec : ∃ setattr, sop_setattr sop = Some setattr ∧
    ∀ a fattr attr, preserves (Inv P R) (setattr a fattr attr);
}.
Lemma preserves_nfs_setattr `{!SuperSetattr} a attr : preserves (Inv P R) (hsi_nfs_setattr a attr).
Proof.
  destruct setattr_spec as (setattr & Hs & Hp). unfold hsi_nfs_setattr. rewrite Hs.
  pres; eauto using preserves_refresh.
Qed.

End NfsInode.

#[export] Hint Resolve preserves_update_inode preserves_refresh preserves_nfs_fh : pres.
