(* ===== verification/Rpc.v ===== *)
(** * RPC clients

    The client handling of [nfs3/hsi_nfs3_mount.c] (open, ping, close, reconnect,
    call with retries) and the two error translations of
    [nfs3/hsi_nfs3_unlink.c].  [clnt_call] and its relatives belong to the RPC
    library and are the parameters of [Types.Env]; using a handle that has been
    destroyed is undefined. *)

From S2P Require Import Prelude Types Icache.

Definition IPPROTO_TCP : Z := 6.
Definition IPPROTO_UDP : Z := 17.
Definition NFS_PROGRAM : Z := 100003.
Definition NFS_V3 : Z := 3.
Definition NFS_ACL_PROGRAM : Z := 100227.
Definition NFS_ACL_V3 : Z := 3.

(** ** hsi_nfs3_unlink.c: errors *)

(** NFSv3 status and errno; the entry -1 ends the table. *)
Definition nfs_errtbl : list (Z * Z) := [
  (0, 0); (1, EPERM); (2, ENOENT); (5, EIO); (6, ENXIO); (13, EACCES); (17, EEXIST);
  (18, EXDEV); (19, ENODEV); (20, ENOTDIR); (21, EISDIR); (22, EINVAL); (27, EFBIG);
  (28, ENOSPC); (30, EROFS); (31, EMLINK); (63, ENAMETOOLONG); (66, ENOTEMPTY);
  (69, EDQUOT); (70, ESTALE); (71, EREMOTE); (-1, EIO)].

Fixpoint errtbl_find (tbl : list (Z * Z)) (stat : Z) : Z :=
  match tbl with
  | [] => EIO
  | (nfs_err, sys_err) :: tbl =>
      if nfs_err =? -1 then sys_err
      else if nfs_err =? stat then sys_err else errtbl_find tbl stat
  end.
Definition hsi_nfs3_stat_to_errno (stat : Z) : Z := errtbl_find nfs_errtbl stat.

(** [re_errno] is what [clnt_geterr] reports. *)
Definition hsi_rpc_stat_to_errno (re_errno : Z) : Z :=
  if re_errno =? 0 then EIO else re_errno.

(** ** hsi_nfs3_mount.c: clients *)

Definition htons (p : Z) : Z := Z.lor ((p & 0xff) << 8) (p >> 8).

Section Rpc.
Context {E : Env}.

(** [clnt_call], [clnt_freeres] and [CLNT_DESTROY] use their handle. *)
Definition live (clnt : Z) : M world unit :=
  c ← gets w_clients; if bool_decide (clnt ∈ c) then mret tt else ub.
Definition clnt_call {R} (clnt : Z) (call : nfs3_call R) (tout : Z * Z) : M world (clnt_stat R) :=
  live clnt;; ext (env_clnt_call clnt call tout).
Definition clnt_freeres (clnt : Z) : M world unit := live clnt.
Definition CLNT_DESTROY (clnt : Z) : M world unit :=
  live clnt;; modify (λ w, w <| w_clients ::= λ c, c ∖ {[clnt]} |>).

(** Returns the client (0 for NULL) and the server address with its port set. *)
Definition hsi_mnt_openclnt (mnt_server : clnt_addr_t) (sb_size rb_size : Z) :
    M world (Z * clnt_addr_t) :=
  let mp := ca_pmap mnt_server in
  let mnt_server :=
    mnt_server <| ca_saddr ::= λ a, a <| sin_port := htons (wrap 16 (pm_port mp)) |> |> in
  if (pm_prot mp =? IPPROTO_UDP) || (pm_prot mp =? IPPROTO_TCP) then
    used ← gets w_clients;
    r ← ext (env_clnt_create (pm_prot mp =? IPPROTO_TCP) mnt_server sb_size rb_size used);
    match r with
    | None => mret (0, mnt_server)
    | Some clnt =>
        modify (λ w, w <| w_clients ::= λ c, {[clnt]} ∪ c |>);;
        auth ← ext env_authunix_create;
        if (auth : bool) then mret (clnt, mnt_server)
        else CLNT_DESTROY clnt;; mret (0, mnt_server)
    end
  else mret (0, mnt_server).

Definition hsi_mnt_closeclnt (clnt : Z) : M world unit := CLNT_DESTROY clnt.

(** [TIMEOUT] of conn.h. *)
Definition TIMEOUT : Z * Z := (20, 0).

(** The caller's address, with its port set, comes back with the client. *)
Definition hsi_nfs3_clnt_create (nfs_server : clnt_addr_t) (ssize rsize : Z) :
    M world (Z * clnt_addr_t) :=
  '(clnt, nfs_server) ← hsi_mnt_openclnt nfs_server ssize rsize;
  if clnt =? 0 then mret (0, nfs_server) else
  ret ← clnt_call clnt NFSPROC3_NULL TIMEOUT;
  match ret with
  | RPC_FAILED _ => hsi_mnt_closeclnt clnt;; mret (0, nfs_server)
  | RPC_SUCCESS _ =>
      modify (λ w, w <| ssize_bak := ssize |> <| rsize_bak := rsize |>);;
      (if pm_prog (ca_pmap nfs_server) =? NFS_PROGRAM then
         modify (λ w, w <| nfs_server_bak := nfs_server |>)
       else if pm_prog (ca_pmap nfs_server) =? NFS_ACL_PROGRAM then
         modify (λ w, w <| acl_server_bak := nfs_server |>)
       else mret tt);;
      mret (clnt, nfs_server)
  end.

(** The new client replaces the one of the super block it was opened for; the
    sizes passed are [ssize_bak] twice, as in the source. *)
Definition hsi_nfs3_clnt_reconnect (clnt : Z) : M world Z :=
  s ← get_sb;
  if clnt =? clntp s then
    hsi_mnt_closeclnt clnt;;
    w ← gets (λ w, w);
    '(new, addr) ← hsi_nfs3_clnt_create (nfs_server_bak w) (ssize_bak w) (ssize_bak w);
    modify (λ w, w <| nfs_server_bak := addr |>);;
    (if new =? 0 then mret tt else upd_sb (λ s, s <| clntp := new |>));;
    mret new
  else if negb (acl_clntp s =? 0) && (clnt =? acl_clntp s) then
    hsi_mnt_closeclnt clnt;;
    w ← gets (λ w, w);
    '(new, addr) ← hsi_nfs3_clnt_create (acl_server_bak w) (ssize_bak w) (ssize_bak w);
    modify (λ w, w <| acl_server_bak := addr |>);;
    (if new =? 0 then mret tt else upd_sb (λ s, s <| acl_clntp := new |>));;
    mret new
  else hsi_mnt_closeclnt clnt;; ub.

(** The retry loop: [tries] is [5 - rtry].  The results, or the errno. *)
Fixpoint clnt_call_retry {R} (tries : nat) (clnt : Z) (call : nfs3_call R) (tout : Z * Z) :
    M world (R + Z) :=
  st ← clnt_call clnt call tout;
  match st with
  | RPC_SUCCESS out => mret (inl out)
  | RPC_FAILED re_errno =>
      let ret := hsi_rpc_stat_to_errno re_errno in
      match tries with
      | O => mret (inr ret)
      | S tries =>
          if ret =? EAGAIN then clnt_call_retry tries clnt call tout
          else if (ret =? ENOTCONN) || (ret =? ECONNRESET) then
            clnt ← hsi_nfs3_clnt_reconnect clnt;
            if clnt =? 0 then mret (inr ret) else clnt_call_retry tries clnt call tout
          else mret (inr ret)
      end
  end.

Definition hsi_nfs3_clnt_call {R} (clnt : Z) (call : nfs3_call R) : M world (R + Z) :=
  s ← get_sb;
  let tout := (Z.quot (timeo s) 10, Z.rem (timeo s) 10 * 100000) in
  clnt_call_retry 5 clnt call tout.

(** ** Lemmas *)

(** An RPC leaves the inodes, the cache and the replies alone: it only touches the
    clients and the outside world. *)
Definition rpc_frame (w w' : world) : Prop :=
  w_heap w' = w_heap w ∧ w_replies w' = w_replies w ∧ w_page_size w' = w_page_size w ∧
  (w_sb w') <| clntp := 0 |> <| acl_clntp := 0 |> = (w_sb w) <| clntp := 0 |> <| acl_clntp := 0 |>.

#[global] Instance rpc_frame_preorder : PreOrder rpc_frame.
Proof.
  split; [by intros w|]. intros w1 w2 w3 (?&?&?&?) (?&?&?&?). split_and!; congruence.
Qed.

(** [m] only does what an RPC may do. *)
Definition framed {A} (m : M world A) : Prop := ∀ w, wlp m (λ _ w', rpc_frame w w') w.

Lemma framed_ret {A} (a : A) : framed (mret a).
Proof. intros w. unfold wlp. cbn. reflexivity. Qed.
Lemma framed_gets {A} (f : world → A) : framed (gets f).
Proof. intros w. unfold wlp. cbn. reflexivity. Qed.
Lemma framed_ub {A} : framed (@ub _ A).
Proof. by intros w. Qed.
Lemma framed_bind {A B} (m : M world A) (f : A → M world B) :
  framed m → (∀ a, framed (f a)) → framed (m ≫= f).
Proof.
  intros Hm Hf w. apply wlp_bind. specialize (Hm w). unfold wlp in *.
  destruct (m w) as [[a w1]| | |]; [|done..]. specialize (Hf a w1). unfold wlp in Hf.
  destruct (f a w1) as [[b w2]| | |]; [|done..]. by etransitivity.
Qed.
Lemma framed_modify f : (∀ w, rpc_frame w (f w)) → framed (modify f).
Proof. intros H w. apply H. Qed.
Lemma framed_ext {A} (f : est → A * est) : framed (ext f).
Proof. intros w. unfold wlp, ext. by destruct (f (w_est w)). Qed.

End Rpc.

Create HintDb framed discriminated.
#[export] Hint Resolve framed_ret framed_gets framed_ub framed_ext : framed.
Ltac framed_step :=
  match goal with
  | |- framed (mbind _ _) => apply framed_bind; [|intros ?]
  | |- framed (modify _) => apply framed_modify; intros ?; unfold rpc_frame; split_and!; reflexivity
  | |- framed (match ?x with _ => _ end) => destruct x eqn:?
  | |- framed (let _ := _ in _) => cbv zeta
  | |- framed _ => solve [eauto with framed nocore]
  end.

Section RpcFrame.
Context {E : Env}.

Lemma framed_live c : framed (live c).
Proof. unfold live. repeat framed_step. Qed.
Lemma framed_destroy c : framed (CLNT_DESTROY c).
Proof. unfold CLNT_DESTROY. repeat framed_step. apply framed_live. Qed.
#[local] Hint Resolve framed_live framed_destroy : framed.
Lemma framed_clnt_call1 {R} c (call : nfs3_call R) t : framed (clnt_call c call t).
Proof. unfold clnt_call. repeat framed_step. Qed.
#[local] Hint Resolve framed_clnt_call1 : framed.
Lemma framed_openclnt a s r : framed (hsi_mnt_openclnt a s r).
Proof. unfold hsi_mnt_openclnt. repeat framed_step. Qed.
#[local] Hint Resolve framed_openclnt : framed.
Lemma framed_create a s r : framed (hsi_nfs3_clnt_create a s r).
Proof. unfold hsi_nfs3_clnt_create, hsi_mnt_closeclnt. repeat framed_step. Qed.
#[local] Hint Resolve framed_create : framed.
Lemma framed_reconnect c : framed (hsi_nfs3_clnt_reconnect c).
Proof. unfold hsi_nfs3_clnt_reconnect, hsi_mnt_closeclnt, get_sb, upd_sb. repeat framed_step. Qed.
#[local] Hint Resolve framed_reconnect : framed.
Lemma framed_retry {R} (call : nfs3_call R) t tries : ∀ c, framed (clnt_call_retry tries c call t).
Proof. induction tries; intros c; cbn [clnt_call_retry]; repeat framed_step. Qed.
Lemma framed_clnt_call {R} c (call : nfs3_call R) : framed (hsi_nfs3_clnt_call c call).
Proof. unfold hsi_nfs3_clnt_call, get_sb. repeat framed_step. apply framed_retry. Qed.

Lemma rpc_frame_wf w w' : rpc_frame w w' → icache_wf w → icache_wf w'.
Proof.
  intros (Hh & _ & _ & Hs) Hwf. unfold icache_wf. rewrite Hh.
  assert (id_table (w_sb w') = id_table (w_sb w)) as -> by apply (f_equal id_table Hs).
  assert (fh_table (w_sb w') = fh_table (w_sb w)) as -> by apply (f_equal fh_table Hs).
  assert (curr_id (w_sb w') = curr_id (w_sb w)) as -> by apply (f_equal curr_id Hs).
  assert (bsize_bits (w_sb w') = bsize_bits (w_sb w)) as -> by apply (f_equal bsize_bits Hs).
  done.
Qed.
Lemma preserves_framed {A} P R (m : M world A) : framed m → preserves (Inv P R) m.
Proof.
  intros Hm w [Hwf Hc Hr]. eapply wlp_mono; [apply Hm|]. intros a w1 Hf.
  split; [exact (rpc_frame_wf _ _ Hf Hwf)| |]; destruct Hf as (Hh & Hr' & _); congruence.
Qed.
Lemma preserves_clnt_call {R} c (call : nfs3_call R) P Rs :
  preserves (Inv P Rs) (hsi_nfs3_clnt_call c call).
Proof. apply preserves_framed, framed_clnt_call. Qed.
Lemma preserves_freeres c P R : preserves (Inv P R) (clnt_freeres c).
Proof. apply preserves_framed, framed_live. Qed.

End RpcFrame.
#[export] Hint Resolve preserves_clnt_call preserves_freeres : pres.

(** ** Outcomes *)

Section RpcRuns.
Context {E : Env}.

(** The timeout of a call, from the mount options. *)
Definition call_timeout (s : hsfs_super) : Z * Z := (Z.quot (timeo s) 10, Z.rem (timeo s) 10 * 100000).

Lemma ext_run {A} (f : est → A * est) w a e :
  f (w_est w) = (a, e) → ext f w = Ok (a, w <| w_est := e |>).
Proof. intros H. unfold ext. by rewrite H. Qed.
Lemma live_run w c : c ∈ w_clients w → live c w = Ok (tt, w).
Proof.
  intros Hc. unfold live. mstep. by rewrite bool_decide_eq_true_2.
Qed.
Lemma clnt_call_run {R} w c (call : nfs3_call R) t st e :
  c ∈ w_clients w → env_clnt_call c call t (w_est w) = (st, e) →
  clnt_call c call t w = Ok (st, w <| w_est := e |>).
Proof.
  intros Hc He. unfold clnt_call. mstep (live_run _ _ Hc). by apply ext_run.
Qed.
Lemma retry_success {R} n w c (call : nfs3_call R) t out e :
  c ∈ w_clients w → env_clnt_call c call t (w_est w) = (RPC_SUCCESS out, e) →
  clnt_call_retry n c call t w = Ok (inl out, w <| w_est := e |>).
Proof. intros Hc He. destruct n; cbn [clnt_call_retry]; by mstep (clnt_call_run _ _ _ _ _ _ Hc He). Qed.
Lemma nfs3_call_eq {R} w c (call : nfs3_call R) :
  hsi_nfs3_clnt_call c call w = clnt_call_retry 5 c call (call_timeout (w_sb w)) w.
Proof. done. Qed.
Lemma nfs3_call_success {R} w c (call : nfs3_call R) out e :
  c ∈ w_clients w →
  env_clnt_call c call (call_timeout (w_sb w)) (w_est w) = (RPC_SUCCESS out, e) →
  hsi_nfs3_clnt_call c call w = Ok (inl out, w <| w_est := e |>).
Proof. intros Hc He. rewrite nfs3_call_eq. by apply retry_success. Qed.

Lemma stat_to_errno_nonzero s : s ≠ 0 → hsi_nfs3_stat_to_errno s ≠ 0.
Proof.
  intros Hs. unfold hsi_nfs3_stat_to_errno.
  assert (Forall (λ p, p.1 = 0 ∨ p.2 ≠ 0) nfs_errtbl) as Htbl
    by (repeat (constructor; [cbn; unfold EIO, EPERM; (by left) || by right|]); constructor).
  induction Htbl as [|[a b] tbl Hp _ IH]; cbn; [done|]. cbn in Hp.
  destruct (Z.eqb_spec a (-1)) as [->|]; [by destruct Hp|].
  destruct (Z.eqb_spec a s) as [->|]; [by destruct Hp|done].
Qed.
Lemma rpc_errno_nonzero re : hsi_rpc_stat_to_errno re ≠ 0.
Proof. unfold hsi_rpc_stat_to_errno, EIO. destruct (Z.eqb_spec re 0); lia. Qed.

Lemma retry_errno {R} (call : nfs3_call R) t n : ∀ c w,
  wlp (clnt_call_retry n c call t) (λ r _, ∀ err, r = inr err → err ≠ 0) w.
Proof.
  induction n as [|n IH]; intros c w; cbn [clnt_call_retry]; apply wlp_bind;
    unfold wlp at 1; destruct (clnt_call c call t w) as [[[out|re] w1]| | |]; try done.
  - cbn. intros err [= <-]. apply rpc_errno_nonzero.
  - destruct (_ =? EAGAIN); [by apply IH|]. destruct (_ || _).
    + apply wlp_bind. unfold wlp at 1.
      destruct (hsi_nfs3_clnt_reconnect c w1) as [[c' w2]| | |]; try done.
      destruct (c' =? 0); [|by apply IH]. intros err [= <-]. apply rpc_errno_nonzero.
    + intros err [= <-]. apply rpc_errno_nonzero.
Qed.

(** [k] calls in a row meet a server that asks to try again. *)
Fixpoint busy {R} (c : Z) (call : nfs3_call R) (t : Z * Z) (k : nat) (e e' : est) : Prop :=
  match k with
  | O => e' = e
  | S k => ∃ e1, env_clnt_call c call t e = (RPC_FAILED EAGAIN, e1) ∧ busy c call t k e1 e'
  end.

Lemma retry_busy {R} c (call : nfs3_call R) t k : ∀ n w e,
  c ∈ w_clients w → busy c call t k (w_est w) e →
  clnt_call_retry (k + n) c call t w = clnt_call_retry n c call t (w <| w_est := e |>).
Proof.
  induction k as [|k IH]; intros n w e Hc; cbn [busy].
  - intros ->. by destruct w.
  - intros (e1 & He1 & Hk). cbn [Nat.add clnt_call_retry].
    etransitivity; [refine (bind_ok _ _ _ _ _ (clnt_call_run _ _ _ _ _ _ Hc He1))|]. cbn.
    set (w1 := w <| w_est := e1 |>). by rewrite (IH n w1 e).
Qed.

Lemma busy_split {R} c (call : nfs3_call R) t k : ∀ e e',
  busy c call t (S k) e e' → ∃ e1, busy c call t k e e1 ∧ busy c call t 1 e1 e'.
Proof.
  induction k as [|k IH]; intros e e'; [by exists e|].
  intros (e1 & He & (e2 & H1 & H2)%IH). exists e2. split; [by exists e1|done].
Qed.

(** What opening a client leaves: a new handle, or none and no change. *)
Definition opened (w : world) (c : Z) (w' : world) : Prop :=
  w_sb w' = w_sb w ∧
  ((c ≠ 0 ∧ c ∉ w_clients w ∧ w_clients w' = {[c]} ∪ w_clients w) ∨
   (c = 0 ∧ w_clients w' = w_clients w)).

Lemma destroy_run w c :
  c ∈ w_clients w → CLNT_DESTROY c w = Ok (tt, w <| w_clients ::= λ s, s ∖ {[c]} |>).
Proof. intros Hc. unfold CLNT_DESTROY. by mstep (live_run _ _ Hc). Qed.

Lemma openclnt_run `{!EnvOk E} w addr ssize rsz :
  ∃ c addr' w', hsi_mnt_openclnt addr ssize rsz w = Ok ((c, addr'), w') ∧ opened w c w'.
Proof.
  unfold hsi_mnt_openclnt. cbv zeta. set (addr' := addr <| ca_saddr ::= _ |>).
  destruct (_ || _); [|exists 0, addr', w; split; [done|split; auto]].
  set (tcp := pm_prot _ =? IPPROTO_TCP).
  destruct (env_clnt_create tcp addr' ssize rsz (w_clients w) (w_est w)) as [[c|] e] eqn:Hcr; cycle 1.
  { exists 0, addr', (w <| w_est := e |>). split; [|split; auto].
    mstep. by mstep (ext_run _ _ _ _ Hcr). }
  destruct (create_fresh _ _ _ _ _ _ _ _ Hcr) as [Hf Hc0].
  set (w1 := w <| w_est := e |> <| w_clients ::= λ s, {[c]} ∪ s |>).
  destruct (env_authunix_create e) as [b e2] eqn:Hau.
  exists (if b then c else 0), addr',
    (if b then w1 <| w_est := e2 |> else w1 <| w_est := e2 |> <| w_clients ::= λ s, s ∖ {[c]} |>).
  split.
  - mstep. mstep (ext_run _ _ _ _ Hcr). mstep. mstep (ext_run _ w1 _ _ Hau). destruct b; [done|].
    assert (c ∈ w_clients (w1 <| w_est := e2 |>)) as Hin by (cbn; set_solver).
    by mstep (destroy_run _ _ Hin).
  - destruct b; (split; [done|]); [left|right]; cbn; [done|]. split; [done|].
    apply leibniz_equiv. set_solver.
Qed.

Lemma clnt_create_run `{!EnvOk E} w addr ssize rsz :
  ∃ c addr' w', hsi_nfs3_clnt_create addr ssize rsz w = Ok ((c, addr'), w') ∧ opened w c w'.
Proof.
  destruct (openclnt_run w addr ssize rsz) as (c & addr' & w1 & Hrun & Hsb & Hcl).
  unfold hsi_nfs3_clnt_create. destruct Hcl as [(Hc0 & Hf & Hcl)|[-> Hcl]]; cycle 1.
  { exists 0, addr', w1. split; [by mstep Hrun|]. split; auto. }
  apply Z.eqb_neq in Hc0 as Hz.
  assert (c ∈ w_clients w1) as Hin by (rewrite Hcl; set_solver).
  destruct (env_clnt_call c NFSPROC3_NULL TIMEOUT (w_est w1)) as [[out|re] e] eqn:Hcall.
  - set (w2 := w1 <| w_est := e |> <| ssize_bak := ssize |> <| rsize_bak := rsz |>).
    assert (∃ w3, (if pm_prog (ca_pmap addr') =? NFS_PROGRAM then
         modify (λ w, w <| nfs_server_bak := addr' |>)
       else if pm_prog (ca_pmap addr') =? NFS_ACL_PROGRAM then
         modify (λ w, w <| acl_server_bak := addr' |>)
       else mret tt) w2 = Ok (tt, w3) ∧ w_sb w3 = w_sb w ∧ w_clients w3 = w_clients w1)
      as (w3 & Hw3 & Hsb3 & Hcl3).
    { destruct (_ =? NFS_PROGRAM); [by eexists|]. destruct (_ =? NFS_ACL_PROGRAM); by eexists. }
    exists c, addr', w3. split.
    { mstep Hrun. rewrite Hz. mstep (clnt_call_run _ _ _ _ _ _ Hin Hcall). mstep. by mstep Hw3. }
    split; [done|]. left. by rewrite Hcl3.
  - exists 0, addr', (w1 <| w_est := e |> <| w_clients ::= λ s, s ∖ {[c]} |>). split.
    { mstep Hrun. rewrite Hz. mstep (clnt_call_run _ _ _ _ _ _ Hin Hcall).
      assert (c ∈ w_clients (w1 <| w_est := e |>)) as Hin' by done.
      unfold hsi_mnt_closeclnt. by mstep (destroy_run _ _ Hin'). }
    split; [done|]. right. split; [done|]. cbn. rewrite Hcl. apply leibniz_equiv. set_solver.
Qed.

(** * Properties *)

(** The NFSv3 status table: only [NFS3_OK] is success, every status of the table
    gets its errno, and any other is [EIO]. *)
Lemma stat_to_errno_correct :
  (∀ s, hsi_nfs3_stat_to_errno s = 0 ↔ s = 0) ∧
  (∀ s err, s ≠ -1 → (s, err) ∈ nfs_errtbl → hsi_nfs3_stat_to_errno s = err) ∧
  (∀ s, s ∉ nfs_errtbl.*1 → hsi_nfs3_stat_to_errno s = EIO).
Proof.
  split_and!.
  - intros s. split; [|by intros ->]. intros H. destruct (Z.eq_dec s 0); [done|].
    by destruct (stat_to_errno_nonzero s).
  - intros s err Hs Hin. unfold nfs_errtbl in Hin.
    repeat (apply elem_of_cons in Hin as [[= -> ->]|Hin]; [done|]). by apply elem_of_nil in Hin.
  - intros s Hs. unfold hsi_nfs3_stat_to_errno. revert Hs.
    assert (Forall (λ p, p.1 = -1 → p.2 = EIO) nfs_errtbl) as Htbl by (repeat constructor; done).
    induction Htbl as [|[a b] tbl Hp _ IH]; cbn; [done|]. intros Hs.
    destruct (Z.eqb_spec a (-1)); [by apply Hp|]. destruct (Z.eqb_spec a s) as [->|]; set_solver.
Qed.

(** C34. A server that asks to try again is called up to six times: when one of the
    first six calls succeeds its results are returned, and after six refusals the
    caller gets [EAGAIN]; the handle and the rest of the state are untouched. *)
Theorem retry_bounded {R} w c (call : nfs3_call R) k e :
  c ∈ w_clients w → busy c call (call_timeout (w_sb w)) k (w_est w) e →
  (∀ out e', (k <= 5)%nat → env_clnt_call c call (call_timeout (w_sb w)) e = (RPC_SUCCESS out, e') →
     hsi_nfs3_clnt_call c call w = Ok (inl out, w <| w_est := e' |>)) ∧
  (k = 6%nat → hsi_nfs3_clnt_call c call w = Ok (inr EAGAIN, w <| w_est := e |>)).
Proof.
  intros Hc Hb. rewrite nfs3_call_eq. split.
  - intros out e' Hk Hout.
    assert (clnt_call_retry 5 c call (call_timeout (w_sb w)) w =
      clnt_call_retry (5 - k) c call (call_timeout (w_sb w)) (w <| w_est := e |>)) as ->.
    { rewrite <-(retry_busy _ _ _ k (5 - k) w e Hc Hb). f_equal. lia. }
    set (w1 := w <| w_est := e |>). by rewrite (retry_success _ w1 _ _ _ out e').
  - intros ->. apply busy_split in Hb as (e1 & Hb & e2 & He & ->).
    etransitivity; [exact (retry_busy _ _ _ 5 0 w e1 Hc Hb)|].
    set (w1 := w <| w_est := e1 |>). cbn [clnt_call_retry]. by mstep (clnt_call_run w1 _ _ _ _ _ Hc He).
Qed.


End RpcRuns.
