(* ===== verification/ParseDev.v ===== *)
(** * Device names

    [utils/mount/parse_dev.c]: the parser of the [host:path] argument of a mount.
    The parsers work on a copy of the name in which they overwrite the separators;
    the error functions print a message and return 0, here [None].  Both callers
    want both parts. *)

From S2P Require Import Prelude CString Types.

Definition NFS_MAXHOSTNAME : nat := 255.
Definition NFS_MAXPATHNAME : nat := 1024.

Section ParseDev.
Context {E : Env}.

(** [strndup]: [None] is NULL. *)
Definition strndup (b : list ascii) (p n : nat) : M world (option (list ascii)) :=
  l ← strndup_at b p n;
  ok ← malloc_buf (Z.of_nat (length l) + 1);
  mret (if (ok : bool) then Some l else None).

(** The end both parsers share: the copies of the two parts. *)
Definition dup_parts (dev : list ascii) (host host_len path path_len : nat) :
    M world (option (list ascii * list ascii)) :=
  hostname ← strndup dev host host_len;
  match hostname with
  | None => mret None
  | Some hostname =>
      pathname ← strndup dev path path_len;
      match pathname with
      | None => mret None
      | Some pathname => mret (Some (hostname, pathname))
      end
  end.

(** After a comma the pointer stays on the overwritten colon. *)
Definition nfs_parse_simple_hostname (dev : list ascii) :
    M world (option (list ascii * list ascii)) :=
  colon ← strchr dev 0 ":";
  match colon with
  | None => mret None
  | Some colon =>
      dev ← store dev colon nul;
      if (NFS_MAXHOSTNAME <? colon)%nat then mret None else
      comma ← strchr dev 0 ",";
      '(dev, host_len, path) ←
        match comma with
        | Some comma => dev ← store dev comma nul; mret (dev, comma, colon)
        | None => mret (dev, colon, S colon)
        end;
      path_len ← strlen_at dev path;
      if (NFS_MAXPATHNAME <? path_len)%nat then mret None else
      dup_parts dev 0 host_len path path_len
  end.

Definition nfs_parse_square_bracket (dev : list ascii) :
    M world (option (list ascii * list ascii)) :=
  cbrace ← strchr dev 1 "]";
  match cbrace with
  | None => mret None
  | Some cbrace =>
      dev ← store dev cbrace nul;
      let host_len := (cbrace - 1)%nat in
      c ← char_at dev (cbrace + 1);
      if negb (is_char ":" c) then mret None else
      if (NFS_MAXHOSTNAME <? host_len)%nat then mret None else
      path_len ← strlen_at dev (cbrace + 2);
      if (NFS_MAXPATHNAME <? path_len)%nat then mret None else
      dup_parts dev 1 host_len (cbrace + 2) path_len
  end.

Definition nfs_parse_nfs_url (dev : list ascii) : M world (option (list ascii * list ascii)) :=
  mret None.

Definition nfs_parse_devname (devname : option string) :
    M world (option (list ascii * list ascii)) :=
  match devname with
  | None => mret None
  | Some devname =>
      ok ← malloc_buf (Z.of_nat (length (buffer devname)));
      if negb ok then mret None else
      let dev := buffer devname in
      c ← char_at dev 0;
      if is_char "[" c then nfs_parse_square_bracket dev
      else if bool_decide (take 6 dev = chars "nfs://") then nfs_parse_nfs_url dev
      else nfs_parse_simple_hostname dev
  end.

(** ** The names the parser accepts *)

Definition is_url (l : list ascii) : Prop := take 6 l = chars "nfs://".

(** [devname d h p]: the name [d] stands for host [h] and path [p]. *)
Inductive devname : list ascii → list ascii → list ascii → Prop :=
| devname_simple h p :
    head (h ++ [":"%char]) ≠ Some "["%char → ":"%char ∉ h → ","%char ∉ h →
    ¬ is_url (h ++ ":"%char :: p) →
    (length h <= NFS_MAXHOSTNAME)%nat → (length p <= NFS_MAXPATHNAME)%nat →
    devname (h ++ ":"%char :: p) h p
| devname_bracket a p :
    "]"%char ∉ a → (length a <= NFS_MAXHOSTNAME)%nat → (length p <= NFS_MAXPATHNAME)%nat →
    devname ("["%char :: a ++ "]"%char :: ":"%char :: p) a p
(** with several hosts the path is lost *)
| devname_hosts h rest p :
    head (h ++ [","%char]) ≠ Some "["%char → ","%char ∉ h → ":"%char ∉ h → ":"%char ∉ rest →
    (length h + length rest + 1 <= NFS_MAXHOSTNAME)%nat →
    devname (h ++ ","%char :: rest ++ ":"%char :: p) h [].

(** What a parser run leaves: the same state but for the allocator. *)
Definition parsed (m : M world (option (list ascii * list ascii))) (w : world)
    (r : option (list ascii * list ascii)) : Prop :=
  ∃ e, m w = Ok (r, w <| w_est := e |>).

Lemma est_same w : w <| w_est := w_est w |> = w.
Proof. by destruct w. Qed.
Lemma est_est w e1 e2 : (w <| w_est := e1 |>) <| w_est := e2 |> = w <| w_est := e2 |>.
Proof. by destruct w. Qed.

Lemma strndup_plenty pre s r n w : no_nul s → n = length s → memory_plenty (dom (w_heap w)) →
  ∃ e, strndup (pre ++ s ++ r) (length pre) n w = Ok (Some s, w <| w_est := e |>).
Proof.
  intros Hs Hn Hm. destruct (malloc_buf_any w (Z.of_nat (length s) + 1)) as (ok & e & Hrun & Hok).
  rewrite (Hok Hm) in Hrun. exists e. unfold strndup. mstep (strndup_run pre s r n w Hs Hn).
  by mstep Hrun.
Qed.
Lemma dup_parts_run pre h mid p r path w :
  no_nul h → no_nul p → path = (length pre + length h + length mid)%nat →
  memory_plenty (dom (w_heap w)) →
  parsed (dup_parts (pre ++ h ++ mid ++ p ++ r) (length pre) (length h) path (length p)) w
    (Some (h, p)).
Proof.
  intros Hh Hp -> Hm.
  destruct (strndup_plenty pre h (mid ++ p ++ r) _ w Hh eq_refl Hm) as (e1 & H1).
  set (w1 := w <| w_est := e1 |>) in H1.
  destruct (strndup_plenty (pre ++ h ++ mid) p r _ w1 Hp eq_refl Hm) as (e2 & H2).
  exists e2. unfold dup_parts. mstep H1.
  replace (length pre + length h + length mid)%nat with (length (pre ++ h ++ mid))
    by (rewrite !length_app; lia).
  rewrite <-!app_assoc in H2. by mstep H2.
Qed.


Section Runs.
Context (w : world) (Hmem : memory_plenty (dom (w_heap w))).

Lemma parsed_now r : parsed (mret r) w r.
Proof. exists (w_est w). by rewrite est_same. Qed.
Lemma parsed_bind {A} (m : M world A) a f r :
  m w = Ok (a, w) → parsed (f a) w r → parsed (m ≫= f) w r.
Proof. intros Hm [e He]. exists e. by mstep Hm. Qed.

Lemma simple_no_colon l : no_nul l → ":"%char ∉ l →
  parsed (nfs_parse_simple_hostname (l ++ [nul])) w None.
Proof.
  intros Hn Hl. eapply parsed_bind; [by apply (strchr_missing [] l ":" [] w)|].
  apply parsed_now.
Qed.
(** Up to the search for the comma. *)
Lemma simple_colon h p r : no_nul h → no_nul p → ":"%char ∉ h →
  (if (NFS_MAXHOSTNAME <? length h)%nat then r = None else
   parsed (comma ← strchr (h ++ nul :: p ++ [nul]) 0 ",";
      '(dev, host_len, path) ←
        match comma with
        | Some comma => dev ← store (h ++ nul :: p ++ [nul]) comma nul; mret (dev, comma, length h)
        | None => mret (h ++ nul :: p ++ [nul], length h, S (length h))
        end;
      path_len ← strlen_at dev path;
      if (NFS_MAXPATHNAME <? path_len)%nat then mret None else
      dup_parts dev 0 host_len path path_len) w r) →
  parsed (nfs_parse_simple_hostname ((h ++ ":"%char :: p) ++ [nul])) w r.
Proof.
  intros Hh Hp Hc Hr. rewrite <-app_assoc, <-app_comm_cons.
  eapply parsed_bind; [by apply (strchr_found [] h ":" (p ++ [nul]) w)|]. cbn [length Nat.add].
  eapply parsed_bind; [apply (store_run h)|].
  destruct (NFS_MAXHOSTNAME <? length h)%nat; [|done]. subst r. apply parsed_now.
Qed.
Lemma simple_one_host h p : no_nul h → no_nul p → ":"%char ∉ h → ","%char ∉ h →
  (length h <= NFS_MAXHOSTNAME)%nat →
  parsed (nfs_parse_simple_hostname ((h ++ ":"%char :: p) ++ [nul])) w
    (if (NFS_MAXPATHNAME <? length p)%nat then None else Some (h, p)).
Proof.
  intros Hh Hp Hc Hk Hl. apply simple_colon; [done..|].
  destruct (Nat.ltb_spec NFS_MAXHOSTNAME (length h)); [lia|].
  eapply parsed_bind; [by apply (strchr_missing [] h "," (p ++ [nul]) w)|].
  eapply parsed_bind; [done|]. cbv beta iota.
  replace (h ++ nul :: p ++ [nul]) with ((h ++ [nul]) ++ p ++ [nul]) by (by rewrite <-app_assoc).
  replace (S (length h)) with (length (h ++ [nul])) by (rewrite length_app; cbn; lia).
  eapply parsed_bind; [by apply strlen_run|].
  destruct (NFS_MAXPATHNAME <? length p)%nat; [apply parsed_now|].
  rewrite <-app_assoc. apply (dup_parts_run [] h [nul]); [done..| |done].
  rewrite length_app. cbn. lia.
Qed.
Lemma simple_hosts h rest p : no_nul h → no_nul rest → no_nul p →
  ":"%char ∉ h → ":"%char ∉ rest → ","%char ∉ h →
  (length h + length rest + 1 <= NFS_MAXHOSTNAME)%nat →
  parsed (nfs_parse_simple_hostname ((h ++ ","%char :: rest ++ ":"%char :: p) ++ [nul])) w
    (Some (h, [])).
Proof.
  intros Hh Hr Hp Hc Hc' Hk Hl.
  replace (h ++ ","%char :: rest ++ ":"%char :: p) with ((h ++ ","%char :: rest) ++ ":"%char :: p)
    by (by rewrite <-app_assoc).
  assert (length (h ++ ","%char :: rest) = (length h + length rest + 1)%nat) as Hlen
    by (rewrite length_app; cbn; lia).
  apply simple_colon; [unfold no_nul in *; set_solver|done|set_solver|].
  rewrite Hlen. destruct (Nat.ltb_spec NFS_MAXHOSTNAME (length h + length rest + 1)); [lia|].
  rewrite <-app_assoc, <-app_comm_cons.
  eapply parsed_bind; [by apply (strchr_found [] h "," (rest ++ nul :: p ++ [nul]) w)|].
  cbn [length Nat.add]. eapply parsed_bind; [by mstep (store_run h "," (rest ++ nul :: p ++ [nul]) nul w)|].
  cbv beta iota.
  replace (h ++ nul :: rest ++ nul :: p ++ [nul])
    with ((h ++ nul :: rest) ++ [] ++ nul :: p ++ [nul]) by (by rewrite <-app_assoc).
  replace (length h + length rest + 1)%nat with (length (h ++ nul :: rest))
    by (rewrite length_app; cbn; lia).
  eapply parsed_bind; [apply strlen_run; unfold no_nul; set_solver|].
  cbn [length]. destruct (Nat.ltb_spec NFS_MAXPATHNAME 0); [lia|].
  rewrite <-app_assoc.
  apply (dup_parts_run [] h (nul :: rest) [] (nul :: p ++ [nul]));
    [done|unfold no_nul; set_solver|rewrite length_app; cbn; lia|done].
Qed.
Lemma bracket_open a : no_nul a → "]"%char ∉ a →
  parsed (nfs_parse_square_bracket ("["%char :: a ++ [nul])) w None.
Proof.
  intros Hn Ha. eapply parsed_bind; [by apply (strchr_missing ["["%char] a "]" [] w)|].
  apply parsed_now.
Qed.
Lemma bracket_closed a r : no_nul a → no_nul r → "]"%char ∉ a →
  parsed (nfs_parse_square_bracket ("["%char :: (a ++ "]"%char :: r) ++ [nul])) w
    match r with
    | c :: p =>
        if is_char ":" c && negb (NFS_MAXHOSTNAME <? length a)%nat &&
           negb (NFS_MAXPATHNAME <? length p)%nat then Some (a, p) else None
    | [] => None
    end.
Proof.
  intros Hn Hr Ha. rewrite <-app_assoc, <-app_comm_cons.
  eapply parsed_bind; [by apply (strchr_found ["["%char] a "]" (r ++ [nul]) w)|].
  cbn [length Nat.add]. rewrite app_comm_cons.
  eapply parsed_bind; [apply (store_run ("["%char :: a))|].
  set (b := ("["%char :: a) ++ nul :: r ++ [nul]).
  assert (b !! (S (length a) + 1)%nat = head (r ++ [nul])) as Hc.
  { unfold b. rewrite lookup_app_r by (cbn; lia). cbn [length].
    replace (S (length a) + 1 - S (length a))%nat with 1%nat by lia. by destruct r. }
  destruct r as [|c p]; cbn [app head] in Hc.
  { eapply parsed_bind; [exact (char_at_run b _ _ w Hc)|]. apply parsed_now. }
  eapply parsed_bind; [exact (char_at_run b _ _ w Hc)|].
  destruct (is_char ":" c) eqn:Hcol; cbn [negb andb]; [|apply parsed_now].
  replace (S (length a) - 1)%nat with (length a) by lia.
  destruct (NFS_MAXHOSTNAME <? length a)%nat; cbn [negb andb]; [apply parsed_now|].
  assert (no_nul p) as Hp by (by apply no_nul_cons in Hr).
  assert (b = ("["%char :: a ++ [nul; c]) ++ p ++ [nul]) as Hb
    by (unfold b; cbn; by rewrite <-app_assoc).
  assert ((S (length a) + 2)%nat = length ("["%char :: a ++ [nul; c])) as Hpos
    by (cbn; rewrite length_app; cbn; lia).
  cbn [Nat.add] in Hpos. rewrite Hpos, Hb. eapply parsed_bind; [by apply strlen_run|].
  destruct (NFS_MAXPATHNAME <? length p)%nat; cbn [negb]; [apply parsed_now|].
  replace (("["%char :: a ++ [nul; c]) ++ p ++ [nul])
    with (["["%char] ++ a ++ [nul; c] ++ p ++ [nul]) by (cbn; by rewrite <-app_assoc).
  apply (dup_parts_run ["["%char] a [nul; c] p [nul]); [done..| |done].
  cbn. rewrite length_app. cbn. lia.
Qed.

(** The whole parser: it returns, and what it returns the name stands for. *)
Lemma devname_dispatch s r :
  (if bool_decide (head (buffer s) = Some "["%char) then
     ∀ w', w_heap w' = w_heap w → parsed (nfs_parse_square_bracket (buffer s)) w' r
   else if bool_decide (is_url (buffer s)) then r = None
   else ∀ w', w_heap w' = w_heap w → parsed (nfs_parse_simple_hostname (buffer s)) w' r) →
  parsed (nfs_parse_devname (Some s)) w r.
Proof.
  intros Hr. destruct (malloc_buf_any w (Z.of_nat (length (buffer s)))) as (ok & e & Hrun & Hok).
  rewrite (Hok Hmem) in Hrun. set (w1 := w <| w_est := e |>) in *.
  assert (parsed (c ← char_at (buffer s) 0;
      if is_char "[" c then nfs_parse_square_bracket (buffer s)
      else if bool_decide (take 6 (buffer s) = chars "nfs://") then nfs_parse_nfs_url (buffer s)
      else nfs_parse_simple_hostname (buffer s)) w1 r) as [e2 He2].
  { unfold is_url in Hr. destruct (buffer s) as [|c b] eqn:Hb.
    { unfold buffer in Hb. by destruct (chars s). }
    destruct (is_char "[" c) eqn:Hc.
    - apply is_char_true in Hc as ->. rewrite bool_decide_true in Hr by done.
      assert (char_at ("["%char :: b) 0 w1 = Ok ("["%char, w1)) as Hch by (by apply char_at_run).
      unfold parsed. rewrite (bind_ok _ _ _ _ _ Hch). by apply Hr.
    - apply is_char_false in Hc. rewrite bool_decide_false in Hr by (cbn; congruence).
      assert (char_at (c :: b) 0 w1 = Ok (c, w1)) as Hch by (by apply char_at_run).
      unfold parsed. rewrite (bind_ok _ _ _ _ _ Hch).
      destruct (is_char "[" c) eqn:Hc'; [by apply is_char_true in Hc'|].
      case_bool_decide; [subst r|by apply Hr]. exists (w_est w1). by rewrite est_same. }
  exists e2. unfold nfs_parse_devname. mstep Hrun. cbn [negb]. exact He2.
Qed.
End Runs.

Lemma buffer_app s : buffer s = chars s ++ [nul].
Proof. done. Qed.
Lemma head_buffer_bracket l : head (l ++ [nul]) = Some "["%char ↔ ∃ a, l = "["%char :: a.
Proof.
  destruct l as [|c a]; cbn.
  - split; [intros [=]|intros (a & [=])].
  - split; [intros [= ->]; eauto|by intros (a' & [= -> _])].
Qed.
Lemma is_url_buffer l : is_url (l ++ [nul]) ↔ is_url l.
Proof.
  unfold is_url. destruct (decide (6 <= length l)%nat).
  - by rewrite take_app_le.
  - rewrite !take_ge by (rewrite ?length_app; cbn; lia).
    split; intros Hl; apply (f_equal length) in Hl as Hlen.
    + rewrite length_app in Hlen. cbn in Hlen.
      assert (list.last (l ++ [nul]) = list.last (chars "nfs://")) as Hlast by (by rewrite Hl).
      by rewrite last_snoc in Hlast.
    + cbn in Hlen. lia.
Qed.

(** A comma before the first colon is not in a URL. *)
Lemma hosts_not_url h rest p : ":"%char ∉ h → ":"%char ∉ rest →
  ¬ is_url (h ++ ","%char :: rest ++ ":"%char :: p).
Proof.
  intros Hh Hr Hu. set (l := h ++ _) in Hu.
  assert (∀ i, (i < 6)%nat → l !! i = chars "nfs://" !! i) as Hi.
  { intros i Hi. unfold is_url in Hu. rewrite <-Hu. by rewrite lookup_take_lt. }
  assert (l !! 3%nat = Some ":"%char) as H3 by (rewrite Hi; [done|lia]).
  assert (length h < 3)%nat as Hlen.
  { destruct (decide (length h < 3)%nat) as [|Hge]; [done|]. exfalso.
    unfold l in H3. apply lookup_app_Some in H3 as [H3|[Hle H3]].
    - apply list_elem_of_lookup_2 in H3. contradiction.
    - by replace (3 - length h)%nat with 0%nat in H3 by lia. }
  assert (l !! length h = Some ","%char) as Hcomma
    by (unfold l; rewrite lookup_app_r by lia; by rewrite Nat.sub_diag).
  rewrite Hi in Hcomma by lia. by destruct (length h) as [|[|[|]]]; [..|lia].
Qed.

(** The parser returns, and what it returns the name stands for. *)
Definition sound_on (w : world) (s : string) : Prop :=
  ∃ r, parsed (nfs_parse_devname (Some s)) w r ∧ ∀ h p, r = Some (h, p) → devname (chars s) h p.

Lemma bracket_sound w s a : memory_plenty (dom (w_heap w)) → no_nul (chars s) →
  chars s = "["%char :: a → sound_on w s.
Proof.
  intros Hm Hn Ha.
  assert (∀ w', w_heap w' = w_heap w → memory_plenty (dom (w_heap w'))) as Hm' by (by intros ? ->).
  assert (no_nul a) as Hna by (rewrite Ha in Hn; by apply no_nul_cons in Hn).
  assert (bool_decide (head (buffer s) = Some "["%char) = true) as Hhd
    by (apply bool_decide_eq_true; rewrite buffer_app, Ha; done).
  destruct (decide ("]"%char ∈ a)) as [(a1 & r & -> & Ha1)%split_first|Hno].
  - apply no_nul_app in Hna as [Hna1 Hnr%no_nul_cons].
    eexists. split.
    { apply devname_dispatch; [done|]. rewrite Hhd, buffer_app, Ha. intros w' Hw'.
      cbn [app]. apply bracket_closed; auto. }
    intros h p. destruct r as [|c r]; [done|].
    destruct (is_char ":" c) eqn:Hc; [|done]. apply is_char_true in Hc as ->.
    destruct (Nat.ltb_spec NFS_MAXHOSTNAME (length a1)); [done|].
    destruct (Nat.ltb_spec NFS_MAXPATHNAME (length r)); [done|].
    intros [= <- <-]. rewrite Ha. by constructor.
  - exists None. split; [|done]. apply devname_dispatch; [done|]. rewrite Hhd, buffer_app, Ha.
    intros w' Hw'. cbn [app]. apply bracket_open; auto.
Qed.
Lemma simple_sound w s : memory_plenty (dom (w_heap w)) → no_nul (chars s) →
  (¬ ∃ a, chars s = "["%char :: a) → ¬ is_url (chars s) → sound_on w s.
Proof.
  intros Hm Hn Hb Hu.
  assert (∀ w', w_heap w' = w_heap w → memory_plenty (dom (w_heap w'))) as Hm' by (by intros ? ->).
  assert (∀ r, (∀ w', w_heap w' = w_heap w →
      parsed (nfs_parse_simple_hostname (chars s ++ [nul])) w' r) →
    parsed (nfs_parse_devname (Some s)) w r) as Hdisp.
  { intros r Hr. apply devname_dispatch; [done|].
    rewrite bool_decide_false by (by rewrite buffer_app, head_buffer_bracket).
    by rewrite bool_decide_false by (by rewrite buffer_app, is_url_buffer). }
  unfold sound_on. destruct (decide (":"%char ∈ chars s)) as [(h & p & Hs & Hh)%split_first|Hno].
  2:{ exists None. split; [|done]. apply Hdisp. intros w' Hw'. by apply simple_no_colon. }
  rewrite Hs in *. apply no_nul_app in Hn as [Hnh Hnp%no_nul_cons].
  destruct (decide (length h <= NFS_MAXHOSTNAME)%nat) as [Hl|Hl].
  2:{ exists None. split; [|done]. apply Hdisp. intros w' Hw'. apply simple_colon; [done..|].
      destruct (Nat.ltb_spec NFS_MAXHOSTNAME (length h)); [done|lia]. }
  destruct (decide (","%char ∈ h)) as [(h1 & rest & -> & Hh1)%split_first|Hk].
  - apply no_nul_app in Hnh as [Hnh1 Hnrest%no_nul_cons]. rewrite length_app in Hl. cbn in Hl.
    exists (Some (h1, [])). rewrite <-(app_assoc h1), <-app_comm_cons in *. split.
    + apply Hdisp. intros w' Hw'. apply simple_hosts; auto; [set_solver|set_solver|lia].
    + intros h p' [= <- <-]. constructor; [|done|set_solver|set_solver|lia].
      destruct h1 as [|c h1]; [done|]. cbn. intros [= ->]. apply Hb. cbn. eauto.
  - eexists. split; [apply Hdisp; intros w' Hw'; apply simple_one_host; auto|].
    intros h' p'. destruct (Nat.ltb_spec NFS_MAXPATHNAME (length p)); [done|].
    intros [= <- <-]. constructor; [|done..].
    destruct h as [|c h]; [done|]. cbn. intros [= ->]. apply Hb. cbn. eauto.
Qed.
Lemma devname_sound w s : memory_plenty (dom (w_heap w)) → no_nul (chars s) → sound_on w s.
Proof.
  intros Hm Hn.
  destruct (decide (head (chars s ++ [nul]) = Some "["%char)) as [Hd|Hd];
    rewrite head_buffer_bracket in Hd.
  { destruct Hd as [a Ha]. by apply (bracket_sound w s a). }
  destruct (decide (is_url (chars s))) as [Hu|Hu]; [|by apply simple_sound].
  exists None. split; [|done]. apply devname_dispatch; [done|].
  rewrite bool_decide_false by (by rewrite buffer_app, head_buffer_bracket).
  by rewrite bool_decide_true by (by rewrite buffer_app, is_url_buffer).
Qed.
Lemma devname_complete w s h p : memory_plenty (dom (w_heap w)) → no_nul (chars s) →
  devname (chars s) h p → parsed (nfs_parse_devname (Some s)) w (Some (h, p)).
Proof.
  intros Hm Hn Hd.
  assert (∀ w', w_heap w' = w_heap w → memory_plenty (dom (w_heap w'))) as Hm'
    by (by intros ? ->).
  apply devname_dispatch; [done|]. rewrite buffer_app.
  inversion Hd as [h0 p0 Hb Hc Hk Hu Hl Hl' Hs|a p0 Ha Hl Hl' Hs|h0 rest p0 Hb Hk Hc Hc' Hl Hs]; subst;
    rewrite <-Hs in Hn.
  - apply no_nul_app in Hn as [Hnh Hnp%no_nul_cons].
    rewrite bool_decide_false, bool_decide_false.
    + intros w' Hw'. pose proof (simple_one_host w' (Hm' _ Hw') h p) as Hrun.
      destruct (Nat.ltb_spec NFS_MAXPATHNAME (length p)); [lia|]. auto.
    + by rewrite is_url_buffer.
    + rewrite head_buffer_bracket. intros (a & Ha). apply Hb. by destruct h; simplify_eq/=.
  - apply no_nul_cons, no_nul_app in Hn as [Hna Hnp%no_nul_cons].
    rewrite bool_decide_true by done. intros w' Hw'. cbn [app].
    pose proof (bracket_closed w' (Hm' _ Hw') h (":"%char :: p) Hna Hnp Ha) as Hrun.
    cbv beta iota in Hrun. rewrite is_char_refl in Hrun.
    destruct (Nat.ltb_spec NFS_MAXHOSTNAME (length h)); [lia|].
    destruct (Nat.ltb_spec NFS_MAXPATHNAME (length p)); [lia|]. done.
  - apply no_nul_app in Hn as [Hnh Hn%no_nul_cons].
    apply no_nul_app in Hn as [Hnr Hnp%no_nul_cons].
    rewrite bool_decide_false, bool_decide_false.
    + intros w' Hw'. apply simple_hosts; auto.
    + rewrite is_url_buffer. by apply hosts_not_url.
    + rewrite head_buffer_bracket. intros (a & Ha). apply Hb. by destruct h; simplify_eq/=.
Qed.

(** C29. The parser of device names: it ends on every string, it accepts exactly
    [host:path] and [[address]:path] (and lists of hosts, whose path it loses) with
    the parts within their limits, and it returns the two parts. *)
Theorem devname_parsed w s :
  memory_plenty (dom (w_heap w)) → no_nul (chars s) →
  ∃ r e, nfs_parse_devname (Some s) w = Ok (r, w <| w_est := e |>) ∧
    ∀ h p, r = Some (h, p) ↔ devname (chars s) h p.
Proof.
  intros Hm Hn. destruct (devname_sound w s Hm Hn) as (r & [e He] & Hr).
  exists r, e. split; [done|]. intros h p. split; [apply Hr|]. intros Hd.
  destruct (devname_complete w s h p Hm Hn Hd) as [e' He']. congruence.
Qed.
End ParseDev.
