(* ===== verification/Options.v ===== *)
(** * Mount options

    [hsi_nfs3_parse_options] of [nfs3/hsi_nfs3_mount.c], with the functions of
    [fuse/xcommon.c] it uses.  The loop of the source cuts the option string at the
    commas outside quotes and handles each item where it ends; here [opt_items] cuts
    and [parse_item] handles. *)

From S2P Require Import Prelude CString Types Icache Rpc.

Definition NFS_MOUNT_TCP : Z := 1.

(** ** The options *)

(** What the parser fills: the super block, the retry time, the addresses of the
    mount and the NFS service, the mount host and the options for mtab. *)
Record mount_opts := {
  mo_super : hsfs_super; mo_retry : Z; mo_mnt : pmap; mo_nfs : pmap;
  mo_mounthost : option (list ascii); mo_new : list ascii }.

(** The items between commas.  [cur] is the item that has begun, [open_quote] the
    state of the quotes; an item whose quotes stay open is not handled. *)
Fixpoint opt_items (l : list ascii) (cur : list ascii) (open_quote : bool) : list (list ascii) :=
  match l with
  | [] => []
  | c :: l =>
      let open_quote := xorb open_quote (is_char "034" c) in
      if open_quote then opt_items l (cur ++ [c]) open_quote else
      if is_char "," c then cur :: opt_items l [] open_quote else
      if bool_decide (l = []) then [cur ++ [c]] else opt_items l (cur ++ [c]) open_quote
  end.

(** What handling an item comes to: an option for mtab, nothing to write, the
    label [bad_parameter] or the label [out_bad]. *)
Inductive outcome :=
| Keep (o : mount_opts) (text : list ascii)
| Skip
| Bad_parameter
| Out_bad.

Definition named (name : list ascii) (s : string) : bool := bool_decide (name = chars s).

Definition on_super (f : hsfs_super → hsfs_super) (o : mount_opts) : mount_opts :=
  o <| mo_super ::= f |>.
Definition on_mnt (f : pmap → pmap) (o : mount_opts) : mount_opts := o <| mo_mnt ::= f |>.
Definition on_nfs (f : pmap → pmap) (o : mount_opts) : mount_opts := o <| mo_nfs ::= f |>.

(** Both services over UDP or TCP. *)
Definition set_prot (prot : Z) (o : mount_opts) : mount_opts :=
  on_mnt (λ p, p <| pm_prot := prot |>) (on_nfs (λ p, p <| pm_prot := prot |>) o).
Definition tcp_on (o : mount_opts) : mount_opts :=
  on_super (λ s, s <| sb_flags ::= λ f, Z.lor f NFS_MOUNT_TCP |>) o.
Definition tcp_off (o : mount_opts) : mount_opts :=
  on_super (λ s, s <| sb_flags ::= λ f, bclear f NFS_MOUNT_TCP |>) o.

(** [name=value,] *)
Definition assign (name value : list ascii) : list ascii := name ++ "="%char :: value ++ [","%char].

(** Up to a blank or a comma: [strcspn(s, " \t\n\r,")]. *)
Definition host_part (value : list ascii) : list ascii :=
  let stop c := bool_decide (c ∈ [" "; "009"; "010"; "013"; ","]%char) in
  match scan stop value with Some n => take n value | None => value end.

Section Options.
Context {E : Env}.

(** ** xcommon.c: [die] ends the process *)

Definition die {A} : M world A := abort.
Definition xmalloc (size : Z) : M world unit :=
  if size =? 0 then mret tt else
  ok ← malloc_buf size;
  if (ok : bool) then mret tt else die.
(** [xstrdup] and [xstrndup] of a string of this length. *)
Definition xstrdup (l : list ascii) : M world unit := xmalloc (Z.of_nat (length l) + 1).

(** [option=number] *)
Definition number_option (name value : list ascii) (o : mount_opts) : M world outcome :=
  let val := atoi value in
  let keep o := mret (Keep o (assign name value)) in
  if named name "rsize" then keep (on_super (λ s, s <| rsize := wrap 32 val |>) o)
  else if named name "wsize" then keep (on_super (λ s, s <| wsize := wrap 32 val |>) o)
  else if named name "timeo" then keep (on_super (λ s, s <| timeo := val |>) o)
  else if named name "retrans" then keep (on_super (λ s, s <| retrans := val |>) o)
  else if named name "acregmin" then keep (on_super (λ s, s <| acregmin := val |>) o)
  else if named name "acregmax" then keep (on_super (λ s, s <| acregmax := val |>) o)
  else if named name "acdirmin" then keep (on_super (λ s, s <| acdirmin := val |>) o)
  else if named name "acdirmax" then keep (on_super (λ s, s <| acdirmax := val |>) o)
  else if named name "actimeo" then
    keep (on_super (λ s, s <| acregmin := val |> <| acregmax := val |>
                           <| acdirmin := val |> <| acdirmax := val |>) o)
  else if named name "retry" then keep (o <| mo_retry := val |>)
  else if named name "port" then keep (on_nfs (λ p, p <| pm_port := wrap 64 val |>) o)
  else if named name "mountport" then keep (on_mnt (λ p, p <| pm_port := wrap 64 val |>) o)
  else if named name "mountprog" then keep (on_mnt (λ p, p <| pm_prog := wrap 64 val |>) o)
  else if named name "mountvers" then keep (on_mnt (λ p, p <| pm_vers := wrap 64 val |>) o)
  else if named name "mounthost" then
    xstrdup (host_part value);; keep (o <| mo_mounthost := Some (host_part value) |>)
  else if named name "nfsprog" then keep (on_nfs (λ p, p <| pm_prog := wrap 64 val |>) o)
  else if named name "nfsvers" || named name "vers" then
    mret (Keep (on_nfs (λ p, p <| pm_vers := wrap 64 val |>) o) (assign (chars "nfsvers") value))
  else if named name "namlen" then mret Skip
  else if named name "addr" then mret Skip
  else mret Bad_parameter.

(** [option=text] *)
Definition text_option (name value : list ascii) (o : mount_opts) : M world outcome :=
  let keep o := mret (Keep o (assign name value)) in
  if named name "proto" then
    if named value "udp" then keep (tcp_off (set_prot IPPROTO_UDP o))
    else if named value "tcp" then keep (tcp_on (set_prot IPPROTO_TCP o))
    else mret Bad_parameter
  else if named name "sec" then mret Skip
  else if named name "mounthost" then
    xstrdup (host_part value);; keep (o <| mo_mounthost := Some (host_part value) |>)
  else if named name "context" then keep o
  else mret Bad_parameter.

(** [option] and [nooption] *)
Definition flag_option (opt : list ascii) (o : mount_opts) : outcome :=
  let no := bool_decide (take 2 opt = chars "no") in
  let val := negb no in
  let opt := if no then drop 2 opt else opt in
  let text := (if val then [] else chars "no") ++ opt ++ [","%char] in
  if existsb (named opt) ["bg"; "fg"; "soft"; "hard"; "intr"; "posix"; "cto"; "ac"]%string then Skip
  else if named opt "tcp" then
    if val then Keep (tcp_on (set_prot IPPROTO_TCP o)) text
    else Keep (set_prot IPPROTO_UDP o) text
  else if named opt "udp" then
    let o := tcp_off o in
    if val then Keep (set_prot IPPROTO_UDP o) text
    else Keep (tcp_on (set_prot IPPROTO_TCP o)) text
  else if existsb (named opt) ["lock"; "broken_suid"; "acl"; "rdirplus"; "sharecache"]%string then Skip
  else Out_bad.

Definition CBUF_SIZE : nat := 128.

Definition parse_item (opt : list ascii) (o : mount_opts) : M world outcome :=
  if (CBUF_SIZE <=? length opt)%nat then mret Bad_parameter else
  match scan (is_char "=") opt with
  | Some i =>
      let name := take i opt in
      let value := drop (S i) opt in
      match value with
      | c :: _ => if isdigit c then number_option name value o else text_option name value o
      | [] => text_option name value o
      end
  | None => mret (flag_option opt o)
  end.

(** The items in order: [None] when all are handled, or the value returned at the
    label the parser goes to.  An option is printed into [cbuf] and appended to the
    options for mtab. *)
Fixpoint parse_items (opt_size : nat) (items : list (list ascii)) (o : mount_opts) :
    M world (option Z * mount_opts) :=
  match items with
  | [] => mret (None, o)
  | opt :: items =>
      r ← parse_item opt o;
      match r with
      | Skip => parse_items opt_size items o
      | Bad_parameter => mret (Some 0, o)
      | Out_bad => mret (Some 1, o)
      | Keep o text =>
          if (CBUF_SIZE <=? length text)%nat then ub else
          if (opt_size <=? length (mo_new o ++ text))%nat then mret (Some 1, o)
          else parse_items opt_size items (o <| mo_new ::= λ n, n ++ text |>)
      end
  end.

(** ** What a list of options does *)

(** The options with a number and what each sets. *)
Definition numeric : list (string * (Z → mount_opts → mount_opts)) :=
  [("rsize", λ v, on_super (λ s, s <| rsize := v |>));
   ("wsize", λ v, on_super (λ s, s <| wsize := v |>));
   ("timeo", λ v, on_super (λ s, s <| timeo := v |>));
   ("retrans", λ v, on_super (λ s, s <| retrans := v |>));
   ("acregmin", λ v, on_super (λ s, s <| acregmin := v |>));
   ("acregmax", λ v, on_super (λ s, s <| acregmax := v |>));
   ("acdirmin", λ v, on_super (λ s, s <| acdirmin := v |>));
   ("acdirmax", λ v, on_super (λ s, s <| acdirmax := v |>));
   ("actimeo", λ v, on_super (λ s, s <| acregmin := v |> <| acregmax := v |>
                                     <| acdirmin := v |> <| acdirmax := v |>));
   ("retry", λ v o, o <| mo_retry := v |>);
   ("port", λ v, on_nfs (λ p, p <| pm_port := v |>));
   ("mountport", λ v, on_mnt (λ p, p <| pm_port := v |>));
   ("mountprog", λ v, on_mnt (λ p, p <| pm_prog := v |>));
   ("mountvers", λ v, on_mnt (λ p, p <| pm_vers := v |>));
   ("nfsprog", λ v, on_nfs (λ p, p <| pm_prog := v |>));
   ("nfsvers", λ v, on_nfs (λ p, p <| pm_vers := v |>))]%string.

(** A setting: the option, what it sets, and the number. *)
Definition setting : Type := string * (Z → mount_opts → mount_opts) * Z.
Definition valid_setting (s : setting) : Prop := s.1 ∈ numeric ∧ 0 <= s.2 < 2 ^ 31.
Definition setting_text (s : setting) : list ascii := chars s.1.1 ++ "="%char :: print_int s.2.
Definition apply_setting (o : mount_opts) (s : setting) : mount_opts :=
  (s.1.2 s.2 o) <| mo_new ::= λ n, n ++ setting_text s ++ [","%char] |>.

(** Items joined by commas. *)
Fixpoint joined (items : list (list ascii)) : list ascii :=
  match items with
  | [] => []
  | [i] => i
  | i :: items => i ++ ","%char :: joined items
  end.

Definition plain (l : list ascii) : Prop := Forall (λ c, c ≠ ","%char ∧ c ≠ "034"%char) l.

Lemma opt_items_word i : ∀ cur, plain i → i ≠ [] → opt_items i cur false = [cur ++ i].
Proof.
  induction i as [|c i IH]; intros cur Hp Hne; [done|].
  apply list.Forall_cons in Hp as [[Hc Hq] Hp]. cbn [opt_items].
  rewrite (proj2 (is_char_false "034" c) Hq), (proj2 (is_char_false "," c) Hc). cbn [xorb].
  case_bool_decide as Hi; [by rewrite Hi|]. rewrite IH by done. by rewrite <-app_assoc.
Qed.
Lemma opt_items_comma i l : ∀ cur, plain i →
  opt_items (i ++ ","%char :: l) cur false = (cur ++ i) :: opt_items l [] false.
Proof.
  induction i as [|c i IH]; intros cur Hp; [by cbn; rewrite app_nil_r|].
  apply list.Forall_cons in Hp as [[Hc Hq] Hp]. cbn [opt_items app].
  rewrite (proj2 (is_char_false "034" c) Hq), (proj2 (is_char_false "," c) Hc). cbn [xorb].
  rewrite bool_decide_false by (by destruct i). rewrite IH by done. by rewrite <-app_assoc.
Qed.
(** Cutting undoes joining. *)
Lemma opt_items_joined items : Forall (λ i, plain i ∧ i ≠ []) items →
  opt_items (joined items) [] false = items.
Proof.
  induction items as [|i items IH]; [done|]. intros [[Hp Hne] Hall]%list.Forall_cons.
  destruct items as [|j items]; [by apply opt_items_word|].
  change (joined (i :: j :: items)) with (i ++ ","%char :: joined (j :: items)).
  rewrite opt_items_comma by done. by rewrite IH.
Qed.

Lemma isdigit_plain c : isdigit c = true → c ≠ ","%char ∧ c ≠ "034"%char.
Proof. intros H. split; by intros ->. Qed.
Lemma numeric_name name f : (name, f) ∈ numeric →
  plain (chars name) ∧ "="%char ∉ chars name ∧ (length (chars name) <= 9)%nat.
Proof.
  intros H. assert (name ∈ numeric.*1) as Hn by (by apply (list_elem_of_fmap_2 fst) in H).
  revert Hn. unfold numeric. cbn [fmap list_fmap fst]. clear.
  intros H. repeat (apply elem_of_cons in H as [->|H]); [..|by apply elem_of_nil in H].
  all: split_and!; [by repeat constructor|by vm_compute; set_solver|vm_compute; lia].
Qed.
Lemma number_option_numeric name f v o w : (name, f) ∈ numeric → 0 <= v < 2 ^ 31 →
  number_option (chars name) (print_int v) o w =
    Ok (Keep (f v o) (assign (chars name) (print_int v)), w).
Proof.
  intros Hf Hv. pose proof (atoi_print v [] Hv I) as Ha. rewrite app_nil_r in Ha.
  assert (wrap 32 v = v) as H32 by (apply wrap_small; unfold in_range; lia).
  assert (wrap 64 v = v) as H64 by (apply wrap_small; unfold in_range; lia).
  unfold number_option. rewrite Ha, H32, H64. revert Hf. unfold numeric. intros H.
  repeat (apply elem_of_cons in H as [[= -> ->]|H]); [..|by apply elem_of_nil in H].
  all: reflexivity.
Qed.
Lemma parse_setting s o w : valid_setting s →
  parse_item (setting_text s) o w = Ok (Keep (s.1.2 s.2 o) (setting_text s ++ [","%char]), w) ∧
  plain (setting_text s) ∧ setting_text s ≠ [] ∧ (length (setting_text s) <= 20)%nat.
Proof.
  destruct s as [[name f] v]. intros [Hf Hv]. cbn [fst snd] in *. unfold setting_text. cbn [fst snd].
  destruct (numeric_name name f Hf) as (Hp & Heq & Hlen).
  pose proof (print_int_length v Hv) as Hl. pose proof (print_int_digits v ltac:(lia)) as Hd.
  destruct (print_int_cons v ltac:(lia)) as (c & l & Hc & Hcd).
  assert (length (chars name ++ "="%char :: print_int v) <= 20)%nat as Hlt
    by (rewrite length_app; cbn [length]; lia).
  split_and!; [|apply Forall_app; split; [done|]|by destruct (chars name)|done].
  - unfold parse_item. destruct (Nat.leb_spec CBUF_SIZE (length (chars name ++ "="%char :: print_int v)))
      as [Hge|]; [unfold CBUF_SIZE in Hge; lia|].
    rewrite scan_app; [|by apply Forall_not_char|apply is_char_refl].
    rewrite take_app_length. cbv zeta.
    replace (drop (S (length (chars name))) (chars name ++ "="%char :: print_int v)) with (print_int v).
    2:{ rewrite <-(Nat.add_1_r (length _)), <-drop_drop, drop_app_length. done. }
    pose proof (number_option_numeric name f v o w Hf Hv) as Hrun. rewrite Hc in *. rewrite Hcd, Hrun.
    unfold assign. by rewrite <-app_assoc.
  - constructor; [done|]. eapply Forall_impl; [|exact Hd]. apply isdigit_plain.
Qed.
Lemma parse_settings size ss : ∀ o w, Forall valid_setting ss →
  (length (mo_new o) + 21 * length ss < size)%nat →
  parse_items size (setting_text <$> ss) o w = Ok ((None, fold_left apply_setting ss o), w).
Proof.
  induction ss as [|s ss IH]; intros o w Hall Hlen; [done|].
  apply list.Forall_cons in Hall as [Hs Hall]. cbn [fmap list_fmap parse_items length] in *.
  destruct (parse_setting s o w Hs) as (Hrun & _ & _ & Hl). mstep Hrun.
  rewrite length_app. destruct (Nat.leb_spec CBUF_SIZE (length (setting_text s) + length [","%char]))
    as [Hge|]; [unfold CBUF_SIZE in Hge; cbn in Hge; lia|].
  assert (mo_new (s.1.2 s.2 o) = mo_new o) as Hnew.
  { destruct s as [[name f] v], Hs as [Hf _]. cbn [fst snd] in *. revert Hf. unfold numeric.
    intros Hin. repeat (apply elem_of_cons in Hin as [[= -> ->]|Hin]); [..|by apply elem_of_nil in Hin].
    all: reflexivity. }
  destruct (Nat.leb_spec size (length (mo_new (s.1.2 s.2 o) ++ setting_text s ++ [","%char])))
    as [Hge|]; [rewrite Hnew, !length_app in Hge; cbn in Hge; lia|].
  rewrite IH; [done|done|]. cbn. rewrite Hnew, !length_app. cbn. lia.
Qed.
End Options.
