(* ===== verification/Mntent.v ===== *)
(** * Mount tables

    [nfs3/nfs_mntent.c]: the lines of a mount table, printed by [nfs_addmntent] and
    parsed by [nfs_getmntent].  A file is the list of its characters; a pointer into
    the line buffer is the rest of the line from there.  Failures of the standard
    I/O functions and of [xmalloc], which ends the process, are left out. *)

From S2P Require Import Prelude CString.

Definition nl : ascii := "010".
Definition tab : ascii := "009".
Definition cr : ascii := "013".
Definition backslash : ascii := "092".
Definition ERR_MAX : Z := 5.
(** [sizeof(buf)] *)
Definition LINE_SIZE : nat := Z.to_nat 4096.

Record nfs_mntent_t := {
  mnt_fsname : list ascii; mnt_dir : list ascii; mnt_type : list ascii; mnt_opts : list ascii;
  mnt_freq : Z; mnt_passno : Z }.

(** ** Escapes *)

Definition need_escaping (c : ascii) : bool := bool_decide (c ∈ [" "%char; tab; nl; backslash]).
Definition escaped (c : ascii) : list ascii :=
  [backslash; chr (48 + ((code c & 0xc0) >> 6)); chr (48 + ((code c & 0x38) >> 3));
   chr (48 + (code c & 7))].
Definition mangle (arg : list ascii) : list ascii :=
  arg ≫= λ c, if need_escaping c then escaped c else [c].

Definition is_space_or_tab (c : ascii) : bool := is_char " " c || is_char tab c.
Fixpoint skip_spaces (s : list ascii) : list ascii :=
  match s with c :: r => if is_space_or_tab c then skip_spaces r else s | [] => [] end.
Fixpoint skip_nonspaces (s : list ascii) : list ascii :=
  match s with c :: r => if is_space_or_tab c then s else skip_nonspaces r | [] => [] end.
(** The characters [skip_nonspaces] skips. *)
Fixpoint nonspaces (s : list ascii) : list ascii :=
  match s with c :: r => if is_space_or_tab c then [] else c :: nonspaces r | [] => [] end.

Definition isoctal (c : ascii) : bool := bclear (code c) 7 =? 48.
Fixpoint unescape (s : list ascii) : list ascii :=
  match s with
  | [] => []
  | x :: t =>
      match t with
      | a :: b :: c :: r =>
          if is_char backslash x && isoctal a && isoctal b && isoctal c
          then chr (wrap 8 (64 * (code a & 7) + 8 * (code b & 7) + (code c & 7))) :: unescape r
          else x :: unescape t
      | _ => x :: unescape t
      end
  end.
(** The character after the field is no octal digit, so the escapes of a field are
    within it. *)
Definition unmangle (s : list ascii) : list ascii := unescape (nonspaces s).

(** ** Writing *)

Definition mntent_line (mnt : nfs_mntent_t) : list ascii :=
  mangle (mnt_fsname mnt) ++ " "%char :: mangle (mnt_dir mnt) ++ " "%char :: mangle (mnt_type mnt)
  ++ " "%char :: mangle (mnt_opts mnt) ++ " "%char :: print_int (mnt_freq mnt)
  ++ " "%char :: print_int (mnt_passno mnt).
(** The file after [fseek] to its end and [fprintf]. *)
Definition nfs_addmntent (file : list ascii) (mnt : nfs_mntent_t) : list ascii :=
  file ++ mntent_line mnt ++ [nl].

(** ** Reading *)

(** [mf_rest] is what is left to read. *)
Record mntFILE := { mf_rest : list ascii; mf_lineno : Z; mf_errs : bool; mf_softerrs : Z }.
Definition nfs_setmntent (file : list ascii) : mntFILE :=
  {| mf_rest := file; mf_lineno := 0; mf_errs := false; mf_softerrs := 0 |}.

(** At most [n] characters, up to a newline; the rest, and whether the end of the
    file was met. *)
Fixpoint fgets (n : nat) (file : list ascii) : list ascii * list ascii * bool :=
  match n, file with
  | O, _ => ([], file, false)
  | S _, [] => ([], [], true)
  | S n, c :: file =>
      if is_char nl c then ([c], file, false)
      else let '(line, rest, eof) := fgets n file in (c :: line, rest, eof)
  end.
(** The string a buffer starts with. *)
Definition c_str (b : list ascii) : list ascii :=
  match scan (is_char nul) b with Some n => take n b | None => b end.

(** The line without its end; [None] for a line that does not end. *)
Definition cut_line (line : list ascii) (eof : bool) : option (list ascii) :=
  let s := c_str line in
  l ← (match scan (is_char nl) s with
       | Some i => Some (take i s)
       | None => if eof then Some s else None
       end);
  Some (if bool_decide (l !! (length l - 1)%nat = Some cr) then removelast l else l).

(** A number or 0, and what follows; [None] when it is followed by another
    character. *)
Definition number (s : list ascii) : option (Z * list ascii) :=
  let '(v, s) := match s with
                 | c :: _ => if isdigit c then (atoi s, drop (length (digits s)) s) else (0, s)
                 | [] => (0, s)
                 end in
  match s with
  | c :: _ => if is_space_or_tab c then Some (v, s) else None
  | [] => Some (v, s)
  end.
(** [None] at the label [err]. *)
Definition parse_mntent (s : list ascii) : option nfs_mntent_t :=
  let next s := skip_spaces (skip_nonspaces s) in
  let s1 := next s in
  let s2 := next s1 in
  let s3 := next s2 in
  '(freq, s4) ← number (next s3);
  '(passno, _) ← number (skip_spaces s4);
  Some {| mnt_fsname := unmangle s; mnt_dir := unmangle s1; mnt_type := unmangle s2;
          mnt_opts := unmangle s3; mnt_freq := freq; mnt_passno := passno |}.

(** The next entry, or NULL.  Each round reads a line; [None] when [fuel] rounds are
    not enough. *)
Fixpoint nfs_getmntent (fuel : nat) (mfp : mntFILE) : option (option nfs_mntent_t * mntFILE) :=
  match fuel with
  | O => None
  | S fuel =>
      if mf_errs mfp || (ERR_MAX <=? mf_softerrs mfp) then Some (None, mfp) else
      let '(line, rest, eof) := fgets (LINE_SIZE - 1) (mf_rest mfp) in
      if bool_decide (line = []) then Some (None, mfp) else
      let mfp := mfp <| mf_rest := rest |> <| mf_lineno ::= Z.add 1 |> in
      let err mfp := nfs_getmntent fuel (mfp <| mf_softerrs ::= Z.add 1 |>) in
      match cut_line line eof with
      | None => err (mfp <| mf_errs := true |>)
      | Some l =>
          match skip_spaces l with
          | [] => nfs_getmntent fuel mfp
          | c :: s =>
              if is_char "#" c then nfs_getmntent fuel mfp else
              match parse_mntent (c :: s) with
              | Some me => Some (Some me, mfp)
              | None => err mfp
              end
          end
      end
  end.

(** The loop of a reader: all entries up to the first NULL. *)
Fixpoint read_entries (fuel : nat) (mfp : mntFILE) : option (list nfs_mntent_t) :=
  match fuel with
  | O => None
  | S fuel =>
      r ← nfs_getmntent (S (length (mf_rest mfp))) mfp;
      match r.1 with
      | None => Some []
      | Some me => l ← read_entries fuel r.2; Some (me :: l)
      end
  end.

(** ** Lemmas *)

(** What a field may hold: not empty, no NUL. *)
Definition field_ok (f : list ascii) : Prop := f ≠ [] ∧ no_nul f.
(** An entry a line can carry. *)
Record mntent_ok (m : nfs_mntent_t) : Prop := {
  ok_fsname : field_ok (mnt_fsname m);
  ok_comment : head (mnt_fsname m) ≠ Some "#"%char;
  ok_dir : field_ok (mnt_dir m);
  ok_type : field_ok (mnt_type m);
  ok_opts : field_ok (mnt_opts m);
  ok_freq : 0 <= mnt_freq m < 2 ^ 31;
  ok_passno : 0 <= mnt_passno m < 2 ^ 31;
  ok_line : (length (mntent_line m) < LINE_SIZE - 1)%nat;
}.

(** A character of a printed field. *)
Definition clean (c : ascii) : Prop := is_space_or_tab c = false ∧ c ≠ nl ∧ c ≠ nul.

Lemma escaped_cases c : need_escaping c = true →
  Forall clean (escaped c) ∧ (∀ r, unescape (escaped c ++ r) = c :: unescape r) ∧
  head (escaped c) ≠ Some "#"%char.
Proof.
  unfold need_escaping. intros Hin%bool_decide_eq_true.
  repeat (apply elem_of_cons in Hin as [->|Hin]); [..|by apply elem_of_nil in Hin];
    (split; [|split; [reflexivity|done]]); vm_compute; repeat constructor; congruence.
Qed.
Lemma mangle_clean f : no_nul f → Forall clean (mangle f).
Proof.
  induction f as [|c f IH]; intros Hf; [constructor|]. apply not_elem_of_cons in Hf as [Hc Hf].
  cbn [mangle mbind list_bind]. apply Forall_app. split; [|by apply IH].
  destruct (need_escaping c) eqn:He; [by apply escaped_cases|].
  constructor; [|constructor]. apply bool_decide_eq_false in He.
  repeat split; [|set_solver|congruence]. apply orb_false_iff.
  split; apply is_char_false; set_solver.
Qed.
Lemma unescape_mangle f : unescape (mangle f) = f.
Proof.
  induction f as [|c f IH]; [done|]. cbn [mangle mbind list_bind]. fold (mangle f).
  change (list_bind _ _ _ f) with (mangle f).
  destruct (need_escaping c) eqn:He.
  - destruct (escaped_cases c He) as (_ & Hu & _). by rewrite Hu, IH.
  - apply bool_decide_eq_false in He. assert (is_char backslash c = false) as Hb
      by (apply is_char_false; set_solver).
    assert (∀ t, unescape (c :: t) = c :: unescape t) as Hu.
    { intros t. cbn [unescape]. rewrite Hb. by destruct t as [|? [|? [|? ?]]]. }
    cbn [app]. by rewrite Hu, IH.
Qed.
Lemma mangle_cons f : field_ok f → ∃ c l, mangle f = c :: l.
Proof.
  intros [Hf _]. destruct f as [|c f]; [done|]. cbn [mangle mbind list_bind].
  destruct (need_escaping c); eexists _, _; reflexivity.
Qed.

Lemma skip_clean d r : Forall clean d →
  skip_nonspaces (d ++ " "%char :: r) = " "%char :: r ∧ nonspaces (d ++ " "%char :: r) = d.
Proof.
  induction 1 as [|c d [Hc _] _ [IH1 IH2]]; [done|]. cbn [app skip_nonspaces nonspaces].
  rewrite Hc. by rewrite IH1, IH2.
Qed.
Lemma skip_spaces_word d r : Forall clean d → d ≠ [] → skip_spaces (d ++ r) = d ++ r.
Proof. intros [|c l [Hc _] _]; [done|]. intros _. cbn. by rewrite Hc. Qed.
(** A field and the step to the next. *)
Lemma read_field f r : field_ok f → unmangle (mangle f ++ " "%char :: r) = f.
Proof.
  intros [_ Hf]. unfold unmangle. rewrite (proj2 (skip_clean _ _ (mangle_clean f Hf))). apply unescape_mangle.
Qed.
Lemma next_field f d r : field_ok f → Forall clean d → d ≠ [] →
  skip_spaces (skip_nonspaces (mangle f ++ " "%char :: d ++ r)) = d ++ r.
Proof.
  intros [_ Hf] Hd Hne. rewrite (proj1 (skip_clean _ _ (mangle_clean f Hf))).
  cbn [skip_spaces]. change (is_space_or_tab " ") with true. by apply skip_spaces_word.
Qed.
Lemma mangle_word f : field_ok f → Forall clean (mangle f) ∧ mangle f ≠ [].
Proof.
  intros Hf. split; [apply mangle_clean, Hf|]. destruct (mangle_cons f Hf) as (c & l & ->). done.
Qed.
Lemma digit_clean c : isdigit c = true → clean c.
Proof. intros H. split; [|split; by intros ->]. apply orb_false_iff. split; apply is_char_false; by intros ->. Qed.
Lemma print_word n : 0 <= n → Forall clean (print_int n) ∧ print_int n ≠ [].
Proof.
  intros Hn. split; [eapply Forall_impl; [apply digit_clean|by apply print_int_digits]|].
  destruct (print_int_cons n Hn) as (c & l & -> & _). done.
Qed.
Lemma read_number n r : 0 <= n < 2 ^ 31 →
  match r with c :: _ => c = " "%char | [] => True end → number (print_int n ++ r) = Some (n, r).
Proof.
  intros Hn Hr. assert (match r with c :: _ => isdigit c = false | [] => True end) as Hr'
    by (destruct r; [done|by subst]).
  pose proof (atoi_print n r Hn Hr') as Ha.
  pose proof (digits_app (print_int n) r (print_int_digits n ltac:(lia)) Hr') as Hd.
  assert (drop (length (digits (print_int n ++ r))) (print_int n ++ r) = r) as Hdrop
    by (rewrite Hd; apply drop_app_length).
  unfold number. destruct (print_int_cons n ltac:(lia)) as (c & l & Hc & Hcd). rewrite Hc in *.
  cbn [app] in *. rewrite Hcd, Ha, Hdrop. destruct r as [|x r]; [done|]. by subst x.
Qed.

Lemma parse_line m : mntent_ok m → parse_mntent (mntent_line m) = Some m.
Proof.
  intros [Hf _ Hd Ht Ho Hq Hp _]. unfold parse_mntent, mntent_line. cbv zeta.
  destruct (mangle_word _ Hd) as [Hd1 Hd2], (mangle_word _ Ht) as [Ht1 Ht2], (mangle_word _ Ho) as [Ho1 Ho2].
  destruct (print_word (mnt_freq m) ltac:(lia)) as [Hq1 Hq2], (print_word (mnt_passno m) ltac:(lia)) as [Hp1 Hp2].
  rewrite !next_field by done. rewrite !read_field by done. rewrite read_number by done. cbn [mbind option_bind].
  assert (skip_spaces (" "%char :: print_int (mnt_passno m)) = print_int (mnt_passno m)) as ->.
  { cbn [skip_spaces]. change (is_space_or_tab " ") with true. cbn iota.
    pose proof (skip_spaces_word _ [] Hp1 Hp2) as Hs. by rewrite app_nil_r in Hs. }
  pose proof (read_number (mnt_passno m) [] Hp I) as Hn. rewrite app_nil_r in Hn. rewrite Hn. by destruct m.
Qed.

(** The characters of a line: no newline and no NUL, the last one a digit. *)
Lemma line_plain m : mntent_ok m → Forall (λ c, c ≠ nl ∧ c ≠ nul) (mntent_line m).
Proof.
  intros [Hf _ Hd Ht Ho Hq Hp _]. assert (∀ d, Forall clean d → Forall (λ c, c ≠ nl ∧ c ≠ nul) d) as Hc.
  { intros d. apply Forall_impl. by intros c (_ & ? & ?). }
  unfold mntent_line. repeat (apply Forall_app; split; [apply Hc; by apply mangle_word|]; constructor; [done|]).
  apply Forall_app. split; [apply Hc, print_word; lia|]. constructor; [done|]. apply Hc, print_word; lia.
Qed.
Lemma line_last m : mntent_ok m → mntent_line m !! (length (mntent_line m) - 1)%nat ≠ Some cr.
Proof.
  intros Hm. pose proof (ok_passno m Hm) as Hp.
  pose proof (print_int_digits (mnt_passno m) ltac:(lia)) as Hd.
  destruct (print_int_cons (mnt_passno m) ltac:(lia)) as (c & l & Hc & _).
  assert (∃ pre, mntent_line m = pre ++ print_int (mnt_passno m)) as [pre ->].
  { exists (mangle (mnt_fsname m) ++ " "%char :: mangle (mnt_dir m) ++ " "%char :: mangle (mnt_type m)
      ++ " "%char :: mangle (mnt_opts m) ++ " "%char :: print_int (mnt_freq m) ++ [" "%char]).
    unfold mntent_line. by repeat (rewrite <-app_assoc; cbn [app]). }
  rewrite length_app. assert (0 < length (print_int (mnt_passno m)))%nat by (rewrite Hc; cbn; lia).
  rewrite lookup_app_r by lia. intros Hcr%list_elem_of_lookup_2.
  rewrite list.Forall_forall in Hd. by apply Hd in Hcr.
Qed.

Lemma fgets_line l r : ∀ n, Forall (λ c, c ≠ nl) l → (length l < n)%nat →
  fgets n (l ++ nl :: r) = (l ++ [nl], r, false).
Proof.
  induction l as [|c l IH]; intros [|n] Hl Hn; cbn [length] in Hn; try lia.
  - done.
  - apply list.Forall_cons in Hl as [Hc Hl]. cbn [app fgets].
    rewrite (proj2 (is_char_false nl c) Hc), IH by (done || lia). done.
Qed.
Lemma cut_written m : mntent_ok m → cut_line (mntent_line m ++ [nl]) false = Some (mntent_line m).
Proof.
  intros Hm. pose proof (line_plain m Hm) as Hp. unfold cut_line, c_str.
  destruct (scan (is_char nul) (mntent_line m ++ [nl])) as [k|] eqn:Hk.
  { exfalso. apply scan_Some in Hk as (c & r & Hl & _ & ->%is_char_true & _).
    assert (nul ∈ mntent_line m ++ [nl]) as Hin by (rewrite Hl; set_solver).
    rewrite list.Forall_forall in Hp. apply elem_of_app in Hin as [Hin|Hin]; [by apply Hp in Hin as [_ ?]|].
    by apply list_elem_of_singleton in Hin. }
  rewrite scan_app; [|eapply Forall_impl; [|exact Hp]; intros c [Hc _]; by apply is_char_false|apply is_char_refl].
  rewrite take_app_length. cbn [mbind option_bind].
  by rewrite bool_decide_eq_false_2 by (by apply line_last).
Qed.

(** Reading a line that was written. *)
Lemma getmntent_written fuel mfp m r :
  mntent_ok m → mf_rest mfp = mntent_line m ++ nl :: r → mf_errs mfp = false → mf_softerrs mfp < ERR_MAX →
  nfs_getmntent (S fuel) mfp = Some (Some m, mfp <| mf_rest := r |> <| mf_lineno ::= Z.add 1 |>).
Proof.
  intros Hm Hrest He Hs. pose proof (line_plain m Hm) as Hp.
  cbn [nfs_getmntent]. rewrite He, (proj2 (Z.leb_gt _ _) Hs), Hrest. cbn [orb].
  rewrite fgets_line; [|eapply Forall_impl; [|exact Hp]; by intros c [? _]|apply (ok_line m Hm)].
  rewrite bool_decide_eq_false_2 by (by destruct (mntent_line m)). cbv zeta. rewrite (cut_written m Hm).
  destruct (mangle_word _ (ok_fsname m Hm)) as [Hf1 Hf2].
  assert (skip_spaces (mntent_line m) = mntent_line m) as -> by (by apply skip_spaces_word).
  pose proof (parse_line m Hm) as Hpl.
  assert (∃ c l, mntent_line m = c :: l ∧ is_char "#" c = false) as (c & l & Hcl & Hc);
    [|rewrite Hcl in *; by rewrite Hc, Hpl].
  unfold mntent_line. destruct (ok_fsname m Hm) as [Hne _]. pose proof (ok_comment m Hm) as Hcom.
  destruct (mnt_fsname m) as [|c f]; [done|]. cbn [mangle mbind list_bind]. cbn in Hcom.
  destruct (need_escaping c) eqn:Hesc; eexists _, _; (split; [reflexivity|]); [done|].
  apply is_char_false. congruence.
Qed.

(** Every round of [nfs_getmntent] reads a line of the file. *)
Lemma fgets_shorter n f line rest eof : fgets n f = (line, rest, eof) →
  length f = (length line + length rest)%nat.
Proof.
  revert f line rest eof. induction n as [|n IH]; intros [|c f] line rest eof H; cbn in H; simplify_eq/=; [done..|].
  destruct (is_char nl c); [by simplify_eq/=|].
  destruct (fgets n f) as [[line' rest'] eof'] eqn:Hf. simplify_eq/=. by rewrite (IH _ _ _ _ Hf).
Qed.
Lemma getmntent_returns fuel : ∀ mfp, (length (mf_rest mfp) < fuel)%nat →
  ∃ r mfp', nfs_getmntent fuel mfp = Some (r, mfp') ∧
    (length (mf_rest mfp') <= length (mf_rest mfp))%nat ∧
    (is_Some r → (length (mf_rest mfp') < length (mf_rest mfp))%nat).
Proof.
  induction fuel as [|fuel IH]; intros mfp Hl; [lia|]. cbn [nfs_getmntent].
  destruct (_ || _); [exists None, mfp; split_and!; [done|lia|by intros [? ?]]|].
  destruct (fgets _ (mf_rest mfp)) as [[line rest] eof] eqn:Hf. apply fgets_shorter in Hf.
  case_bool_decide as Hline; [exists None, mfp; split_and!; [done|lia|by intros [? ?]]|].
  assert (length rest < length (mf_rest mfp))%nat as Hlt by (destruct line; [done|cbn in Hf; lia]).
  cbv zeta. set (mfp1 := mfp <| mf_rest := rest |> <| mf_lineno ::= Z.add 1 |>).
  assert (∀ mfp2, mf_rest mfp2 = rest → ∃ r mfp', nfs_getmntent fuel mfp2 = Some (r, mfp') ∧
    (length (mf_rest mfp') <= length (mf_rest mfp))%nat ∧
    (is_Some r → (length (mf_rest mfp') < length (mf_rest mfp))%nat)) as Hrec.
  { intros mfp2 Hr. destruct (IH mfp2) as (r & mfp' & Hrun & H1 & H2); [rewrite Hr; lia|].
    exists r, mfp'. rewrite Hr in *. split_and!; [done|lia|]. intros Hs%H2. lia. }
  destruct (cut_line line eof) as [l|]; [|by apply Hrec].
  destruct (skip_spaces l) as [|c s]; [by apply Hrec|]. destruct (is_char "#" c); [by apply Hrec|].
  destruct (parse_mntent (c :: s)) as [me|]; [|by apply Hrec].
  exists (Some me), mfp1. split; [done|]. change (mf_rest mfp1) with rest. split; [lia|done].
Qed.

Definition written (ms : list nfs_mntent_t) : list ascii := fold_left nfs_addmntent ms [].

Lemma written_lines ms : ∀ file,
  fold_left nfs_addmntent ms file = file ++ (ms ≫= λ m, mntent_line m ++ [nl]).
Proof.
  induction ms as [|m ms IH]; intros file; cbn [fold_left mbind list_bind]; [by rewrite app_nil_r|].
  rewrite IH. unfold nfs_addmntent. by rewrite <-!app_assoc.
Qed.

Lemma read_entries_total fuel : ∀ mfp, (length (mf_rest mfp) < fuel)%nat → is_Some (read_entries fuel mfp).
Proof.
  induction fuel as [|fuel IH]; intros mfp Hl; [lia|]. cbn [read_entries].
  destruct (getmntent_returns (S (length (mf_rest mfp))) mfp) as (r & mfp' & Hrun & _ & Hlt); [lia|].
  rewrite Hrun. cbn [mbind option_bind fst snd]. destruct r as [me|]; [|done].
  destruct (IH mfp') as [l Hread]; [specialize (Hlt ltac:(done)); lia|]. by rewrite Hread.
Qed.

(** * Properties *)

(** C32. A mount table that was written is read back: entries with fields that are not
    empty and free of NUL, whatever spaces, tabs, newlines and backslashes they
    hold, come back as they are and in order, as long as no device name starts with
    a comment character and every line fits the buffer. *)
Theorem mount_table_roundtrip ms :
  Forall mntent_ok ms →
  read_entries (S (length ms)) (nfs_setmntent (written ms)) = Some ms.
Proof.
  intros Hms. unfold written. rewrite written_lines. cbn [app].
  assert (∀ mfp, mf_rest mfp = (ms ≫= λ m, mntent_line m ++ [nl]) → mf_errs mfp = false →
    mf_softerrs mfp = 0 → read_entries (S (length ms)) mfp = Some ms) as Hall; [|by apply Hall].
  induction Hms as [|m ms Hm _ IH]; intros mfp Hr He Hs.
  - cbn [read_entries length mbind list_bind] in *. rewrite Hr. cbn [length nfs_getmntent].
    rewrite He, Hs, Hr. done.
  - cbn [mbind list_bind] in Hr. rewrite <-app_assoc in Hr. cbn [app] in Hr.
    change (length (m :: ms)) with (S (length ms)). remember (S (length ms)) as k eqn:Hk.
    cbn [read_entries]. rewrite (getmntent_written _ mfp m _ Hm Hr He) by (rewrite Hs; done).
    cbn [mbind option_bind fst snd]. by rewrite IH.
Qed.

(** Reading a mount table ends on every file, well formed or not: each call of
    [nfs_getmntent] reads at most one line for each character left, and every entry
    it returns shortens what is left. *)
Theorem reading_terminates file :
  is_Some (read_entries (S (length file)) (nfs_setmntent file)).
Proof. apply read_entries_total. cbn. lia. Qed.
