(* ===== verification/Fstab.v ===== *)
(** * The mount table and its lock

    [nfs3/fstab.c]: the chains of mount entries, the search in them, and
    [update_mtab], which rewrites [/etc/mtab] under a lock file.  The chains are the
    rings of [DList]; the entries of a file are read and written by [Mntent].  The
    system calls of the code may fail at any time: the [k]-th call of a run answers
    [sys_errno k], 0 for success. *)

From S2P Require Import Prelude CString DList Mntent.

Definition EX_EEXIST : Z := 17.
Definition EX_ENOENT : Z := 2.
Definition MNTTYPE_IGNORE : list ascii := chars "ignore".

(** The answers of the system, and the addresses memory is handed out at. *)
Class MtabEnv := {
  sys_errno : nat → Z;
  new_addr : gset Z → Z;
}.
Class MtabEnvOk (E : MtabEnv) : Prop := {
  new_addr_fresh X : new_addr X ∉ X;
  new_addr_pos X : new_addr X ≠ 0;
}.

(** [struct mntentchn] is split into its two pointers ([ms_links]) and its entry
    ([ms_ents]).  A file is its contents, [None] when it does not exist. *)
Record mst := {
  ms_links : dmem; ms_ents : gmap Z nfs_mntent_t;
  ms_mtab : option (list ascii); ms_symlink : bool; ms_temp : option (list ascii);
  ms_proc : option (list ascii); ms_fstab : option (list ascii);
  ms_calls : nat;
  have_mtab_info : bool; var_mtab_does_not_exist : bool; var_mtab_is_a_symlink : bool;
  got_mtab : bool; got_fstab : bool; mounttable : Z; fstab : Z;
  we_created_lockfile : bool; lock_tries : Z }.

Section Fstab.
Context {E : MtabEnv}.

(** [die] prints a message, releases the lock and ends the process. *)
Definition die_mtab {A} : M mst A := abort.
(** The answer to the next system call. *)
Definition sys : M mst Z := λ s, Ok (sys_errno (ms_calls s), s <| ms_calls ::= S |>).
(** A system call whose failure is ignored or only reported. *)
Definition sys_ : M mst unit := _ ← sys; mret tt.

Definition on_links {A} (m : M dmem A) : M mst A := λ s,
  match m (ms_links s) with
  | Ok (a, l) => Ok (a, s <| ms_links := l |>)
  | Abort => Abort
  | UB => UB
  | Timeout => Timeout
  end.
Definition nxt (mc : Z) : M mst Z := on_links (next_of mc).
Definition prv (mc : Z) : M mst Z := on_links (prev_of mc).
Definition set_nxt (mc a : Z) : M mst unit := on_links (set_nextp mc a).
Definition set_prv (mc a : Z) : M mst unit := on_links (set_prevp mc a).
Definition entry (mc : Z) : M mst nfs_mntent_t := λ s,
  match ms_ents s !! mc with Some m => Ok (m, s) | None => UB end.
Definition set_entry (mc : Z) (m : nfs_mntent_t) : M mst unit :=
  modify (λ s, s <| ms_ents ::= <[mc := m]> |>).

(** A new node, its pointers not set (here to itself). *)
Definition new_node : M mst Z := λ s,
  let a := new_addr (dom (d_next (ms_links s)) ∪ dom (d_prev (ms_links s))) in
  Ok (a, s <| ms_links ::= link a a |>).
Definition xmalloc_node : M mst Z :=
  e ← sys; if negb (e =? 0) then die_mtab else new_node.
Definition free_node (mc : Z) : M mst unit :=
  modify (λ s, s <| ms_links := {| d_next := delete mc (d_next (ms_links s));
                                   d_prev := delete mc (d_prev (ms_links s)) |} |>
                 <| ms_ents ::= delete mc |>).

(** ** Information about mtab *)

Definition get_mtab_info : M mst unit :=
  s ← gets id;
  if have_mtab_info s then mret tt else
  e ← sys;
  modify (λ s,
    (if negb (e =? 0) || bool_decide (ms_mtab s = None) then s <| var_mtab_does_not_exist := true |>
     else if ms_symlink s then s <| var_mtab_is_a_symlink := true |> else s)
    <| have_mtab_info := true |>).
Definition mtab_does_not_exist : M mst bool := get_mtab_info;; gets var_mtab_does_not_exist.
Definition mtab_is_a_symlink : M mst bool := get_mtab_info;; gets var_mtab_is_a_symlink.
(** Opening with [O_CREAT] makes a file that is not there. *)
Definition mtab_is_writable : M mst bool :=
  l ← mtab_is_a_symlink;
  if (l : bool) then mret false else
  e ← sys;
  if negb (e =? 0) then mret false else
  modify (λ s, s <| ms_mtab ::= λ f, Some (default [] f) |>);;
  sys_;;
  mret true.

(** ** Chains *)

(** [fopen] for reading: [None] when it fails. *)
Definition open_table (f : option (list ascii)) : M mst (option mntFILE) :=
  e ← sys;
  mret (match f with Some c => if e =? 0 then Some (nfs_setmntent c) else None | None => None end).

(** The loop of [read_mntentchn]: the last node. *)
Fixpoint read_chain (fuel : nat) (mfp : mntFILE) (mc mc0 : Z) : M mst Z :=
  match fuel with
  | O => out_of_fuel
  | S fuel =>
      match nfs_getmntent (S (length (mf_rest mfp))) mfp with
      | None => out_of_fuel
      | Some (None, _) => mret mc
      | Some (Some mnt, mfp) =>
          if bool_decide (mnt_type mnt = MNTTYPE_IGNORE) then read_chain fuel mfp mc mc0 else
          a ← xmalloc_node;
          set_nxt mc a;; set_prv a mc;; set_entry a mnt;; set_nxt a mc0;;
          read_chain fuel mfp a mc0
      end
  end.
(** [ferror] is the answer to the last read. *)
Definition read_mntentchn (mfp : mntFILE) (mc0 : Z) : M mst unit :=
  mc ← read_chain (S (length (mf_rest mfp))) mfp mc0 mc0;
  set_prv mc0 mc;;
  ferror ← sys;
  (if negb (ferror =? 0) then set_nxt mc0 0;; set_prv mc0 0 else mret tt);;
  sys_.

(** The loop [for (mc = ...; mc && mc != mc0; mc = step(mc)) if (test(mc)) break;] *)
Fixpoint walk (step : Z → M mst Z) (test : nfs_mntent_t → bool) (fuel : nat) (mc mc0 : Z) : M mst Z :=
  match fuel with
  | O => out_of_fuel
  | S fuel =>
      if (mc =? 0) || (mc =? mc0) then mret mc else
      m ← entry mc;
      if test m then mret mc else mc' ← step mc; walk step test fuel mc' mc0
  end.
Definition nodes_fuel : M mst nat := gets (λ s, S (size (d_next (ms_links s)))).
(** The node found, or NULL. *)
Definition walk_result (mc mc0 : Z) : Z := if mc =? mc0 then 0 else mc.

Fixpoint discard_loop (fuel : nat) (mc mc0 : Z) : M mst unit :=
  match fuel with
  | O => out_of_fuel
  | S fuel =>
      if (mc =? 0) || (mc =? mc0) then mret tt else
      mc1 ← nxt mc; free_node mc;; discard_loop fuel mc1 mc0
  end.
Definition discard_mntentchn (mc0 : Z) : M mst unit :=
  fuel ← nodes_fuel; mc ← nxt mc0; discard_loop fuel mc mc0.

Definition read_mounttable : M mst unit :=
  s ← gets id;
  modify (λ s, s <| got_mtab := true |>);;
  set_prv (mounttable s) 0;; set_nxt (mounttable s) 0;;
  mfp ← open_table (ms_mtab s);
  match mfp with
  | Some mfp => read_mntentchn mfp (mounttable s)
  | None =>
      mfp ← open_table (ms_proc s);
      match mfp with Some mfp => read_mntentchn mfp (mounttable s) | None => mret tt end
  end.
Definition mtab_head : M mst Z :=
  s ← gets id;
  (if got_mtab s then mret tt else read_mounttable);; mret (mounttable s).
Definition read_fstab : M mst unit :=
  s ← gets id;
  modify (λ s, s <| got_fstab := true |>);;
  set_prv (fstab s) 0;; set_nxt (fstab s) 0;;
  mfp ← open_table (ms_fstab s);
  match mfp with Some mfp => read_mntentchn mfp (fstab s) | None => mret tt end.
Definition fstab_head : M mst Z :=
  s ← gets id;
  (if got_fstab s then mret tt else read_fstab);; mret (fstab s).

(** Searching backward from [mcprev] (NULL: from the end), and forward. *)
Definition backward (test : nfs_mntent_t → bool) (mcprev : Z) : M mst Z :=
  mc0 ← mtab_head;
  let mcprev := if mcprev =? 0 then mc0 else mcprev in
  mc ← prv mcprev; fuel ← nodes_fuel;
  mc ← walk prv test fuel mc mc0; mret (walk_result mc mc0).
Definition getmntdirbackward (name : list ascii) : Z → M mst Z :=
  backward (λ m, bool_decide (mnt_dir m = name)).
Definition getmntdevbackward (name : list ascii) : Z → M mst Z :=
  backward (λ m, bool_decide (mnt_fsname m = name)).
Definition forward (test : nfs_mntent_t → bool) : M mst Z :=
  mc0 ← fstab_head;
  mc ← nxt mc0; fuel ← nodes_fuel;
  mc ← walk nxt test fuel mc mc0; mret (walk_result mc mc0).
Definition getfsfile (file : list ascii) : M mst Z := forward (λ m, bool_decide (mnt_dir m = file)).
Definition getfsspec (spec : list ascii) : M mst Z := forward (λ m, bool_decide (mnt_fsname m = spec)).

(** ** The lock file *)

Definition unlock_mtab : M mst unit :=
  s ← gets id;
  if we_created_lockfile s then sys_;; sys_;; modify (λ s, s <| we_created_lockfile := false |>)
  else mret tt.

(** The loop of [lock_mtab]: [tries] counts the lock files that were gone when they
    were to be opened, the static variable [lock_tries] the locks of others. *)
Fixpoint lock_loop (fuel : nat) (tries : Z) : M mst unit :=
  match fuel with
  | O => out_of_fuel
  | S fuel =>
      s ← gets id;
      if we_created_lockfile s then mret tt else
      j ← sys;
      (if j =? 0 then modify (λ s, s <| we_created_lockfile := true |>) else mret tt);;
      if negb (j =? 0) && negb (j =? EX_EEXIST) then die_mtab else
      fd ← sys;
      if negb (fd =? 0) then
        if (fd =? EX_ENOENT) && (0 <? tries) then lock_loop fuel (tries - 1) else die_mtab
      else if j =? 0 then sys_;; sys_;; lock_loop fuel tries
      else
        e ← sys;
        if negb (e =? 0) then die_mtab else
        modify (λ s, s <| lock_tries ::= Z.add 1 |>);;
        s ← gets id;
        if 100000 <? lock_tries s then die_mtab else sys_;; lock_loop fuel tries
  end.
Definition LOCK_FUEL : nat := Z.to_nat 200010.
(** First the file the lock is a link to. *)
Definition lock_mtab : M mst unit :=
  e ← sys;
  if negb (e =? 0) then die_mtab else sys_;; lock_loop LOCK_FUEL 100000.

(** ** Updating mtab *)

Fixpoint write_chain (fuel : nat) (mc mc0 : Z) : M mst unit :=
  match fuel with
  | O => out_of_fuel
  | S fuel =>
      if (mc =? 0) || (mc =? mc0) then mret tt else
      m ← entry mc;
      e ← sys;
      if negb (e =? 0) then die_mtab else
      modify (λ s, s <| ms_temp ::= λ f, Some (nfs_addmntent (default [] f) m) |>);;
      mc' ← nxt mc; write_chain fuel mc' mc0
  end.

(** The change to the chain: an unmount ([instead] NULL) removes the last entry of
    [dir], a remount sets its options; without such an entry [instead] is added. *)
Definition change_chain (dir : list ascii) (instead : option nfs_mntent_t) (mc0 : Z) : M mst unit :=
  mc ← prv mc0; fuel ← nodes_fuel;
  mc ← walk prv (λ m, bool_decide (mnt_dir m = dir)) fuel mc mc0;
  if negb (mc =? 0) && negb (mc =? mc0) then
    match instead with
    | None =>
        p ← prv mc; n ← nxt mc;
        set_nxt p n;; set_prv n p;;
        free_node mc
    | Some i => m ← entry mc; set_entry mc (m <| mnt_opts := mnt_opts i |>)
    end
  else
    match instead with
    | None => mret tt
    | Some i =>
        absent ← xmalloc_node;
        set_entry absent i;;
        set_nxt absent mc0;;
        p ← prv mc0; set_prv absent p;;
        set_prv mc0 absent;;
        n ← nxt mc0;
        if n =? 0 then set_nxt mc0 absent else mret tt
    end.

(** The temporary file, and its renaming. *)
Definition write_table (mc0 : Z) : M mst unit :=
  e ← sys;
  if negb (e =? 0) then mret tt else
  modify (λ s, s <| ms_temp := Some [] |>);;
  fuel ← nodes_fuel; mc ← nxt mc0;
  write_chain fuel mc mc0;;
  discard_mntentchn mc0;;
  sys_;; sys_;; sys_;; sys_;;
  e ← sys;
  if negb (e =? 0) then mret tt else
  modify (λ s, s <| ms_mtab := ms_temp s |> <| ms_temp := None |>).

(** [mtabhead] is a variable of the function. *)
Definition update_mtab (dir : list ascii) (instead : option nfs_mntent_t) : M mst unit :=
  absent ← mtab_does_not_exist;
  if (absent : bool) then mret tt else
  w ← mtab_is_writable;
  if negb w then mret tt else
  lock_mtab;;
  mc0 ← new_node;
  set_prv mc0 0;; set_nxt mc0 0;;
  s ← gets id;
  mfp ← open_table (ms_mtab s);
  (match mfp with
   | None => mret tt
   | Some mfp => read_mntentchn mfp mc0;; change_chain dir instead mc0;; write_table mc0
   end);;
  free_node mc0;;
  unlock_mtab.
End Fstab.
