(* ===== verification/Mtab.v ===== *)
(** * What updating the mount table does

    [update_mtab] of [nfs3/fstab.c] against its specification on the list of entries,
    whatever system calls fail. *)

From S2P Require Import Prelude CString DList Mntent Fstab.

(** ** The specification *)

(** The entries as the chain holds them. *)
Definition table_of (file : list ascii) : list nfs_mntent_t :=
  filter (λ m, mnt_type m ≠ MNTTYPE_IGNORE)
    (default [] (read_entries (S (length file)) (nfs_setmntent file))).

(** [f] applied to the last entry of [dir]. *)
Fixpoint update_last (dir : list ascii) (f : nfs_mntent_t → list nfs_mntent_t)
    (l : list nfs_mntent_t) : option (list nfs_mntent_t) :=
  match l with
  | [] => None
  | e :: l =>
      match update_last dir f l with
      | Some l' => Some (e :: l')
      | None => if bool_decide (mnt_dir e = dir) then Some (f e ++ l) else None
      end
  end.
Definition edit (instead : option nfs_mntent_t) (m : nfs_mntent_t) : list nfs_mntent_t :=
  match instead with None => [] | Some i => [m <| mnt_opts := mnt_opts i |>] end.
(** A new entry gets into an empty table only. *)
Definition updated (dir : list ascii) (instead : option nfs_mntent_t) (l : list nfs_mntent_t) :
    list nfs_mntent_t :=
  match update_last dir (edit instead) l with
  | Some l' => l'
  | None => match instead, l with Some i, [] => [i] | _, _ => l end
  end.

Lemma update_last_none dir f l :
  Forall (λ e, mnt_dir e ≠ dir) l → update_last dir f l = None.
Proof.
  induction 1 as [|e l He _ IH]; cbn; [done|]. by rewrite IH, bool_decide_false.
Qed.
Lemma update_last_some dir f l1 e l2 :
  mnt_dir e = dir → Forall (λ e, mnt_dir e ≠ dir) l2 →
  update_last dir f (l1 ++ e :: l2) = Some (l1 ++ f e ++ l2).
Proof.
  intros He H2. induction l1 as [|x l1 IH]; cbn; [|by rewrite IH].
  by rewrite update_last_none, bool_decide_true.
Qed.

(** ** Running code in which system calls may fail *)

Section Mtab.
Context {E : MtabEnv} {EOk : MtabEnvOk E}.

(** The code returns and [Q] holds, or the process ends because a call failed. *)
Definition may {A} (m : M mst A) (Q : A → mst → Prop) (s : mst) : Prop :=
  match m s with
  | Ok (a, s') => Q a s'
  | Abort => ∃ k, sys_errno k ≠ 0
  | _ => False
  end.

Lemma may_bind {A B} (m : M mst A) (f : A → M mst B) Q s :
  may m (λ a s', may (f a) Q s') s → may (m ≫= f) Q s.
Proof. unfold may, mbind, M_bind. by destruct (m s) as [[a s']| | |]. Qed.
Lemma may_ret {A} (a : A) (Q : A → mst → Prop) s : Q a s → may (mret a) Q s.
Proof. done. Qed.
Lemma may_mono {A} (m : M mst A) (P Q : A → mst → Prop) s :
  may m P s → (∀ a s', P a s' → Q a s') → may m Q s.
Proof. unfold may. destruct (m s) as [[a s']| | |]; auto. Qed.
Lemma may_die {A} (Q : A → mst → Prop) s e : (∃ k, e = sys_errno k) → e ≠ 0 → may die_mtab Q s.
Proof. intros [k ->] He. by exists k. Qed.
Lemma may_ok {A} (m : M mst A) Q s a s' : m s = Ok (a, s') → Q a s' → may m Q s.
Proof. unfold may. by intros ->. Qed.

(** The part of the state the specification is about. *)
Record view := V { v_links : dmem; v_ents : gmap Z nfs_mntent_t;
                   v_mtab : option (list ascii); v_temp : option (list ascii) }.
Definition view_of (s : mst) : view := V (ms_links s) (ms_ents s) (ms_mtab s) (ms_temp s).

Definition lock_state (s : mst) : Z * bool := (lock_tries s, we_created_lockfile s).

Lemma may_sys (Q : Z → mst → Prop) s :
  (∀ e s', view_of s' = view_of s → lock_state s' = lock_state s →
     (∃ k, e = sys_errno k) → Q e s') → may sys Q s.
Proof. intros H. apply H; [done..|]. eauto. Qed.
Lemma may_sys_ (Q : unit → mst → Prop) s :
  (∀ s', view_of s' = view_of s → lock_state s' = lock_state s → Q tt s') → may sys_ Q s.
Proof. intros H. apply may_bind, may_sys. intros e s' Hv Hl _. by apply H. Qed.

Lemma may_links {A} (m : M dmem A) (Q : A → mst → Prop) s l e f t a l' :
  view_of s = V l e f t → m l = Ok (a, l') →
  (∀ s', view_of s' = V l' e f t → Q a s') → may (on_links m) Q s.
Proof. intros [= <- <- <- <-] Hm H. unfold may, on_links. rewrite Hm. by apply H. Qed.
Lemma may_entry (Q : nfs_mntent_t → mst → Prop) s l e f t a m :
  view_of s = V l e f t → e !! a = Some m → Q m s → may (entry a) Q s.
Proof. intros [= <- <- <- <-] Hm H. unfold may, entry. by rewrite Hm. Qed.
Lemma may_set_entry (Q : unit → mst → Prop) s l e f t a m :
  view_of s = V l e f t → (∀ s', view_of s' = V l (<[a := m]> e) f t → Q tt s') → may (set_entry a m) Q s.
Proof. intros [= <- <- <- <-] H. by apply H. Qed.
Lemma may_new_node (Q : Z → mst → Prop) s l e f t :
  view_of s = V l e f t →
  (∀ a s', a ≠ 0 → d_next l !! a = None → d_prev l !! a = None →
     view_of s' = V (link a a l) e f t → Q a s') → may new_node Q s.
Proof.
  intros [= <- <- <- <-] H. unfold may, new_node. cbv zeta.
  set (X := dom _ ∪ dom _). pose proof (new_addr_fresh X) as Hf. apply H; [apply new_addr_pos| | |done];
    apply not_elem_of_dom; set_solver.
Qed.
Lemma may_xmalloc (Q : Z → mst → Prop) s l e f t :
  view_of s = V l e f t →
  (∀ a s', a ≠ 0 → d_next l !! a = None → d_prev l !! a = None →
     view_of s' = V (link a a l) e f t → Q a s') → may xmalloc_node Q s.
Proof.
  intros Hv H. apply may_bind, may_sys. intros x s' Hv' _ Hx.
  destruct (Z.eqb_spec x 0) as [->|Hne]; cbn [negb]; [|by eapply may_die].
  apply (may_new_node _ _ l e f t); [congruence|done].
Qed.

(** *** Reading the chain *)

Definition holds_entries (e : gmap Z nfs_mntent_t) (addrs : list Z) (T : list nfs_mntent_t) : Prop :=
  Forall2 (λ a m, e !! a = Some m) addrs T.
Lemma holds_entries_insert e addrs T a m :
  a ∉ addrs → holds_entries e addrs T → holds_entries (<[a := m]> e) addrs T.
Proof.
  intros Ha H. induction H as [|b x addrs T Hb _ IH]; constructor.
  - rewrite lookup_insert_ne by set_solver. done.
  - apply IH. set_solver.
Qed.

#[local] Abbreviation last_node h addrs := (default h (list.last addrs)).

(** The chain while it is read: closed but for the way back from the head. *)
Record building (l : dmem) (e : gmap Z nfs_mntent_t) (h : Z) (addrs : list Z) (T : list nfs_mntent_t) : Prop := {
  bd_head : h ≠ 0;
  bd_mem : node_mem l h;
  bd_ents : holds_entries e addrs T;
  bd_null : 0 ∉ addrs;
  bd_ring : ring (link (last_node h addrs) h l) h addrs;
  bd_end : d_next l !! last_node h addrs = Some (if bool_decide (addrs = []) then 0 else h);
}.

Lemma last_node_in (h : Z) (addrs : list Z) : last_node h addrs ∈ h :: addrs.
Proof.
  destruct (list.last addrs) eqn:Hl; cbn; [apply last_Some_elem_of in Hl|]; set_solver.
Qed.

(** A node that is not allocated is not on the chain. *)
Lemma building_fresh l e h addrs T a :
  building l e h addrs T → d_next l !! a = None → a ∉ h :: addrs.
Proof.
  intros [? ? ? ? Hr He] Ha Hin. destruct (ring_mem _ _ _ _ Hr Hin) as [[x Hx] _]. cbn in Hx.
  destruct (decide (a = last_node h addrs)) as [->|Hne]; [congruence|].
  rewrite lookup_insert_ne in Hx by done. congruence.
Qed.

(** The stores that append a node, as the addition at the end of a ring. *)
Lemma append_memory l a mc h : a ≠ mc → a ≠ h →
  link a h (upd_next a h (upd_prev a mc (upd_next mc a (link a a l)))) =
  link mc a (link a h (link mc h l)).
Proof.
  intros H1 H2. unfold link. cbn. f_equal; apply map_eq; intros x;
    rewrite !lookup_insert; repeat case_decide; congruence.
Qed.

Lemma may_read_chain fuel : ∀ mfp all s l e f t addrs T h,
  read_entries fuel mfp = Some all → view_of s = V l e f t → building l e h addrs T →
  may (read_chain fuel mfp (last_node h addrs) h)
    (λ mc s', ∃ l' e' addrs', view_of s' = V l' e' f t ∧ mc = last_node h addrs' ∧
       building l' e' h addrs' (T ++ filter (λ m, mnt_type m ≠ MNTTYPE_IGNORE) all)) s.
Proof.
  induction fuel as [|fuel IH]; intros mfp all s l e f t addrs T h Hread Hv Hb; [done|].
  cbn [read_entries read_chain] in *. destruct (nfs_getmntent _ mfp) as [[[mnt|] mfp']|]; cbn in Hread; [|simplify_eq|done].
  2:{ apply may_ret. exists l, e, addrs. by rewrite app_nil_r. }
  destruct (read_entries fuel mfp') as [rest|] eqn:Hrest; simplify_eq/=.
  rewrite filter_cons. case_bool_decide as Hty.
  { rewrite decide_False by (by intros Hn). by eapply IH. }
  rewrite decide_True by done. change (mnt :: ?r) with ([mnt] ++ r). rewrite app_assoc.
  apply may_bind, (may_xmalloc _ _ _ _ _ _ Hv). intros a s1 Ha0 Hn Hp Hv1.
  pose proof (building_fresh _ _ _ _ _ _ Hb Hn) as Hfresh. pose proof Hb as [Hh [Hm1 Hm2] He H0 Hr Hend].
  set (mc := last_node h addrs) in *. pose proof (last_node_in h addrs : mc ∈ h :: addrs) as Hmc.
  assert (Hmcd : mc = last_node h addrs) by done. clearbody mc.
  assert (Hamc : a ≠ mc) by (intros ->; done). assert (Hah : a ≠ h) by (intros ->; set_solver).
  apply may_bind. eapply may_links; [exact Hv1|apply set_nextp_run; cbn; rewrite lookup_insert_ne, Hend by done; done|].
  intros s2 Hv2. apply may_bind. eapply may_links; [exact Hv2|apply set_prevp_run; cbn; by rewrite lookup_insert_eq|].
  intros s3 Hv3. apply may_bind. eapply may_set_entry; [exact Hv3|].
  intros s4 Hv4. apply may_bind. eapply may_links; [exact Hv4|apply set_nextp_run; cbn; rewrite lookup_insert_ne, lookup_insert_eq by done; done|].
  intros s5 Hv5. change a with (id a) at 1. replace (id a) with (last_node h (addrs ++ [a])) by (by rewrite list.last_snoc).
  eapply IH; [exact Hrest|exact Hv5|]. split.
  - done.
  - split; cbn; repeat (rewrite lookup_insert_is_Some'; right); done.
  - apply Forall2_app; [apply holds_entries_insert; [set_solver|done]|]. constructor; [|constructor].
    by rewrite lookup_insert_eq.
  - set_solver.
  - rewrite list.last_snoc. cbn [from_option id]. rewrite append_memory by done. rewrite Hmcd in Hr |- *. by apply ring_add_tail.
  - rewrite list.last_snoc. cbn. rewrite lookup_insert_eq. by destruct addrs.
Qed.

Definition all_succeed : Prop := ∀ k, sys_errno k = 0.
(** A call that answers an error did not succeed. *)
Lemma failed e : (∃ k, e = sys_errno k) → e ≠ 0 → ¬ all_succeed.
Proof. intros [k ->] He Hall. by apply He, Hall. Qed.

(** The chain as it was read; that of an empty file, or after a read error, has no
    way forward. *)
Record chained (l : dmem) (e : gmap Z nfs_mntent_t) (h : Z) (addrs : list Z) (T : list nfs_mntent_t) : Prop := {
  ch_head : h ≠ 0;
  ch_mem : node_mem l h;
  ch_null : 0 ∉ addrs;
  ch_nodup : NoDup (h :: addrs);
  ch_ents : holds_entries e addrs T;
  ch_links : addrs ≠ [] ∧ links l h addrs h ∨
    addrs = [] ∧ d_next l !! h = Some 0 ∧ (d_prev l !! h = Some 0 ∨ d_prev l !! h = Some h);
}.

Lemma may_read_mntentchn mfp all s l e f t h :
  read_entries (S (length (mf_rest mfp))) mfp = Some all → view_of s = V l e f t →
  h ≠ 0 → node_mem l h → d_next l !! h = Some 0 →
  may (read_mntentchn mfp h) (λ _ s', ∃ l' e' addrs T,
    view_of s' = V l' e' f t ∧ chained l' e' h addrs T ∧
    let T0 := filter (λ m, mnt_type m ≠ MNTTYPE_IGNORE) all in
    (T = T0 ∨ T = []) ∧ (all_succeed → T = T0)) s.
Proof.
  intros Hread Hv Hh Hmem Hnx. apply may_bind.
  eapply may_mono; [apply (may_read_chain _ _ _ _ _ _ _ _ [] [] h Hread Hv)|]; clear Hread.
  { split; [done..|constructor|set_solver| |done]. split; [apply list.NoDup_singleton|apply linked_link]. }
  intros mc s1 (l1 & e1 & addrs & Hv1 & -> & [_ [Hm1 Hm2] He H0 [Hnd Hr] Hend]). cbn [app] in *.
  set (T := filter _ all) in *. set (mc := last_node h addrs) in *.
  apply may_bind. eapply may_links; [exact Hv1|by apply set_prevp_run|]. intros s2 Hv2.
  apply may_bind, may_sys. intros ferr s3 Hv3 _ Hferr. rewrite Hv2 in Hv3.
  assert (Hch : chained (upd_prev h mc l1) e1 h addrs T).
  { split; [done| |done..|].
    - split; [done|]. cbn. by rewrite lookup_insert_eq.
    - destruct addrs as [|a addrs]; [right|left].
      + split_and!; [done..|]. right. cbn. by rewrite lookup_insert_eq.
      + split; [done|]. rewrite bool_decide_false in Hend by done.
        replace (upd_prev h mc l1) with (link mc h l1); [done|].
        unfold link, upd_prev. rewrite insert_id by done. by destruct l1. }
  apply may_bind. destruct (Z.eqb_spec ferr 0) as [->|Hne]; cbn [negb].
  - apply may_ret, may_sys_. intros s4 Hv4 _. rewrite Hv3 in Hv4. eauto 10.
  - pose proof (failed _ Hferr Hne) as Hfail. apply may_bind.
    eapply may_links; [exact Hv3|by apply set_nextp_run|]. intros s4 Hv4.
    eapply may_links; [exact Hv4|apply set_prevp_run; cbn; by rewrite lookup_insert_eq|]. intros s5 Hv5.
    apply may_sys_. intros s6 Hv6 _. rewrite Hv5 in Hv6. eexists _, _, [], []. split; [exact Hv6|].
    split; [|naive_solver]. split; [done| |set_solver|apply list.NoDup_singleton|constructor|right].
    + split; cbn; by rewrite lookup_insert_eq.
    + split; [done|]. split; [|left]; cbn; by rewrite lookup_insert_eq.
Qed.

(** *** Searching the chain *)

Lemma nodes_bound {A} (m : gmap Z A) (addrs : list Z) :
  NoDup addrs → (∀ x, x ∈ addrs → is_Some (m !! x)) → (length addrs <= size m)%nat.
Proof.
  intros Hnd Hall. rewrite <-size_dom, <-(size_list_to_set (C := gset Z) addrs Hnd).
  apply subseteq_size. intros x Hx. apply elem_of_dom, Hall. set_solver.
Qed.

Lemma may_walk_prev test l e f t h : h ≠ 0 → ∀ addrs T q fuel s,
  view_of s = V l e f t → links l h addrs q → h ∉ addrs → 0 ∉ addrs → holds_entries e addrs T →
  (length addrs < fuel)%nat →
  may (walk prv test fuel (last_node h addrs) h) (λ mc s', view_of s' = V l e f t ∧
    (mc = h ∧ Forall (λ m, test m = false) T ∨
     ∃ a1 a2 T1 T2 m, addrs = a1 ++ mc :: a2 ∧ T = T1 ++ m :: T2 ∧ holds_entries e a1 T1 ∧
       holds_entries e a2 T2 ∧ e !! mc = Some m ∧ test m = true ∧ Forall (λ m, test m = false) T2)) s.
Proof.
  intros Hh. induction addrs as [|a addrs IH] using rev_ind; intros T q fuel s Hv Hl Hnh Hn0 He Hf;
    (destruct fuel as [|fuel]; [lia|]); cbn [walk].
  - apply Forall2_nil_inv_l in He as ->. cbn [list.last from_option].
    rewrite Z.eqb_refl, orb_true_r. apply may_ret. naive_solver.
  - rewrite list.last_snoc. cbn [from_option id].
    apply Forall2_app_inv_l in He as (T1 & T2 & He1 & He2 & ->).
    apply Forall2_cons_inv_l in He2 as (m & T3 & Hm & Hnil & ->). apply Forall2_nil_inv_l in Hnil as ->.
    rewrite (proj2 (Z.eqb_neq a 0)), (proj2 (Z.eqb_neq a h)) by set_solver. cbn [orb].
    apply may_bind, (may_entry _ _ _ _ _ _ _ _ Hv Hm). destruct (test m) eqn:Ht.
    + apply may_ret. split; [done|]. right. exists addrs, [], T1, [], m. by split_and!; try constructor.
    + apply links_app in Hl as [Hl _]. destruct (links_last _ _ _ _ Hl) as [_ Hp].
      apply may_bind. eapply may_links; [exact Hv|by apply prev_of_run|]. intros s1 Hv1.
      rewrite length_app in Hf. cbn in Hf.
      eapply may_mono; [apply (IH T1 a fuel s1 Hv1 Hl); [set_solver..|done|lia]|].
      intros mc s2 (Hv2 & [[-> Hall]|(a1 & a2 & U1 & U2 & m' & -> & -> & H1 & H2 & H3 & H4 & H5)]); (split; [done|]).
      * left. split; [done|]. apply list.Forall_app. auto.
      * right. exists a1, (a2 ++ [a]), U1, (U2 ++ [m]), m'. rewrite <-!app_assoc. split_and!; try done.
        -- apply Forall2_app; [done|]. by constructor.
        -- apply list.Forall_app. auto.
Qed.

(** *** Changing the chain *)

(** What the loops forward rely on. *)
Fixpoint nexts (l : dmem) (p : Z) (addrs : list Z) (q : Z) : Prop :=
  match addrs with
  | [] => d_next l !! p = Some q
  | a :: addrs => d_next l !! p = Some a ∧ nexts l a addrs q
  end.
Record forward_chain (l : dmem) (e : gmap Z nfs_mntent_t) (h : Z) (addrs : list Z)
    (T : list nfs_mntent_t) : Prop := {
  fw_head : h ≠ 0;
  fw_null : 0 ∉ addrs;
  fw_nodup : NoDup (h :: addrs);
  fw_ents : holds_entries e addrs T;
  fw_nexts : nexts l h addrs h ∨ addrs = [] ∧ d_next l !! h = Some 0;
}.

Lemma links_nexts l p addrs q : links l p addrs q → nexts l p addrs q.
Proof.
  revert p. induction addrs as [|a addrs IH]; intros p; cbn; [by intros []|].
  intros [[H _] Hl]. auto.
Qed.
Lemma nexts_frame l l' p addrs q :
  (∀ x, x ∈ p :: addrs → d_next l' !! x = d_next l !! x) → nexts l p addrs q → nexts l' p addrs q.
Proof.
  revert p. induction addrs as [|a addrs IH]; intros p Hs; cbn; rewrite Hs by set_solver; [done|].
  intros [H Hl]. split; [done|]. apply IH; [set_solver|done].
Qed.
Lemma holds_entries_frame e e' addrs T :
  (∀ x, x ∈ addrs → e' !! x = e !! x) → holds_entries e addrs T → holds_entries e' addrs T.
Proof.
  intros Hs H. induction H as [|b m addrs T Hb _ IH]; constructor; [by rewrite Hs by set_solver|].
  apply IH. set_solver.
Qed.
Lemma chained_forward l e h addrs T : chained l e h addrs T → forward_chain l e h addrs T.
Proof.
  intros [? ? ? ? ? [[Hne Hl]|(-> & Hn & _)]]; split; try done; [left; by apply links_nexts|by right].
Qed.

Lemma may_free (Q : unit → mst → Prop) s l e f t a :
  view_of s = V l e f t →
  (∀ s', view_of s' = V {| d_next := delete a (d_next l); d_prev := delete a (d_prev l) |} (delete a e) f t →
     Q tt s') → may (free_node a) Q s.
Proof. intros [= <- <- <- <-] H. by apply H. Qed.

Section Change.
Context (dir : list ascii) (h : Z) (l : dmem) (e : gmap Z nfs_mntent_t) (f t : option (list ascii)).

(** An unmount: the entry is unlinked and freed. *)
Lemma may_unlink s a1 a2 mc T :
  view_of s = V l e f t → h ≠ 0 → 0 ∉ a1 ++ a2 → ring l h (a1 ++ mc :: a2) →
  holds_entries e (a1 ++ a2) T →
  may (p ← prv mc; n ← nxt mc; set_nxt p n;; set_prv n p;; free_node mc)
    (λ _ s', ∃ l' e' addrs', view_of s' = V l' e' f t ∧ forward_chain l' e' h addrs' T) s.
Proof.
  intros Hv Hh H0 Hr He. destruct (ring_del _ _ _ _ _ Hr) as ([Hp1 Hp2] & [Hq1 Hq2] & [Hnd Hdel]).
  set (p := last_node h a1) in *. set (q := default h (list.head a2)) in *. clearbody p q.
  apply may_bind. eapply may_links; [exact Hv|by apply prev_of_run|]. intros s1 Hv1.
  apply may_bind. eapply may_links; [exact Hv1|by apply next_of_run|]. intros s2 Hv2.
  apply may_bind. eapply may_links; [exact Hv2|apply set_nextp_run; by rewrite Hp1|]. intros s3 Hv3.
  apply may_bind. eapply may_links; [exact Hv3|apply set_prevp_run; cbn; by rewrite Hq2|]. intros s4 Hv4.
  eapply may_free; [exact Hv4|]. intros s5 Hv5. eexists _, _, (a1 ++ a2). split; [exact Hv5|].
  assert (Hmc : mc ∉ h :: a1 ++ a2).
  { destruct Hr as [Hn _]. clear -Hn. rewrite app_comm_cons in Hn |- *.
    apply list.NoDup_app in Hn as (_ & Hd & [Hn _]%list.NoDup_cons). rewrite elem_of_app. set_solver. }
  split; [done..| |left].
  - apply (holds_entries_frame e); [|done]. intros x Hx. apply lookup_delete_ne. set_solver.
  - apply (nexts_frame (link p q l)); [|by apply links_nexts].
    intros x Hx. cbn. apply lookup_delete_ne. set_solver.
Qed.

(** A new entry: it is reached only when the chain was empty. *)
Lemma may_absent s addrs T i :
  view_of s = V l e f t → chained l e h addrs T →
  may (absent ← xmalloc_node;
       set_entry absent i;; set_nxt absent h;; p ← prv h; set_prv absent p;; set_prv h absent;;
       n ← nxt h; if n =? 0 then set_nxt h absent else mret tt)
    (λ _ s', ∃ l' e' addrs', view_of s' = V l' e' f t ∧
       forward_chain l' e' h addrs' (match T with [] => [i] | _ => T end)) s.
Proof.
  intros Hv [Hh [Hm1 [pv Hm2]] H0 Hnd He Hl]. apply may_bind, (may_xmalloc _ _ _ _ _ _ Hv).
  intros a s1 Ha0 Hn Hp Hv1. assert (Hah : a ≠ h) by (intros ->; rewrite Hn in Hm1; by destruct Hm1).
  apply may_bind. eapply may_set_entry; [exact Hv1|]. intros s2 Hv2.
  apply may_bind. eapply may_links; [exact Hv2|apply set_nextp_run; cbn; by rewrite lookup_insert_eq|]. intros s3 Hv3.
  apply may_bind. eapply may_links; [exact Hv3|apply prev_of_run; cbn; rewrite lookup_insert_ne by done; exact Hm2|].
  intros s4 Hv4.
  apply may_bind. eapply may_links; [exact Hv4|apply set_prevp_run; cbn; by rewrite lookup_insert_eq|]. intros s5 Hv5.
  apply may_bind. eapply may_links; [exact Hv5|apply set_prevp_run; cbn; rewrite !lookup_insert_ne, Hm2 by done; done|].
  intros s6 Hv6.
  assert (Hold : ∀ x, x ≠ a → <[a := h]> (<[a := a]> (d_next l)) !! x = d_next l !! x).
  { intros x Hx. by rewrite !lookup_insert_ne by done. }
  destruct Hl as [[Hne Hl]|(-> & Hnx & _)].
  - destruct addrs as [|b addrs]; [done|]. destruct T as [|m T]; [by apply Forall2_nil_inv_r in He|].
    destruct Hl as [[Hb Hb'] Hl]. apply may_bind.
    eapply may_links; [exact Hv6|apply next_of_run; cbn; rewrite Hold by done; exact Hb|]. intros s7 Hv7.
    rewrite (proj2 (Z.eqb_neq b 0)) by set_solver. apply may_ret. eexists _, _, (b :: addrs). split; [exact Hv7|].
    assert (Hfresh : a ∉ h :: b :: addrs).
    { intros [->|Hin]%elem_of_cons; [done|].
      destruct (links_mem l h (b :: addrs) h a (conj (conj Hb Hb') Hl) Hin) as [Hx _]. rewrite Hn in Hx. by destruct Hx. }
    split; [done..| |left].
    + apply holds_entries_insert; [set_solver|done].
    + apply (nexts_frame l); [|apply links_nexts; done]. intros x Hx. cbn. apply Hold. set_solver.
  - apply Forall2_nil_inv_l in He as ->. apply may_bind.
    eapply may_links; [exact Hv6|apply next_of_run; cbn; rewrite Hold by done; exact Hnx|]. intros s7 Hv7.
    cbn [Z.eqb]. eapply may_links; [exact Hv7|apply set_nextp_run; cbn; rewrite Hold, Hnx by done; done|].
    intros s8 Hv8. eexists _, _, [a]. split; [exact Hv8|]. split; [done|set_solver| | |left].
    + apply list.NoDup_cons. split; [set_solver|apply list.NoDup_singleton].
    + constructor; [by rewrite lookup_insert_eq|constructor].
    + cbn. rewrite lookup_insert_eq, lookup_insert_ne, lookup_insert_eq by done. done.
Qed.
End Change.

Lemma may_gets {A} (g : mst → A) (Q : A → mst → Prop) s : Q (g s) s → may (gets g) Q s.
Proof. done. Qed.

Lemma holds_entries_app e a1 a2 T1 T2 :
  holds_entries e a1 T1 → holds_entries e a2 T2 → holds_entries e (a1 ++ a2) (T1 ++ T2).
Proof. apply Forall2_app. Qed.

Lemma not_dir dir T : Forall (λ m, bool_decide (mnt_dir m = dir) = false) T → Forall (λ m, mnt_dir m ≠ dir) T.
Proof. apply Forall_impl. intros m. apply bool_decide_eq_false. Qed.

Lemma may_change_chain dir instead s l e f t h addrs T :
  view_of s = V l e f t → chained l e h addrs T →
  may (change_chain dir instead h) (λ _ s', ∃ l' e' addrs',
    view_of s' = V l' e' f t ∧ forward_chain l' e' h addrs' (updated dir instead T)) s.
Proof.
  intros Hv Hch. pose proof Hch as [Hh [Hm1 Hm2] H0 Hnd He Hl]. pose proof Hnd as [Hha Hnd']%list.NoDup_cons.
  unfold change_chain.
  assert (Hgo : ∀ s1, view_of s1 = V l e f t → Forall (λ m, mnt_dir m ≠ dir) T →
    may (match instead with
         | None => mret tt
         | Some i => absent ← xmalloc_node;
             set_entry absent i;; set_nxt absent h;; p ← prv h; set_prv absent p;; set_prv h absent;;
             n ← nxt h; if n =? 0 then set_nxt h absent else mret tt
         end) (λ _ s', ∃ l' e' addrs',
           view_of s' = V l' e' f t ∧ forward_chain l' e' h addrs' (updated dir instead T)) s1).
  { intros s1 Hv1 Hno. unfold updated. rewrite update_last_none by done. destruct instead as [i|].
    - by eapply may_absent.
    - apply may_ret. exists l, e, addrs. split; [done|]. by apply chained_forward. }
  destruct Hl as [[Hne Hl]|(-> & Hnx & Hpv)].
  - apply may_bind. eapply may_links; [exact Hv|apply prev_of_run; by apply (links_last _ _ _ _ Hl)|].
    intros s1 Hv1. apply may_bind, may_gets, may_bind.
    eapply may_mono; [apply (may_walk_prev _ l e f t h Hh addrs T h); [done..|]|].
    { replace (ms_links s1) with l by (by injection Hv1).
      pose proof (nodes_bound (d_next l) addrs Hnd' ltac:(intros x Hx; by apply (links_mem _ _ _ _ _ Hl Hx))). lia. }
    intros mc s2 (Hv2 & [[-> Hall]|(a1 & a2 & T1 & T2 & m & -> & -> & H1 & H2 & Hm & Ht & Hall)]).
    + rewrite Z.eqb_refl, andb_false_r. by apply Hgo; [|apply not_dir].
    + rewrite (proj2 (Z.eqb_neq mc 0)), (proj2 (Z.eqb_neq mc h)) by set_solver. cbn [negb andb].
      apply bool_decide_eq_true in Ht. unfold updated. rewrite update_last_some by (by try apply not_dir).
      destruct instead as [i|]; cbn [edit app].
      * apply may_bind, (may_entry _ _ _ _ _ _ _ _ Hv2 Hm). eapply may_set_entry; [exact Hv2|]. intros s3 Hv3.
        eexists _, _, (a1 ++ mc :: a2). split; [exact Hv3|]. split; [done..| |left; by apply links_nexts].
        apply list.NoDup_app in Hnd' as (_ & Hd & [Hn2 _]%list.NoDup_cons).
        apply holds_entries_app; [apply holds_entries_insert; [set_solver|done]|].
        constructor; [by rewrite lookup_insert_eq|]. by apply holds_entries_insert.
      * apply (may_unlink h l e f t s2 a1 a2 mc (T1 ++ T2) Hv2 Hh); [set_solver|exact (conj Hnd Hl)|by apply holds_entries_app].
  - apply Forall2_nil_inv_l in He as ->.
    assert (Hpv' : ∃ p, d_prev l !! h = Some p ∧ (p = 0 ∨ p = h)) by (destruct Hpv; eauto).
    destruct Hpv' as (p & Hp & Hp'). apply may_bind.
    eapply may_links; [exact Hv|by apply prev_of_run|]. intros s1 Hv1. apply may_bind, may_gets, may_bind.
    assert (Hstop : (p =? 0) || (p =? h) = true) by (destruct Hp' as [->| ->]; [done|by rewrite Z.eqb_refl, orb_true_r]).
    cbn [walk]. rewrite Hstop. apply may_ret.
    replace (negb (p =? 0) && negb (p =? h)) with false by (by rewrite <-negb_orb, Hstop).
    by apply Hgo.
Qed.

(** *** Writing the table *)

Lemma may_write_chain l e f h : ∀ addrs T p c fuel s,
  view_of s = V l e f (Some c) → h ≠ 0 → 0 ∉ addrs → h ∉ addrs → holds_entries e addrs T →
  nexts l p addrs h → (length addrs < fuel)%nat →
  may (write_chain fuel (default h (list.head addrs)) h)
    (λ _ s', view_of s' = V l e f (Some (fold_left nfs_addmntent T c))) s.
Proof.
  induction addrs as [|a addrs IH]; intros T p c fuel s Hv Hh H0 Hha He Hn Hf; (destruct fuel as [|fuel]; [lia|]);
    cbn [write_chain list.head from_option id].
  - apply Forall2_nil_inv_l in He as ->. rewrite Z.eqb_refl, orb_true_r. by apply may_ret.
  - apply Forall2_cons_inv_l in He as (m & T' & Hm & He & ->). destruct Hn as [_ Hn].
    rewrite (proj2 (Z.eqb_neq a 0)), (proj2 (Z.eqb_neq a h)) by set_solver. cbn [orb].
    apply may_bind, (may_entry _ _ _ _ _ _ _ _ Hv Hm). apply may_bind, may_sys. intros x s1 Hv1 _ Hx.
    destruct (Z.eqb_spec x 0) as [->|Hne]; cbn [negb]; [|by eapply may_die].
    rewrite Hv in Hv1. apply may_bind.
    apply (may_ok _ _ _ tt (s1 <| ms_temp ::= λ f, Some (nfs_addmntent (default [] f) m) |>)); [done|].
    set (s2 := s1 <| ms_temp ::= _ |>).
    assert (Hv2 : view_of s2 = V l e f (Some (nfs_addmntent c m))).
    { unfold view_of in Hv1 |- *. cbn. injection Hv1 as -> -> -> ->. done. }
    clearbody s2. apply may_bind.
    assert (Hnx : d_next l !! a = Some (default h (list.head addrs))) by (destruct addrs; cbn in *; naive_solver).
    eapply may_links; [exact Hv2|by apply next_of_run|]. intros s3 Hv3.
    cbn [fold_left]. eapply IH; [exact Hv3|done|set_solver..|done|done|cbn in Hf; lia].
Qed.

Lemma may_discard h f t : ∀ addrs l e fuel s,
  view_of s = V l e f t → h ≠ 0 → 0 ∉ addrs → NoDup (h :: addrs) →
  (∀ a r, addrs = a :: r → nexts l a r h) → (length addrs < fuel)%nat →
  may (discard_loop fuel (default h (list.head addrs)) h) (λ _ s', ∃ l' e', view_of s' = V l' e' f t) s.
Proof.
  induction addrs as [|a addrs IH]; intros l e fuel s Hv Hh H0 Hnd Hn Hf; (destruct fuel as [|fuel]; [lia|]);
    cbn [discard_loop list.head from_option id].
  - rewrite Z.eqb_refl, orb_true_r. apply may_ret. eauto.
  - specialize (Hn a addrs eq_refl). pose proof Hnd as [Hha [Haa Hnd']%list.NoDup_cons]%list.NoDup_cons.
    rewrite (proj2 (Z.eqb_neq a 0)), (proj2 (Z.eqb_neq a h)) by set_solver. cbn [orb].
    assert (Hnx : d_next l !! a = Some (default h (list.head addrs))) by (destruct addrs; cbn in *; naive_solver).
    apply may_bind. eapply may_links; [exact Hv|by apply next_of_run|]. intros s1 Hv1.
    apply may_bind. eapply may_free; [exact Hv1|]. intros s2 Hv2. eapply IH; [exact Hv2|done|set_solver| | |cbn in Hf; lia].
    + apply list.NoDup_cons. split; [set_solver|done].
    + intros b r ->. destruct Hn as [_ Hn]. apply (nexts_frame l); [|done]. intros x Hx. cbn.
      apply lookup_delete_ne. set_solver.
Qed.

Lemma forward_mem l e h addrs T x : forward_chain l e h addrs T → x ∈ addrs → is_Some (d_next l !! x).
Proof.
  intros [_ _ _ _ [Hn|[-> _]]]; [|set_solver]. revert Hn. generalize h at 1. clear.
  induction addrs as [|a addrs IH]; intros p; cbn; [set_solver|].
  intros [_ Hn] [->|Hx]%elem_of_cons; [|eauto]. destruct addrs; cbn in Hn; naive_solver.
Qed.

Lemma may_write_table s l e f t h addrs T :
  view_of s = V l e f t → forward_chain l e h addrs T →
  may (write_table h) (λ _ s', ∃ l' e' f' t', view_of s' = V l' e' f' t' ∧
    (f' = f ∨ f' = Some (written T)) ∧ (all_succeed → f' = Some (written T))) s.
Proof.
  intros Hv Hfw. pose proof Hfw as [Hh H0 Hnd He Hn]. pose proof Hnd as [Hha Hnd']%list.NoDup_cons.
  unfold write_table. apply may_bind, may_sys. intros x s1 Hv1 _ Hx. rewrite Hv in Hv1.
  destruct (Z.eqb_spec x 0) as [->|Hne]; cbn [negb].
  2:{ apply may_ret. exists l, e, f, t. split_and!; [done|by left|]. by intros []%(failed x Hx). }
  apply may_bind. apply (may_ok _ _ _ tt (s1 <| ms_temp := Some [] |>)); [done|].
  set (s2 := s1 <| ms_temp := _ |>).
  assert (Hv2 : view_of s2 = V l e f (Some [])).
  { unfold view_of in Hv1 |- *. cbn. injection Hv1 as -> -> -> _. done. }
  clearbody s2. apply may_bind, may_gets.
  assert (Hlen : (length addrs < S (size (d_next l)))%nat).
  { pose proof (nodes_bound (d_next l) addrs Hnd' (λ x, forward_mem _ _ _ _ _ x Hfw)). lia. }
  assert (∃ mc, d_next l !! h = Some mc ∧
    (∀ s3, view_of s3 = V l e f (Some []) →
       may (write_chain (S (size (d_next l))) mc h) (λ _ s', view_of s' = V l e f (Some (written T))) s3) ∧
    (∀ s3 t', view_of s3 = V l e f t' →
       may (discard_loop (S (size (d_next l))) mc h) (λ _ s', ∃ l' e', view_of s' = V l' e' f t') s3))
    as (mc & Hnx & Hwrite & Hdiscard).
  { destruct Hn as [Hn|[-> Hn]].
    - exists (default h (list.head addrs)). split; [destruct addrs; cbn in *; naive_solver|]. split.
      + intros s3 Hv3. by eapply may_write_chain.
      + intros s3 t' Hv3. eapply may_discard; [done..| |done]. intros a r ->. by destruct Hn.
    - apply Forall2_nil_inv_l in He as ->. exists 0. split; [done|]. split.
      + intros s3 Hv3. by apply may_ret.
      + intros s3 t' Hv3. apply may_ret. eauto. }
  replace (ms_links s2) with l by (by injection Hv2).
  apply may_bind. eapply may_links; [exact Hv2|by apply next_of_run|]. intros s3 Hv3.
  apply may_bind. eapply may_mono; [by apply Hwrite|]. intros [] s4 Hv4.
  apply may_bind. apply (may_mono _ (λ _ s', ∃ l' e', view_of s' = V l' e' f (Some (written T)))); [|intros [] s5 (l5 & e5 & Hv5)].
  { apply may_bind, may_gets, may_bind. replace (ms_links s4) with l by (by injection Hv4).
    eapply may_links; [exact Hv4|by apply next_of_run|]. intros s5 Hv5. by apply Hdiscard. }
  apply may_bind, may_sys_. intros s6 Hv6 _. apply may_bind, may_sys_. intros s7 Hv7 _.
  apply may_bind, may_sys_. intros s8 Hv8 _. apply may_bind, may_sys_. intros s9 Hv9 _.
  apply may_bind, may_sys. intros y s10 Hv10 _ Hy. rewrite Hv9, Hv8, Hv7, Hv6, Hv5 in Hv10.
  destruct (Z.eqb_spec y 0) as [->|Hne]; cbn [negb].
  - apply (may_ok _ _ _ tt (s10 <| ms_mtab := ms_temp s10 |> <| ms_temp := None |>)); [done|].
    injection Hv10 as Hl10 He10 Hf10 Ht10. exists l5, e5, (Some (written T)), None.
    split; [unfold view_of; cbn -[written]; unfold const; congruence|]. auto.
  - apply may_ret. exists l5, e5, f, (Some (written T)). split_and!; [done|by left|]. by intros []%(failed y Hy).
Qed.

(** *** The lock *)

Lemma may_lock_loop fuel : ∀ tries s,
  0 <= tries → 0 <= lock_tries s → tries + Z.max 0 (100001 - lock_tries s) + 2 <= Z.of_nat fuel →
  may (lock_loop fuel tries) (λ _ s', view_of s' = view_of s) s.
Proof.
  induction fuel as [|fuel IH]; intros tries s Ht Hl Hf; [lia|]. cbn [lock_loop].
  apply may_bind, may_gets. unfold id. destruct (we_created_lockfile s) eqn:Hw; [by apply may_ret|].
  apply may_bind, may_sys. intros j s1 Hv1 Hl1 Hj.
  apply may_bind. apply (may_mono _ (λ _ s2, view_of s2 = view_of s ∧ lock_state s2 = (lock_tries s, j =? 0))).
  { unfold lock_state in *. destruct (j =? 0); [|apply may_ret; split; congruence].
    apply (may_ok _ _ _ tt (s1 <| we_created_lockfile := true |>)); [done|]. split; [done|]. unfold const. cbn. congruence. }
  intros [] s2 [Hv2 Hl2].
  destruct (negb (j =? 0) && negb (j =? EX_EEXIST)) eqn:Hjj.
  { apply (may_die _ _ j Hj). intros ->. done. }
  apply may_bind, may_sys. intros fd s3 Hv3 Hl3 Hfd. rewrite Hv2 in Hv3. rewrite Hl2 in Hl3.
  destruct (Z.eqb_spec fd 0) as [->|Hne]; cbn [negb].
  2:{ destruct ((fd =? EX_ENOENT) && (0 <? tries)) eqn:Htry; [|by eapply may_die].
      apply andb_true_iff in Htry as [_ Htry%Z.ltb_lt]. injection Hl3 as Hl3 _.
      eapply may_mono; [apply IH; lia|]. cbn. congruence. }
  destruct (Z.eqb_spec j 0) as [->|Hj0].
  - apply may_bind, may_sys_. intros s4 Hv4 Hl4. apply may_bind, may_sys_. intros s5 Hv5 Hl5.
    rewrite Hl4, Hl3 in Hl5. injection Hl5 as _ Hw5. destruct fuel as [|fuel]; [lia|]. cbn [lock_loop].
    apply may_bind, may_gets. unfold id. rewrite Hw5. apply may_ret. congruence.
  - apply may_bind, may_sys. intros x s4 Hv4 Hl4 Hx. rewrite Hl3 in Hl4. injection Hl4 as Hl4 _.
    destruct (Z.eqb_spec x 0) as [->|Hx0]; cbn [negb]; [|by eapply may_die].
    apply may_bind. apply (may_ok _ _ _ tt (s4 <| lock_tries ::= Z.add 1 |>)); [done|].
    set (s5 := s4 <| lock_tries ::= _ |>).
    assert (Hv5 : view_of s5 = view_of s4) by done.
    assert (Hl5 : lock_tries s5 = 1 + lock_tries s4) by done. clearbody s5.
    apply may_bind, may_gets. unfold id. destruct (Z.ltb_spec 100000 (lock_tries s5)).
    + apply (may_die _ _ j Hj Hj0).
    + apply may_bind, may_sys_. intros s6 Hv6 Hl6. injection Hl6 as Hl6 _.
      eapply may_mono; [apply IH; lia|]. cbn. congruence.
Qed.

Lemma may_lock s : 0 <= lock_tries s → may lock_mtab (λ _ s', view_of s' = view_of s) s.
Proof.
  intros Hl. apply may_bind, may_sys. intros x s1 Hv1 Hl1 Hx.
  destruct (Z.eqb_spec x 0) as [->|Hx0]; cbn [negb]; [|by eapply may_die].
  apply may_bind, may_sys_. intros s2 Hv2 Hl2. rewrite Hl1 in Hl2. injection Hl2 as Hl2 _.
  eapply may_mono; [apply may_lock_loop; [lia..|]|].
  - unfold LOCK_FUEL. rewrite Z2Nat.id by lia. lia.
  - cbn. congruence.
Qed.
(** [lock_mtab] only returns with the lock. *)
Lemma lock_loop_created fuel : ∀ tries s s',
  lock_loop fuel tries s = Ok (tt, s') → we_created_lockfile s' = true.
Proof.
  induction fuel as [|fuel IH]; intros tries s s' H; [done|]. cbn [lock_loop] in H.
  minv H. injection E0 as <- <-. unfold id in H. destruct (we_created_lockfile s) eqn:Hw; [by injection H as <-|].
  do 2 minv H. destruct (_ && _) in H; [done|]. minv H. destruct (negb (_ =? 0)) in H.
  - destruct (_ && _) in H; [by eapply IH|done].
  - destruct (_ =? 0) in H; [do 2 minv H; by eapply IH|].
    minv H. destruct (negb _) in H; [done|]. do 2 minv H. destruct (_ <? _) in H; [done|].
    minv H. by eapply IH.
Qed.
Lemma may_unlock s : may unlock_mtab (λ _ s', view_of s' = view_of s) s.
Proof.
  apply may_bind, may_gets. unfold id. destruct (we_created_lockfile s); [|by apply may_ret].
  apply may_bind, may_sys_. intros s1 Hv1 _. apply may_bind, may_sys_. intros s2 Hv2 _.
  apply (may_ok _ _ _ tt (s2 <| we_created_lockfile := false |>)); [done|]. rewrite <-Hv1, <-Hv2. done.
Qed.

(** *** The whole update *)

(** Before the first look at mtab: a regular file with the contents [file]. *)
Record mtab_file (s : mst) (file : list ascii) : Prop := {
  mf_contents : ms_mtab s = Some file;
  mf_regular : ms_symlink s = false;
  mf_info : have_mtab_info s = false;
  mf_absent : var_mtab_does_not_exist s = false;
  mf_link : var_mtab_is_a_symlink s = false;
  mf_tries : 0 <= lock_tries s;
}.

Lemma may_mtab_info s file : mtab_file s file →
  may mtab_does_not_exist (λ b s', view_of s' = view_of s ∧ lock_tries s' = lock_tries s ∧
    have_mtab_info s' = true ∧ var_mtab_is_a_symlink s' = false ∧ (all_succeed → b = false)) s.
Proof.
  intros [Hc Hr Hi Ha Hk _]. unfold mtab_does_not_exist, get_mtab_info, may, mbind, M_bind, gets, id. cbn.
  rewrite Hi. cbn. rewrite Hc, bool_decide_false, orb_false_r by done. unfold const, view_of. cbn.
  destruct (Z.eqb_spec (sys_errno (ms_calls s)) 0) as [He|He]; cbn.
  - rewrite Hr. cbn. by rewrite Hc.
  - split_and!; try done. intros Hall. by destruct (He (Hall _)).
Qed.

Lemma may_mtab_writable s file :
  ms_mtab s = Some file → have_mtab_info s = true → var_mtab_is_a_symlink s = false →
  may mtab_is_writable (λ b s', view_of s' = view_of s ∧ lock_tries s' = lock_tries s ∧
    (all_succeed → b = true)) s.
Proof.
  intros Hc Hi Hk. unfold mtab_is_writable, mtab_is_a_symlink, get_mtab_info, may, mbind, M_bind, gets, id. cbn.
  rewrite Hi. cbn. rewrite Hk. cbn.
  destruct (Z.eqb_spec (sys_errno (ms_calls s)) 0) as [He|He]; cbn.
  - unfold sys_, mbind, M_bind, const, view_of. cbn. rewrite Hc. by split_and!.
  - split_and!; try done. intros Hall. by destruct (He (Hall _)).
Qed.

(** The contents an update may leave, and the one it leaves when nothing fails. *)
Definition left_by (dir : list ascii) (instead : option nfs_mntent_t) (file : list ascii) (f : option (list ascii)) : Prop :=
  let new T := Some (written (updated dir instead T)) in
  (f = Some file ∨ f = new (table_of file) ∨ f = new []) ∧ (all_succeed → f = new (table_of file)).

(** The end of the update: the head of the chain goes, then the lock. *)
Lemma may_finish dir instead file h s l e f t :
  view_of s = V l e f t → left_by dir instead file f →
  may (free_node h;; unlock_mtab) (λ _ s', left_by dir instead file (ms_mtab s')) s.
Proof.
  intros Hv Hf. apply may_bind. eapply may_free; [exact Hv|]. intros s1 Hv1.
  eapply may_mono; [apply may_unlock|]. intros [] s2 Hv2. rewrite Hv1 in Hv2.
  assert (ms_mtab s2 = f) as -> by (by injection Hv2). exact Hf.
Qed.

(** With mtab open: it is read, changed and written. *)
Lemma may_rewrite dir instead file h s l e t :
  view_of s = V l e (Some file) t → h ≠ 0 → node_mem l h → d_next l !! h = Some 0 →
  may (read_mntentchn (nfs_setmntent file) h;; change_chain dir instead h;; write_table h)
    (λ _ s', ∃ l' e' f' t', view_of s' = V l' e' f' t' ∧ left_by dir instead file f') s.
Proof.
  intros Hv Hh Hm Hn. destruct (read_entries_total (S (length file)) (nfs_setmntent file)) as [all Hall]; [cbn; lia|].
  apply may_bind. eapply may_mono; [apply (may_read_mntentchn _ all _ _ _ _ _ h Hall Hv Hh Hm Hn)|].
  intros [] s8 (l8 & e8 & addrs & T & Hv8 & Hch & HT & HTok). cbv zeta in *.
  assert (HT0 : table_of file = filter (λ m, mnt_type m ≠ MNTTYPE_IGNORE) all) by (unfold table_of; by rewrite Hall).
  rewrite <-HT0 in HT, HTok. clear Hall HT0.
  apply may_bind. eapply may_mono; [apply (may_change_chain dir instead _ _ _ _ _ _ _ _ Hv8 Hch)|].
  intros [] s9 (l9 & e9 & addrs9 & Hv9 & Hfw).
  eapply may_mono; [apply (may_write_table _ _ _ _ _ _ _ _ Hv9 Hfw)|].
  intros [] s10 (l10 & e10 & f10 & t10 & Hv10 & Hf10 & Hok10). exists l10, e10, f10, t10. split; [done|]. split.
  - destruct Hf10 as [->| ->]; [by left|]. right. destruct HT as [->| ->]; [by left|by right].
  - intros Hsucc. rewrite Hok10, (HTok Hsucc) by done. done.
Qed.

Lemma may_update dir instead s file :
  mtab_file s file → may (update_mtab dir instead) (λ _ s', left_by dir instead file (ms_mtab s')) s.
Proof.
  intros Hs. unfold update_mtab. apply may_bind. eapply may_mono; [by apply (may_mtab_info s file)|].
  intros b s1 (Hv1 & Hl1 & Hi1 & Hk1 & Hb). assert (Hf1 : ms_mtab s1 = Some file).
  { injection Hv1 as _ _ -> _. apply Hs. }
  destruct b; [apply may_ret; split; [by left|by intros ?%Hb]|]. clear Hb.
  apply may_bind. eapply may_mono; [by apply (may_mtab_writable s1 file)|].
  intros b s2 (Hv2 & Hl2 & Hb). assert (Hf2 : ms_mtab s2 = Some file) by (injection Hv2 as _ _ -> _; done).
  destruct b; cbn [negb]; [|apply may_ret; split; [by left|by intros ?%Hb]]. clear Hb.
  apply may_bind. eapply may_mono; [apply may_lock; rewrite Hl2, Hl1; apply Hs|]. intros [] s3 Hv3.
  destruct (view_of s3) as [l e f t] eqn:Hv. assert (f = Some file) as ->.
  { rewrite <-Hv3 in Hv2. injection Hv2 as _ _ Hx _. rewrite <-Hf1. congruence. }
  apply may_bind. eapply may_new_node; [exact Hv|]. intros h s4 Hh Hn Hp Hv4.
  apply may_bind. eapply may_links; [exact Hv4|apply set_prevp_run; cbn; by rewrite lookup_insert_eq|]. intros s5 Hv5.
  apply may_bind. eapply may_links; [exact Hv5|apply set_nextp_run; cbn; by rewrite lookup_insert_eq|]. intros s6 Hv6.
  assert (Hf6 : ms_mtab s6 = Some file) by (by injection Hv6).
  apply may_bind, may_gets. unfold id. rewrite Hf6. apply may_bind, may_bind, may_sys. intros x s7 Hv7 _ Hx.
  rewrite Hv6 in Hv7. apply may_ret.
  destruct (Z.eqb_spec x 0) as [->|Hx0].
  - apply may_bind. eapply may_mono; [apply (may_rewrite dir instead file h _ _ _ _ Hv7 Hh)|].
    + split; cbn; by rewrite lookup_insert_eq.
    + cbn. by rewrite lookup_insert_eq.
    + intros [] s8 (l8 & e8 & f8 & t8 & Hv8 & Hleft). by eapply may_finish.
  - apply may_ret. eapply may_finish; [exact Hv7|]. split; [by left|]. intros Hok. by destruct (failed x Hx Hx0).
Qed.

(** * Properties *)


End Mtab.
