(* ===== verification/MtabLock.v ===== *)
(** * The lock of mtab between processes

    [lock_mtab] and [unlock_mtab] of [nfs3/fstab.c] exclude processes from each
    other with a lock file: [link] makes it and fails when it is there.  Here several
    processes take the steps of the two functions in any order.  A process can be
    killed anywhere, which leaves the file behind; a signal it handles ends it
    through [die], which calls [unlock_mtab] ([at_die]). *)

From S2P Require Import Prelude.

(** Where a process is.  [dying] says that it runs [unlock_mtab] from [die]. *)
Inductive pc :=
| P_idle                    (* outside *)
| P_link                    (* in the loop of lock_mtab, before link() *)
| P_wait                    (* somebody else made the link *)
| P_made                    (* it made the link: we_created_lockfile is 1 *)
| P_crit                    (* between lock_mtab and unlock_mtab *)
| P_unlink (dying : bool)   (* in unlock_mtab, before unlink() *)
| P_clear (dying : bool)    (* in unlock_mtab, before we_created_lockfile = 0 *)
| P_dead.

Definition after_unlock (dying : bool) : pc := if dying then P_dead else P_idle.

(** One step of one process; the boolean is whether the lock file exists.  With
    [signals], one may arrive while [unlock_mtab] is between its [unlink] and the
    store to [we_created_lockfile]. *)
Inductive pstep (signals : bool) : bool * pc → bool * pc → Prop :=
| ps_enter f : pstep signals (f, P_idle) (f, P_link)
| ps_link : pstep signals (false, P_link) (true, P_made)
| ps_exists : pstep signals (true, P_link) (true, P_wait)
| ps_link_error f : pstep signals (f, P_link) (f, P_dead)
| ps_again f : pstep signals (f, P_wait) (f, P_link)
| ps_timeout f : pstep signals (f, P_wait) (f, P_dead)
| ps_locked f : pstep signals (f, P_made) (f, P_crit)
| ps_made_die f : pstep signals (f, P_made) (f, P_unlink true)
| ps_leave f : pstep signals (f, P_crit) (f, P_unlink false)
| ps_die f : pstep signals (f, P_crit) (f, P_unlink true)
| ps_unlink f d : pstep signals (f, P_unlink d) (false, P_clear d)
| ps_clear f d : pstep signals (f, P_clear d) (f, after_unlock d)
| ps_signal f d : signals = true → pstep signals (f, P_clear d) (f, P_unlink true)
| ps_kill f p : pstep signals (f, p) (f, P_dead).

Definition lstate : Type := bool * list pc.
Inductive system_step (signals : bool) : lstate → lstate → Prop :=
| sys_step f ps i p f' p' :
    ps !! i = Some p → pstep signals (f, p) (f', p') →
    system_step signals (f, ps) (f', <[i := p']> ps).

(** The processes the lock file belongs to. *)
Definition holder (p : pc) : bool :=
  match p with P_made | P_crit | P_unlink _ => true | _ => false end.

(** The invariant: a holder's file exists, and there is one holder at most. *)
Definition exclusive (s : lstate) : Prop :=
  (∀ i p, s.2 !! i = Some p → holder p = true → s.1 = true) ∧
  (∀ i j p q, s.2 !! i = Some p → s.2 !! j = Some q → holder p = true → holder q = true → i = j).

Lemma exclusive_start n : exclusive (false, replicate n P_idle).
Proof. split; cbn; intros i *; rewrite lookup_replicate; naive_solver. Qed.

(** The file goes only with its holder. *)
Lemma pstep_file f p f' p' : pstep false (f, p) (f', p') → f' = true ∨ f' = f ∨ holder p = true ∧ holder p' = false.
Proof. inversion 1; subst; cbn; auto. Qed.

Lemma exclusive_step s s' : system_step false s s' → exclusive s → exclusive s'.
Proof.
  intros [f ps i p f' p' Hi Hp] [Hfile Hone]; cbn in *.
  assert (Hlt : (i < length ps)%nat) by (by eapply lookup_lt_Some).
  assert (Hnew : holder p' = true → f' = true ∧ (holder p = true ∨ ∀ j q, ps !! j = Some q → holder q = false)).
  { intros Hh. inversion Hp; subst; cbn in *; try done; try (by (split; [eapply Hfile; eauto|by left])).
    - split; [done|right]. intros j q Hj. destruct (holder q) eqn:Hq; [|done]. by specialize (Hfile _ _ Hj Hq).
    - by destruct d. }
  assert (Hold : ∀ j q, i ≠ j → ps !! j = Some q → holder q = true → f' = true).
  { intros j q Hne Hj Hq. destruct (pstep_file _ _ _ _ Hp) as [?|[->|[Hh _]]]; [done|by eapply Hfile|].
    by destruct (Hne (Hone _ _ _ _ Hi Hj Hh Hq)). }
  assert (Hat : ∀ j q, <[i := p']> ps !! j = Some q → j = i ∧ q = p' ∨ i ≠ j ∧ ps !! j = Some q).
  { intros j q. rewrite list_lookup_insert_Some. naive_solver. }
  split; cbn.
  - intros j q [[-> ->]|[Hne Hj]]%Hat Hq; [by apply Hnew|by eapply Hold].
  - intros j k q r [[-> ->]|[N1 Hj]]%Hat [[-> ->]|[N2 Hk]]%Hat Hq Hr; [done| | |by eapply Hone].
    + destruct (Hnew Hq) as [_ [Hh|Hno]]; [by eapply Hone|]. by rewrite (Hno _ _ Hk) in Hr.
    + destruct (Hnew Hr) as [_ [Hh|Hno]]; [by eapply Hone|]. by rewrite (Hno _ _ Hj) in Hq.
Qed.

(** A run given by the process that moves and where it gets. *)
Fixpoint apply_moves (moves : list (nat * bool * pc)) (s : lstate) : lstate :=
  match moves with
  | [] => s
  | (i, f, p) :: moves => apply_moves moves (f, <[i := p]> s.2)
  end.

(** The signal that comes between the two statements: process 0 unlinks the file
    process 1 has made, and process 2 gets in beside it. *)
Definition race : list (nat * bool * pc) :=
  [(0%nat, false, P_link); (0%nat, true, P_made); (0%nat, true, P_crit); (0%nat, true, P_unlink false);
   (0%nat, false, P_clear false);
   (1%nat, false, P_link); (1%nat, true, P_made); (1%nat, true, P_crit);
   (0%nat, true, P_unlink true); (0%nat, false, P_clear true);
   (2%nat, false, P_link); (2%nat, true, P_made); (2%nat, true, P_crit)].

Ltac race_step :=
  match goal with
  | |- rtc _ (?f, ?ps) (apply_moves ((?i, ?f', ?p') :: ?r) _) =>
      eapply rtc_l; [eapply (sys_step true f ps i _ f' p'); [reflexivity|by constructor]|];
      change (apply_moves ((i, f', p') :: r) _) with (apply_moves r (f', <[i := p']> ps))
  end.

(** * Properties *)

(** C27. The lock of mtab excludes: starting without a lock file, whatever the order of
    the steps and whoever is killed, two processes are never between [lock_mtab] and
    [unlock_mtab] at the same time.  That needs signals to stay away from the end of
    [unlock_mtab]: the file is unlinked before [we_created_lockfile] is cleared, and
    a signal in between makes [die] unlink the file of the next holder. *)
Theorem mtab_lock_exclusive n s i j :
  (rtc (system_step false) (false, replicate n P_idle) s →
   s.2 !! i = Some P_crit → s.2 !! j = Some P_crit → i = j) ∧
  (∃ f ps, rtc (system_step true) (false, replicate 3 P_idle) (f, ps) ∧
     ps !! 1%nat = Some P_crit ∧ ps !! 2%nat = Some P_crit).
Proof.
  split.
  - intros Hrun Hi Hj. assert (Hex : exclusive s).
    { revert Hrun. generalize (exclusive_start n). generalize (false, replicate n P_idle). intros s0 H0 Hrun.
      induction Hrun as [|x y z Hxy _ IH]; [done|]. by apply IH, (exclusive_step x). }
    by apply (proj2 Hex i j P_crit P_crit).
  - exists true, (apply_moves race (false, replicate 3 P_idle)).2. split; [|done].
    change (rtc (system_step true) (false, replicate 3 P_idle) (apply_moves race (false, replicate 3 P_idle))).
    unfold race. repeat race_step. apply rtc_refl.
Qed.
