(* ===== verification/MntFlags.v ===== *)
(** * Mount flags as text

    The table [opt_map] of [fuse/hsfs_main.c] and the functions around it: printing
    the flags of a mount for mtab, reading options into flags, arguments for the FUSE
    library and options for NFS, and adding and deleting entries of mtab.  No
    function of the program calls them. *)

From S2P Require Import Prelude CString Types Icache Rpc Options DList Mntent Fstab.

Definition MS_NOSUID : Z := 2.
Definition MS_NODEV : Z := 4.
Definition MS_NOEXEC : Z := 8.
Definition MS_SYNCHRONOUS : Z := 16.
Definition MS_REMOUNT : Z := 32.
Definition MS_MANDLOCK : Z := 64.
Definition MS_DIRSYNC : Z := 128.
Definition MS_NOATIME : Z := 1024.
Definition MS_NODIRATIME : Z := 2048.
Definition MS_BIND : Z := 4096.
Definition MS_REC : Z := 16384.
Definition MS_SILENT : Z := 32768.
Definition MS_DUMMY : Z := 0.
Definition MS_USERS : Z := 0x40000000.
Definition MS_USER : Z := 0x20000000.
Definition MS_READONLY : Z := 1.

Record opt_map_t := {
  nfs_opt : string; om_skip : bool; om_inv : bool; om_mask : Z; fuse_opt : option string }.

Definition opt_map : list opt_map_t :=
  let row n s i m f := {| nfs_opt := n; om_skip := s; om_inv := i; om_mask := m; fuse_opt := f |} in
  [row "defaults" false false 0 None;
   row "ro" true false MS_READONLY (Some "ro");
   row "rw" true true MS_READONLY (Some "rw");
   row "exec" false true MS_NOEXEC (Some "exec");
   row "noexec" false false MS_NOEXEC (Some "noexec");
   row "suid" false true MS_NOSUID (Some "suid");
   row "nosuid" false false MS_NOSUID (Some "nosuid");
   row "dev" false true MS_NODEV (Some "dev");
   row "nodev" false false MS_NODEV (Some "nodev");
   row "sync" false false MS_SYNCHRONOUS (Some "sync");
   row "async" false true MS_SYNCHRONOUS (Some "async");
   row "dirsync" false false MS_DIRSYNC (Some "dirsync");
   row "remount" false false MS_REMOUNT None;
   row "bind" false false MS_BIND None;
   row "rbind" false false (Z.lor MS_BIND MS_REC) None;
   row "auto" false false MS_DUMMY None;
   row "noauto" false false MS_DUMMY None;
   row "users" false false MS_USERS (Some "allow_other");
   row "nousers" false true MS_USERS (Some "allow_root");
   row "user" false false MS_USER (Some "allow_other");
   row "nouser" false true MS_USER (Some "allow_root");
   row "owner" false false MS_DUMMY None;
   row "noowner" false false MS_DUMMY None;
   row "group" false false MS_DUMMY None;
   row "nogroup" false false MS_DUMMY None;
   row "_netdev" false false MS_DUMMY None;
   row "comment" false false MS_DUMMY None;
   row "quiet" false false MS_SILENT None;
   row "loud" false true MS_SILENT None;
   row "mand" false false MS_MANDLOCK None;
   row "nomand" false true MS_MANDLOCK None;
   row "loop" true false MS_DUMMY None;
   row "atime" false true MS_NOATIME (Some "atime");
   row "noatime" false false MS_NOATIME (Some "noatime");
   row "diratime" false true MS_NODIRATIME None;
   row "nodiratime" false false MS_NODIRATIME None]%string.

(** ** Printing *)

(** The loop over the table: a flag that is printed is cleared. *)
Fixpoint fix_rows (rows : list opt_map_t) (flags : Z) (new_opts : list ascii) : list ascii :=
  match rows with
  | [] => new_opts
  | om :: rows =>
      if om_skip om then fix_rows rows flags new_opts else
      if om_inv om || (om_mask om =? 0) || negb (Z.land flags (om_mask om) =? om_mask om)
      then fix_rows rows flags new_opts
      else fix_rows rows (bclear flags (om_mask om)) (new_opts ++ ","%char :: chars (nfs_opt om))
  end.
(** [user] is the name of the user, when [getpwuid] knows it. *)
Definition hsi_fix_opts_string (user : option string) (flags : Z) (extra_opts : list ascii) : list ascii :=
  let new_opts := if flag flags MS_READONLY then chars "ro" else chars "rw" in
  let new_opts := match user with
                  | Some name => if flag flags MS_USER then new_opts ++ chars ",user=" ++ chars name else new_opts
                  | None => new_opts
                  end in
  let new_opts := fix_rows opt_map flags new_opts in
  match extra_opts with [] => new_opts | _ => new_opts ++ ","%char :: extra_opts end.

(** ** Reading *)

(** The flags, the options added to the arguments of the library, the options left
    for NFS. *)
Record parsed_opts := { po_flags : Z; po_fuse : list string; po_extra : list ascii }.

Section Reading.
(** [fuse_lowlevel_is_lib_option] *)
Context (is_lib : list ascii → bool).

(** The loop over the table; [None] when it falls through. *)
Fixpoint parse_rows (rows : list opt_map_t) (opt : list ascii) (o : parsed_opts) : option parsed_opts :=
  match rows with
  | [] => None
  | om :: rows =>
      if bool_decide (opt = chars (nfs_opt om)) then
        Some (match fuse_opt om with
              | Some f =>
                  {| po_flags := if om_inv om then bclear (po_flags o) (om_mask om)
                                 else Z.lor (po_flags o) (om_mask om);
                     po_fuse := po_fuse o ++ [f]; po_extra := po_extra o |}
              | None => o
              end)
      else if is_lib opt then Some (o <| po_fuse ::= λ l, l ++ [of_chars opt] |>)
      else parse_rows rows opt o
  end.

(** [len] is the size of the buffer; [None] is a write beyond it. *)
Definition hsi_parse_opt (opt : list ascii) (o : parsed_opts) (len : Z) : option parsed_opts :=
  match parse_rows opt_map opt o with
  | Some o => Some o
  | None =>
      let strlen l := Z.of_nat (length l) in
      let cat o t := let e := po_extra o ++ t in
                     if strlen e <? len then Some (o <| po_extra := e |>) else None in
      let room := wrap 64 (len - strlen (po_extra o)) in
      '(o, room) ← (match po_extra o with
                    | [] => Some (o, room)
                    | _ => let room := wrap 64 (room - 1) in
                           if room =? 0 then Some (o, room)
                           else o ← cat o [","%char]; Some (o, room)
                    end);
      if wrap 64 (room - strlen opt) =? 0 then Some o else cat o opt
  end.

(** The items, which the loop cuts as [hsi_nfs3_parse_options] does. *)
Fixpoint parse_opt_items (items : list (list ascii)) (len : Z) (o : parsed_opts) : option parsed_opts :=
  match items with
  | [] => Some o
  | opt :: items => o ← hsi_parse_opt opt o len; parse_opt_items items len o
  end.
Definition hsi_parse_opts (options : list ascii) (flags : Z) : option parsed_opts :=
  parse_opt_items (opt_items options [] false) (Z.of_nat (length options) + 1)
    {| po_flags := flags; po_fuse := []; po_extra := [] |}.
End Reading.

(** ** Entries of mtab *)

Section Mtab.
Context {E : MtabEnv}.

(** [nomtab] and the user are given; [addmntent] of the C library appends the entry
    like [nfs_addmntent]. *)
Definition hsi_add_mtab (nomtab : bool) (user : option string) (spec mount_point fstype : list ascii)
    (flags : Z) (opts : list ascii) : M mst Z :=
  if nomtab then mret 0 else
  let ment := {| mnt_fsname := spec; mnt_dir := mount_point; mnt_type := fstype;
                 mnt_opts := hsi_fix_opts_string user flags opts; mnt_freq := 0; mnt_passno := 0 |} in
  if flag flags MS_REMOUNT then update_mtab mount_point (Some ment);; mret 0 else
  lock_mtab;;
  e ← sys;
  res ← (if negb (e =? 0) then mret 1 else
         e ← sys;
         if negb (e =? 0) then mret 1 else
         modify (λ s, s <| ms_mtab ::= λ f, Some (nfs_addmntent (default [] f) ment) |>);; sys_;; mret 0);
  unlock_mtab;; mret res.
Definition hsi_del_mtab (nomtab : bool) (node : list ascii) : M mst Z :=
  if nomtab then mret 0 else update_mtab node None;; mret 0.
End Mtab.

(** ** Lemmas *)

(** An option left for NFS: neither in the table nor one of the library's. *)
Definition left_for_nfs (is_lib : list ascii → bool) (opt : list ascii) : bool :=
  negb (is_lib opt) && forallb (λ om, negb (bool_decide (opt = chars (nfs_opt om)))) opt_map.
Definition add_item (e opt : list ascii) : list ascii :=
  match e with [] => opt | _ => e ++ ","%char :: opt end.

Lemma parse_rows_none is_lib opt o rows :
  rows ≠ [] → parse_rows is_lib rows opt o = None ↔
  negb (is_lib opt) && forallb (λ om, negb (bool_decide (opt = chars (nfs_opt om)))) rows = true.
Proof.
  induction rows as [|om rows IH]; [done|]. intros _. cbn [parse_rows forallb].
  case_bool_decide; cbn [negb andb]; [by rewrite andb_false_r|].
  destruct (is_lib opt) eqn:Hl; [done|]. cbn [negb andb] in *. destruct rows as [|om' rows]; [done|].
  by apply IH.
Qed.
Lemma parse_rows_extra is_lib opt o o' rows :
  parse_rows is_lib rows opt o = Some o' → po_extra o' = po_extra o.
Proof.
  induction rows as [|om rows IH]; [done|]. cbn [parse_rows].
  case_bool_decide; [destruct (fuse_opt om); by intros [= <-]|]. destruct (is_lib opt); [by intros [= <-]|done].
Qed.

(** The room the items take with a separator each. *)
Definition room (items : list (list ascii)) : Z := foldr (λ i n, Z.of_nat (length i) + 1 + n) 0 items.
Lemma opt_items_room l : ∀ cur q, room (opt_items l cur q) <= Z.of_nat (length cur) + Z.of_nat (length l) + 1.
Proof.
  induction l as [|c l IH]; intros cur q; cbn [opt_items]; [cbn; lia|].
  pose proof (IH (cur ++ [c])) as IH1. rewrite length_app in IH1. cbn [length] in *.
  destruct (xorb q _); [specialize (IH1 true); lia|]. destruct (is_char "," c).
  - cbn [room foldr]. specialize (IH [] false). unfold room in IH. cbn [length] in IH. lia.
  - case_bool_decide; [|specialize (IH1 false); lia]. cbn [room foldr]. rewrite length_app. cbn [length]. lia.
Qed.

Definition used (e : list ascii) : Z := match e with [] => 0 | _ => Z.of_nat (length e) + 1 end.
Lemma parse_opt_fits is_lib opt o len : 0 <= len < 2 ^ 64 →
  used (po_extra o) + Z.of_nat (length opt) + 1 <= len →
  ∃ o', hsi_parse_opt is_lib opt o len = Some o' ∧
    po_extra o' = (if left_for_nfs is_lib opt then add_item (po_extra o) opt else po_extra o).
Proof.
  intros Hlen Hroom. unfold hsi_parse_opt, left_for_nfs. destruct (parse_rows is_lib opt_map opt o) as [o'|] eqn:Hp.
  { exists o'. split; [done|]. rewrite (parse_rows_extra _ _ _ _ _ Hp).
    destruct (_ && _) eqn:Hb; [|done]. apply (parse_rows_none is_lib opt o) in Hb; [|done]. congruence. }
  apply parse_rows_none in Hp; [|done]. rewrite Hp. cbv zeta. unfold used in Hroom.
  destruct (po_extra o) as [|c e] eqn:He; cbn [mbind option_bind length].
  - rewrite !wrap_small by (unfold in_range; rewrite ?wrap_small; unfold in_range; cbn; lia).
    rewrite (proj2 (Z.eqb_neq _ 0)) by (cbn; lia). rewrite He. cbn [app].
    rewrite (proj2 (Z.ltb_lt _ _)) by lia. by eexists.
  - set (e' := c :: e) in *. assert (He' : Z.of_nat (length e') = Z.of_nat (S (length e))) by done.
    cbn [length] in *. assert (wrap 64 (len - Z.of_nat (S (length e))) = len - Z.of_nat (S (length e))) as ->
      by (apply wrap_small; unfold in_range; lia).
    assert (wrap 64 (len - Z.of_nat (S (length e)) - 1) = len - Z.of_nat (S (length e)) - 1) as ->
      by (apply wrap_small; unfold in_range; lia).
    rewrite (proj2 (Z.eqb_neq _ 0)) by lia. rewrite length_app. cbn [length].
    rewrite (proj2 (Z.ltb_lt _ _)) by lia. cbn [mbind option_bind].
    rewrite wrap_small by (unfold in_range; lia). rewrite (proj2 (Z.eqb_neq _ 0)) by lia. cbn.
    rewrite !length_app. cbn [length]. rewrite (proj2 (Z.ltb_lt _ _)) by lia. eexists. split; [done|].
    unfold const. cbn. by rewrite <-!app_assoc.
Qed.

Lemma parse_items_fit is_lib len : 0 <= len < 2 ^ 64 → ∀ items o,
  used (po_extra o) + room items <= len →
  ∃ o', parse_opt_items is_lib items len o = Some o' ∧
    po_extra o' = fold_left add_item (filter (λ i, left_for_nfs is_lib i = true) items) (po_extra o).
Proof.
  intros Hlen. induction items as [|i items IH]; intros o Hroom; cbn [parse_opt_items].
  - by exists o.
  - cbn [room foldr] in Hroom. fold (room items) in Hroom.
    assert (0 <= room items) by (clear; induction items; cbn; [lia|]; fold (room items); lia).
    destruct (parse_opt_fits is_lib i o len Hlen) as (o1 & Hrun & He1); [lia|]. rewrite Hrun. cbn [mbind option_bind].
    destruct (IH o1) as (o' & Hrun' & He').
    { rewrite He1. destruct (left_for_nfs is_lib i); [|lia]. unfold used, add_item in *.
      destruct (po_extra o) as [|c e]; [destruct i; cbn [length] in *; lia|].
      cbn [app]. cbn [length] in *. rewrite length_app. cbn [length]. lia. }
    exists o'. split; [done|]. rewrite He', He1, filter_cons.
    destruct (left_for_nfs is_lib i); [by rewrite decide_True|by rewrite decide_False].
Qed.

(** The flags that options for the library stand for. *)
Definition fuse_flags : Z :=
  foldr Z.lor 0 [MS_READONLY; MS_NOSUID; MS_NODEV; MS_NOEXEC; MS_SYNCHRONOUS; MS_DIRSYNC; MS_NOATIME].

(** An option the library does not claim is read without asking it. *)
Lemma parse_opt_no_lib is_lib opt o len : is_lib opt = false →
  hsi_parse_opt is_lib opt o len = hsi_parse_opt (λ _, false) opt o len.
Proof.
  intros Hl. unfold hsi_parse_opt. assert (∀ rows, parse_rows is_lib rows opt o = parse_rows (λ _, false) rows opt o) as ->; [|done].
  induction rows as [|om rows IH]; [done|]. cbn [parse_rows]. by rewrite Hl, IH.
Qed.
Lemma parse_items_no_lib is_lib items len : ∀ o, Forall (λ i, is_lib i = false) items →
  parse_opt_items is_lib items len o = parse_opt_items (λ _, false) items len o.
Proof.
  induction items as [|i items IH]; intros o Hall; [done|]. apply list.Forall_cons in Hall as [Hi Hall].
  cbn [parse_opt_items]. rewrite parse_opt_no_lib by done. destruct (hsi_parse_opt _ i o len); [by apply IH|done].
Qed.

Lemma parse_opts_no_lib is_lib options flags : Forall (λ i, is_lib i = false) (opt_items options [] false) →
  hsi_parse_opts is_lib options flags = hsi_parse_opts (λ _, false) options flags.
Proof. apply parse_items_no_lib. Qed.

Definition names : list (list ascii) := (λ om, chars (nfs_opt om)) <$> opt_map.
(** What the round trip comes to for one value of the flags: the items that were
    printed are names of the table, and reading them sets the flags. *)
Definition reads_as (text : list ascii) (flags : Z) : bool :=
  forallb (λ i, bool_decide (i ∈ names)) (opt_items text [] false) &&
  bool_decide (po_flags <$> hsi_parse_opts (λ _, false) text 0 = Some flags) &&
  bool_decide (po_extra <$> hsi_parse_opts (λ _, false) text 0 = Some []).
Lemma reads_as_spec is_lib text flags : Forall (λ n, is_lib n = false) names → reads_as text flags = true →
  ∃ o, hsi_parse_opts is_lib text 0 = Some o ∧ po_flags o = flags ∧ po_extra o = [].
Proof.
  intros Hlib [[Hn Hfl]%andb_true_iff Hex]%andb_true_iff. apply bool_decide_eq_true in Hfl, Hex.
  rewrite parse_opts_no_lib.
  - destruct (hsi_parse_opts _ _ 0) as [o|]; [|done]. exists o. split; [done|]. cbn in Hfl, Hex. by simplify_eq.
  - apply list.Forall_forall. intros i Hi. rewrite forallb_forall in Hn.
    specialize (Hn i ltac:(by apply list_elem_of_In)). apply bool_decide_eq_true in Hn.
    rewrite list.Forall_forall in Hlib. by apply Hlib.
Qed.
Lemma roundtrip_computed :
  forallb (λ n, negb (Z.land n fuse_flags =? n) || reads_as (hsi_fix_opts_string None n []) n) (seqZ 0 1184) = true.
Proof. vm_compute. reflexivity. Qed.
Lemma roundtrip_all flags : 0 <= flags <= 1183 → Z.land flags fuse_flags = flags →
  reads_as (hsi_fix_opts_string None flags []) flags = true.
Proof.
  intros Hr Hf. pose proof roundtrip_computed as Hall. rewrite forallb_forall in Hall.
  assert (Hin : flags ∈ seqZ 0 1184) by (apply elem_of_seqZ; lia). apply list_elem_of_In in Hin.
  specialize (Hall flags Hin). cbv beta in Hall. apply orb_prop in Hall as [Hall|Hall]; [|exact Hall].
  rewrite Hf, Z.eqb_refl in Hall. discriminate.
Qed.

(** * Properties *)

(** Options are sorted without overrunning the buffer for NFS: whatever the string,
    [hsi_parse_opts] leaves exactly the options that are neither in the table nor
    the library's, separated by commas, in a buffer of the length of the string. *)
Theorem extra_options_fit is_lib options flags :
  Z.of_nat (length options) < 2 ^ 64 - 1 →
  ∃ o, hsi_parse_opts is_lib options flags = Some o ∧
    po_extra o = fold_left add_item
      (filter (λ i, left_for_nfs is_lib i = true) (opt_items options [] false)) [].
Proof.
  intros Hlen. unfold hsi_parse_opts. apply (parse_items_fit is_lib); [lia|].
  pose proof (opt_items_room options [] false). cbn in *. lia.
Qed.

(** Flags written for mtab are read back: the flags that stand for options of the
    library are what [hsi_parse_opts] makes of what [hsi_fix_opts_string] prints,
    as long as the library does not claim the names of the table. *)
Theorem mount_flags_roundtrip is_lib flags :
  Forall (λ n, is_lib n = false) names → 0 <= flags → Z.land flags fuse_flags = flags →
  ∃ o, hsi_parse_opts is_lib (hsi_fix_opts_string None flags []) 0 = Some o ∧
    po_flags o = flags ∧ po_extra o = [].
Proof.
  intros Hlib H0 Hf.
  assert (Hle : flags <= fuse_flags).
  { rewrite <-Hf. pose proof (Z.land_spec flags fuse_flags) as _. apply Z.ldiff_le; [done|].
    apply Z.bits_inj'. intros i Hi. rewrite Z.ldiff_spec, Z.land_spec, Z.bits_0. by destruct (Z.testbit flags i), (Z.testbit fuse_flags i). }
  apply (reads_as_spec is_lib); [done|]. apply roundtrip_all; [|done]. split; [done|exact Hle].
Qed.
