(* ===== verification/Nfs3.v ===== *)
(** * The NFSv3 operations

    One definition per function of [nfs3/hsi_nfs3_*.c] (mounting apart): each
    builds the arguments of a procedure, calls the server, translates the status
    and updates the inode cache from the attributes in the reply.

    An operation that stores through [struct hsfs_inode **new] takes the old
    value of the variable and returns the new one next to its error number. *)

From S2P Require Import Prelude Bitops Hash HList Types ErrPtr Icache NfsInode Rpc.

(** ** Attributes: hsi_nfs3.h, hsi_nfs3_lookup.c, hsi_nfs3_fattr2stat.c *)

(** glibc's device numbers: 32-bit major and minor in a 64-bit [dev_t]. *)
Definition makedev (major minor : Z) : Z :=
  Z.lor (Z.lor (Z.lor ((major & 0xfff) << 8) ((major & 0xfffff000) << 32)) (minor & 0xff))
        ((minor & 0xffffff00) << 12).
Definition dev_major (dev : Z) : Z :=
  Z.lor ((dev & 0xfff00) >> 8) ((dev & 0xfffff00000000000) >> 32).
Definition dev_minor (dev : Z) : Z :=
  Z.lor (dev & 0xff) ((dev & 0xffffff00000) >> 12).

Definition hsi_nfs3_time2spec (f : nfstime3) : timespec :=
  {| tv_sec := seconds f; tv_nsec := nseconds f |}.

(** Entry 0 and the holes of the C table are 0. *)
Definition nfs_type2fmt : list Z :=
  [0; S_IFREG; S_IFDIR; S_IFBLK; S_IFCHR; S_IFLNK; S_IFSOCK; S_IFIFO].

Definition hsi_nfs3_fattr2fattr (f : fattr3) (t : nfs_fattr) : nfs_fattr :=
  let type := if NF3FIFO <? f3_type f then 0 else f3_type f in
  let fmode := nth (Z.to_nat type) nfs_type2fmt 0 in
  let rdev := makedev (f3_rdev_major f) (f3_rdev_minor f) in
  let rdev :=
    if negb (dev_major rdev =? f3_rdev_major f) || negb (dev_minor rdev =? f3_rdev_minor f)
    then 0 else rdev in
  t <| fa_mode := Z.lor (bclear (f3_mode f) S_IFMT) fmode |>
    <| fa_nlink := f3_nlink f |> <| fa_uid := f3_uid f |> <| fa_gid := f3_gid f |>
    <| fa_size := f3_size f |> <| fa_du := f3_used f |> <| fa_rdev := rdev |>
    <| fa_fsid_major := f3_fsid f |> <| fa_fsid_minor := 0 |> <| fa_fileid := f3_fileid f |>
    <| fa_atime := hsi_nfs3_time2spec (f3_atime f) |>
    <| fa_mtime := hsi_nfs3_time2spec (f3_mtime f) |>
    <| fa_ctime := hsi_nfs3_time2spec (f3_ctime f) |>
    <| fa_valid ::= λ v, Z.lor v NFS_ATTR_FATTR_V3 |>.

(** Whether attributes were present, and the updated [fattr]. *)
Definition hsi_nfs3_post2fattr (p : post_op_attr) (t : nfs_fattr) : bool * nfs_fattr :=
  match p with
  | Some f => (true, hsi_nfs3_fattr2fattr f t)
  | None => (false, t)
  end.
Definition hsi_nfs3_wcc2fattr (after : post_op_attr) (fattr : nfs_fattr) : bool * nfs_fattr :=
  hsi_nfs3_post2fattr after fattr.

(** The type bits of the [switch]; [None] is its [default]. *)
Definition fattr2stat_fmt (type : Z) : option Z :=
  if type =? NF3REG then Some S_IFREG else if type =? NF3DIR then Some S_IFDIR
  else if type =? NF3BLK then Some S_IFBLK else if type =? NF3CHR then Some S_IFCHR
  else if type =? NF3LNK then Some S_IFLNK else if type =? NF3SOCK then Some S_IFSOCK
  else if type =? NF3FIFO then Some S_IFIFO else None.

(** The nanoseconds of [st_mtim] are those of the access time, and those of
    [st_ctim] stay as they are, as in the source. *)
Definition hsi_nfs3_fattr2stat (attr : fattr3) (st : stat) : Z * stat :=
  let st := st <| st_dev := makedev 0 0 |> <| st_ino := f3_fileid attr |>
               <| st_mode := f3_mode attr & 0xfff |> in
  match fattr2stat_fmt (f3_type attr) with
  | None => (EINVAL, st)
  | Some fmt =>
      (0, st <| st_mode ::= λ m, Z.lor m fmt |>
             <| st_nlink := f3_nlink attr |> <| st_uid := f3_uid attr |> <| st_gid := f3_gid attr |>
             <| st_rdev := makedev (f3_rdev_major attr) (f3_rdev_minor attr) |>
             <| st_size := sint 64 (f3_size attr) |> <| st_blksize := 0 |>
             <| st_blocks := f3_used attr / 512 |>
             <| st_atim := {| tv_sec := seconds (f3_atime attr); tv_nsec := nseconds (f3_atime attr) |} |>
             <| st_mtim := {| tv_sec := seconds (f3_mtime attr); tv_nsec := nseconds (f3_atime attr) |} |>
             <| st_ctim ::= λ t, t <| tv_sec := seconds (f3_ctime attr) |> |>)
  end.

Definition NAME_MAX : Z := 255.
Definition strlen (s : string) : Z := Z.of_nat (String.length s).

(** [strcpy] into a buffer of [size] bytes. *)
Definition strcpy_fits (size : Z) (s : string) : bool := strlen s + 1 <=? size.

(** [*p = v] for a returned pair. *)
Definition sattr3_zero : sattr3 := {|
  sa_mode := None; sa_uid := None; sa_gid := None; sa_size := None;
  sa_atime := DONT_CHANGE; sa_mtime := DONT_CHANGE |}.

(** ** hsi_nfs3_mount.c: block sizes *)

(** [1 << n] is an [int]: at bit 31 it is negative, and converting it to
    [unsigned long] extends the sign. *)
Definition int_bit (n : nat) : Z := wrap 64 (sint 32 (2 ^ Z.of_nat n)).

(** The loop from bit 31 down to the first bit of [bsize] that is set. *)
Fixpoint top_bit (n : nat) (bsize : Z) : nat :=
  match n with
  | O => O
  | S n' => if bsize & int_bit n =? 0 then top_bit n' bsize else n
  end.

(** The size and, when asked for, its logarithm. *)
Definition hsfs_block_bits (bsize : Z) (nrbitsp : bool) : Z * option Z :=
  if negb (bsize & wrap 64 (bsize - 1) =? 0) || nrbitsp then
    let nrbits := top_bit 31 bsize in
    (int_bit nrbits, if nrbitsp then Some (Z.of_nat nrbits) else None)
  else (bsize, None).

Definition HSFS_MAX_FILE_IO_SIZE : Z := 1048576.
Definition HSFS_DEF_FILE_IO_SIZE : Z := 4096.
Definition HSFS_MIN_FILE_IO_SIZE : Z := 1024.
Definition HSFS_MAX_READDIR_PAGES : Z := 8.

Definition hsfs_block_size (bsize : Z) (nrbitsp : bool) : Z * option Z :=
  let bsize := if bsize <? HSFS_MIN_FILE_IO_SIZE then HSFS_DEF_FILE_IO_SIZE
               else if HSFS_MAX_FILE_IO_SIZE <=? bsize then HSFS_MAX_FILE_IO_SIZE else bsize in
  hsfs_block_bits bsize nrbitsp.

(** ** hsi_nfs3_fsinfo.c *)

Definition hsi_fsinfo_to_super (page_size : Z) (super : hsfs_super) (fsinfo : fsinfo3resok) :
    hsfs_super :=
  let size x := wrap 32 (hsfs_block_size x false).1 in
  let rs := if rsize super =? 0 then size (fi_rtpref fsinfo) else rsize super in
  let ws := if wsize super =? 0 then size (fi_wtpref fsinfo) else wsize super in
  let rs := if (512 <=? fi_rtmax fsinfo) && (fi_rtmax fsinfo <? rs) then size (fi_rtmax fsinfo) else rs in
  let ws := if (512 <=? fi_wtmax fsinfo) && (fi_wtmax fsinfo <? ws) then size (fi_wtmax fsinfo) else ws in
  let rs := if HSFS_MAX_FILE_IO_SIZE <? rs then HSFS_MAX_FILE_IO_SIZE else rs in
  let ws := if HSFS_MAX_FILE_IO_SIZE <? ws then HSFS_MAX_FILE_IO_SIZE else ws in
  let max_dt := wrap 32 (page_size * HSFS_MAX_READDIR_PAGES) in
  let dt := size (fi_dtpref fsinfo) in
  let dt := if max_dt <? dt then max_dt else dt in
  let dt := if rs <? dt then rs else dt in
  super <| rsize := rs |> <| wsize := ws |> <| dtsize := dt |>
        <| rtmax := fi_rtmax fsinfo |> <| rtpref := fi_rtpref fsinfo |> <| rtmult := fi_rtmult fsinfo |>
        <| wtmax := fi_wtmax fsinfo |> <| wtpref := fi_wtpref fsinfo |>
        <| wtmult := wrap 32 (hsfs_block_bits (fi_wtmult fsinfo) false).1 |>
        <| dtpref := fi_dtpref fsinfo |> <| maxfilesize := fi_maxfilesize fsinfo |>
        <| time_delta := fi_time_delta fsinfo |> <| properties := fi_properties fsinfo |>.

(** ** hsfs.h: read and write requests *)

(** [data_val] is the memory from the buffer pointer to the end of its object. *)
Record hsfs_rw_info := {
  rw_inode : Z; rw_size : Z; rw_off : Z; ret_count : Z; rw_eof : Z; rw_stable : Z;
  data_len : Z; data_val : list Z }.

(** An entry of the list a directory read returns; [rc_inode] is 0 for NULL. *)
Record hsfs_readdir_ctx := { rc_off : Z; rc_name : string; rc_ino : Z; rc_inode : Z }.

Section Nfs3.
Context {E : Env}.

Definition hsi_nfs3_getfh3 (inode : Z) : M world (list Z) :=
  fh ← NFS_FH inode; mret (fh_bytes fh).

(** ** hsi_nfs3_getattr.c *)

Definition hsi_nfs3_do_getattr (fh : list Z) (fattr : option nfs_fattr) (st : option stat) :
    M world (Z * option nfs_fattr * option stat) :=
  s ← get_sb;
  r ← hsi_nfs3_clnt_call (clntp s) (NFSPROC3_GETATTR fh);
  match r with
  | inr err => mret (err, fattr, st)
  | inl (Res_fail status) =>
      s ← get_sb; clnt_freeres (clntp s);;
      mret (hsi_nfs3_stat_to_errno status, fattr, st)
  | inl (Res_ok attr) =>
      let fattr := hsi_nfs3_fattr2fattr attr <$> fattr in
      let st := (λ st, (hsi_nfs3_fattr2stat attr st).2) <$> st in
      s ← get_sb; clnt_freeres (clntp s);;
      mret (0, fattr, st)
  end.

Definition hsi_nfs3_getattr (inode : Z) (st : option stat) : M world (Z * option stat) :=
  fh ← hsi_nfs3_getfh3 inode;
  let fattr := nfs_init_fattr stack_fattr in
  _ ← inode_sb inode;
  '(err, fattr', st) ← hsi_nfs3_do_getattr fh (Some fattr) st;
  if negb (err =? 0) then mret (err, st) else
  err ← nfs_refresh_inode inode (default fattr fattr');
  mret (err, st).

(** ** hsi_nfs3_setattr.c *)

Definition sattr3_of (attr : hsfs_iattr) : sattr3 :=
  let v := ia_valid attr in
  {| sa_mode := if S_ISSETMODE v then Some (ia_mode attr) else None;
     sa_uid := if S_ISSETUID v then Some (ia_uid attr) else None;
     sa_gid := if S_ISSETGID v then Some (ia_gid attr) else None;
     sa_size := if S_ISSETSIZE v then Some (wrap 64 (ia_size attr)) else None;
     sa_atime :=
       if S_ISSETATIMENOW v then SET_TO_SERVER_TIME
       else if S_ISSETATIME v then
         SET_TO_CLIENT_TIME {| seconds := wrap 32 (tv_sec (ia_atime attr));
                               nseconds := wrap 32 (tv_nsec (ia_atime attr)) |}
       else DONT_CHANGE;
     sa_mtime :=
       if S_ISSETMTIMENOW v then SET_TO_SERVER_TIME
       else if S_ISSETMTIME v then
         SET_TO_CLIENT_TIME {| seconds := wrap 32 (tv_sec (ia_mtime attr));
                               nseconds := wrap 32 (tv_nsec (ia_mtime attr)) |}
       else DONT_CHANGE |}.

Definition hsi_nfs3_setattr (inode : Z) (fattr : nfs_fattr) (attr : hsfs_iattr) :
    M world (Z * nfs_fattr) :=
  s ← inode_sb inode;
  let clnt := clntp s in
  fh ← hsi_nfs3_getfh3 inode;
  r ← hsi_nfs3_clnt_call clnt (NFSPROC3_SETATTR fh (sattr3_of attr));
  match r with
  | inr err => mret (err, fattr)
  | inl (Res_fail status) =>
      clnt_freeres clnt;; mret (hsi_nfs3_stat_to_errno status, fattr)
  | inl (Res_ok after) =>
      let '(present, fattr) := hsi_nfs3_wcc2fattr after (nfs_init_fattr fattr) in
      clnt_freeres clnt;; mret (if (present : bool) then 0 else EAGAIN, fattr)
  end.

(** ** hsi_nfs3_mount.c: the operations table *)

Definition hsi_nfs_sop : hsfs_super_ops := {|
  sop_alloc_inode := Some nfs_alloc_inode;
  sop_destroy_inode := Some nfs_destroy_inode;
  sop_drop_inode := None;
  sop_setattr := Some hsi_nfs3_setattr |}.

(** ** hsi_nfs3_lookup.c *)

Definition hsi_nfs3_lookup (parent : Z) (new : Z) (name : string) : M world (Z * Z) :=
  s ← inode_sb parent;
  dir ← hsi_nfs3_getfh3 parent;
  r ← hsi_nfs3_clnt_call (clntp s) (NFSPROC3_LOOKUP {| do_dir := dir; do_name := name |});
  match r with
  | inr err => mret (err, new)
  | inl (Res_fail st) =>
      s ← get_sb; clnt_freeres (clntp s);; mret (hsi_nfs3_stat_to_errno st, new)
  | inl (Res_ok ok) =>
      let '(_, fattr) := hsi_nfs3_post2fattr (lk_obj_attributes ok) (nfs_init_fattr stack_fattr) in
      name_fh ← of_option (nfs_copy_fh3 stack_fh (Z.of_nat (length (lk_object ok))) (lk_object ok));
      new ← hsi_nfs_fhget hsi_nfs_sop name_fh fattr;
      s ← get_sb; clnt_freeres (clntp s);;
      mret (0, new)
  end.

(** ** hsi_nfs3_mkdir.c *)

Definition hsi_nfs3_handle_create (dir : diropres3ok) : M world Z :=
  let '(_, fattr) := hsi_nfs3_post2fattr (dr_obj_attributes dir) (nfs_init_fattr stack_fattr) in
  match dr_obj dir with
  | None => ERR_PTR ENOENT
  | Some nfh =>
      fh ← of_option (nfs_copy_fh3 stack_fh (Z.of_nat (length nfh)) nfh);
      hsi_nfs_fhget hsi_nfs_sop fh fattr
  end.

(** [*new = NULL; err = PTR_ERR( *new);] in this order, as in the source. *)
Definition hsi_nfs3_mkdir (parent : Z) (new : Z) (name : string) (mode : Z) : M world (Z * Z) :=
  s ← inode_sb parent;
  dir ← hsi_nfs3_getfh3 parent;
  let attributes := sattr3_zero <| sa_mode := Some (mode & 0xfff) |> in
  r ← hsi_nfs3_clnt_call (clntp s) (NFSPROC3_MKDIR {| do_dir := dir; do_name := name |} attributes);
  match r with
  | inr err => mret (err, 0)
  | inl (Res_fail status) =>
      s ← get_sb; clnt_freeres (clntp s);; mret (hsi_nfs3_stat_to_errno status, 0)
  | inl (Res_ok ok) =>
      new ← hsi_nfs3_handle_create ok;
      let '(err, new) := if IS_ERR new then (sint 32 (PTR_ERR 0), 0) else (0, new) in
      s ← get_sb; clnt_freeres (clntp s);; mret (err, new)
  end.

(** ** hsi_nfs3_create.c *)

Definition EXCLUSIVE : Z := 2.

Definition hsi_nfs3_create (hi : Z) (new : Z) (name : string) (mode : Z) : M world (Z * Z) :=
  s ← inode_sb hi;
  let cmode := mode & 0xf0000 in
  let fmode := mode & S_IRWXUGO in
  dir ← hsi_nfs3_getfh3 hi;
  let where_ := {| do_dir := dir; do_name := name |} in
  let clnt := clntp s in
  let how_mode := cmode >> 16 in
  i ← get_inode hi;
  let how :=
    if how_mode =? EXCLUSIVE then CREATE_EXCLUSIVE (i_ino i)
    else CREATE_ATTR how_mode
      {| sa_mode := Some fmode; sa_uid := Some (ia_uid (i_iattr i));
         sa_gid := Some (ia_gid (i_iattr i)); sa_size := None;
         sa_atime := SET_TO_SERVER_TIME; sa_mtime := SET_TO_SERVER_TIME |} in
  r ← hsi_nfs3_clnt_call clnt (NFSPROC3_CREATE where_ how);
  match r with
  | inr err => mret (err, new)
  | inl (Res_fail status) => clnt_freeres clnt;; mret (hsi_nfs3_stat_to_errno status, new)
  | inl (Res_ok ok) =>
      new ← hsi_nfs3_handle_create ok;
      if IS_ERR new then
        let status := sint 32 (PTR_ERR new) in clnt_freeres clnt;; mret (status, 0)
      else
        status ← (if how_mode =? EXCLUSIVE then
                    ni ← get_inode new;
                    let sattr := (i_iattr ni) <| ia_mode := fmode |>
                                   <| ia_valid ::= λ v, Z.lor v HSFS_ATTR_MODE |> in
                    hsi_nfs_setattr hsi_nfs_sop new sattr
                  else mret 0);
        clnt_freeres clnt;; mret (status, new)
  end.

(** ** hsi_nfs3_mknod.c *)

(** The [switch] on the file type. *)
Definition mknod_what (mode rdev : Z) : mknoddata3 :=
  let attr := sattr3_zero <| sa_mode := Some (mode & 0xfff) |> in
  let fmt := mode & S_IFMT in
  if fmt =? S_IFCHR then MKNOD_DEVICE NF3CHR attr (dev_major rdev) (dev_minor rdev)
  else if fmt =? S_IFBLK then MKNOD_DEVICE NF3BLK attr (dev_major rdev) (dev_minor rdev)
  else if fmt =? S_IFSOCK then MKNOD_PIPE NF3SOCK attr
  else if fmt =? S_IFIFO then MKNOD_PIPE NF3FIFO attr
  else MKNOD_OTHER 0.

Definition hsi_nfs3_mknod (parent : Z) (new : Z) (name : string) (mode rdev : Z) :
    M world (Z * Z) :=
  _ ← inode_sb parent;
  if NAME_MAX <? strlen name then mret (ENAMETOOLONG, new) else
  dir ← hsi_nfs3_getfh3 parent;
  ok ← malloc_buf NAME_MAX;
  if negb ok then mret (ENOMEM, new) else
  (if strcpy_fits NAME_MAX name then mret tt else ub);;
  s ← inode_sb parent;
  let clnt := clntp s in
  r ← hsi_nfs3_clnt_call clnt
        (NFSPROC3_MKNOD {| do_dir := dir; do_name := name |} (mknod_what mode rdev));
  match r with
  | inr err => mret (err, new)
  | inl (Res_fail status) => clnt_freeres clnt;; mret (hsi_nfs3_stat_to_errno status, new)
  | inl (Res_ok ok) =>
      new ← hsi_nfs3_handle_create ok;
      let '(err, new) := if IS_ERR new then (sint 32 (PTR_ERR 0), 0) else (0, new) in
      clnt_freeres clnt;; mret (err, new)
  end.

(** ** hsi_nfs3_symlink.c *)

Definition hsi_nfs3_symlink (parent : Z) (new : Z) (link name : string) : M world (Z * Z) :=
  s ← inode_sb parent;
  dir ← hsi_nfs3_getfh3 parent;
  r ← hsi_nfs3_clnt_call (clntp s)
        (NFSPROC3_SYMLINK {| do_dir := dir; do_name := name |} sattr3_zero link);
  match r with
  | inr err => mret (err, new)
  | inl (Res_fail st) =>
      s ← get_sb; clnt_freeres (clntp s);; mret (hsi_nfs3_stat_to_errno st, new)
  | inl (Res_ok ok) =>
      new ← hsi_nfs3_handle_create ok;
      let '(err, new) := if IS_ERR new then (sint 32 (PTR_ERR 0), 0) else (0, new) in
      s ← get_sb; clnt_freeres (clntp s);; mret (err, new)
  end.

(** ** hsi_nfs3_link.c *)

Definition hsi_nfs3_link (inode newparent : Z) (name : string) : M world Z :=
  if NAME_MAX <? strlen name then mret ENAMETOOLONG else
  file ← hsi_nfs3_getfh3 inode;
  dir ← hsi_nfs3_getfh3 newparent;
  ok ← malloc_buf NAME_MAX;
  if negb ok then mret ENOMEM else
  (if strcpy_fits NAME_MAX name then mret tt else ub);;
  s ← inode_sb newparent;
  let clnt := clntp s in
  r ← hsi_nfs3_clnt_call clnt (NFSPROC3_LINK file {| do_dir := dir; do_name := name |});
  match r with
  | inr err => mret err
  | inl (Res_fail status) => clnt_freeres clnt;; mret (hsi_nfs3_stat_to_errno status)
  | inl (Res_ok file_attributes) =>
      let '(_, fattr) := hsi_nfs3_post2fattr file_attributes (nfs_init_fattr stack_fattr) in
      err ← (if fa_valid fattr & NFS_ATTR_FATTR =? 0
             then '(err, _) ← hsi_nfs3_getattr inode None; mret err
             else nfs_refresh_inode inode fattr);
      clnt_freeres clnt;; mret err
  end.

(** ** hsi_nfs3_unlink.c, hsi_nfs3_rmdir.c, hsi_nfs3_rename.c *)

Definition hsi_nfs3_unlink (parent : Z) (name : string) : M world Z :=
  s ← inode_sb parent;
  let clnt := clntp s in
  dir ← hsi_nfs3_getfh3 parent;
  r ← hsi_nfs3_clnt_call clnt (NFSPROC3_REMOVE {| do_dir := dir; do_name := name |});
  match r with
  | inr err => mret err
  | inl (Res_fail st) => clnt_freeres clnt;; mret (hsi_nfs3_stat_to_errno st)
  | inl (Res_ok _) => clnt_freeres clnt;; mret 0
  end.

Definition hsi_nfs3_rmdir (parent : Z) (name : string) : M world Z :=
  s ← inode_sb parent;
  dir ← hsi_nfs3_getfh3 parent;
  r ← hsi_nfs3_clnt_call (clntp s) (NFSPROC3_RMDIR {| do_dir := dir; do_name := name |});
  match r with
  | inr err => mret err
  | inl res =>
      let status := match res with Res_ok _ => 0 | Res_fail st => st end in
      s ← get_sb; clnt_freeres (clntp s);; mret (hsi_nfs3_stat_to_errno status)
  end.

Definition hsi_nfs3_rename (parent : Z) (name : string) (newparent : Z) (newname : string) :
    M world Z :=
  s ← inode_sb parent;
  let clnt := clntp s in
  from ← hsi_nfs3_getfh3 parent;
  to ← hsi_nfs3_getfh3 newparent;
  r ← hsi_nfs3_clnt_call clnt
        (NFSPROC3_RENAME {| do_dir := from; do_name := name |} {| do_dir := to; do_name := newname |});
  match r with
  | inr err => mret err
  | inl (Res_fail st) => clnt_freeres clnt;; mret (hsi_nfs3_stat_to_errno st)
  | inl (Res_ok _) => clnt_freeres clnt;; mret 0
  end.

(** ** hsi_nfs3_readlink.c *)

(** The link is [None] when [*link] stays NULL; a failed [malloc] leaves the error
    number 0, as in the source. *)
Definition hsi_nfs3_readlink (inode : Z) : M world (Z * option string) :=
  fh ← hsi_nfs3_getfh3 inode;
  s ← inode_sb inode;
  let clnt := clntp s in
  r ← hsi_nfs3_clnt_call clnt (NFSPROC3_READLINK fh);
  match r with
  | inr err => mret (err, None)
  | inl (Res_fail st) => clnt_freeres clnt;; mret (hsi_nfs3_stat_to_errno st, None)
  | inl (Res_ok data) =>
      ok ← malloc_buf (strlen data + 1);
      clnt_freeres clnt;; mret (0, if (ok : bool) then Some data else None)
  end.

(** ** hsi_nfs3_read.c and hsi_nfs3_write.c *)

Definition hsi_nfs3_read (rinfo : hsfs_rw_info) : M world (Z * hsfs_rw_info) :=
  s ← inode_sb (rw_inode rinfo);
  let clnt := clntp s in
  fh ← hsi_nfs3_getfh3 (rw_inode rinfo);
  r ← hsi_nfs3_clnt_call clnt
        (NFSPROC3_READ fh (wrap 64 (rw_off rinfo)) (wrap 32 (rw_size rinfo)));
  match r with
  | inr err => mret (err, rinfo)
  | inl (Res_fail st) => clnt_freeres clnt;; mret (hsi_nfs3_stat_to_errno st, rinfo)
  | inl (Res_ok resok) =>
      let len := Z.of_nat (length (rd_data resok)) in
      buf ← of_option (memcpy (data_val rinfo) (rd_data resok) len);
      let rinfo := rinfo <| data_val := buf |> <| data_len := len |>
                         <| ret_count := rd_count resok |> <| rw_eof := rd_eof resok |> in
      clnt_freeres clnt;; mret (0, rinfo)
  end.

Definition hsi_nfs3_write (winfo : hsfs_rw_info) : M world (Z * hsfs_rw_info) :=
  s ← inode_sb (rw_inode winfo);
  let clnt := clntp s in
  fh ← hsi_nfs3_getfh3 (rw_inode winfo);
  r ← hsi_nfs3_clnt_call clnt
        (NFSPROC3_WRITE fh (wrap 64 (rw_off winfo)) (wrap 32 (rw_size winfo)) (rw_stable winfo)
           (take (Z.to_nat (data_len winfo)) (data_val winfo)));
  match r with
  | inr err => mret (err, winfo)
  | inl (Res_fail st) => clnt_freeres clnt;; mret (hsi_nfs3_stat_to_errno st, winfo)
  | inl (Res_ok resok) =>
      clnt_freeres clnt;; mret (0, winfo <| ret_count := wr_count resok |>)
  end.

(** ** hsi_nfs3_access.c *)

Definition FULL_ACCESS : Z := 0x3f.

(** The access rights the server grants are not looked at; the results are freed
    on every path. *)
Definition hsi_nfs3_access (hi : Z) (mask : Z) : M world Z :=
  fh ← hsi_nfs3_getfh3 hi;
  s ← inode_sb hi;
  let clnt := clntp s in
  r ← hsi_nfs3_clnt_call clnt (NFSPROC3_ACCESS fh (mask & FULL_ACCESS));
  let status := match r with
                | inr err => err
                | inl (Res_ok _) => hsi_nfs3_stat_to_errno 0
                | inl (Res_fail st) => hsi_nfs3_stat_to_errno st
                end in
  clnt_freeres clnt;; mret status.

(** ** hsi_nfs3_statfs.c, hsi_nfs3_pathconf.c, hsi_nfs3_fsinfo.c *)

Definition hsi_nfs3_statfs (inode : Z) : M world Z :=
  s ← inode_sb inode;
  fh ← hsi_nfs3_getfh3 inode;
  r ← hsi_nfs3_clnt_call (clntp s) (NFSPROC3_FSSTAT fh);
  match r with
  | inr st => mret st
  | inl (Res_fail st) => s ← get_sb; clnt_freeres (clntp s);; mret (hsi_nfs3_stat_to_errno st)
  | inl (Res_ok resok) =>
      upd_sb (λ s, s <| tbytes := fs_tbytes resok |> <| fbytes := fs_fbytes resok |>
                     <| abytes := fs_abytes resok |> <| tfiles := fs_tfiles resok |>
                     <| ffiles := fs_ffiles resok |> <| afiles := fs_afiles resok |>);;
      s ← get_sb; clnt_freeres (clntp s);; mret 0
  end.

Definition hsi_nfs3_pathconf (inode : Z) : M world Z :=
  s ← inode_sb inode;
  let clnt := clntp s in
  fh ← hsi_nfs3_getfh3 inode;
  r ← hsi_nfs3_clnt_call clnt (NFSPROC3_PATHCONF fh);
  match r with
  | inr ret => mret ret
  | inl (Res_fail st) => clnt_freeres clnt;; mret (hsi_nfs3_stat_to_errno st)
  | inl (Res_ok name_max) =>
      upd_sb (λ s, s <| namlen := sint 32 name_max |>);;
      clnt_freeres clnt;; mret 0
  end.

Definition hsi_nfs3_fsinfo (fh : list Z) (fattr : nfs_fattr) : M world (Z * nfs_fattr) :=
  s ← get_sb;
  let clnt := clntp s in
  r ← hsi_nfs3_clnt_call clnt (NFSPROC3_FSINFO fh);
  match r with
  | inr ret => mret (ret, fattr)
  | inl (Res_fail st) => clnt_freeres clnt;; mret (hsi_nfs3_stat_to_errno st, fattr)
  | inl (Res_ok resok) =>
      page ← gets w_page_size;
      upd_sb (λ s, hsi_fsinfo_to_super page s resok);;
      let '(_, fattr) := hsi_nfs3_post2fattr (fi_obj_attributes resok) fattr in
      '(ret, fattr) ←
        (if fa_valid fattr & NFS_ATTR_FATTR =? 0 then
           '(ret, fattr', _) ← hsi_nfs3_do_getattr fh (Some fattr) None;
           mret (ret, default fattr fattr')
         else mret (0, fattr));
      clnt_freeres clnt;; mret (ret, fattr)
  end.

(** ** hsi_nfs3_readdir.c *)

Definition __get_cookie_verf (inode : Z) : M world Z := n ← load inode; mret (n_cookieverf n).
Definition __set_cookie_verf (inode verf : Z) : M world unit :=
  upd inode (λ n, n <| n_cookieverf := verf |>).

(** A new entry for the first 255 bytes of [name]; [None] is [ENOMEM]. *)
Definition __alloc_copy_name (name : string) : M world (option hsfs_readdir_ctx) :=
  ok ← malloc_buf 200;
  if negb ok then mret None else
  let name := String.substring 0 255 name in
  ok ← malloc_buf (strlen name + 1);
  if negb ok then mret None
  else mret (Some {| rc_off := 0; rc_name := name; rc_ino := 0; rc_inode := 0 |}).

Fixpoint __free_ctx (ctx : list hsfs_readdir_ctx) : M world unit :=
  match ctx with
  | [] => mret tt
  | c :: ctx => hsfs_iput hsi_nfs_sop (rc_inode c);; __free_ctx ctx
  end.

(** The loop over the entries of the reply; [ctx] is the list so far. *)
Fixpoint readdir_entries (entries : list entry3) (ctx : list hsfs_readdir_ctx) :
    M world (Z * list hsfs_readdir_ctx) :=
  match entries with
  | [] => mret (0, ctx)
  | e :: entries =>
      c ← __alloc_copy_name (e_name e);
      match c with
      | None => __free_ctx ctx;; mret (ENOMEM, [])
      | Some c =>
          readdir_entries entries
            (ctx ++ [c <| rc_ino := e_fileid e |> <| rc_off := sint 64 (e_cookie e) |>])
      end
  end.

Definition hsi_nfs3_readdir (parent count cookie : Z) : M world (Z * list hsfs_readdir_ctx) :=
  s ← inode_sb parent;
  let clnt := clntp s in
  verf ← __get_cookie_verf parent;
  dir ← hsi_nfs3_getfh3 parent;
  r ← hsi_nfs3_clnt_call clnt (NFSPROC3_READDIR dir cookie verf count);
  match r with
  | inr err => mret (err, [])
  | inl (Res_fail st) => clnt_freeres clnt;; mret (hsi_nfs3_stat_to_errno st, [])
  | inl (Res_ok resok) =>
      let '(_, fattr) := hsi_nfs3_post2fattr (rr_dir_attributes resok) (nfs_init_fattr stack_fattr) in
      err ← nfs_refresh_inode parent fattr;
      if negb (err =? 0) then clnt_freeres clnt;; mret (err, []) else
      __set_cookie_verf parent (rr_cookieverf resok);;
      '(err, ctx) ← readdir_entries (rr_entries resok) [];
      clnt_freeres clnt;; mret (err, ctx)
  end.

Fixpoint readdir_plus_entries (entries : list entryplus3) (ctx : list hsfs_readdir_ctx) :
    M world (Z * list hsfs_readdir_ctx) :=
  match entries with
  | [] => mret (0, ctx)
  | e :: entries =>
      c ← __alloc_copy_name (e_name (ep_entry e));
      match c with
      | None => __free_ctx ctx;; mret (ENOMEM, [])
      | Some c =>
          let c := c <| rc_off := sint 64 (e_cookie (ep_entry e)) |>
                     <| rc_ino := e_fileid (ep_entry e) |> in
          let '(_, fattr) :=
            hsi_nfs3_post2fattr (ep_name_attributes e) (nfs_init_fattr stack_fattr) in
          match ep_name_handle e with
          | None => __free_ctx (ctx ++ [c]);; mret (ENOENT, [])
          | Some h =>
              name_fh ← of_option (nfs_copy_fh3 stack_fh (Z.of_nat (length h)) h);
              new ← hsi_nfs_fhget hsi_nfs_sop name_fh fattr;
              if IS_ERR new then __free_ctx (ctx ++ [c]);; mret (sint 32 (PTR_ERR new), [])
              else readdir_plus_entries entries (ctx ++ [c <| rc_inode := new |>])
          end
      end
  end.

Definition hsi_nfs3_readdir_plus (parent count cookie maxcount : Z) :
    M world (Z * list hsfs_readdir_ctx) :=
  s ← inode_sb parent;
  let clnt := clntp s in
  verf ← __get_cookie_verf parent;
  dir ← hsi_nfs3_getfh3 parent;
  r ← hsi_nfs3_clnt_call clnt (NFSPROC3_READDIRPLUS dir cookie verf count maxcount);
  match r with
  | inr err => mret (err, [])
  | inl (Res_fail st) => clnt_freeres clnt;; mret (hsi_nfs3_stat_to_errno st, [])
  | inl (Res_ok resok) =>
      let '(_, fattr) := hsi_nfs3_post2fattr (rp_dir_attributes resok) (nfs_init_fattr stack_fattr) in
      err ← nfs_refresh_inode parent fattr;
      if negb (err =? 0) then clnt_freeres clnt;; mret (err, []) else
      __set_cookie_verf parent (rp_cookieverf resok);;
      '(err, ctx) ← readdir_plus_entries (rp_entries resok) [];
      clnt_freeres clnt;; mret (err, ctx)
  end.

(** ** The cache invariant is kept by every operation *)

Context `{!EnvOk E} (P : Z → Z) (R : list fuse_reply).

#[global] Instance nfs_sop_ok : SuperOps hsi_nfs_sop.
Proof. by apply nfs_super_ops_ok. Qed.

Lemma preserves_getfh3 a : preserves (Inv P R) (hsi_nfs3_getfh3 a).
Proof. unfold hsi_nfs3_getfh3. pres. Qed.
Lemma preserves_get_sb : preserves (Inv P R) get_sb.
Proof. by intros w. Qed.
Lemma preserves_wire_fhget len src fh fattr :
  nfs_copy_fh3 stack_fh len src = Some fh → preserves (Inv P R) (hsi_nfs_fhget hsi_nfs_sop fh fattr).
Proof.
  intros H. apply preserves_fhget; [apply _..|].
  by destruct (nfs_copy_fh3_ok _ _ _ _ stack_fh_size H) as [? _].
Qed.
Lemma preserves_ERR_PTR e : preserves (Inv P R) (ERR_PTR e).
Proof. unfold ERR_PTR. pres. Qed.

End Nfs3.

#[export] Hint Resolve preserves_getfh3 preserves_get_sb preserves_wire_fhget preserves_ERR_PTR : pres.
#[export] Hint Extern 2 (preserves (Inv _ _) (upd_sb _)) => by apply preserves_upd_sb : pres.
#[export] Hint Extern 2 (preserves (Inv _ _) (upd _ _)) =>
  apply preserves_upd; intros ?; by split : pres.
#[export] Hint Extern 2 (preserves (Inv _ _) (upd_inode _ _)) =>
  apply preserves_upd_inode; intros ?; split_and!; cbn; (done || lia) : pres.

Section Nfs3Pres.
Context {E : Env} `{!EnvOk E} (P : Z → Z) (R : list fuse_reply).

Lemma preserves_do_getattr fh fa st : preserves (Inv P R) (hsi_nfs3_do_getattr fh fa st).
Proof. unfold hsi_nfs3_do_getattr. pres. Qed.
#[local] Hint Resolve preserves_do_getattr : pres.
Lemma preserves_getattr a st : preserves (Inv P R) (hsi_nfs3_getattr a st).
Proof. unfold hsi_nfs3_getattr. pres. Qed.
Lemma preserves_setattr3 a fa attr : preserves (Inv P R) (hsi_nfs3_setattr a fa attr).
Proof. unfold hsi_nfs3_setattr. pres. Qed.
#[global] Instance nfs_sop_setattr_ok : SuperSetattr hsi_nfs_sop P R.
Proof. split. eexists. split; [done|]. apply preserves_setattr3. Qed.
Lemma preserves_sop_setattr a attr : preserves (Inv P R) (hsi_nfs_setattr hsi_nfs_sop a attr).
Proof. apply preserves_nfs_setattr, _. Qed.
#[local] Hint Resolve preserves_getattr preserves_sop_setattr : pres.
Lemma preserves_handle_create d : preserves (Inv P R) (hsi_nfs3_handle_create d).
Proof. unfold hsi_nfs3_handle_create. pres. Qed.
#[local] Hint Resolve preserves_handle_create : pres.
Lemma preserves_lookup p new name : preserves (Inv P R) (hsi_nfs3_lookup p new name).
Proof. unfold hsi_nfs3_lookup. pres. Qed.
Lemma preserves_mkdir p new name mode : preserves (Inv P R) (hsi_nfs3_mkdir p new name mode).
Proof. unfold hsi_nfs3_mkdir. pres. Qed.
Lemma preserves_create p new name mode : preserves (Inv P R) (hsi_nfs3_create p new name mode).
Proof. unfold hsi_nfs3_create. pres. Qed.
Lemma preserves_mknod p new name mode rdev : preserves (Inv P R) (hsi_nfs3_mknod p new name mode rdev).
Proof. unfold hsi_nfs3_mknod. pres. Qed.
Lemma preserves_symlink p new link name : preserves (Inv P R) (hsi_nfs3_symlink p new link name).
Proof. unfold hsi_nfs3_symlink. pres. Qed.
Lemma preserves_link a p name : preserves (Inv P R) (hsi_nfs3_link a p name).
Proof. unfold hsi_nfs3_link. pres. Qed.
Lemma preserves_unlink p name : preserves (Inv P R) (hsi_nfs3_unlink p name).
Proof. unfold hsi_nfs3_unlink. pres. Qed.
Lemma preserves_rmdir p name : preserves (Inv P R) (hsi_nfs3_rmdir p name).
Proof. unfold hsi_nfs3_rmdir. pres. Qed.
Lemma preserves_rename p name q nname : preserves (Inv P R) (hsi_nfs3_rename p name q nname).
Proof. unfold hsi_nfs3_rename. pres. Qed.
Lemma preserves_readlink a : preserves (Inv P R) (hsi_nfs3_readlink a).
Proof. unfold hsi_nfs3_readlink. pres. Qed.
Lemma preserves_read r : preserves (Inv P R) (hsi_nfs3_read r).
Proof. unfold hsi_nfs3_read. pres. Qed.
Lemma preserves_write r : preserves (Inv P R) (hsi_nfs3_write r).
Proof. unfold hsi_nfs3_write. pres. Qed.
Lemma preserves_access a m : preserves (Inv P R) (hsi_nfs3_access a m).
Proof. unfold hsi_nfs3_access. pres. Qed.
Lemma preserves_statfs a : preserves (Inv P R) (hsi_nfs3_statfs a).
Proof. unfold hsi_nfs3_statfs. pres. Qed.
Lemma preserves_pathconf a : preserves (Inv P R) (hsi_nfs3_pathconf a).
Proof. unfold hsi_nfs3_pathconf. pres. Qed.
Lemma preserves_fsinfo fh fa : preserves (Inv P R) (hsi_nfs3_fsinfo fh fa).
Proof. unfold hsi_nfs3_fsinfo. pres. Qed.

Lemma preserves_free_ctx ctx : preserves (Inv P R) (__free_ctx ctx).
Proof. induction ctx; cbn [__free_ctx]; pres. Qed.
Lemma preserves_alloc_name name : preserves (Inv P R) (__alloc_copy_name name).
Proof. unfold __alloc_copy_name. pres. Qed.
#[local] Hint Resolve preserves_free_ctx preserves_alloc_name : pres.
Lemma preserves_readdir_entries es : ∀ ctx, preserves (Inv P R) (readdir_entries es ctx).
Proof. induction es; intros ctx; cbn [readdir_entries]; pres. Qed.
Lemma preserves_readdir_plus_entries es : ∀ ctx, preserves (Inv P R) (readdir_plus_entries es ctx).
Proof. induction es; intros ctx; cbn [readdir_plus_entries]; pres. Qed.
#[local] Hint Resolve preserves_readdir_entries preserves_readdir_plus_entries : pres.
Lemma preserves_readdir p c k : preserves (Inv P R) (hsi_nfs3_readdir p c k).
Proof. unfold hsi_nfs3_readdir, __get_cookie_verf, __set_cookie_verf. pres. Qed.
Lemma preserves_readdir_plus p c k m : preserves (Inv P R) (hsi_nfs3_readdir_plus p c k m).
Proof. unfold hsi_nfs3_readdir_plus, __get_cookie_verf, __set_cookie_verf. pres. Qed.

End Nfs3Pres.

#[export] Hint Resolve preserves_do_getattr preserves_getattr preserves_sop_setattr
  preserves_lookup preserves_mkdir preserves_create preserves_mknod preserves_symlink
  preserves_link preserves_unlink preserves_rmdir preserves_rename preserves_readlink
  preserves_read preserves_write preserves_access preserves_statfs preserves_pathconf
  preserves_fsinfo preserves_readdir preserves_readdir_plus : pres.
