(* ===== verification/Acl.v ===== *)
(** * Access control lists

    [nfs3/hsi_acl3.c] (ACLs in memory and as extended attributes),
    [nfs3/hsi_nfs3_getxattr.c] and [nfs3/hsi_nfs3_setxattr.c].  An ACL in memory is
    the list of its entries; its count is their number.  An extended attribute is a
    list of bytes; the code copies its fields without conversion, which on a
    little-endian machine is the little-endian format it is defined in. *)

From S2P Require Import Prelude Bitops Hash HList Types ErrPtr Icache NfsInode Rpc Nfs3.

Definition POSIX_ACL_XATTR_ACCESS : string := "system.posix_acl_access".
Definition POSIX_ACL_XATTR_DEFAULT : string := "system.posix_acl_default".
Definition POSIX_ACL_XATTR_VERSION : Z := 2.
(** -1 in an [unsigned int]. *)
Definition ACL_UNDEFINED_ID : Z := 2 ^ 32 - 1.
Definition ACL_TYPE_ACCESS : Z := 0x8000.
Definition ACL_TYPE_DEFAULT : Z := 0x4000.
Definition ACL_USER_OBJ : Z := 1.
Definition ACL_USER : Z := 2.
Definition ACL_GROUP_OBJ : Z := 4.
Definition ACL_GROUP : Z := 8.
Definition ACL_MASK : Z := 16.
Definition ACL_OTHER : Z := 32.
Definition NFS_ACL : Z := 1.
Definition NFS_DFACL : Z := 4.
Definition NA_ACL : Z := 1.
Definition NA_ACLCNT : Z := 2.
Definition NA_DFACL : Z := 4.
Definition NA_DFACLCNT : Z := 8.
Definition NA_ACL_DEFAULT : Z := 0x1000.
Definition S_IRWXU : Z := 0x1c0.
Definition S_IRWXG : Z := 0x38.
Definition S_IRWXO : Z := 0x7.

(** A [short], an [unsigned short] and an [unsigned int]. *)
Record posix_acl_entry := { e_tag : Z; e_perm : Z; e_id : Z }.
#[global] Instance posix_acl_entry_eq_dec : EqDecision posix_acl_entry.
Proof. solve_decision. Defined.
Definition posix_acl := list posix_acl_entry.

(** ** hsi_acl3.c *)

Definition le16 (x : Z) : list Z := [x mod 256; x / 256 mod 256].
Definition le32 (x : Z) : list Z := [x mod 256; x / 2 ^ 8 mod 256; x / 2 ^ 16 mod 256; x / 2 ^ 24 mod 256].
Definition un_le16 (b0 b1 : Z) : Z := b0 + 2 ^ 8 * b1.
Definition un_le32 (b0 b1 b2 b3 : Z) : Z := b0 + 2 ^ 8 * b1 + 2 ^ 16 * b2 + 2 ^ 24 * b3.

Definition posix_acl_xattr_size (count : nat) : Z := 4 + 8 * Z.of_nat count.
Definition xattr_entry (e : posix_acl_entry) : list Z :=
  le16 (wrap 16 (e_tag e)) ++ le16 (e_perm e) ++ le32 (e_id e).
Definition xattr_bytes (acl : posix_acl) : list Z :=
  le32 POSIX_ACL_XATTR_VERSION ++ (acl ≫= xattr_entry).

(** The value returned and the buffer after the stores; [None] for stores beyond
    the buffer, when the size of the attribute leaves 32 bits. *)
Definition posix_acl_to_xattr (acl : posix_acl) (buffer : option (list Z)) (size : Z) :
    option (Z * list Z) :=
  let real_size := wrap 32 (posix_acl_xattr_size (length acl)) in
  match buffer with
  | None => Some (sint 32 real_size, [])
  | Some b =>
      if size <? real_size then Some (ERANGE, b)
      else if (length b <? length (xattr_bytes acl))%nat then None
      else Some (sint 32 real_size, xattr_bytes acl ++ drop (length (xattr_bytes acl)) b)
  end.

(** The loop over [n] entries; [None] at the label [fail].  The caller has checked
    that the bytes are there. *)
Fixpoint xattr_entries (n : nat) (b : list Z) : option posix_acl :=
  match n, b with
  | O, _ => Some []
  | S n, t0 :: t1 :: p0 :: p1 :: i0 :: i1 :: i2 :: i3 :: b =>
      let tag := sint 16 (un_le16 t0 t1) in
      let e id := {| e_tag := tag; e_perm := un_le16 p0 p1; e_id := id |} in
      e ← (if (tag =? ACL_USER_OBJ) || (tag =? ACL_GROUP_OBJ) || (tag =? ACL_MASK) || (tag =? ACL_OTHER)
           then Some (e ACL_UNDEFINED_ID)
           else if (tag =? ACL_USER) || (tag =? ACL_GROUP) then Some (e (un_le32 i0 i1 i2 i3))
           else None);
      acl ← xattr_entries n b; Some (e :: acl)
  | S _, _ => None
  end.

Section Acl.
Context {E : Env}.

(** The memory for [count] entries. *)
Definition posix_acl_alloc (count : Z) : M world bool := malloc_buf (wrap 64 (8 + 8 * count)).

(** [None] is NULL. *)
Definition posix_acl_from_xattr (value : list Z) : M world (option posix_acl) :=
  let size := Z.of_nat (length value) in
  match value with
  | v0 :: v1 :: v2 :: v3 :: entries =>
      if negb (un_le32 v0 v1 v2 v3 =? POSIX_ACL_XATTR_VERSION) then mret None else
      if negb ((size - 4) mod 8 =? 0) then mret None else
      let count := sint 32 ((size - 4) / 8) in
      if count <=? 0 then mret None else
      ok ← posix_acl_alloc count;
      if negb ok then mret None else mret (xattr_entries (Z.to_nat count) entries)
  | _ => mret None
  end.

Definition posix_acl_from_mode (mode : Z) : M world (option posix_acl) :=
  ok ← posix_acl_alloc 3;
  if negb ok then mret None else
  let e tag perm := {| e_tag := tag; e_perm := perm; e_id := ACL_UNDEFINED_ID |} in
  mret (Some [e ACL_USER_OBJ ((mode & S_IRWXU) >> 6); e ACL_GROUP_OBJ ((mode & S_IRWXG) >> 3);
              e ACL_OTHER (mode & S_IRWXO)]).

(** ** hsi_nfs3_getxattr.c *)

(** [mask] is applied to the type of a default entry. *)
Definition acl_of_wire (clear : Z) (l : list aclent) : posix_acl :=
  (λ a, {| e_tag := sint 16 (bclear (ae_type a) clear); e_perm := ae_perm a;
           e_id := wrap 32 (ae_id a) |}) <$> l.

(** The error and the ACL [*pval] is set to. *)
Definition hsi_nfs3_getxattr (inode mask type : Z) : M world (Z * option posix_acl) :=
  fh ← hsi_nfs3_getfh3 inode;
  s ← inode_sb inode;
  let clnt := acl_clntp s in
  if clnt =? 0 then mret (EOPNOTSUPP, None) else
  r ← hsi_nfs3_clnt_call clnt (ACLPROC3_GETACL fh mask);
  match r with
  | inr err => mret (err, None)
  | inl (Res_fail st) => clnt_freeres clnt;; mret (hsi_nfs3_stat_to_errno st, None)
  | inl (Res_ok acl) =>
      let val := if type =? ACL_TYPE_ACCESS then acl_of_wire 0 (sc_aclent acl)
                 else if type =? ACL_TYPE_DEFAULT then acl_of_wire NA_ACL_DEFAULT (sc_dfaclent acl)
                 else [] in
      ok ← posix_acl_alloc (Z.of_nat (length val));
      if negb ok then s ← inode_sb inode; clnt_freeres (clntp s);; mret (ENOMEM, None)
      else clnt_freeres clnt;; mret (0, Some val)
  end.

(** ** hsi_nfs3_setxattr.c *)

(** An array of the wire: [calloc] and the loop that fills it. *)
Definition wire_of_acl (acl : posix_acl) : list aclent :=
  (λ e, {| ae_type := e_tag e; ae_id := sint 32 (e_id e); ae_perm := e_perm e |}) <$> acl.
Definition wire_array (acl : posix_acl) : M world (list aclent) :=
  ok ← malloc_buf (12 * Z.of_nat (length acl));
  if negb ok && negb (bool_decide (acl = [])) then ub else mret (wire_of_acl acl).

(** The access and the default ACL to send; [None] at the label [fail]. *)
Definition choose_acls (inode type mask : Z) (dir : bool) (acl : option posix_acl) :
    M world (option (option posix_acl * option posix_acl)) :=
  if dir then
    if type =? ACL_TYPE_ACCESS then
      '(err, dfacl) ← hsi_nfs3_getxattr inode mask type;
      mret (if negb (err =? 0) then None else Some (acl, dfacl))
    else if type =? ACL_TYPE_DEFAULT then
      '(err, old) ← hsi_nfs3_getxattr inode mask type;
      mret (if negb (err =? 0) then None else Some (old, acl))
    else mret None
  else if type =? ACL_TYPE_ACCESS then mret (Some (acl, None)) else mret None.

(** At the label [fail] the error is still 0 unless the call itself failed. *)
Definition hsi_nfs3_setxattr (inode : Z) (value : list Z) (type : Z) : M world Z :=
  s ← inode_sb inode;
  let clnt := acl_clntp s in
  if clnt =? 0 then mret EOPNOTSUPP else
  i ← get_inode inode;
  let dir := S_ISDIR (ia_mode (i_iattr i)) in
  let mask := Z.lor (if type =? ACL_TYPE_ACCESS then Z.lor NA_ACLCNT NA_ACL else 0)
                    (if dir then Z.lor NA_DFACLCNT NA_DFACL else 0) in
  acl ← posix_acl_from_xattr value;
  fh ← hsi_nfs3_getfh3 inode;
  chosen ← choose_acls inode type mask dir acl;
  match chosen with
  | None => mret 0
  | Some (acl, dfacl) =>
      acl ← (match acl with
             | Some acl => mret (Some acl)
             | None => i ← get_inode inode; posix_acl_from_mode (ia_mode (i_iattr i))
             end);
      match acl with
      | None => mret 0
      | Some acl =>
          ents ← wire_array acl;
          dfents ← (match dfacl with Some dfacl => wire_array dfacl | None => mret [] end);
          r ← hsi_nfs3_clnt_call clnt (ACLPROC3_SETACL fh {|
                sc_mask := Z.lor NFS_ACL (if dir then NFS_DFACL else 0);
                sc_aclcnt := Z.of_nat (length ents); sc_aclent := ents;
                sc_dfaclcnt := Z.of_nat (length dfents); sc_dfaclent := dfents |});
          match r with
          | inr error => mret error
          | inl res =>
              let error := hsi_nfs3_stat_to_errno (match res with Res_ok _ => 0 | Res_fail st => st end) in
              clnt_freeres clnt;; mret error
          end
      end
  end.

(** ** Lemmas *)

Lemma preserves_getxattr P R a mask type : preserves (Inv P R) (hsi_nfs3_getxattr a mask type).
Proof. unfold hsi_nfs3_getxattr, posix_acl_alloc. pres. Qed.
#[local] Hint Resolve preserves_getxattr : pres.
Lemma preserves_choose_acls P R a type mask dir acl :
  preserves (Inv P R) (choose_acls a type mask dir acl).
Proof. unfold choose_acls. pres. Qed.
#[local] Hint Resolve preserves_choose_acls : pres.
Lemma preserves_setxattr P R a value type : preserves (Inv P R) (hsi_nfs3_setxattr a value type).
Proof.
  unfold hsi_nfs3_setxattr, posix_acl_from_xattr, posix_acl_from_mode, wire_array, posix_acl_alloc. pres.
Qed.
End Acl.
#[export] Hint Resolve preserves_getxattr preserves_setxattr : pres.
