(* ===== verification/Fuse.v ===== *)
(** * The FUSE handlers

    One definition per function of [fuse/hsx_fuse_*.c]: each finds the inodes of
    its request, calls the NFSv3 operation and replies.  [fuse_req_userdata] is
    the super block given to [fuse_session_new], so the handlers' tests for a NULL
    super block never succeed and are left out; the handlers run one at a time
    (the single-threaded session loop). *)

From S2P Require Import Prelude Bitops Hash HList Types ErrPtr Icache NfsInode Rpc Nfs3 Acl.

Definition FUSE_SET_ATTR_MODE : Z := 2 ^ 0.
Definition FUSE_SET_ATTR_UID : Z := 2 ^ 1.
Definition FUSE_SET_ATTR_GID : Z := 2 ^ 2.
Definition FUSE_SET_ATTR_SIZE : Z := 2 ^ 3.
Definition FUSE_SET_ATTR_ATIME : Z := 2 ^ 4.
Definition FUSE_SET_ATTR_MTIME : Z := 2 ^ 5.
Definition FUSE_SET_ATTR_ATIME_NOW : Z := 2 ^ 7.
Definition FUSE_SET_ATTR_MTIME_NOW : Z := 2 ^ 8.
Definition R_OK : Z := 4.
Definition W_OK : Z := 2.
Definition X_OK : Z := 1.
Definition O_EXCL : Z := 0x80.
Definition O_TRUNC : Z := 0x200.
Definition HSFS_FILE_SYNC : Z := 2.
Definition HSFS_UNSTABLE : Z := 0.

(** ** hsx_fuse_stat2iattr.c *)

Definition hsx_fuse_stat2iattr (st : stat) (to_set : Z) (attr : hsfs_iattr) : hsfs_iattr :=
  let or m (a : hsfs_iattr) := a <| ia_valid ::= λ v, Z.lor v m |> in
  let attr := attr <| ia_valid := 0 |> in
  let attr := if flag to_set FUSE_SET_ATTR_MODE
              then (or HSFS_ATTR_MODE attr) <| ia_mode := bclear (st_mode st) S_IFMT |> else attr in
  let attr := if flag to_set FUSE_SET_ATTR_UID
              then (or HSFS_ATTR_UID attr) <| ia_uid := st_uid st |> else attr in
  let attr := if flag to_set FUSE_SET_ATTR_GID
              then (or HSFS_ATTR_GID attr) <| ia_gid := st_gid st |> else attr in
  let attr := if flag to_set FUSE_SET_ATTR_SIZE
              then (or HSFS_ATTR_SIZE attr) <| ia_size := st_size st |> else attr in
  let attr := if flag to_set FUSE_SET_ATTR_ATIME then
                let attr := or HSFS_ATTR_ATIME (attr <| ia_atime := st_atim st |>) in
                if flag to_set FUSE_SET_ATTR_ATIME_NOW then attr else or HSFS_ATTR_ATIME_SET attr
              else attr in
  if flag to_set FUSE_SET_ATTR_MTIME then
    let attr := or HSFS_ATTR_MTIME (attr <| ia_mtime := st_mtim st |>) in
    if flag to_set FUSE_SET_ATTR_MTIME_NOW then attr else or HSFS_ATTR_MTIME_SET attr
  else attr.

(** ** hsx_fuse_statfs.c: [hsi_super2statvfs] *)

(** [None] is the return value 1; [f_fsid] and the like as the source sets them. *)
Definition hsi_super2statvfs (sp : hsfs_super) : option statvfs :=
  if bsize_bits sp =? 0 then None else
  let block_bits := bsize_bits sp in
  let block_res := wrap 64 (int_bit (Z.to_nat block_bits) - 1) in
  if bsize sp =? 0 then None else
  let blocks x := wrap 64 (x + block_res) >> block_bits in
  if namlen sp =? 0 then None else
  Some {| f_bsize := bsize sp; f_frsize := bsize sp; f_blocks := blocks (tbytes sp);
          f_bfree := blocks (fbytes sp); f_bavail := blocks (abytes sp); f_files := tfiles sp;
          f_ffree := ffiles sp; f_favail := afiles sp; f_fsid := 0;
          f_flag := wrap 64 (sb_flags sp); f_namemax := wrap 64 (namlen sp) |}.

Definition zero_stat : stat := {|
  st_dev := 0; st_ino := 0; st_mode := 0; st_nlink := 0; st_uid := 0; st_gid := 0; st_rdev := 0;
  st_size := 0; st_blksize := 0; st_blocks := 0;
  st_atim := zero_time; st_mtim := zero_time; st_ctim := zero_time |}.

Section Fuse.
Context {E : Env}.

(** ** hsx_fuse.h: the lookup count *)

Definition hsx_fuse_ref_xchg (inode val : Z) : M world Z :=
  i ← get_inode inode;
  upd_inode inode (λ i, i <| i_private := val |>);;
  mret (i_private i).
Definition hsx_fuse_ref_inc (inode val : Z) : M world Z :=
  upd_inode inode (λ i, i <| i_private ::= λ p, wrap 64 (p + val) |>);;
  i ← get_inode inode; mret (i_private i).
Definition hsx_fuse_ref_dec (inode val : Z) : M world Z :=
  i ← get_inode inode;
  c_assert (val <=? i_private i);;
  upd_inode inode (λ i, i <| i_private ::= λ p, wrap 64 (p - val) |>);;
  i ← get_inode inode; mret (i_private i).

(** ** hsx_fuse_fill_reply.c *)

(** [st] is what the entry's [attr] held before. *)
Definition hsx_fuse_fill_reply (inode : Z) (st : stat) : M world fuse_entry_param :=
  st ← hsfs_generic_fillattr inode st;
  i ← get_inode inode;
  s ← inode_sb inode;
  mret {| fe_ino := i_ino i; fe_generation := 0; fe_attr := st;
          fe_attr_timeout := acdirmin s; fe_entry_timeout := acregmin s |}.

(** ** hsx_fuse_lookup.c, hsx_fuse_forget.c, hsx_fuse_getattr.c *)

Definition hsx_fuse_lookup (ino : Z) (name : string) : M world unit :=
  parent ← hsfs_ilookup ino;
  if parent =? 0 then reply (reply_err ENOENT) else
  '(err, child) ← hsi_nfs3_lookup parent 0 name;
  if negb (err =? 0) then reply (reply_err err) else
  if child =? 0 then reply (reply_err ENOMEM) else
  _ ← hsx_fuse_ref_inc child 1;
  e ← hsx_fuse_fill_reply child stack_stat;
  reply (reply_entry e).

Definition hsx_fuse_forget (ino nlookup : Z) : M world unit :=
  inode ← hsfs_ilookup ino;
  c_assert (negb (inode =? 0));;
  ilookup ← hsx_fuse_ref_dec inode nlookup;
  (if ilookup =? 0 then hsfs_iput hsi_nfs_sop inode else mret tt);;
  reply reply_none.

(** The attribute timeout of an inode. *)
Definition attr_timeout (inode : Z) : M world Z :=
  i ← get_inode inode; s ← get_sb;
  mret (if S_ISDIR (ia_mode (i_iattr i)) then acdirmin s else acregmin s).

Definition hsx_fuse_getattr (ino : Z) : M world unit :=
  inode ← hsfs_ilookup ino;
  if inode =? 0 then reply (reply_err ENOENT) else
  '(err, st) ← hsi_nfs3_getattr inode (Some zero_stat);
  if negb (err =? 0) then reply (reply_err err) else
  to ← attr_timeout inode;
  reply (reply_attr (default zero_stat st) to).

Definition hsx_fuse_setattr (ino : Z) (attr : stat) (to_set : Z) : M world unit :=
  inode ← hsfs_ilookup ino;
  if inode =? 0 then reply (reply_err ENOENT) else
  let sattr := hsx_fuse_stat2iattr attr to_set stack_iattr in
  err ← hsfs_ll_setattr hsi_nfs_sop inode sattr;
  if negb (err =? 0) then reply (reply_err err) else
  st ← hsfs_generic_fillattr inode stack_stat;
  to ← attr_timeout inode;
  reply (reply_attr st to).

(** ** hsx_fuse_mkdir.c, hsx_fuse_mknod.c, hsx_fuse_symlink.c, hsx_fuse_create.c *)

(** The common end: a new entry has lookup count 1. *)
Definition reply_new (new : Z) (st : stat) (r : fuse_entry_param → fuse_reply) : M world unit :=
  ref ← hsx_fuse_ref_xchg new 1;
  c_assert (ref =? 0);;
  e ← hsx_fuse_fill_reply new st;
  reply (r e).

(** No reply when the parent is unknown. *)
Definition hsx_fuse_mkdir (parent : Z) (name : string) (mode : Z) : M world unit :=
  hi_parent ← hsfs_ilookup parent;
  if hi_parent =? 0 then mret tt else
  '(err, new) ← hsi_nfs3_mkdir hi_parent 0 name mode;
  if negb (err =? 0) then reply (reply_err err) else
  if new =? 0 then reply (reply_err ENOMEM) else
  reply_new new zero_stat reply_entry.

Definition hsx_fuse_mknod (parent : Z) (name : string) (mode rdev : Z) : M world unit :=
  parentp ← hsfs_ilookup parent;
  if parentp =? 0 then reply (reply_err ENOENT) else
  '(err, newinode) ← hsi_nfs3_mknod parentp 0 name mode rdev;
  if negb (err =? 0) then reply (reply_err err) else
  if newinode =? 0 then reply (reply_err ENOMEM) else
  reply_new newinode stack_stat reply_entry.

Definition hsx_fuse_symlink (link : string) (parent : Z) (name : string) : M world unit :=
  nfs_parent ← hsfs_ilookup parent;
  if nfs_parent =? 0 then reply (reply_err ENOENT) else
  '(err, new) ← hsi_nfs3_symlink nfs_parent 0 link name;
  if negb (err =? 0) then reply (reply_err err) else
  if new =? 0 then reply (reply_err ENOMEM) else
  reply_new new stack_stat reply_entry.

(** [uid] and [gid] are the caller's, from [fuse_req_ctx]; no reply when the
    parent is unknown. *)
Definition hsx_fuse_create (parent : Z) (name : string) (mode uid gid : Z)
    (fi : fuse_file_info) : M world unit :=
  hi ← hsfs_ilookup parent;
  if hi =? 0 then mret tt else
  upd_inode hi (λ i, i <| i_iattr ::= λ ia, ia <| ia_uid := uid |> <| ia_gid := gid |> |>);;
  let mymode := Z.lor (Z.lor (mode & 7) (mode & 0x38)) (mode & 0x1c0) in
  let mymode := if flag (fi_flags fi) O_EXCL then Z.lor mymode (2 << 16)
                else if flag (fi_flags fi) O_TRUNC then Z.lor mymode (1 << 16) else mymode in
  '(err, newhi) ← hsi_nfs3_create hi 0 name mymode;
  if negb (err =? 0) then reply (reply_err err) else
  if newhi =? 0 then reply (reply_err ENOMEM) else
  reply_new newhi stack_stat (λ e, reply_create e fi).

(** ** hsx_fuse_link.c, hsx_fuse_unlink.c, hsx_fuse_rmdir.c, hsx_fuse_rename.c *)

(** The entry is returned without counting the lookup; no reply when an inode is
    unknown. *)
Definition hsx_fuse_link (ino newparent : Z) (newname : string) : M world unit :=
  parent ← hsfs_ilookup newparent;
  if parent =? 0 then mret tt else
  inop ← hsfs_ilookup ino;
  if inop =? 0 then mret tt else
  err ← hsi_nfs3_link inop parent newname;
  if negb (err =? 0) then reply (reply_err err) else
  ok ← malloc_buf 176;
  if negb ok then reply (reply_err ENOMEM) else
  e ← hsx_fuse_fill_reply inop stack_stat;
  reply (reply_entry e).

Definition hsx_fuse_unlink (parent : Z) (name : string) : M world unit :=
  if bool_decide (name = EmptyString) then reply (reply_err EINVAL) else
  if NAME_MAX <? strlen name then reply (reply_err ENAMETOOLONG) else
  hi ← hsfs_ilookup parent;
  if hi =? 0 then reply (reply_err ENOENT) else
  err ← hsi_nfs3_unlink hi name;
  reply (reply_err err).

(** No reply when the parent is unknown. *)
Definition hsx_fuse_rmdir (parent : Z) (name : string) : M world unit :=
  hi_parent ← hsfs_ilookup parent;
  if hi_parent =? 0 then mret tt else
  err ← hsi_nfs3_rmdir hi_parent name;
  reply (reply_err err).

Definition hsx_fuse_rename (parent : Z) (name : string) (newparent : Z) (newname : string)
    (flags : Z) : M world unit :=
  if negb (flags =? 0) then reply (reply_err EINVAL) else
  if bool_decide (name = EmptyString) then reply (reply_err EINVAL) else
  if bool_decide (newname = EmptyString) then reply (reply_err EINVAL) else
  if NAME_MAX <? strlen name then reply (reply_err ENAMETOOLONG) else
  if NAME_MAX <? strlen newname then reply (reply_err ENAMETOOLONG) else
  hi ← hsfs_ilookup parent;
  if hi =? 0 then reply (reply_err ENOENT) else
  newhi ← hsfs_ilookup newparent;
  if newhi =? 0 then reply (reply_err ENOENT) else
  err ← hsi_nfs3_rename hi name newhi newname;
  reply (reply_err err).

(** ** hsx_fuse_open.c, hsx_fuse_opendir.c, hsx_fuse_release.c *)

Definition FI_FH_LEN : Z := 10.

(** The handle is the address of a small buffer; the inode is not looked at. *)
Definition hsx_fuse_open (ino : Z) (fi : fuse_file_info) : M world unit :=
  h ← gets w_heap;
  r ← ext (env_malloc FI_FH_LEN (dom h));
  match r with
  | None => reply (reply_err ENOMEM)
  | Some fh => reply (reply_open (fi <| fi_fh := fh |>))
  end.

Definition hsx_fuse_opendir (ino : Z) (fi : fuse_file_info) : M world unit :=
  parent ← hsfs_ilookup ino;
  if parent =? 0 then reply (reply_err ENOENT) else reply (reply_open fi).

(** [free(fi->fh)] has no effect on the state modelled here. *)
Definition hsx_fuse_release (ino : Z) (fi : fuse_file_info) : M world unit :=
  reply (reply_err 0).

(** ** hsx_fuse_readlink.c *)

(** [fuse_reply_readlink(req, NULL)] reads through NULL; no reply when the inode is
    unknown. *)
Definition hsx_fuse_readlink (ino : Z) : M world unit :=
  hi ← hsfs_ilookup ino;
  if hi =? 0 then mret tt else
  '(st, link) ← hsi_nfs3_readlink hi;
  if negb (st =? 0) then reply (reply_err st) else
  match link with Some l => reply (reply_readlink l) | None => ub end.

(** ** hsx_fuse_read.c and hsx_fuse_write.c *)

(** The loop of [hsx_fuse_read]: [buf] is the reply buffer, [cnt] the bytes counted
    so far.  The error number, or the buffer and the count.  Each round should
    bring data or the end of the file; [fuel] bounds the rounds. *)
Fixpoint read_loop (fuel : nat) (inode size off : Z) (buf : list Z) (cnt : Z) :
    M world (list Z * Z + Z) :=
  if cnt <? size then
    match fuel with
    | O => out_of_fuel
    | S fuel =>
        s ← get_sb;
        let tmp_size := Z.min (size - cnt) (rsize s) in
        '(err, rinfo) ← hsi_nfs3_read
          {| rw_inode := inode; rw_size := tmp_size; rw_off := off + cnt; ret_count := 0;
             rw_eof := 0; rw_stable := 0; data_len := tmp_size;
             data_val := drop (Z.to_nat cnt) buf |};
        if negb (err =? 0) then mret (inr err) else
        let buf := take (Z.to_nat cnt) buf ++ data_val rinfo in
        let cnt := cnt + ret_count rinfo in
        if negb (rw_eof rinfo =? 0) then mret (inl (buf, cnt))
        else read_loop fuel inode size off buf cnt
    end
  else mret (inl (buf, cnt)).

Definition hsx_fuse_read (fuel : nat) (ino size off : Z) : M world unit :=
  ok ← malloc_buf size;
  if negb ok then reply (reply_err ENOMEM) else
  inode ← hsfs_ilookup ino;
  if inode =? 0 then reply (reply_err ENOENT) else
  r ← read_loop fuel inode size off (replicate (Z.to_nat size) heap_byte) 0;
  match r with
  | inr err => reply (reply_err err)
  | inl (buf, cnt) =>
      if cnt <=? Z.of_nat (length buf) then reply (reply_buf (take (Z.to_nat cnt) buf)) else ub
  end.

Fixpoint write_loop (fuel : nat) (inode : Z) (buf : list Z) (size off stable cnt : Z) :
    M world (Z + Z) :=
  if cnt <? size then
    match fuel with
    | O => out_of_fuel
    | S fuel =>
        s ← get_sb;
        let tmp_size := Z.min (size - cnt) (wsize s) in
        '(err, winfo) ← hsi_nfs3_write
          {| rw_inode := inode; rw_size := tmp_size; rw_off := off + cnt; ret_count := 0;
             rw_eof := 0; rw_stable := stable; data_len := tmp_size;
             data_val := take (Z.to_nat tmp_size) (drop (Z.to_nat cnt) buf) |};
        if negb (err =? 0) then mret (inr err) else
        write_loop fuel inode buf size off stable (cnt + ret_count winfo)
    end
  else mret (inl cnt).

Definition hsx_fuse_write (fuel : nat) (ino : Z) (buf : list Z) (size off : Z)
    (fi : fuse_file_info) : M world unit :=
  s ← get_sb;
  ok ← malloc_buf (wsize s);
  if negb ok then reply (reply_err ENOMEM) else
  let stable := if fi_direct_io fi then HSFS_FILE_SYNC else HSFS_UNSTABLE in
  inode ← hsfs_ilookup ino;
  if inode =? 0 then reply (reply_err ENOENT) else
  r ← write_loop fuel inode buf size off stable 0;
  match r with
  | inr err => reply (reply_err err)
  | inl cnt => reply (reply_write cnt)
  end.

(** ** hsx_fuse_access.c *)

(** ACCESS3_READ .. ACCESS3_EXECUTE are the bits 0 .. 5. *)
Definition access_mode (dir : bool) (mask : Z) : Z :=
  let mode := if flag mask R_OK then 1 else 0 in
  if dir then
    let mode := if flag mask W_OK then Z.lor mode (Z.lor (Z.lor 4 8) 16) else mode in
    if flag mask X_OK then Z.lor mode 2 else mode
  else
    let mode := if flag mask W_OK then Z.lor mode (Z.lor 4 8) else mode in
    if flag mask X_OK then Z.lor mode 32 else mode.

(** No reply when the inode is unknown. *)
Definition hsx_fuse_access (ino mask : Z) : M world unit :=
  hi ← hsfs_ilookup ino;
  if hi =? 0 then mret tt else
  i ← get_inode hi;
  err ← hsi_nfs3_access hi (access_mode (S_ISDIR (ia_mode (i_iattr i))) mask);
  reply (reply_err err).

(** ** hsx_fuse_statfs.c *)

Definition hsx_fuse_statfs (ino : Z) : M world unit :=
  s ← get_sb;
  let root := sb_root s in
  _ ← inode_sb root;
  err ← hsi_nfs3_statfs root;
  if negb (err =? 0) then reply (reply_err err) else
  sp ← get_sb;
  match hsi_super2statvfs sp with
  | None => reply (reply_err EINVAL)
  | Some stbuf => reply (reply_statfs stbuf)
  end.

(** ** hsx_fuse_readdir.c *)

(** The entries from [free_inode_after] on give their inode back. *)
Fixpoint free_inodes (ctx : list hsfs_readdir_ctx) : M world unit :=
  match ctx with
  | [] => mret tt
  | c :: ctx =>
      (if rc_inode c =? 0 then mret tt else
       r ← hsx_fuse_ref_dec (rc_inode c) 1;
       if r =? 0 then hsfs_iput hsi_nfs_sop (rc_inode c) else mret tt);;
      free_inodes ctx
  end.
Definition fuse_free_ctx (ctx : list hsfs_readdir_ctx) (free_inode_after : option nat) :
    M world unit :=
  match free_inode_after with
  | None => mret tt
  | Some k => free_inodes (drop k ctx)
  end.

(** The loop that fills the reply: entries and length so far.  An entry that fills
    the buffer to the last byte is not counted. *)
Fixpoint plus_loop (ctx : list hsfs_readdir_ctx) (size : Z) (out : list dirent) (len : Z) :
    M world (list dirent * Z) :=
  match ctx with
  | [] => mret (out, len)
  | c :: ctx =>
      e ← hsx_fuse_fill_reply (rc_inode c) stack_stat;
      let res := direntry_plus_size (rc_name c) in
      if size - len <=? res then mret (out, len) else
      _ ← hsx_fuse_ref_inc (rc_inode c) 1;
      plus_loop ctx size (out ++ [DirentPlus (rc_name c) e (rc_off c)]) (len + res)
  end.

Definition hsx_fuse_readdir_plus (ino size off : Z) : M world unit :=
  parent ← hsfs_ilookup ino;
  c_assert (negb (parent =? 0));;
  '(err, ctx) ← hsi_nfs3_readdir_plus parent (wrap 32 size) (wrap 64 off) (wrap 32 size);
  if negb (err =? 0) then reply (reply_err err) else
  ok ← malloc_buf size;
  if negb ok then fuse_free_ctx ctx None;; reply (reply_err ENOMEM) else
  '(out, len) ← plus_loop ctx size [] 0;
  reply (reply_dirbuf out len);;
  fuse_free_ctx ctx None.

Fixpoint dir_loop (ctx : list hsfs_readdir_ctx) (size : Z) (out : list dirent) (len : Z) :
    list dirent * Z :=
  match ctx with
  | [] => (out, len)
  | c :: ctx =>
      let res := direntry_size (rc_name c) in
      if size - len <=? res then (out, len)
      else dir_loop ctx size (out ++ [Dirent (rc_name c) (rc_ino c) (rc_off c)]) (len + res)
  end.

Definition hsx_fuse_readdir (ino size off : Z) : M world unit :=
  parent ← hsfs_ilookup ino;
  c_assert (negb (parent =? 0));;
  '(err, ctx) ← hsi_nfs3_readdir parent (wrap 32 size) (wrap 64 off);
  if negb (err =? 0) then reply (reply_err err) else
  ok ← malloc_buf size;
  if negb ok then fuse_free_ctx ctx None;; reply (reply_err ENOMEM) else
  let '(out, len) := dir_loop ctx size [] 0 in
  reply (reply_dirbuf out len);;
  fuse_free_ctx ctx None.

(** ** hsx_fuse_getxattr.c and hsx_fuse_setxattr.c *)

(** The type of the ACL an attribute names. *)
Definition acl_type (name : string) : option Z :=
  if bool_decide (name = POSIX_ACL_XATTR_ACCESS) then Some ACL_TYPE_ACCESS
  else if bool_decide (name = POSIX_ACL_XATTR_DEFAULT) then Some ACL_TYPE_DEFAULT
  else None.

(** [calloc(1, 0)] may return a pointer that is not NULL; the query for the size
    then gets [ERANGE] as the size. *)
Definition hsx_fuse_getxattr (ino : Z) (name : string) (size : Z) : M world unit :=
  match acl_type name with
  | None => reply (reply_err EOPNOTSUPP)
  | Some type =>
      hsfs_node ← hsfs_ilookup ino;
      if hsfs_node =? 0 then reply (reply_err ENOENT) else
      let mask := Z.lor (if type =? ACL_TYPE_ACCESS then Z.lor NA_ACLCNT NA_ACL else 0)
                        (if type =? ACL_TYPE_DEFAULT then Z.lor NA_DFACLCNT NA_DFACL else 0) in
      '(err, acl) ← hsi_nfs3_getxattr hsfs_node mask type;
      if negb (err =? 0) then reply (reply_err err) else
      ok ← malloc_buf size;
      if negb ok && negb (size =? 0) then reply (reply_err ENOMEM) else
      acl ← of_option acl;
      '(real_size, buf) ← of_option
        (posix_acl_to_xattr acl (if (ok : bool) then Some (replicate (Z.to_nat size) 0) else None) size);
      if size =? 0 then reply (reply_xattr real_size) else
      if real_size =? ERANGE then reply (reply_err ERANGE) else
      reply (reply_buf (take (Z.to_nat real_size) buf))
  end.

(** Without the inode or the attribute the reply is success; otherwise the reply is
    sent twice. *)
Definition hsx_fuse_setxattr (ino : Z) (name : string) (value : list Z) : M world unit :=
  hi ← hsfs_ilookup ino;
  if hi =? 0 then reply (reply_err 0) else
  match acl_type name with
  | None => reply (reply_err 0)
  | Some type =>
      err ← hsi_nfs3_setxattr hi value type;
      reply (reply_err err);; reply (reply_err err)
  end.

(** ** hsx_fuse_init.c *)

(** [caps] are the capabilities the FUSE headers define among those the source
    asks for; the result is [conn->want]. *)
Definition hsx_fuse_init_cap (caps : list Z) (capable want : Z) : Z :=
  fold_left (λ want xx, if flag capable xx then Z.lor want xx else want) caps want.

Definition hsx_fuse_init (caps : list Z) (capable want : Z) : M world Z :=
  s ← get_sb;
  ref ← hsx_fuse_ref_xchg (sb_root s) 1;
  c_assert (ref =? 0);;
  mret (hsx_fuse_init_cap caps capable want).

(** ** hsfs_main.c: the table of handlers *)

Inductive request :=
| Req_lookup (parent : Z) (name : string)
| Req_forget (ino nlookup : Z)
| Req_getattr (ino : Z)
| Req_setattr (ino : Z) (attr : stat) (to_set : Z)
| Req_readlink (ino : Z)
| Req_mknod (parent : Z) (name : string) (mode rdev : Z)
| Req_mkdir (parent : Z) (name : string) (mode : Z)
| Req_unlink (parent : Z) (name : string)
| Req_rmdir (parent : Z) (name : string)
| Req_symlink (link : string) (parent : Z) (name : string)
| Req_rename (parent : Z) (name : string) (newparent : Z) (newname : string) (flags : Z)
| Req_link (ino newparent : Z) (newname : string)
| Req_open (ino : Z) (fi : fuse_file_info)
| Req_read (ino size off : Z)
| Req_write (ino : Z) (buf : list Z) (off : Z) (fi : fuse_file_info)
| Req_release (ino : Z) (fi : fuse_file_info)
| Req_opendir (ino : Z) (fi : fuse_file_info)
| Req_readdir (ino size off : Z)
| Req_readdirplus (ino size off : Z)
| Req_statfs (ino : Z)
| Req_access (ino mask : Z)
| Req_create (parent : Z) (name : string) (mode uid gid : Z) (fi : fuse_file_info)
| Req_getxattr (ino : Z) (name : string) (size : Z)
| Req_setxattr (ino : Z) (name : string) (value : list Z).

(** Dispatch through [hsfs_oper].  Reads and writes may take one round per byte. *)
Definition hsfs_oper (req : request) : M world unit :=
  match req with
  | Req_lookup p name => hsx_fuse_lookup p name
  | Req_forget ino n => hsx_fuse_forget ino n
  | Req_getattr ino => hsx_fuse_getattr ino
  | Req_setattr ino attr to_set => hsx_fuse_setattr ino attr to_set
  | Req_readlink ino => hsx_fuse_readlink ino
  | Req_mknod p name mode rdev => hsx_fuse_mknod p name mode rdev
  | Req_mkdir p name mode => hsx_fuse_mkdir p name mode
  | Req_unlink p name => hsx_fuse_unlink p name
  | Req_rmdir p name => hsx_fuse_rmdir p name
  | Req_symlink link p name => hsx_fuse_symlink link p name
  | Req_rename p name q nname flags => hsx_fuse_rename p name q nname flags
  | Req_link ino p name => hsx_fuse_link ino p name
  | Req_open ino fi => hsx_fuse_open ino fi
  | Req_read ino size off => hsx_fuse_read (Z.to_nat size) ino size off
  | Req_write ino buf off fi =>
      hsx_fuse_write (length buf) ino buf (Z.of_nat (length buf)) off fi
  | Req_release ino fi => hsx_fuse_release ino fi
  | Req_opendir ino fi => hsx_fuse_opendir ino fi
  | Req_readdir ino size off => hsx_fuse_readdir ino size off
  | Req_readdirplus ino size off => hsx_fuse_readdir_plus ino size off
  | Req_statfs ino => hsx_fuse_statfs ino
  | Req_access ino mask => hsx_fuse_access ino mask
  | Req_create p name mode uid gid fi => hsx_fuse_create p name mode uid gid fi
  | Req_getxattr ino name size => hsx_fuse_getxattr ino name size
  | Req_setxattr ino name value => hsx_fuse_setxattr ino name value
  end.

End Fuse.

