(* ===== verification/Mount.v ===== *)
(** * Mounting

    The mount procedure of [nfs3/hsi_nfs3_mount.c]: [hsfs_do_mount] parses the
    device name and the options, asks the mount service for the root file handle,
    opens the NFS and ACL clients and fills the super block; [hsfs_do_unmount] takes
    it down; [hsfs_start] is what [main] of [fuse/hsfs_main.c] does before the first
    request.  The names of hosts only serve messages and are not kept.  The resolver,
    the clock, [rpc_createerr] and the mount service are the parameters of
    [MountEnv]. *)

From S2P Require Import Prelude CString Bitops Hash HList Types ErrPtr Icache NfsInode Rpc.
From S2P Require Import ParseDev Options Nfs3 Acl Fuse.

Definition MOUNTPROG : Z := 100005.
Definition MOUNTVERS_NFSV3 : Z := 3.
Definition MNT_SENDBUFSIZE : Z := 2048.
Definition MNT_RECVBUFSIZE : Z := 1024.
Definition UDPMSGSIZE : Z := 8800.
Definition RPC_MAXDATASIZE : Z := 9000.
Definition RPC_TIMEDOUT : Z := 5.
Definition RPC_SYSTEMERROR : Z := 12.
Definition ETIMEDOUT : Z := 110.

(** [mountres3]: the status, and the root file handle (of length 0 unless the
    status is 0). *)
Record mountres3 := { fhs_status : Z; fhandle : list Z }.
Definition zero_mountres : mountres3 := {| fhs_status := 0; fhandle := [] |}.

Class MountEnv (E : Env) := {
  (** [inet_aton], and [gethostbyname] with the address or [errno] after a failure *)
  env_inet_aton : list ascii → option Z;
  env_gethostbyname : list ascii → est → (Z + Z) * est;
  (** [MOUNTPROC3_MNT]: the decoded results, or the [clnt_stat] of a failure *)
  env_mnt_call : Z → list ascii → Z * Z → est → (mountres3 + Z) * est;
  (** [MOUNTPROC_UMNT]: the [clnt_stat] *)
  env_umnt_call : Z → list ascii → Z * Z → est → Z * est;
  (** [time(NULL)]; [rpc_createerr.cf_stat] and [errno] *)
  env_time : est → Z * est;
  env_createerr : est → (Z * Z) * est;
}.

Definition zero_pmap : pmap := {| pm_prog := 0; pm_vers := 0; pm_prot := 0; pm_port := 0 |}.
Definition zero_saddr : sockaddr_in := {| sin_addr := 0; sin_port := 0 |}.

Definition hsi_nfsmnt_check_compat (nfs_pmap mnt_pmap : pmap) : Z :=
  if negb (pm_vers nfs_pmap =? 0) && negb (pm_vers nfs_pmap =? 3) then 1
  else if negb (pm_vers mnt_pmap =? 0) then 1
  else 0.

(** A minimum and a maximum with their defaults. *)
Definition ac_defaults (lo hi mn mx : Z) : Z * Z :=
  let mn := if mn =? 0 then lo else mn in
  let mx := if mx =? 0 then hi else mx in
  if mx <? mn then (lo, hi) else (mn, mx).

Definition hsi_validate_mount_data (super : hsfs_super) (ms ns : clnt_addr_t) (retry : Z) :
    hsfs_super * clnt_addr_t * clnt_addr_t * Z :=
  let super := if timeo super =? 0 then super <| timeo := 600 |> else super in
  let super := if retrans super =? 0 then super <| retrans := 3 |> else super in
  let '(mn, mx) := ac_defaults 3 60 (acregmin super) (acregmax super) in
  let super := super <| acregmin := mn |> <| acregmax := mx |> in
  let '(mn, mx) := ac_defaults 30 60 (acdirmin super) (acdirmax super) in
  let super := super <| acdirmin := mn |> <| acdirmax := mx |> in
  let '(bs, bits) := hsfs_block_size (bsize super) true in
  let super := super <| bsize := wrap 32 bs |> <| bsize_bits := default (bsize_bits super) bits |> in
  let addr prog vers (a : clnt_addr_t) :=
    {| ca_saddr := sb_saddr super;
       ca_pmap := (ca_pmap a) <| pm_prog := prog |> <| pm_vers := vers |>
                    <| pm_prot ::= λ p, if p =? 0 then IPPROTO_TCP else p |> |} in
  let ms := addr MOUNTPROG MOUNTVERS_NFSV3 ms in
  let ns := addr NFS_PROGRAM NFS_V3 ns in
  let size := if pm_prot (ca_pmap ns) =? IPPROTO_TCP then 64 * 1024
              else if pm_prot (ca_pmap ns) =? IPPROTO_UDP then UDPMSGSIZE else RPC_MAXDATASIZE in
  let super := super <| rsize := size |> <| wsize := size |> in
  (super, ms, ns, if retry =? -1 then 10000 else retry).

Section Mount.
Context {E : Env} {ME : MountEnv E}.

(** The value of [errno] is returned for a host that is not found. *)
Definition hsi_gethostbyname (hostname : list ascii) (saddr : sockaddr_in) :
    M world (Z * sockaddr_in) :=
  match env_inet_aton hostname with
  | Some a => mret (0, saddr <| sin_addr := a |>)
  | None =>
      r ← ext (env_gethostbyname hostname);
      match r with
      | inl a => mret (0, saddr <| sin_addr := a |>)
      | inr errno => mret (errno, saddr)
      end
  end.

(** Returns 0 or 1, the address of the mount service and what the options set. *)
Definition hsi_nfs3_parse_options (old_opts : string) (mnt_saddr : sockaddr_in) (o : mount_opts) :
    M world (Z * sockaddr_in * mount_opts) :=
  xstrdup (chars old_opts);;
  '(r, o) ← parse_items 1024 (opt_items (chars old_opts) [] false) o;
  match r with
  | Some ret => mret (ret, mnt_saddr, o)
  | None =>
      match mo_mounthost o with
      | None => mret (0, mnt_saddr, o)
      | Some host =>
          '(err, mnt_saddr) ← hsi_gethostbyname host mnt_saddr;
          mret (if err =? 0 then 0 else 1, mnt_saddr, o)
      end
  end.

(** Returns the result, the address with its port set and [*mntres]. *)
Definition hsi_nfs3_mount (mnt_server : clnt_addr_t) (mntarg : list ascii) (mntres : mountres3) :
    M world (Z * clnt_addr_t * mountres3) :=
  '(clnt, mnt_server) ← hsi_mnt_openclnt mnt_server MNT_SENDBUFSIZE MNT_RECVBUFSIZE;
  if clnt =? 0 then mret (-1, mnt_server, mntres) else
  live clnt;;
  r ← ext (env_mnt_call clnt mntarg TIMEOUT);
  let '(ret, tres) := match r with inl tres => (0, tres) | inr st => (st, zero_mountres) end in
  ok ← malloc_buf (Z.of_nat (length (fhandle tres)));
  let '(ret, mntres) := if (ok : bool) then (ret, tres) else (ENOMEM, mntres) in
  clnt_freeres clnt;;
  hsi_mnt_closeclnt clnt;;
  mret (ret, mnt_server, mntres).

Definition hsi_nfs3_unmount (mnt_server : clnt_addr_t) (umntarg : list ascii) : M world Z :=
  '(clnt, mnt_server) ← hsi_mnt_openclnt mnt_server MNT_SENDBUFSIZE MNT_RECVBUFSIZE;
  if clnt =? 0 then mret (-1) else
  live clnt;;
  ret ← ext (env_umnt_call clnt umntarg TIMEOUT);
  hsi_mnt_closeclnt clnt;;
  mret ret.

Definition hsi_fill_super (fh : list Z) : M world Z :=
  ret ← hsfs_init_icache;
  if negb (ret =? 0) then mret ret else
  upd_sb (λ s, s <| curr_id := 0 |>);;
  '(ret, fattr) ← hsi_nfs3_fsinfo fh (nfs_init_fattr stack_fattr);
  if negb (ret =? 0) then mret ret else
  nfh ← of_option (nfs_copy_fh3 stack_fh (Z.of_nat (length fh)) fh);
  root ← hsi_nfs_fhget hsi_nfs_sop nfh fattr;
  if IS_ERR root then mret (PTR_ERR root) else
  upd_sb (λ s, s <| sb_root := root |>);;
  i ← get_inode root;
  c_assert (i_ino i =? 1);;
  hsi_nfs3_pathconf root.

(** The loop around [hsi_nfs3_mount]: [inl] when the mount service answered, with
    [*mntres]; [inr] with the last result at the label [fail].  In the background
    ([fg] false) the loop only ends with an answer; [fuel] bounds the attempts. *)
Fixpoint mount_loop (fuel : nat) (fg : bool) (timeout : Z) (mnt_server : clnt_addr_t)
    (dirname : list ascii) (mntres : mountres3) : M world (clnt_addr_t * mountres3 + Z) :=
  match fuel with
  | O => out_of_fuel
  | S fuel =>
      let save_mnt := ca_pmap mnt_server in
      '(ret, mnt_server, mntres) ← hsi_nfs3_mount mnt_server dirname mntres;
      if ret =? 0 then mret (inl (mnt_server, mntres)) else
      let mnt_server := mnt_server <| ca_pmap := save_mnt |> in
      if fg then
        '(cf_stat, errno) ← ext env_createerr;
        if (cf_stat =? RPC_TIMEDOUT) || ((cf_stat =? RPC_SYSTEMERROR) && (errno =? ETIMEDOUT)) then
          t ← ext env_time;
          if timeout <=? t then mret (inr ret)
          else mount_loop fuel fg timeout mnt_server dirname mntres
        else mret (inr ret)
      else mount_loop fuel fg timeout mnt_server dirname mntres
  end.

(** The label [umnt_fail]; [ret] is still 0 there. *)
Definition umnt_fail (mnt_server : clnt_addr_t) (dirname : list ascii) : M world Z :=
  s ← get_sb;
  (if acl_clntp s =? 0 then mret tt else CLNT_DESTROY (acl_clntp s));;
  CLNT_DESTROY (clntp s);;
  _ ← hsi_nfs3_unmount mnt_server dirname;
  mret 0.

(** From the answer of the mount service on; [ret] is 0 on every path. *)
Definition mount_finish (mnt_server nfs_server : clnt_addr_t) (dirname : list ascii)
    (mntres : mountres3) : M world Z :=
  s ← get_sb;
  '(clnt, nfs_server) ← hsi_nfs3_clnt_create nfs_server (sint 32 (wsize s)) (sint 32 (rsize s));
  upd_sb (λ s, s <| clntp := clnt |>);;
  if clnt =? 0 then umnt_fail mnt_server dirname else
  let acl_server :=
    nfs_server <| ca_pmap ::= λ p, p <| pm_prog := NFS_ACL_PROGRAM |> <| pm_vers := NFS_ACL_V3 |> |> in
  '(acl, _) ← hsi_nfs3_clnt_create acl_server (sint 32 (wsize s)) (sint 32 (rsize s));
  upd_sb (λ s, s <| acl_clntp := acl |>);;
  if negb (fhs_status mntres =? 0) then mret 0 else
  ret ← hsi_fill_super (fhandle mntres);
  if negb (ret =? 0) then umnt_fail mnt_server dirname else mret 0.

Definition hsfs_do_mount (fuel : nat) (spec : string) (udata : option string) (fg : bool) :
    M world Z :=
  if (1024 <=? length (chars spec))%nat then mret (-1) else
  dev ← nfs_parse_devname (Some spec);
  match dev with
  | None => mret (-1)
  | Some (hostname, dirname) =>
      s ← get_sb;
      '(err, saddr) ← hsi_gethostbyname hostname (sb_saddr s);
      upd_sb (λ s, s <| sb_saddr := saddr |>);;
      if negb (err =? 0) then mret (-1) else
      s ← get_sb;
      '(ret, mnt_saddr, o) ← hsi_nfs3_parse_options (default EmptyString udata) zero_saddr
        {| mo_super := s; mo_retry := -1; mo_mnt := zero_pmap; mo_nfs := zero_pmap;
           mo_mounthost := None; mo_new := [] |};
      upd_sb (λ _, mo_super o);;
      if negb (ret =? 0) then mret (-1) else
      if negb (hsi_nfsmnt_check_compat (mo_nfs o) (mo_mnt o) =? 0) then mret (-1) else
      let '(super, mnt_server, nfs_server, retry) := hsi_validate_mount_data (mo_super o)
        {| ca_saddr := mnt_saddr; ca_pmap := mo_mnt o |}
        {| ca_saddr := zero_saddr; ca_pmap := mo_nfs o |} (mo_retry o) in
      upd_sb (λ _, super);;
      now ← ext env_time;
      if negb ((- 2 ^ 31 <=? 60 * retry) && (60 * retry <? 2 ^ 31)) then ub else
      r ← mount_loop fuel fg (now + 60 * retry) mnt_server dirname zero_mountres;
      match r with
      | inr ret => mret ret
      | inl (mnt_server, mntres) => mount_finish mnt_server nfs_server dirname mntres
      end
  end.

Definition hsfs_do_unmount (spec : string) : M world Z :=
  if (1024 <=? length (chars spec))%nat then ub else
  dev ← nfs_parse_devname (Some spec);
  match dev with
  | None => mret (-1)
  | Some (_, dirname) =>
      s ← get_sb;
      CLNT_DESTROY (clntp s);;
      let prot := if flag (sb_flags s) NFS_MOUNT_TCP then IPPROTO_TCP else IPPROTO_UDP in
      let mnt_server := {| ca_saddr := sb_saddr s;
        ca_pmap := zero_pmap <| pm_prog := MOUNTPROG |> <| pm_vers := MOUNTVERS_NFSV3 |>
                             <| pm_prot := prot |> |} in
      hsfs_iput hsi_nfs_sop (sb_root s);;
      hsi_nfs3_unmount mnt_server dirname
  end.

(** The start of [main], up to the [init] request of the kernel: [false] when
    the mount failed. *)
Definition hsfs_start (fuel : nat) (page : Z) (spec : string) (udata : option string) (fg : bool)
    (caps : list Z) (capable want : Z) : M world bool :=
  _ ← hsfs_init page;
  err ← hsfs_do_mount fuel spec udata fg;
  if negb (err =? 0) then mret false else
  _ ← hsx_fuse_init caps capable want;
  mret true.
End Mount.

(** ** Lemmas *)

Section MountFrame.
Context {E : Env} {ME : MountEnv E}.

Lemma framed_malloc_buf size : framed (malloc_buf size).
Proof. unfold malloc_buf. repeat framed_step. Qed.
Lemma framed_of_option {A} (o : option A) : framed (of_option o).
Proof. destruct o; [apply framed_ret|apply framed_ub]. Qed.
#[local] Hint Resolve framed_malloc_buf framed_of_option framed_live framed_destroy framed_openclnt
  framed_create framed_clnt_call : framed.

Lemma framed_char_at b p : framed (char_at b p).
Proof. unfold char_at. repeat framed_step. Qed.
Lemma framed_strlen_at b p : framed (strlen_at b p).
Proof. unfold strlen_at. repeat framed_step. Qed.
#[local] Hint Resolve framed_char_at framed_strlen_at : framed.
Lemma framed_strchr b p c : framed (strchr b p c).
Proof. unfold strchr. repeat framed_step. Qed.
Lemma framed_store b p c : framed (store b p c).
Proof. unfold store. repeat framed_step. Qed.
Lemma framed_strndup b p n : framed (strndup b p n).
Proof. unfold strndup, strndup_at. repeat framed_step. Qed.
#[local] Hint Resolve framed_strchr framed_store framed_strndup : framed.
Lemma framed_dup_parts d h hl p pl : framed (dup_parts d h hl p pl).
Proof. unfold dup_parts. repeat framed_step. Qed.
#[local] Hint Resolve framed_dup_parts : framed.
Lemma framed_parse_devname d : framed (nfs_parse_devname d).
Proof.
  unfold nfs_parse_devname, nfs_parse_square_bracket, nfs_parse_nfs_url, nfs_parse_simple_hostname.
  repeat framed_step.
Qed.

Lemma framed_abort {A} : framed (@abort world A).
Proof. by intros w. Qed.
Lemma framed_fuel {A} : framed (@out_of_fuel world A).
Proof. by intros w. Qed.
#[local] Hint Resolve framed_abort framed_fuel : framed.
Lemma framed_xstrdup l : framed (xstrdup l).
Proof. unfold xstrdup, xmalloc, die. repeat framed_step. Qed.
#[local] Hint Resolve framed_xstrdup : framed.
Lemma framed_parse_item i o : framed (parse_item i o).
Proof.
  unfold parse_item, number_option, text_option. repeat framed_step.
Qed.
#[local] Hint Resolve framed_parse_item : framed.
Lemma framed_parse_items size items : ∀ o, framed (parse_items size items o).
Proof. induction items; intros o; cbn [parse_items]; repeat framed_step. Qed.
#[local] Hint Resolve framed_parse_items : framed.
Lemma framed_gethostbyname h a : framed (hsi_gethostbyname h a).
Proof. unfold hsi_gethostbyname. repeat framed_step. Qed.
#[local] Hint Resolve framed_gethostbyname : framed.
Lemma framed_parse_options s a o : framed (hsi_nfs3_parse_options s a o).
Proof. unfold hsi_nfs3_parse_options. repeat framed_step. Qed.

Lemma framed_mount a d r : framed (hsi_nfs3_mount a d r).
Proof. unfold hsi_nfs3_mount, clnt_freeres, hsi_mnt_closeclnt. repeat framed_step. Qed.
#[local] Hint Resolve framed_mount : framed.
Lemma framed_mount_loop fg t fuel d : ∀ a r, framed (mount_loop fuel fg t a d r).
Proof. induction fuel; intros a r; cbn [mount_loop]; repeat framed_step. Qed.
Lemma framed_unmount a d : framed (hsi_nfs3_unmount a d).
Proof. unfold hsi_nfs3_unmount, hsi_mnt_closeclnt. repeat framed_step. Qed.
#[local] Hint Resolve framed_unmount : framed.
Lemma framed_umnt_fail a d : framed (umnt_fail a d).
Proof. unfold umnt_fail, get_sb. repeat framed_step. Qed.

(** Everything up to the super block leaves the inodes and the replies alone. *)
Definition heap_frame (w w' : world) : Prop :=
  w_heap w' = w_heap w ∧ w_replies w' = w_replies w.
Lemma framed_heap {A} (m : M world A) w : framed m → wlp m (λ _ w', heap_frame w w') w.
Proof.
  intros Hf. specialize (Hf w). eapply wlp_mono; [exact Hf|]. intros a w' (Hh & Hr & _). by split.
Qed.
End MountFrame.
#[export] Hint Resolve framed_parse_devname framed_gethostbyname framed_parse_options
  framed_mount_loop framed_umnt_fail framed_create : framed.
