(* ===== verification/CacheSpec.v ===== *)
(** * What the inode cache promises

    The abstract cache is a finite map from inode numbers to file identities (file
    id and handle), no identity twice.  The hash tables, the heap and the number
    generator of [lib/hsfs_inode.c] implement it: looking a number up, finding or
    creating the inode of an identity, dropping a reference. *)

From S2P Require Import Prelude Bitops Hash HList Types ErrPtr Icache NfsInode Rpc Nfs3.

Section CacheSpec.
Context {E : Env}.

(** The abstract cache [A] of a state. *)
Definition represents (w : world) (A : gmap Z (Z * list Z)) : Prop :=
  icache_wf w ∧
  ∀ i k, A !! i = Some k ↔ ∃ a n, w_heap w !! a = Some n ∧ ino_of n = i ∧ ident n = k.

(** ** The abstract operations *)

(** The number an identity has. *)
Definition number_of (A : gmap Z (Z * list Z)) (k : Z * list Z) (i : Z) : Prop := A !! i = Some k.
(** Find or create: the identity keeps its number, or gets one that was not used. *)
Definition spec_get (A : gmap Z (Z * list Z)) (k : Z * list Z) (i : Z)
    (A' : gmap Z (Z * list Z)) : Prop :=
  (number_of A k i ∧ A' = A) ∨
  ((∀ j, ¬ number_of A k j) ∧ A !! i = None ∧ 0 < i < 2 ^ 64 ∧ A' = <[i := k]> A).

(** ** Lemmas *)

Lemma represents_exists w : icache_wf w → ∃ A, represents w A.
Proof.
  intros Hwf.
  set (l := (λ p, (ino_of p.2, ident p.2)) <$> map_to_list (w_heap w)).
  assert (∀ i k, (i, k) ∈ l ↔ ∃ a n, w_heap w !! a = Some n ∧ ino_of n = i ∧ ident n = k) as Hl.
  { intros i k. unfold l. rewrite list_elem_of_fmap. split.
    - intros ([a n] & [= -> ->] & Hn%elem_of_map_to_list). eauto 10.
    - intros (a & n & Hn & <- & <-). exists (a, n). split; [done|]. by apply elem_of_map_to_list. }
  exists (list_to_map l). split; [done|]. intros i k. rewrite <-Hl. split.
  - apply elem_of_list_to_map_2.
  - intros Hin. apply elem_of_list_to_map_1'; [|done].
    intros k' Hin'. apply Hl in Hin as (a & n & Hn & Hi & <-).
    apply Hl in Hin' as (a' & n' & Hn' & Hi' & <-).
    assert (a' = a) as -> by (eapply (c_ino_inj _ _ _ _ _ Hwf); eauto; congruence). by simplify_eq.
Qed.

(** A step that leaves every inode's number and identity alone. *)
Lemma represents_upd w w' A a n n' :
  represents w A → icache_wf w' → w_heap w !! a = Some n → w_heap w' = <[a := n']> (w_heap w) →
  ino_of n' = ino_of n → ident n' = ident n → represents w' A.
Proof.
  intros [_ HA] Hwf' Hn Hh Hi Hid. split; [done|]. intros i k. rewrite HA, Hh. split.
  - intros (b & m & Hm & Hmi & Hmk). destruct (decide (a = b)) as [<-|Hne].
    + rewrite Hn in Hm. injection Hm as <-. exists a, n'. rewrite lookup_insert_eq.
      split_and!; [done|by rewrite Hi|by rewrite Hid].
    + exists b, m. by rewrite lookup_insert_ne.
  - intros (b & m & [[<- <-]|[_ Hm]]%lookup_insert_Some & Hmi & Hmk); [|eauto 10].
    exists a, n. by rewrite <-Hi, <-Hid.
Qed.
Lemma represents_new w w' A a n :
  represents w A → icache_wf w' → w_heap w !! a = None → w_heap w' = <[a := n]> (w_heap w) →
  A !! ino_of n = None ∧ represents w' (<[ino_of n := ident n]> A).
Proof.
  intros [Hwf HA] Hwf' Hn Hh.
  assert (w_heap w' !! a = Some n) as Hn' by (by rewrite Hh, lookup_insert_eq).
  assert (∀ b m, w_heap w !! b = Some m → b ≠ a ∧ w_heap w' !! b = Some m) as Hold.
  { intros b m Hm. assert (b ≠ a) by congruence. by rewrite Hh, lookup_insert_ne. }
  assert (∀ b m, w_heap w !! b = Some m → ino_of m ≠ ino_of n) as Hfresh.
  { intros b m [Hne Hm]%Hold Heq. by destruct Hne; eapply (c_ino_inj _ _ _ _ _ Hwf'). }
  assert (A !! ino_of n = None) as Hnone.
  { apply eq_None_not_Some. intros [k (b & m & Hm & Hi & _)%HA]. by eapply Hfresh. }
  split; [done|]. split; [done|]. intros i k. rewrite lookup_insert_Some, HA, Hh. split.
  - intros [[<- <-]|[Hne (b & m & Hm & Hi & Hk)]].
    + exists a, n. by rewrite lookup_insert_eq.
    + exists b, m. rewrite lookup_insert_ne; [done|]. by destruct (Hold _ _ Hm).
  - intros (b & m & [[<- <-]|[Hne Hm]]%lookup_insert_Some & <- & <-); [by left|right].
    split; [|eauto 10]. intros Heq. by eapply Hfresh.
Qed.

Context `{!EnvOk E}.

(** *** The chains *)

(** A walk with a test that only reads is the search of the list. *)
Lemma chain_find_pure test (T : Z → bool) l w :
  (∀ a, a ∈ l → a ≠ 0 ∧ test a w = Ok (T a, w)) →
  chain_find test l w = Ok (default 0 (List.find T l), w) ∧
  (default 0 (List.find T l) = 0 ↔ List.find T l = None).
Proof.
  induction l as [|a l IH]; intros Hl; [done|]. destruct (Hl a) as [Ha Ht]; [set_solver|].
  cbn [chain_find List.find]. rewrite (bind_ok _ _ _ _ _ Ht). destruct (T a); [done|]. apply IH. set_solver.
Qed.

(** * Properties *)

(** C13. Looking a number up gives the inode of that number, or NULL when there is
    none; nothing changes. *)
Theorem ilookup_refines w A ino :
  represents w A →
  ∃ r, hsfs_ilookup ino w = Ok (r, w) ∧
    match A !! ino with
    | None => r = 0
    | Some k => ∃ n, w_heap w !! r = Some n ∧ ino_of n = ino ∧ ident n = k
    end.
Proof.
  intros [Hwf HA]. destruct (ilookup_run w ino Hwf) as (r & Hr & [[-> Hno]|(_ & n & Hn & Hi)]).
  - exists 0. split; [done|]. destruct (A !! ino) as [k|] eqn:Hk; [|done].
    apply HA in Hk as (a & n & Hn & Hi & _). by destruct (Hno a n).
  - exists r. split; [done|]. destruct (A !! ino) as [k|] eqn:Hk.
    + apply HA in Hk as (a & n' & Hn' & Hi' & Hid).
      assert (a = r) as -> by (eapply (c_ino_inj _ _ _ _ _ Hwf); eauto; congruence). eauto.
    + assert (A !! ino = Some (ident n)) as Hs by (apply HA; eauto). congruence.
Qed.

(** C10. [hsi_nfs_fhget] finds or creates: for usable attributes it returns the inode of
    the identity, which keeps its number or gets an unused one, or an error
    pointer for lack of memory with the cache as it was. *)
Theorem fhget_refines w A fh fattr :
  represents w A → fh_ok fh → usable fattr = true → Z.of_nat (size (w_heap w)) + 2 <= cycle →
  ∃ r w', hsi_nfs_fhget hsi_nfs_sop fh fattr w = Ok (r, w') ∧
    ((∃ n A', w_heap w' !! r = Some n ∧ represents w' A' ∧
        spec_get A (fa_fileid fattr, fh_bytes fh) (ino_of n) A' ∧
        ident n = (fa_fileid fattr, fh_bytes fh)) ∨
     (r = bad_hsfs_inode + ENOMEM ∧ represents w' A)).
Proof.
  intros HR Hfh Hu Hsz. pose proof HR as [Hwf HA]. set (k := (fa_fileid fattr, fh_bytes fh)).
  destruct (fhget_run hsi_nfs_sop w fh fattr Hwf Hfh) as [(r & w' & Hrun & Hwf' & _ & Hp)|[_ ?]]; [|lia].
  exists r, w'. split; [done|].
  destruct Hp as [[[[_ Hf]|(-> & _)] Hh]|[(n0 & Hn0 & Hid & n & Hh & Hk & _ & _)|
    (Hnone & Hno & n & Hh & Hid & _)]].
  - congruence.
  - right. split; [done|]. split; [done|]. by rewrite Hh.
  - left. assert (ident n = k) as Hidn by (unfold ident; by rewrite (k_fileid _ _ Hk), (k_fh _ _ Hk)).
    exists n, A. rewrite Hh, lookup_insert_eq. split_and!; [done| |left|done].
    + eapply represents_upd; [done..|apply Hk|by rewrite Hidn, Hid].
    + split; [|done]. apply HA. exists r, n0. rewrite (k_ino _ _ Hk). done.
  - left. set (n' := new_attrs fattr n) in *. exists n', (<[ino_of n' := ident n']> A).
    destruct (represents_new w w' A r n' HR Hwf' Hnone Hh) as [Hfree HR'].
    rewrite Hh, lookup_insert_eq. split_and!; [done..| |done]. right. split_and!; [|done| | |].
    + intros j (a & m & Hm & _ & Hmk)%HA. by eapply Hno.
    + apply (c_node _ _ _ _ _ Hwf' r). by rewrite Hh, lookup_insert_eq.
    + apply (c_node _ _ _ _ _ Hwf' r). by rewrite Hh, lookup_insert_eq.
    + by rewrite Hid.
Qed.

(** The same file is the same inode: asking twice gives the same pointer and
    creates nothing the second time. *)
Lemma fhget_stable w fh fattr r w1 n fh' fattr' :
  icache_wf w → fh_ok fh → hsi_nfs_fhget hsi_nfs_sop fh fattr w = Ok (r, w1) →
  w_heap w1 !! r = Some n → ident n = (fa_fileid fattr, fh_bytes fh) →
  fh_ok fh' → fh_bytes fh' = fh_bytes fh → fa_fileid fattr' = fa_fileid fattr → usable fattr' = true →
  Z.of_nat (size (w_heap w1)) + 2 <= cycle →
  ∃ w2, hsi_nfs_fhget hsi_nfs_sop fh' fattr' w1 = Ok (r, w2) ∧ dom (w_heap w2) = dom (w_heap w1).
Proof.
  intros Hwf Hfh Hrun Hn Hid Hfh' Hb Hf Hu Hsz.
  assert (icache_wf w1) as Hwf1.
  { destruct (fhget_run hsi_nfs_sop w fh fattr Hwf Hfh) as [(r' & w' & Hrun' & Hwf' & _)|[Hrun' _]];
      congruence. }
  destruct (fhget_run hsi_nfs_sop w1 fh' fattr' Hwf1 Hfh') as [(r' & w2 & Hrun2 & Hwf2 & _ & Hp)|[_ ?]]; [|lia].
  rewrite Hb, Hf in Hp. exists w2.
  destruct Hp as [[[[_ Hx]|(_ & _ & Hno)] _]|[(n0 & Hn0 & Hid0 & m & Hh & _)|(_ & Hno & _)]].
  - congruence.
  - by destruct (Hno r n).
  - assert (r' = r) as -> by (eapply (c_ident_inj _ _ _ _ _ Hwf1); eauto; congruence).
    split; [done|]. rewrite Hh, dom_insert_L. apply subseteq_union_1_L.
    apply singleton_subseteq_l, elem_of_dom. eauto.
  - by destruct (Hno r n).
Qed.

(** C23. Inode numbers never run out: while fewer inodes are cached than there are
    numbers, the search for a free number ends within one probe more than there
    are inodes, and the number it picks is not in use and not zero. *)
Theorem inode_numbers_never_run_out w :
  icache_wf w → Z.of_nat (size (w_heap w)) + 1 <= cycle →
  ∃ c, pick_id (S (size (w_heap w))) w = Ok (tt, w <| w_sb ::= λ s, s <| curr_id := c |> |>) ∧
    0 < c < 2 ^ 64 ∧ ∀ a n, w_heap w !! a = Some n → ino_of n ≠ c.
Proof.
  intros Hwf Hsz.
  destruct (pick_id_run (w_heap w) (S (size (w_heap w))) w (reflexivity _) (c_node _ _ _ _ _ Hwf)
    (c_id _ _ _ _ _ Hwf) (c_curr _ _ _ _ _ Hwf)) as [(c & Hrun & Hc & Hfree & _)|[_ Hall]]; [by exists c|].
  exfalso. revert Hall. apply probes_exceed; [apply Hwf|lia|lia].
Qed.

(** Dropping a reference never frees an inode: no code takes references, so the
    count starts at zero and only falls, and [iput_final] is not reached. *)
Theorem iput_never_frees w a n w' :
  icache_wf w → w_heap w !! a = Some n → hsfs_iput hsi_nfs_sop a w = Ok (tt, w') →
  dom (w_heap w') = dom (w_heap w) ∧ w_sb w' = w_sb w ∧
  i_count (n_inode n) <= 0 ∧ (ino_of <$> w_heap w' !! a) = Some (ino_of n).
Proof.
  intros Hwf Hn Hrun. rewrite (iput_run hsi_nfs_sop _ _ _ Hwf Hn) in Hrun.
  destruct (_ =? _); [done|]. injection Hrun as <-. split_and!; [|done| |].
  - cbn. rewrite dom_insert_L. apply subseteq_union_1_L, singleton_subseteq_l, elem_of_dom. eauto.
  - apply (c_node _ _ _ _ _ Hwf _ _ Hn).
  - cbn. by rewrite lookup_insert_eq.
Qed.


(** C22. The tables of the cache on pointers: when the linked chains at [ht] are those of
    the table of inode numbers, the walk of [hash_for_each_possible] over the
    pointers finds the inode [__id_ifind] finds, and [hash_add] of a new node leaves
    the chains of the table [__inode_add_to_lists] makes. *)
Theorem cache_tables_on_pointers w m ht key fuel :
  icache_wf w → table m ht HSFS_ID_HASH_BITS (id_table (w_sb w)) →
  Forall (λ l, length l < fuel)%nat (id_table (w_sb w)) →
  (∃ r, __id_ifind key w = Ok (r, w) ∧
     hash_for_each_possible fuel ht HSFS_ID_HASH_BITS
       (λ a, bool_decide (ino_of <$> w_heap w !! a = Some key)) key m =
     Ok (if r =? 0 then NNull else NNode r, m)) ∧
  (∀ a, w_heap w !! a = None → is_Some (nodes m !! a) →
     ∃ t m', table_add (id_table (w_sb w)) HSFS_ID_HASH_BITS key a w = Ok (t, w) ∧
       hash_add ht HSFS_ID_HASH_BITS a key m = Ok (tt, m') ∧ table m' ht HSFS_ID_HASH_BITS t).
Proof.
  intros Hwf HT Hfuel. assert (0 < HSFS_ID_HASH_BITS <= 32)%nat as Hbits by (unfold HSFS_ID_HASH_BITS; lia).
  pose proof (c_id _ _ _ _ _ Hwf) as Hid. split.
  - set (T := λ a, bool_decide (ino_of <$> w_heap w !! a = Some key)).
    destruct (hash_for_each_possible_refines m ht _ _ T key fuel Hbits HT Hfuel) as (b & l & Hb & Hl & Hwalk).
    destruct (chain_find_pure (λ a, i ← get_inode a; mret (i_ino i =? key)) T l w) as [Hfind Hzero].
    { intros a Ha. destruct (t_sound _ _ _ Hid _ _ _ Hl Ha) as (n & Hn & _).
      split; [by eapply ok_nonzero, (c_node _ _ _ _ _ Hwf)|]. mstep (get_inode_run _ _ _ Hn).
      unfold T. rewrite Hn. cbn. unfold mret, M_ret, ino_of. do 2 f_equal.
      apply eq_true_iff_eq. rewrite bool_decide_eq_true, Z.eqb_eq. naive_solver. }
    exists (default 0 (List.find T l)). split.
    + unfold __id_ifind. mstep. unfold bucket_of.
      assert ((of_option (hash_bucket HSFS_ID_HASH_BITS key) ≫= λ b, of_option (id_table (w_sb w) !! Z.to_nat b)) w
        = Ok (l, w)) as Hbk.
      { mstep (of_option_run _ _ _ Hb). rewrite Nat2Z.id. by apply of_option_run. }
      by mstep Hbk.
    + rewrite Hwalk. destruct (List.find T l) as [a|] eqn:Hf; [|done]. cbn [default from_option id] in *.
      destruct (Z.eqb_spec a 0) as [->|]; [|done]. by pose proof (proj1 Hzero eq_refl).
  - intros a Ha Hnode.
    destruct (hash_add_refines m ht _ _ a key Hbits HT Hnode) as (m' & b & Hb & Hlt & Hadd & HT').
    { apply list.Forall_forall. intros l Hl Hin. apply list_elem_of_lookup in Hl as [b Hl].
      destruct (t_sound _ _ _ Hid _ _ _ Hl Hin) as (n & Hn & _). congruence. }
    destruct (lookup_lt_is_Some_2 _ _ Hlt) as [l Hl].
    exists (<[b := a :: l]> (id_table (w_sb w))), m'. split_and!; [|done|by rewrite (alter_insert_eq (cons a))].
    unfold table_add. mstep (of_option_run _ _ _ Hb). rewrite Nat2Z.id. by mstep (of_option_run _ _ _ Hl).
Qed.
End CacheSpec.
