(* ===== verification/Attrs.v ===== *)
(** * Conversions of attributes

    Properties of the conversions between the attributes of the kernel, of the
    cache and of the protocol: [hsx_fuse_stat2iattr], [hsi_nfs3_setattr],
    [hsi_nfs3_fattr2fattr], [hsi_nfs3_fattr2stat], block sizes and statistics. *)

From S2P Require Import Prelude Bitops Hash HList Types ErrPtr Icache NfsInode Rpc Nfs3 Acl Fuse.

(** ** Bits of machine words *)

(** Two words are equal when they agree on each of their bits. *)
Lemma word_bits w a b :
  0 <= w → in_range w a → in_range w b →
  Forall (λ i, Z.testbit a i = Z.testbit b i) (seqZ 0 w) → a = b.
Proof.
  intros Hw Ha Hb Hall. apply Z.bits_inj'. intros i Hi. destruct (Z.lt_ge_cases i w).
  - apply (proj1 (list.Forall_forall _ _) Hall). apply elem_of_seqZ. lia.
  - rewrite !(in_range_testbit w) by done. done.
Qed.

Lemma shiftl_range w x n m : 0 <= n → in_range m x → m + n <= w → 0 <= m → in_range w (x << n).
Proof.
  intros Hn Hx Hm Hm0. apply bits_in_range; [lia|]. intros i Hi. rewrite Z.shiftl_spec by lia.
  apply (in_range_testbit m); [done|lia..].
Qed.

(** Bit [i] of a term of masks and shifts, for a number [i]: the indices and the
    bits of the masks are computed, the bits beyond 32 of the values [in_range 32]
    are zero. *)
Ltac bit_step :=
  match goal with
  | |- context [Z.testbit (Zpos ?p) ?e] =>
      let v := eval vm_compute in (Z.testbit (Zpos p) e) in change (Z.testbit (Zpos p) e) with v
  | |- context [Z.testbit ?x (?a + ?b)] =>
      let v := eval vm_compute in (a + b) in change (a + b) with v
  | |- context [Z.testbit ?x (?a - ?b)] =>
      let v := eval vm_compute in (a - b) in change (a - b) with v
  end.
Ltac bit_case :=
  repeat rewrite ?Z.lor_spec, ?Z.land_spec, ?Z.shiftr_spec, ?Z.shiftl_spec by lia;
  repeat bit_step;
  rewrite ?andb_true_r, ?andb_false_r, ?orb_false_r, ?orb_false_l;
  repeat match goal with H : in_range 32 ?x |- context [Z.testbit ?x ?e] =>
    rewrite (in_range_testbit 32 x e H) by lia end;
  reflexivity.

Lemma makedev_roundtrip ma mi :
  in_range 32 ma → in_range 32 mi →
  dev_major (makedev ma mi) = ma ∧ dev_minor (makedev ma mi) = mi.
Proof.
  intros Hma Hmi.
  assert (∀ x m, in_range 32 x → in_range 32 (x & m)) as Hland by (intros; by apply land_range).
  assert (∀ x, in_range 32 x → in_range 64 x) as H64 by (unfold in_range; lia).
  assert (in_range 64 (makedev ma mi)) as Hd.
  { unfold makedev. repeat apply lor_range; try lia; auto;
      eapply (shiftl_range 64 _ _ 32); try lia; auto. }
  split; (apply (word_bits 64); [lia| |by apply H64|]).
  - unfold dev_major. apply lor_range; [lia|..]; (apply shiftr_range; [lia|by apply land_range]).
  - unfold dev_major, makedev. repeat (constructor; [bit_case|]). constructor.
  - unfold dev_minor. apply lor_range; [lia|by apply land_range|].
    apply shiftr_range; [lia|by apply land_range].
  - unfold dev_minor, makedev. repeat (constructor; [bit_case|]). constructor.
Qed.

(** ** Block sizes *)

Lemma int_bit_low n : (n < 31)%nat → int_bit n = 2 ^ Z.of_nat n.
Proof.
  intros Hn. assert (0 < 2 ^ Z.of_nat n < 2 ^ 31) as H.
  { split; [lia|]. apply Z.pow_lt_mono_r; lia. }
  unfold int_bit, sint. rewrite (wrap_small 32) by (unfold in_range; lia).
  rewrite (proj2 (Z.ltb_lt _ _)) by (change (32 - 1) with 31; lia).
  apply wrap_small. unfold in_range. lia.
Qed.

(** The scan finds the top bit. *)
Lemma top_bit_log2 n b :
  (n < 31)%nat → 0 < b < 2 ^ (Z.of_nat n + 1) → top_bit n b = Z.to_nat (Z.log2 b).
Proof.
  induction n as [|n IH]; intros Hn Hb.
  - assert (b = 1) as -> by (cbn in Hb; lia). done.
  - cbn [top_bit]. rewrite int_bit_low by done.
    pose proof (flag_testbit b (Z.of_nat (S n)) ltac:(lia)) as Hf. unfold flag in Hf.
    pose proof (log2_bound (Z.of_nat (S n) + 1) b ltac:(lia) Hb) as Hl.
    destruct (_ =? 0); cbn in Hf.
    + apply IH; [lia|]. split; [lia|]. apply Z.nle_gt. intros Hge.
      apply Z.log2_le_pow2 in Hge; [|lia].
      assert (Z.log2 b = Z.of_nat (S n)) as Hlog by lia.
      pose proof (Z.bit_log2 b ltac:(lia)) as Hbit. rewrite Hlog in Hbit. congruence.
    + assert (Z.of_nat (S n) <= Z.log2 b); [|lia].
      apply Z.log2_le_pow2; [lia|]. apply Z.nlt_ge. intros Hlt.
      rewrite (in_range_testbit (Z.of_nat (S n)) b) in Hf; [done|unfold in_range; lia|lia..].
Qed.

Lemma top_bit_31 b : 0 < b < 2 ^ 31 → top_bit 31 b = Z.to_nat (Z.log2 b).
Proof.
  intros Hb. change (top_bit 31 b) with (if b & int_bit 31 =? 0 then top_bit 30 b else 31%nat).
  assert (b & int_bit 31 = 0) as ->; [|by apply (top_bit_log2 30); [lia|]].
  change (int_bit 31) with (2 ^ 64 - 2 ^ 31). apply Z.bits_inj'. intros i Hi.
  rewrite Z.land_spec, Z.bits_0. destruct (Z.lt_ge_cases i 31).
  - replace (Z.testbit (2 ^ 64 - 2 ^ 31) i) with false; [apply andb_false_r|].
    change (2 ^ 64 - 2 ^ 31) with ((2 ^ 33 - 1) << 31). symmetry. by apply Z.shiftl_spec_low.
  - rewrite (in_range_testbit 31 b); [done|unfold in_range; lia|lia..].
Qed.

Lemma block_bits_correct b nrbitsp :
  0 < b < 2 ^ 31 →
  hsfs_block_bits b nrbitsp =
    (2 ^ Z.log2 b, if nrbitsp then Some (Z.log2 b) else None).
Proof.
  intros Hb. unfold hsfs_block_bits. rewrite top_bit_31 by done.
  pose proof (log2_bound 31 b ltac:(lia) Hb) as Hl.
  rewrite int_bit_low, Z2Nat.id by lia.
  destruct nrbitsp; [by rewrite orb_true_r|]. rewrite orb_false_r.
  rewrite wrap_small by (unfold in_range; lia).
  destruct (Z.eqb_spec (b & (b - 1)) 0) as [He|He]; cbn [negb]; [|done]. f_equal.
  destruct (Z.eq_dec b (2 ^ Z.log2 b)) as [|Hne]; [done|].
  by destruct (land_pred_nonpow2 b ltac:(lia) Hne).
Qed.

(** ** Setting attributes *)

(** The attributes [hsi_nfs_setattr] sends on for a request. *)
Definition effective (i : hsfs_inode) (attr : hsfs_iattr) : hsfs_iattr :=
  let attr :=
    if flag (ia_valid attr) HSFS_ATTR_SIZE &&
       (negb (S_ISREG (ia_mode (i_iattr i))) || (ia_size attr =? ia_size (i_iattr i)))
    then attr <| ia_valid ::= λ v, bclear v HSFS_ATTR_SIZE |> else attr in
  attr <| ia_valid ::= λ v, v & NFS_VALID_ATTRS |>.

(** [hsx_fuse_stat2iattr] in closed form. *)
Definition mask (b : bool) (m : Z) : Z := if b then m else 0.
Definition valid_of (to_set : Z) : Z :=
  let fl := flag to_set in
  mask (fl FUSE_SET_ATTR_MODE) HSFS_ATTR_MODE `bor` mask (fl FUSE_SET_ATTR_UID) HSFS_ATTR_UID
  `bor` mask (fl FUSE_SET_ATTR_GID) HSFS_ATTR_GID `bor` mask (fl FUSE_SET_ATTR_SIZE) HSFS_ATTR_SIZE
  `bor` mask (fl FUSE_SET_ATTR_ATIME) HSFS_ATTR_ATIME
  `bor` mask (fl FUSE_SET_ATTR_ATIME && negb (fl FUSE_SET_ATTR_ATIME_NOW)) HSFS_ATTR_ATIME_SET
  `bor` mask (fl FUSE_SET_ATTR_MTIME) HSFS_ATTR_MTIME
  `bor` mask (fl FUSE_SET_ATTR_MTIME && negb (fl FUSE_SET_ATTR_MTIME_NOW)) HSFS_ATTR_MTIME_SET.

Lemma stat2iattr_eq st to_set junk :
  hsx_fuse_stat2iattr st to_set junk = {|
    ia_valid := valid_of to_set;
    ia_mode := if flag to_set FUSE_SET_ATTR_MODE then bclear (st_mode st) S_IFMT else ia_mode junk;
    ia_uid := if flag to_set FUSE_SET_ATTR_UID then st_uid st else ia_uid junk;
    ia_gid := if flag to_set FUSE_SET_ATTR_GID then st_gid st else ia_gid junk;
    ia_size := if flag to_set FUSE_SET_ATTR_SIZE then st_size st else ia_size junk;
    ia_atime := if flag to_set FUSE_SET_ATTR_ATIME then st_atim st else ia_atime junk;
    ia_mtime := if flag to_set FUSE_SET_ATTR_MTIME then st_mtim st else ia_mtime junk;
    ia_ctime := ia_ctime junk |}.
Proof.
  unfold hsx_fuse_stat2iattr, valid_of. cbv zeta.
  destruct (flag to_set FUSE_SET_ATTR_MODE), (flag to_set FUSE_SET_ATTR_UID),
    (flag to_set FUSE_SET_ATTR_GID), (flag to_set FUSE_SET_ATTR_SIZE),
    (flag to_set FUSE_SET_ATTR_ATIME), (flag to_set FUSE_SET_ATTR_MTIME),
    (flag to_set FUSE_SET_ATTR_ATIME_NOW), (flag to_set FUSE_SET_ATTR_MTIME_NOW); reflexivity.
Qed.

(** The tests on a [valid] mask are bits of it. *)
Lemma mask_testbit b n k : 0 <= n → Z.testbit (mask b (2 ^ n)) k = b && (n =? k).
Proof.
  intros Hn. destruct b; cbn [mask andb]; [|by rewrite Z.bits_0]. by apply Z.pow2_bits_eqb.
Qed.
Lemma valid_of_testbit to_set k :
  Z.testbit (valid_of to_set) k =
    flag to_set FUSE_SET_ATTR_MODE && (0 =? k) || flag to_set FUSE_SET_ATTR_UID && (1 =? k)
    || flag to_set FUSE_SET_ATTR_GID && (2 =? k) || flag to_set FUSE_SET_ATTR_SIZE && (3 =? k)
    || flag to_set FUSE_SET_ATTR_ATIME && (4 =? k)
    || flag to_set FUSE_SET_ATTR_ATIME && negb (flag to_set FUSE_SET_ATTR_ATIME_NOW) && (7 =? k)
    || flag to_set FUSE_SET_ATTR_MTIME && (5 =? k)
    || flag to_set FUSE_SET_ATTR_MTIME && negb (flag to_set FUSE_SET_ATTR_MTIME_NOW) && (8 =? k).
Proof.
  unfold valid_of, HSFS_ATTR_MODE, HSFS_ATTR_UID, HSFS_ATTR_GID, HSFS_ATTR_SIZE, HSFS_ATTR_ATIME,
    HSFS_ATTR_ATIME_SET, HSFS_ATTR_MTIME, HSFS_ATTR_MTIME_SET. cbv zeta.
  rewrite !Z.lor_spec. by rewrite !mask_testbit.
Qed.

(** A size that does not apply is not sent. *)
Definition drops_size (i : hsfs_inode) (attr : hsfs_iattr) : bool :=
  flag (ia_valid attr) HSFS_ATTR_SIZE &&
  (negb (S_ISREG (ia_mode (i_iattr i))) || (ia_size attr =? ia_size (i_iattr i))).
Lemma effective_eq i attr :
  effective i attr = attr <| ia_valid := (if drops_size i attr then bclear (ia_valid attr) HSFS_ATTR_SIZE
                                          else ia_valid attr) & NFS_VALID_ATTRS |>.
Proof. unfold effective, drops_size. by destruct (_ && _). Qed.
Lemma effective_testbit i attr k :
  0 <= k → Z.testbit (ia_valid (effective i attr)) k =
    Z.testbit (ia_valid attr) k && negb (drops_size i attr && (3 =? k)) && Z.testbit NFS_VALID_ATTRS k.
Proof.
  intros Hk. rewrite effective_eq. cbv [set const]. cbn [ia_valid]. rewrite Z.land_spec. f_equal.
  destruct (drops_size i attr); cbn [andb negb]; [|by rewrite andb_true_r].
  unfold bclear, HSFS_ATTR_SIZE. by rewrite Z.ldiff_spec, Z.pow2_bits_eqb.
Qed.


(** The mode kept in the cache: the permissions and the bits of the type. *)
Lemma cache_mode_eq f t :
  fa_mode (hsi_nfs3_fattr2fattr f t) =
    Z.lor (bclear (f3_mode f) S_IFMT) (nth (Z.to_nat (if NF3FIFO <? f3_type f then 0 else f3_type f)) nfs_type2fmt 0).
Proof. unfold hsi_nfs3_fattr2fattr. reflexivity. Qed.
(** The type bits come from the type alone. *)
Lemma cache_type_bits f t :
  fa_mode (hsi_nfs3_fattr2fattr f t) & S_IFMT =
    nth (Z.to_nat (if NF3FIFO <? f3_type f then 0 else f3_type f)) nfs_type2fmt 0 & S_IFMT.
Proof.
  rewrite cache_mode_eq, Z.land_lor_distr_l. unfold bclear. by rewrite Z.land_ldiff, Z.lor_0_l.
Qed.
Lemma perm_bits m : in_range 12 m → m & 0xfff = m ∧ bclear m S_IFMT = m.
Proof.
  intros Hm. assert (m & 0xfff = m) as Hlow by (apply (wrap_small 12) in Hm; by rewrite wrap_land in Hm).
  split; [done|]. unfold bclear. rewrite <-Hlow, Z.ldiff_land, <-Z.land_assoc. by f_equal.
Qed.
Lemma cache_mode f t :
  in_range 12 (f3_mode f) → NF3REG <= f3_type f <= NF3FIFO →
  ∃ fmt, fattr2stat_fmt (f3_type f) = Some fmt ∧ fmt & S_IFMT = fmt ∧ fmt & 0xfff = 0 ∧
    fa_mode (hsi_nfs3_fattr2fattr f t) = Z.lor (f3_mode f) fmt.
Proof.
  intros Hm Ht. rewrite cache_mode_eq, (proj2 (perm_bits _ Hm)). unfold NF3REG, NF3FIFO in *.
  rewrite (proj2 (Z.ltb_ge _ _)) by lia.
  assert (f3_type f = 1 ∨ f3_type f = 2 ∨ f3_type f = 3 ∨ f3_type f = 4 ∨ f3_type f = 5 ∨
    f3_type f = 6 ∨ f3_type f = 7) as Hc by lia.
  destruct Hc as [->|[->|[->|[->|[->|[->| ->]]]]]]; by eexists.
Qed.

(** What a [setattr] request sends. *)
Lemma setattr_sent st to_set junk i :
  let a := sattr3_of (effective i (hsx_fuse_stat2iattr st to_set junk)) in
  sa_mode a = (if flag to_set FUSE_SET_ATTR_MODE then Some (bclear (st_mode st) S_IFMT) else None) ∧
  sa_uid a = (if flag to_set FUSE_SET_ATTR_UID then Some (st_uid st) else None) ∧
  sa_gid a = (if flag to_set FUSE_SET_ATTR_GID then Some (st_gid st) else None) ∧
  sa_size a = (if flag to_set FUSE_SET_ATTR_SIZE && S_ISREG (ia_mode (i_iattr i)) &&
                  negb (st_size st =? ia_size (i_iattr i))
               then Some (wrap 64 (st_size st)) else None) ∧
  sa_atime a = (if flag to_set FUSE_SET_ATTR_ATIME then SET_TO_SERVER_TIME else DONT_CHANGE) ∧
  sa_mtime a = (if flag to_set FUSE_SET_ATTR_MTIME then SET_TO_SERVER_TIME else DONT_CHANGE).
Proof.
  cbv zeta. set (attr := hsx_fuse_stat2iattr st to_set junk).
  assert (∀ k, 0 <= k → flag (ia_valid (effective i attr)) (2 ^ k) =
    Z.testbit (valid_of to_set) k && negb (drops_size i attr && (3 =? k)) &&
    Z.testbit NFS_VALID_ATTRS k) as Hfl.
  { intros k Hk. rewrite flag_testbit, effective_testbit by done. unfold attr. by rewrite stat2iattr_eq. }
  assert (drops_size i attr = flag to_set FUSE_SET_ATTR_SIZE &&
    (negb (S_ISREG (ia_mode (i_iattr i))) || (st_size st =? ia_size (i_iattr i)))) as Hdrop.
  { unfold drops_size, attr. rewrite stat2iattr_eq. cbn [ia_valid ia_size]. unfold HSFS_ATTR_SIZE.
    rewrite flag_testbit, valid_of_testbit by done. cbn [Z.eqb Pos.eqb].
    rewrite ?andb_false_r, ?andb_true_r, ?orb_false_r. cbn [orb].
    by destruct (flag to_set FUSE_SET_ATTR_SIZE). }
  unfold sattr3_of, S_ISSETMODE, S_ISSETUID, S_ISSETGID, S_ISSETSIZE, S_ISSETATIMENOW, S_ISSETMTIMENOW,
    S_ISSETATIME, S_ISSETMTIME, HSFS_ATTR_MODE, HSFS_ATTR_UID, HSFS_ATTR_GID, HSFS_ATTR_SIZE,
    HSFS_ATTR_ATIME, HSFS_ATTR_MTIME, HSFS_ATTR_ATIME_SET, HSFS_ATTR_MTIME_SET.
  cbn [sa_mode sa_uid sa_gid sa_size sa_atime sa_mtime]. rewrite !Hfl, !valid_of_testbit by done.
  rewrite Hdrop. unfold attr. rewrite effective_eq, stat2iattr_eq.
  cbv [set const]. cbn [ia_mode ia_uid ia_gid ia_size ia_atime ia_mtime Z.eqb Pos.eqb].
  rewrite ?andb_false_r, ?andb_true_r, ?orb_false_r. cbn [orb negb].
  change (Z.testbit NFS_VALID_ATTRS 0) with true.
  split_and!.
  - by destruct (flag to_set FUSE_SET_ATTR_MODE).
  - by destruct (flag to_set FUSE_SET_ATTR_UID).
  - by destruct (flag to_set FUSE_SET_ATTR_GID).
  - destruct (flag to_set FUSE_SET_ATTR_SIZE), (S_ISREG _), (_ =? _); reflexivity.
  - destruct (flag to_set FUSE_SET_ATTR_ATIME); reflexivity.
  - destruct (flag to_set FUSE_SET_ATTR_MTIME); reflexivity.
Qed.
(** A request for anything but the size has something to send. *)
Lemma setattr_effective st to_set junk i :
  flag to_set FUSE_SET_ATTR_MODE || flag to_set FUSE_SET_ATTR_UID || flag to_set FUSE_SET_ATTR_GID
    || flag to_set FUSE_SET_ATTR_ATIME || flag to_set FUSE_SET_ATTR_MTIME = true →
  ia_valid (effective i (hsx_fuse_stat2iattr st to_set junk)) ≠ 0.
Proof.
  intros Hf Hz. set (attr := hsx_fuse_stat2iattr st to_set junk) in *.
  assert (∀ k, 0 <= k → (3 =? k) = false → Z.testbit NFS_VALID_ATTRS k = true → Z.testbit (valid_of to_set) k = false) as Hbit.
  { intros k Hk H3 Hv. pose proof (effective_testbit i attr k Hk) as Hb. rewrite Hz, Z.bits_0, H3, Hv in Hb.
    unfold attr in Hb. rewrite stat2iattr_eq in Hb. cbn [ia_valid] in Hb. by rewrite andb_false_r, !andb_true_r in Hb. }
  pose proof (Hbit 0 ltac:(done) eq_refl eq_refl) as H0. pose proof (Hbit 1 ltac:(done) eq_refl eq_refl) as H1.
  pose proof (Hbit 2 ltac:(done) eq_refl eq_refl) as H2. pose proof (Hbit 4 ltac:(done) eq_refl eq_refl) as H4.
  pose proof (Hbit 5 ltac:(done) eq_refl eq_refl) as H5. rewrite valid_of_testbit in H0, H1, H2, H4, H5.
  cbn [Z.eqb Pos.eqb] in *. rewrite ?andb_false_r, ?andb_true_r, ?orb_false_r in *. cbn [orb] in *.
  by rewrite H0, H1, H2, H4, H5 in Hf.
Qed.

(** * Properties *)


(** Device numbers survive the way to the server and back: what [mknod] sends for
    a 64-bit device number are its 32-bit halves, and the attributes that come
    back with them give the same number. *)
Lemma device_numbers_survive ma mi perm f t :
  in_range 32 ma → in_range 32 mi → f3_rdev_major f = ma → f3_rdev_minor f = mi →
  mknod_what (Z.lor S_IFCHR (perm & 0xfff)) (makedev ma mi) =
    MKNOD_DEVICE NF3CHR (sattr3_zero <| sa_mode := Some (perm & 0xfff) |>) ma mi ∧
  fa_rdev (hsi_nfs3_fattr2fattr f t) = makedev ma mi.
Proof.
  intros Hma Hmi Hf1 Hf2. destruct (makedev_roundtrip ma mi Hma Hmi) as [H1 H2]. split.
  - unfold mknod_what.
    assert (Z.lor S_IFCHR (perm & 0xfff) & S_IFMT = S_IFCHR) as ->.
    { rewrite Z.land_lor_distr_l, <-Z.land_assoc. change (0xfff & S_IFMT) with 0.
      by rewrite Z.land_0_r, Z.lor_0_r. }
    assert (Z.lor S_IFCHR (perm & 0xfff) & 0xfff = perm & 0xfff) as ->.
    { rewrite Z.land_lor_distr_l, <-Z.land_assoc. change (S_IFCHR & 0xfff) with 0.
      by rewrite Z.lor_0_l. }
    cbn [Z.eqb Pos.eqb S_IFCHR]. by rewrite H1, H2.
  - assert (fa_rdev (hsi_nfs3_fattr2fattr f t) =
      let rdev := makedev (f3_rdev_major f) (f3_rdev_minor f) in
      if negb (dev_major rdev =? f3_rdev_major f) || negb (dev_minor rdev =? f3_rdev_minor f)
      then 0 else rdev) as -> by (unfold hsi_nfs3_fattr2fattr; reflexivity).
    cbv zeta. rewrite Hf1, Hf2, H1, H2, !Z.eqb_refl. done.
Qed.

(** C36. The two translations of the server's attributes agree on the mode: for every
    file type the mode of a [stat] reply is the mode kept in the cache, the type
    bits are those of the type, and an unknown type is refused with [EINVAL]. *)
Theorem stat_mode_agrees_with_cache f t st :
  in_range 12 (f3_mode f) →
  (NF3REG <= f3_type f <= NF3FIFO →
     (hsi_nfs3_fattr2stat f st).1 = 0 ∧
     st_mode (hsi_nfs3_fattr2stat f st).2 = fa_mode (hsi_nfs3_fattr2fattr f t) ∧
     fattr2stat_fmt (f3_type f) = Some (fa_mode (hsi_nfs3_fattr2fattr f t) & S_IFMT) ∧
     fa_mode (hsi_nfs3_fattr2fattr f t) & 0xfff = f3_mode f) ∧
  (¬ NF3REG <= f3_type f <= NF3FIFO → (hsi_nfs3_fattr2stat f st).1 = EINVAL).
Proof.
  intros Hm. unfold hsi_nfs3_fattr2stat. split; intros Ht.
  - destruct (cache_mode f t Hm Ht) as (fmt & -> & Hfmt & Hlow & ->). destruct (perm_bits _ Hm) as [Hp Hb].
    assert (f3_mode f & S_IFMT = 0) as Hhigh by (rewrite <-Hp, <-Z.land_assoc; apply Z.land_0_r).
    cbn -[Z.land Z.lor]. rewrite !Z.land_lor_distr_l, Hhigh, Hp, Hfmt, Hlow, Z.lor_0_l, Z.lor_0_r. done.
  - unfold fattr2stat_fmt, NF3REG, NF3DIR, NF3BLK, NF3CHR, NF3LNK, NF3SOCK, NF3FIFO in *.
    rewrite !(proj2 (Z.eqb_neq _ _)) by lia. done.
Qed.

(** The size after the two limits. *)
Definition clamped (b : Z) : Z :=
  if b <? HSFS_MIN_FILE_IO_SIZE then HSFS_DEF_FILE_IO_SIZE
  else if HSFS_MAX_FILE_IO_SIZE <=? b then HSFS_MAX_FILE_IO_SIZE else b.
Lemma block_size_clamped b nrbitsp :
  10 <= Z.log2 (clamped b) <= 20 ∧
  hsfs_block_size b nrbitsp =
    (2 ^ Z.log2 (clamped b), if nrbitsp then Some (Z.log2 (clamped b)) else None).
Proof.
  assert (2 ^ 10 <= clamped b <= 2 ^ 20) as Hc.
  { unfold clamped, HSFS_MIN_FILE_IO_SIZE, HSFS_MAX_FILE_IO_SIZE, HSFS_DEF_FILE_IO_SIZE.
    destruct (Z.ltb_spec b 1024); [lia|]. destruct (Z.leb_spec 1048576 b); lia. }
  split.
  - split; [apply Z.log2_le_pow2; lia|]. rewrite <-(Z.log2_pow2 20) by lia. apply Z.log2_le_mono. lia.
  - apply (block_bits_correct (clamped b)). lia.
Qed.

(** The sizes the client uses for I/O are powers of two between 1 KiB and 1 MiB:
    the default for a server that asks for less, the maximum for one that asks for
    more, and otherwise the largest power of two within what it asks for; the
    returned logarithm is that of the size. *)
Theorem block_size_bounds b nrbitsp :
  ∃ k, 10 <= k <= 20 ∧ hsfs_block_size b nrbitsp = (2 ^ k, if nrbitsp then Some k else None) ∧
    (b < HSFS_MIN_FILE_IO_SIZE → 2 ^ k = HSFS_DEF_FILE_IO_SIZE) ∧
    (HSFS_MAX_FILE_IO_SIZE <= b → 2 ^ k = HSFS_MAX_FILE_IO_SIZE) ∧
    (HSFS_MIN_FILE_IO_SIZE <= b < HSFS_MAX_FILE_IO_SIZE → 2 ^ k <= b < 2 * 2 ^ k).
Proof.
  destruct (block_size_clamped b nrbitsp) as [Hk Hb]. exists (Z.log2 (clamped b)).
  split; [done|]. split; [done|].
  unfold clamped, HSFS_MIN_FILE_IO_SIZE, HSFS_MAX_FILE_IO_SIZE, HSFS_DEF_FILE_IO_SIZE in *.
  destruct (Z.ltb_spec b 1024); [split_and!; [done|lia..]|].
  destruct (Z.leb_spec 1048576 b); [split_and!; [lia|done|lia]|]. split_and!; [lia..|]. intros _.
  rewrite <-Z.pow_succ_r by lia. apply Z.log2_spec. lia.
Qed.

(** [nfs_calc_block_size] counts 512-byte blocks rounding up, as long as the sum
    does not leave 64 bits. *)
Lemma calc_block_size_ceiling t :
  0 <= t <= 2 ^ 64 - 512 →
  512 * nfs_calc_block_size t - 512 < t <= 512 * nfs_calc_block_size t.
Proof.
  intros Ht. unfold nfs_calc_block_size. rewrite wrap_small by (unfold in_range; lia).
  rewrite Z.shiftr_div_pow2 by lia. change (2 ^ 9) with 512.
  assert ((t + 511) / 512 <= LLONG_MAX).
  { unfold LLONG_MAX. apply Z.div_le_upper_bound; lia. }
  destruct (Z.ltb_spec LLONG_MAX ((t + 511) / 512)); [lia|].
  pose proof (Z.div_mod (t + 511) 512 ltac:(lia)). pose proof (Z.mod_pos_bound (t + 511) 512 ltac:(lia)).
  lia.
Qed.

(** [statfs] reports each quantity in blocks of the file system, rounded up, when
    the block size is the power of two its logarithm says; a file system without
    block size or name length is refused. *)
Theorem statvfs_blocks_round_up sp :
  0 < bsize_bits sp < 31 → bsize sp = 2 ^ bsize_bits sp → namlen sp ≠ 0 →
  0 <= tbytes sp < 2 ^ 63 → 0 <= fbytes sp < 2 ^ 63 → 0 <= abytes sp < 2 ^ 63 →
  ∃ v, hsi_super2statvfs sp = Some v ∧ f_bsize v = bsize sp ∧ f_frsize v = bsize sp ∧
    (f_blocks v - 1) * bsize sp < tbytes sp <= f_blocks v * bsize sp ∧
    (f_bfree v - 1) * bsize sp < fbytes sp <= f_bfree v * bsize sp ∧
    (f_bavail v - 1) * bsize sp < abytes sp <= f_bavail v * bsize sp ∧
    f_files v = tfiles sp ∧ f_ffree v = ffiles sp ∧ f_favail v = afiles sp.
Proof.
  intros Hb Hbs Hn Ht Hf Ha. unfold hsi_super2statvfs.
  assert (0 < 2 ^ bsize_bits sp < 2 ^ 31) as Hp by (split; [lia|apply Z.pow_lt_mono_r; lia]).
  rewrite !(proj2 (Z.eqb_neq _ _)) by lia.
  rewrite int_bit_low by lia. rewrite Z2Nat.id by lia.
  rewrite (wrap_small 64 (2 ^ bsize_bits sp - 1)) by (unfold in_range; lia).
  assert (∀ x, 0 <= x < 2 ^ 63 → let y := wrap 64 (x + (2 ^ bsize_bits sp - 1)) >> bsize_bits sp in
    (y - 1) * bsize sp < x <= y * bsize sp) as Hceil.
  { intros x Hx y. unfold y. rewrite wrap_small by (unfold in_range; lia).
    rewrite Z.shiftr_div_pow2, Hbs by lia. set (d := 2 ^ bsize_bits sp) in *.
    pose proof (Z.div_mod (x + (d - 1)) d ltac:(lia)).
    pose proof (Z.mod_pos_bound (x + (d - 1)) d ltac:(lia)). nia. }
  eexists. split; [reflexivity|]. cbn. split_and!; try done; by apply Hceil.
Qed.
