(* ===== verification/Lookups.v ===== *)
(** * Requests, replies and lookup counts

    The contract between the kernel and the handlers: every entry a reply carries
    gives the kernel one reference to an inode number, and a [forget] gives
    references back.  The [private] field of an inode must hold that number,
    whatever the order of the requests.  The abstract state is a function [P]
    from inode numbers to counts; [Inv P R] relates it to the world. *)

From S2P Require Import Prelude Bitops Hash HList Types ErrPtr Icache NfsInode Rpc Nfs3 Acl Fuse.

(** ** The abstract specification *)

(** The inode numbers a reply hands to the kernel. *)
Definition dirent_grants (d : dirent) : list Z :=
  match d with DirentPlus _ e _ => [fe_ino e] | Dirent _ _ _ => [] end.
Definition grants (r : fuse_reply) : list Z :=
  match r with
  | reply_entry e | reply_create e _ => [fe_ino e]
  | reply_dirbuf entries _ => entries ≫= dirent_grants
  | _ => []
  end.
Definition occurrences (l : list Z) (i : Z) : Z := Z.of_nat (count_occ Z.eq_dec l i).
Definition granted (rs : list fuse_reply) (i : Z) : Z := occurrences (rs ≫= grants) i.
(** The references a request gives back. *)
Definition forgotten (req : request) (i : Z) : Z :=
  match req with Req_forget ino n => if i =? ino then n else 0 | _ => 0 end.

(** The entries a handler counts: all it sends, except that [hsx_fuse_link] sends
    an entry without counting it. *)
Definition counted (req : request) (rs : list fuse_reply) (i : Z) : Z :=
  match req with Req_link _ _ _ => 0 | _ => granted rs i end.

(** [d] more lookups of the number [ino]. *)
Definition bump (P : Z → Z) (ino d : Z) : Z → Z := λ i, P i + if i =? ino then d else 0.

Section Spec.
Context {E : Env}.

Definition unknown (w : world) (ino : Z) : Prop :=
  ∀ a n, w_heap w !! a = Some n → ino_of n ≠ ino.

(** The requests that are dropped without a reply: the ones that name an unknown
    inode and whose handler then returns at once. *)
Definition dropped (req : request) (w : world) : Prop :=
  match req with
  | Req_mkdir p _ _ | Req_rmdir p _ | Req_create p _ _ _ _ _ => unknown w p
  | Req_readlink ino | Req_access ino _ => unknown w ino
  | Req_link ino p _ => unknown w p ∨ unknown w ino
  | _ => False
  end.

(** The replies that are not one: none for a dropped request; [hsx_fuse_setxattr]
    sends its reply twice once it has found the inode and the attribute. *)
Definition exception (req : request) (rs : list fuse_reply) (w : world) : Prop :=
  match req with
  | Req_setxattr _ _ _ => ∃ err, rs = [reply_err err; reply_err err]
  | _ => rs = [] ∧ dropped req w
  end.

(** From counts [P] and replies [R], the code sends one reply (or the ones [D]
    allows) and the counts grow by [C] of the replies sent and fall by the [F]
    references given back. *)
Definition answers (C : list fuse_reply → Z → Z) (D : list fuse_reply → world → Prop) (F P : Z → Z)
    (R : list fuse_reply) (m : M world unit) : Prop :=
  ∀ w, Inv P R w → wlp m (λ _ w', ∃ rs, (D rs w' ∨ ∃ r, rs = [r]) ∧
    Inv (λ i, P i + C rs i - F i) (rs ++ R) w') w.
End Spec.

(** ** Rules *)

Section Rules.
Context {E : Env} `{!EnvOk E}.
Context (D : list fuse_reply → world → Prop).
Implicit Types (P F : Z → Z) (R : list fuse_reply).

(** [Inv] depends on the counts, not on the function that gives them. *)
#[global] Instance Inv_proper :
  Proper (pointwise_relation Z eq ==> eq ==> eq ==> iff) Inv.
Proof.
  intros P P' HP R ? <- w ? <-. split; intros [Hwf [Hu Hf] Hr]; (split; [done| |done]); split.
  - intros a n Hn. rewrite <-HP. eauto.
  - intros i Hi. rewrite <-HP. eauto.
  - intros a n Hn. rewrite HP. eauto.
  - intros i Hi. rewrite HP. eauto.
Qed.

Lemma occurrences_app l1 l2 i : occurrences (l1 ++ l2) i = occurrences l1 i + occurrences l2 i.
Proof. unfold occurrences. rewrite count_occ_app. lia. Qed.
Lemma occurrences_one i j : occurrences [j] i = if i =? j then 1 else 0.
Proof.
  unfold occurrences. cbn. destruct (Z.eq_dec j i) as [->|Hne]; [by rewrite Z.eqb_refl|].
  by rewrite (proj2 (Z.eqb_neq i j)) by done.
Qed.

Lemma granted_one r i : granted [r] i = occurrences (grants r) i.
Proof. unfold granted. cbn. by rewrite app_nil_r. Qed.

(** An inode's count moves by [d] with the abstract count of its number. *)
Lemma Inv_bump P R w a n d :
  Inv P R w → w_heap w !! a = Some n →
  Inv (bump P (ino_of n) d) R (w <| w_heap ::= <[a := n <| n_inode ::= λ i, i
    <| i_private := wrap 64 (P (ino_of n) + d) |> |>]> |>).
Proof.
  intros [Hwf [Hu Hf] Hr] Hn. split; [| |done].
  - apply (cache_ok_upd _ _ _ _ _ _ n); [done..|]. split; try done. cbn. intros _. by apply wrap_range.
  - change (counts (bump P (ino_of n) d) (<[a := n <| n_inode ::= λ i, i
      <| i_private := wrap 64 (P (ino_of n) + d) |> |>]> (w_heap w))). split.
    + intros b m [[<- <-]|[Hne Hm]]%lookup_insert_Some; unfold bump; cbn.
      * by rewrite Z.eqb_refl.
      * destruct (Z.eqb_spec (ino_of m) (ino_of n)) as [He|_]; [|rewrite Z.add_0_r; eauto].
        destruct Hne. by eapply (c_ino_inj _ _ _ _ _ Hwf).
    + intros i Hi. assert (ino_of n ≠ i) as Hni by (exact (Hi a _ (lookup_insert_eq _ _ _))).
      unfold bump. rewrite (proj2 (Z.eqb_neq i (ino_of n))), Z.add_0_r by congruence.
      apply Hf. intros b m Hm. destruct (decide (a = b)) as [<-|Hne]; [by simplify_eq|].
      apply (Hi b). cbn. by rewrite lookup_insert_ne.
Qed.

Lemma Inv_reply P R r w : Inv P R w → Inv P (r :: R) (w <| w_replies ::= cons r |>).
Proof. intros [Hwf [Hu Hf] <-]. by split. Qed.

Lemma wlp_upd_inode a f (Q : unit → world → Prop) w :
  (∀ n, w_heap w !! a = Some n → Q tt (w <| w_heap ::= <[a := n <| n_inode ::= f |>]> |>)) →
  wlp (upd_inode a f) Q w.
Proof. intros H. unfold wlp, upd_inode, upd. destruct (w_heap w !! a); auto. Qed.
Lemma wlp_get_inode a (Q : hsfs_inode → world → Prop) w :
  (∀ n, w_heap w !! a = Some n → Q (n_inode n) w) → wlp (get_inode a) Q w.
Proof.
  intros H. unfold wlp, get_inode, load, mbind, M_bind. destruct (w_heap w !! a); [|done]. by apply H.
Qed.

Lemma wlp_ref_inc P R a d w :
  Inv P R w → wlp (hsx_fuse_ref_inc a d)
    (λ _ w', ∃ n, w_heap w' !! a = Some n ∧ Inv (bump P (ino_of n) d) R w' ∧
       ino_of <$> w_heap w !! a = Some (ino_of n)) w.
Proof.
  intros HI. apply wlp_bind, wlp_upd_inode. intros n Hn. apply wlp_bind, wlp_get_inode.
  intros n' Hn'. exists n'. split; [done|]. cbn in Hn'. rewrite lookup_insert_eq in Hn'.
  simplify_eq. pose proof (Inv_bump _ _ _ _ _ d HI Hn) as H.
  replace (wrap 64 (P (ino_of n) + d)) with (wrap 64 (i_private (n_inode n) + d)) in H; [by rewrite Hn|].
  rewrite (cnt_used _ _ (inv_counts _ _ _ HI) _ _ Hn). apply Zplus_mod_idemp_l.
Qed.

Lemma wlp_ref_dec P R a d w :
  Inv P R w → wlp (hsx_fuse_ref_dec a d)
    (λ _ w', ∃ n, w_heap w' !! a = Some n ∧ Inv (bump P (ino_of n) (- d)) R w' ∧
       ino_of <$> w_heap w !! a = Some (ino_of n)) w.
Proof.
  intros HI. apply wlp_bind, wlp_get_inode. intros n0 Hn0. apply wlp_bind.
  unfold c_assert. destruct (d <=? _); [|done]. cbn. clear n0 Hn0.
  apply wlp_bind, wlp_upd_inode. intros n Hn. apply wlp_bind, wlp_get_inode.
  intros n' Hn'. exists n'. split; [done|]. cbn in Hn'. rewrite lookup_insert_eq in Hn'.
  simplify_eq. pose proof (Inv_bump _ _ _ _ _ (- d) HI Hn) as H.
  replace (wrap 64 (P (ino_of n) + - d)) with (wrap 64 (i_private (n_inode n) - d)) in H; [by rewrite Hn|].
  rewrite (cnt_used _ _ (inv_counts _ _ _ HI) _ _ Hn). apply Zminus_mod_idemp_l.
Qed.

(** The entry of an inode carries its number. *)
Lemma wlp_fill_reply a st w n :
  w_heap w !! a = Some n →
  wlp (hsx_fuse_fill_reply a st) (λ e w', w' = w ∧ fe_ino e = ino_of n) w.
Proof.
  intros Hn. unfold hsx_fuse_fill_reply, hsfs_generic_fillattr. apply wlp_bind, wlp_bind.
  apply wlp_get_inode. intros n' Hn'. simplify_eq. apply wlp_bind.
  destruct (shl_int 1 _); [|done]. cbn. apply wlp_bind, wlp_get_inode. intros n' Hn'. simplify_eq.
  apply wlp_bind, wlp_bind, wlp_get_inode. intros n' Hn'. simplify_eq.
  by destruct (i_sb _ =? sb_addr).
Qed.

(** Code before the reply that keeps counts and replies. *)
Lemma answers_bind C F P R {A} (m : M world A) (f : A → M world unit) :
  preserves (Inv P R) m → (∀ a, answers C D F P R (f a)) → answers C D F P R (m ≫= f).
Proof.
  intros Hm Hf w Hw. apply wlp_bind. eapply wlp_mono; [by apply Hm|]. intros a w' Hw'. by apply Hf.
Qed.
Lemma answers_ub C F P R : answers C D F P R ub.
Proof. by intros w. Qed.

(** A reply without an entry. *)
Lemma answers_reply P R r : grants r = [] → answers granted D (λ _, 0) P R (reply r).
Proof.
  intros Hg w Hw. cbn. exists [r]. split; [eauto|]. apply (Inv_reply _ _ r) in Hw.
  eapply Inv_proper, Hw; [|done..]. intros i. rewrite granted_one, Hg. unfold occurrences. cbn. lia.
Qed.

(** A handler that returns when the inode is unknown. *)
Lemma answers_silent C F P R ino (f : Z → M world unit) :
  (∀ w, unknown w ino → D [] w) → (∀ i, C [] i = F i) → (∀ a, answers C D F P R (f a)) →
  answers C D F P R (a ← hsfs_ilookup ino; if a =? 0 then mret tt else f a).
Proof.
  intros HD HF Hf w Hw. destruct (ilookup_run w ino (inv_wf _ _ _ Hw)) as (r & Hr & Hres).
  unfold wlp. rewrite (bind_ok _ _ _ _ _ Hr). destruct Hres as [[-> Hno]|(Hr0 & _)].
  - cbn. exists []. split; [left; auto|]. eapply Inv_proper, Hw; [|done..].
    intros i. rewrite HF. lia.
  - apply Z.eqb_neq in Hr0 as ->. by apply Hf.
Qed.

(** The reply that carries the entry of an inode just counted. *)
Lemma entry_reply P R a st (r : fuse_entry_param → fuse_reply) w n :
  (∀ e, grants (r e) = [fe_ino e]) → w_heap w !! a = Some n → Inv (bump P (ino_of n) 1) R w →
  wlp (e ← hsx_fuse_fill_reply a st; reply (r e)) (λ _ w', ∃ rs, (D rs w' ∨ ∃ r, rs = [r]) ∧
    Inv (λ i, P i + granted rs i - 0) (rs ++ R) w') w.
Proof.
  intros Hg Hn HI. apply wlp_bind. eapply wlp_mono; [by apply wlp_fill_reply|].
  intros e w' [-> He]. exists [r e]. split; [eauto|]. apply (Inv_reply _ _ (r e)) in HI.
  eapply Inv_proper, HI; [|done..]. intros i. unfold bump. rewrite granted_one, Hg.
  rewrite occurrences_one, He. lia.
Qed.

Lemma answers_entry P R a st r :
  (∀ e, grants (r e) = [fe_ino e]) →
  answers granted D (λ _, 0) P R
    (_ ← hsx_fuse_ref_inc a 1; e ← hsx_fuse_fill_reply a st; reply (r e)).
Proof.
  intros Hg w Hw. apply wlp_bind. eapply wlp_mono; [by apply wlp_ref_inc|].
  intros _ w' (n & Hn & HI & _). by eapply entry_reply.
Qed.

Lemma answers_reply_new P R a st r :
  (∀ e, grants (r e) = [fe_ino e]) → answers granted D (λ _, 0) P R (reply_new a st r).
Proof.
  intros Hg w Hw. unfold reply_new, hsx_fuse_ref_xchg. apply wlp_bind, wlp_bind, wlp_get_inode.
  intros n Hn. apply wlp_bind, wlp_upd_inode. intros n' Hn'. simplify_eq. cbn.
  unfold c_assert. apply wlp_bind. destruct (Z.eqb_spec (i_private (n_inode n)) 0) as [Hz|]; [|done].
  cbn. eapply entry_reply; [done|apply lookup_insert_eq|].
  pose proof (Inv_bump _ _ _ _ _ 1 Hw Hn) as H.
  replace (wrap 64 (P (ino_of n) + 1)) with 1 in H; [exact H|].
  rewrite (cnt_used _ _ (inv_counts _ _ _ Hw) _ _ Hn) in Hz. unfold wrap in *.
  by rewrite <-Zplus_mod_idemp_l, Hz.
Qed.
End Rules.

Create HintDb answers discriminated.
#[export] Hint Resolve answers_ub : answers.
#[export] Hint Extern 1 (answers _ _ _ _ _ (reply _)) => by apply answers_reply : answers.
#[export] Hint Extern 1 (answers _ _ _ _ _ (reply_new _ _ _)) => by apply answers_reply_new : answers.
#[export] Hint Extern 1 (answers _ _ _ _ _ (mbind _ (hsx_fuse_ref_inc _ _))) =>
  by apply answers_entry : answers.

(** Walks through a handler: what comes before the reply keeps the invariant by
    the hints of [pres], the replies are in [answers]. *)
Ltac ans_step :=
  match goal with
  | |- answers _ _ _ _ _ _ => solve [eauto with answers nocore]
  | |- answers _ _ _ _ _ (mbind _ _) => apply answers_bind; [solve [pres]|intros ?]
  | |- answers _ _ _ _ _ (match ?x with _ => _ end) => destruct x eqn:?
  | |- answers _ _ _ _ _ (let _ := _ in _) => cbv zeta
  end.
Ltac ans := repeat ans_step.

(** ** The handlers *)

Section Handlers.
Context {E : Env} `{!EnvOk E}.
Context (D : list fuse_reply → world → Prop) (P : Z → Z) (R : list fuse_reply).

Notation plain := (answers granted D (λ _, 0) P R).

Lemma answers_lookup p name : plain (hsx_fuse_lookup p name).
Proof. unfold hsx_fuse_lookup. ans. Qed.
Lemma answers_getattr ino : plain (hsx_fuse_getattr ino).
Proof. unfold hsx_fuse_getattr, attr_timeout. ans. Qed.
Lemma answers_setattr ino attr to_set : plain (hsx_fuse_setattr ino attr to_set).
Proof. unfold hsx_fuse_setattr, attr_timeout, hsfs_ll_setattr. ans. Qed.
Lemma answers_mknod p name mode rdev : plain (hsx_fuse_mknod p name mode rdev).
Proof. unfold hsx_fuse_mknod. ans. Qed.
Lemma answers_symlink link p name : plain (hsx_fuse_symlink link p name).
Proof. unfold hsx_fuse_symlink. ans. Qed.
Lemma answers_unlink p name : plain (hsx_fuse_unlink p name).
Proof. unfold hsx_fuse_unlink. ans. Qed.
Lemma answers_rename p name q nname flags : plain (hsx_fuse_rename p name q nname flags).
Proof. unfold hsx_fuse_rename. ans. Qed.
Lemma answers_open ino fi : plain (hsx_fuse_open ino fi).
Proof. unfold hsx_fuse_open. ans. Qed.
Lemma answers_opendir ino fi : plain (hsx_fuse_opendir ino fi).
Proof. unfold hsx_fuse_opendir. ans. Qed.
Lemma answers_release ino fi : plain (hsx_fuse_release ino fi).
Proof. unfold hsx_fuse_release. ans. Qed.
Lemma answers_getxattr ino name size : plain (hsx_fuse_getxattr ino name size).
Proof. unfold hsx_fuse_getxattr. ans. Qed.
Lemma answers_statfs ino : plain (hsx_fuse_statfs ino).
Proof. unfold hsx_fuse_statfs. ans. Qed.

Lemma preserves_read_loop fuel inode size off : ∀ buf cnt,
  preserves (Inv P R) (read_loop fuel inode size off buf cnt).
Proof. induction fuel; intros buf cnt; cbn [read_loop]; pres. Qed.
Lemma preserves_write_loop fuel inode buf size off stable : ∀ cnt,
  preserves (Inv P R) (write_loop fuel inode buf size off stable cnt).
Proof. induction fuel; intros cnt; cbn [write_loop]; pres. Qed.
#[local] Hint Resolve preserves_read_loop preserves_write_loop : pres.
Lemma answers_read fuel ino size off : plain (hsx_fuse_read fuel ino size off).
Proof. unfold hsx_fuse_read. ans. Qed.
Lemma answers_write fuel ino buf size off fi : plain (hsx_fuse_write fuel ino buf size off fi).
Proof. unfold hsx_fuse_write. ans. Qed.

(** The entries of a plain directory grant nothing. *)
Lemma dir_loop_grants ctx size out len :
  out ≫= dirent_grants = [] → (dir_loop ctx size out len).1 ≫= dirent_grants = [].
Proof.
  revert out len. induction ctx as [|c ctx IH]; intros out len Hout; cbn; [done|].
  destruct (_ <=? _); [done|]. apply IH. by rewrite bind_app, Hout.
Qed.
Lemma answers_readdir ino size off : plain (hsx_fuse_readdir ino size off).
Proof.
  unfold hsx_fuse_readdir. cbn [fuse_free_ctx]. ans.
  match goal with H : dir_loop ?c _ _ _ = _ |- _ =>
    pose proof (dir_loop_grants c size [] 0 eq_refl) as Hg; rewrite H in Hg end.
  intros w Hw. apply wlp_bind. by apply answers_reply.
Qed.

Lemma wlp_plus_loop ctx size : ∀ P out len w,
  Inv P R w → wlp (plus_loop ctx size out len) (λ r w', ∃ new,
    r.1 = out ++ new ∧ Inv (λ i, P i + occurrences (new ≫= dirent_grants) i) R w') w.
Proof.
  induction ctx as [|c ctx IH]; intros P0 out len w Hw; cbn [plus_loop].
  - cbn. exists []. rewrite app_nil_r. split; [done|]. eapply Inv_proper, Hw; [|done..].
    intros i. unfold occurrences. cbn. lia.
  - apply wlp_bind. destruct (w_heap w !! rc_inode c) as [n|] eqn:Hn; cycle 1.
    { unfold wlp, hsx_fuse_fill_reply, hsfs_generic_fillattr, get_inode, load, mbind, M_bind.
      by rewrite Hn. }
    eapply wlp_mono; [by apply wlp_fill_reply|]. intros e w' [-> He].
    destruct (_ <=? _).
    { cbn. exists []. rewrite app_nil_r. split; [done|]. eapply Inv_proper, Hw; [|done..].
      intros i. unfold occurrences. cbn. lia. }
    apply wlp_bind. eapply wlp_mono; [by apply wlp_ref_inc|]. intros v w' (n' & Hn' & HI & Hi). rewrite Hn in Hi. injection Hi as Hi.
    eapply wlp_mono; [by apply IH|]. cbn. intros r w2 (new & -> & HI2).
    eexists (DirentPlus _ e _ :: new). rewrite <-app_assoc. split; [done|].
    eapply Inv_proper, HI2; [|done..]. intros i. cbn [mbind list_bind dirent_grants].
    change (dirent_grants (DirentPlus (rc_name c) e (rc_off c))) with [fe_ino e].
    rewrite occurrences_app, occurrences_one, He, Hi. unfold bump. lia.
Qed.

Lemma answers_readdir_plus ino size off : plain (hsx_fuse_readdir_plus ino size off).
Proof.
  unfold hsx_fuse_readdir_plus. cbn [fuse_free_ctx]. ans.
  intros w Hw. apply wlp_bind. eapply wlp_mono; [by apply wlp_plus_loop|].
  intros [out len] w' (new & Hout & HI). cbn in Hout. subst out. cbn.
  eexists [_]. split; [eauto|]. apply (Inv_reply _ _ (reply_dirbuf new len)) in HI.
  eapply Inv_proper, HI; [|done..]. intros i. rewrite granted_one. cbn [grants]. lia.
Qed.

Lemma answers_forget ino n : answers granted D (forgotten (Req_forget ino n)) P R (hsx_fuse_forget ino n).
Proof.
  intros w Hw. unfold hsx_fuse_forget.
  destruct (ilookup_run w ino (inv_wf _ _ _ Hw)) as (r & Hr & Hres).
  unfold wlp. rewrite (bind_ok _ _ _ _ _ Hr).
  destruct Hres as [[-> Hno]|(Hr0 & n0 & Hn0 & Hino)]; [done|]. apply Z.eqb_neq in Hr0 as ->.
  apply wlp_bind. cbn. apply wlp_bind. eapply wlp_mono; [by apply wlp_ref_dec|]. intros v w1 (n1 & Hn1 & HI & Hi).
  apply wlp_bind. eapply (wlp_mono _ (λ _ w', Inv (bump P (ino_of n1) (- n)) R w')).
  { destruct (v =? 0); [by apply preserves_iput|done]. }
  intros _ w2 HI2. cbn. exists [reply_none]. split; [eauto|].
  apply (Inv_reply _ _ reply_none) in HI2. eapply Inv_proper, HI2; [|done..]. intros i.
  rewrite granted_one. unfold bump, occurrences. cbn. rewrite Hn0 in Hi. injection Hi as <-.
  rewrite Hino. destruct (i =? ino); lia.
Qed.

(** The handlers that drop a request for an unknown inode. *)
Lemma answers_mkdir p name mode :
  (∀ w, unknown w p → D [] w) → plain (hsx_fuse_mkdir p name mode).
Proof. intros HD. apply answers_silent; [done..|]. intros a. ans. Qed.
Lemma answers_rmdir p name : (∀ w, unknown w p → D [] w) → plain (hsx_fuse_rmdir p name).
Proof. intros HD. apply answers_silent; [done..|]. intros a. ans. Qed.
Lemma answers_create p name mode uid gid fi :
  (∀ w, unknown w p → D [] w) → plain (hsx_fuse_create p name mode uid gid fi).
Proof. intros HD. apply answers_silent; [done..|]. intros a. ans. Qed.
Lemma answers_readlink ino : (∀ w, unknown w ino → D [] w) → plain (hsx_fuse_readlink ino).
Proof. intros HD. apply answers_silent; [done..|]. intros a. ans. Qed.
Lemma answers_access ino mask : (∀ w, unknown w ino → D [] w) → plain (hsx_fuse_access ino mask).
Proof. intros HD. apply answers_silent; [done..|]. intros a. ans. Qed.
End Handlers.

#[export] Hint Resolve answers_lookup answers_getattr answers_setattr answers_mknod answers_symlink
  answers_unlink answers_rename answers_open answers_opendir answers_release answers_statfs answers_getxattr
  answers_read answers_write answers_readdir answers_readdir_plus answers_forget answers_mkdir
  answers_rmdir answers_create answers_readlink answers_access : answers.

Section Protocol.
Context {E : Env} `{!EnvOk E}.
Implicit Types (P : Z → Z) (R : list fuse_reply).

Lemma preserves_fill_reply a st P R : preserves (Inv P R) (hsx_fuse_fill_reply a st).
Proof. unfold hsx_fuse_fill_reply. pres. Qed.
#[local] Hint Resolve preserves_fill_reply : pres.
Lemma answers_uncounted D P R r : answers (λ _ _, 0) D (λ _, 0) P R (reply r).
Proof.
  intros w Hw. cbn. exists [r]. split; [eauto|]. apply (Inv_reply _ _ r) in Hw.
  eapply Inv_proper, Hw; [|done..]. intros i. lia.
Qed.
#[local] Hint Resolve answers_uncounted : answers.
(** The second reply is the first again. *)
Lemma answers_twice ino name value err P R :
  answers granted (exception (Req_setxattr ino name value)) (λ _, 0) P R
    (reply (reply_err err);; reply (reply_err err)).
Proof.
  intros w Hw. cbn. exists [reply_err err; reply_err err]. split; [left; by exists err|].
  apply (Inv_reply _ _ (reply_err err)), (Inv_reply _ _ (reply_err err)) in Hw.
  eapply Inv_proper, Hw; [|done..]. intros i. unfold granted, occurrences. cbn. lia.
Qed.
#[local] Hint Resolve answers_twice : answers.
Lemma answers_setxattr ino name value P R :
  answers granted (exception (Req_setxattr ino name value)) (λ _, 0) P R
    (hsx_fuse_setxattr ino name value).
Proof. unfold hsx_fuse_setxattr. ans. Qed.
Lemma answers_link ino p name P R :
  answers (λ _ _, 0) (exception (Req_link ino p name)) (λ _, 0) P R (hsx_fuse_link ino p name).
Proof.
  apply answers_silent; [by split; [|left]|done|]. intros a.
  apply answers_silent; [by split; [|right]|done|]. intros b. ans.
Qed.

(** Every request: the lemma behind the theorems below. *)
Lemma hsfs_oper_answers req P R :
  answers (counted req) (exception req) (forgotten req) P R (hsfs_oper req).
Proof.
  destruct req; cbn [hsfs_oper]; eauto using answers_link, answers_setxattr with answers nocore;
    solve [apply answers_mkdir || apply answers_rmdir || apply answers_create || apply answers_readlink
             || apply answers_access; by split].
Qed.

(** ** Sessions *)

(** A run of requests, each with the replies it got. *)
Inductive session : list (request * list fuse_reply) → world → world → Prop :=
| session_nil w : session [] w w
| session_cons req rs tr w w1 w2 :
    hsfs_oper req w = Ok (tt, w1) → w_replies w1 = rs ++ w_replies w →
    session tr w1 w2 → session ((req, rs) :: tr) w w2.

Definition total (f : request → list fuse_reply → Z → Z) (tr : list (request * list fuse_reply))
    (i : Z) : Z := foldr (λ p acc, f p.1 p.2 i + acc) 0 tr.

(** What one request of a session got: one reply, or an exception. *)
Definition replied (p : request * list fuse_reply) : Prop :=
  (∃ r, p.2 = [r]) ∨ ∃ w, exception p.1 p.2 w.

Lemma session_Inv tr w w' P R :
  session tr w w' → Inv P R w →
  Forall replied tr ∧
  ∃ R', Inv (λ i, P i + total counted tr i - total (λ req _, forgotten req) tr i) R' w'.
Proof.
  intros Hs. revert P R. induction Hs as [w|req rs tr w w1 w2 Hrun Hrep _ IH]; intros P R HI.
  - split; [constructor|]. exists R. eapply Inv_proper, HI; [|done..]. intros i. cbn. lia.
  - pose proof (hsfs_oper_answers req P R w HI) as Ha. unfold wlp in Ha. rewrite Hrun in Ha.
    destruct Ha as (rs' & Hone & HI1). assert (rs' = rs) as ->.
    { pose proof (inv_replies _ _ _ HI1) as H1. rewrite Hrep, (inv_replies _ _ _ HI) in H1.
      symmetry. by apply app_inv_tail in H1. }
    destruct (IH _ _ HI1) as (Hall & R' & HI2). split.
    + constructor; [|done]. destruct Hone as [Hd|Hr]; [right|left]; eauto.
    + exists R'. eapply Inv_proper, HI2; [|done..]. intros i. unfold total. cbn. lia.
Qed.

(** The total versions of two steps of [hsx_fuse_forget]. *)
Lemma ref_dec_run w P R a n d :
  Inv P R w → w_heap w !! a = Some n → 0 <= d <= P (ino_of n) → P (ino_of n) < 2 ^ 64 →
  ∃ n' w', hsx_fuse_ref_dec a d w = Ok (i_private (n_inode n'), w') ∧ w_heap w' !! a = Some n' ∧
    Inv (bump P (ino_of n) (- d)) R w' ∧ i_count (n_inode n') = i_count (n_inode n).
Proof.
  intros HI Hn Hle Hlt. pose proof (cnt_used _ _ (inv_counts _ _ _ HI) _ _ Hn) as Hp.
  rewrite wrap_small in Hp by (unfold in_range; lia).
  set (n' := n <| n_inode ::= λ i, i <| i_private ::= λ p, wrap 64 (p - d) |> |>).
  set (w1 := w <| w_heap ::= <[a := n']> |>).
  assert (w_heap w1 !! a = Some n') as Hn1 by apply lookup_insert_eq.
  exists n', w1. split_and!; [|done| |done].
  - unfold hsx_fuse_ref_dec, upd_inode. mstep (get_inode_run _ _ _ Hn). rewrite Hp.
    rewrite (proj2 (Z.leb_le d _)) by lia. mstep. mstep (upd_run _ _ _ _ Hn).
    by mstep (get_inode_run _ _ _ Hn1).
  - pose proof (Inv_bump _ _ _ _ _ (- d) HI Hn) as H. rewrite <-Hp in H. exact H.
Qed.
Lemma iput_returns w P R a n :
  Inv P R w → w_heap w !! a = Some n → i_count (n_inode n) ≠ INT_MIN →
  ∃ w', hsfs_iput hsi_nfs_sop a w = Ok (tt, w') ∧ Inv P R w'.
Proof.
  intros HI Hn Hc%Z.eqb_neq. pose proof (iput_run hsi_nfs_sop _ _ _ (inv_wf _ _ _ HI) Hn) as Hput.
  rewrite Hc in Hput. eexists. split; [exact Hput|].
  pose proof (preserves_iput hsi_nfs_sop P R a w HI) as H. unfold wlp in H. by rewrite Hput in H.
Qed.

(** * Properties *)

(** C3. Whatever requests arrive and whatever the server answers, the inode cache
    stays well formed: both hash tables index exactly the cached inodes, and inode
    numbers and file identities stay unique. *)
Theorem requests_keep_the_cache w tr w' :
  icache_wf w → session tr w w' → icache_wf w'.
Proof.
  intros Hwf Hs. destruct (icache_wf_Inv w Hwf) as (P & HI & _).
  destruct (session_Inv _ _ _ _ _ Hs HI) as (_ & R' & HI'). apply HI'.
Qed.


(** C4. The lookup counts follow the kernel's: after a session without [link]
    requests, the count of every inode number has grown by the entries sent for it
    and fallen by the references forgotten. *)
Theorem lookup_counts_follow_the_kernel w tr w' P R :
  Inv P R w → session tr w w' →
  (∀ req rs, (req, rs) ∈ tr → match req with Req_link _ _ _ => False | _ => True end) →
  ∃ R', Inv (λ i, P i + total (λ _, granted) tr i - total (λ req _, forgotten req) tr i) R' w'.
Proof.
  intros HI Hs Hl. destruct (session_Inv _ _ _ _ _ Hs HI) as (_ & R' & HI'). exists R'.
  eapply Inv_proper, HI'; [|done..]. intros i. do 2 f_equal. clear - Hl.
  induction tr as [|[req rs] tr IH]; cbn; [done|]. f_equal; [|apply IH; set_solver].
  specialize (Hl req rs ltac:(set_solver)). by destruct req.
Qed.

(** A kernel that forgets no more than it was given never stops the process: the
    assertion of [hsx_fuse_ref_dec] holds and the count falls by [n]. *)
Theorem forget_within_count_returns w P R ino n a nd :
  Inv P R w → w_heap w !! a = Some nd → ino_of nd = ino →
  0 <= n <= P ino → P ino < 2 ^ 64 → i_count (n_inode nd) ≠ INT_MIN →
  ∃ w', hsx_fuse_forget ino n w = Ok (tt, w') ∧ Inv (bump P ino (- n)) (reply_none :: R) w'.
Proof.
  intros HI Hn Hi Hle Hlt Hcnt. destruct (ref_dec_run w P R a nd n HI Hn) as (nd' & w1 & Hdec & Hn1 & HI1 & Hc1).
  { rewrite Hi. lia. }
  { rewrite Hi. done. }
  destruct (iput_returns w1 _ R a nd' HI1 Hn1) as (w2 & Hput & HI2); [by rewrite Hc1|].
  pose proof (ok_nonzero _ _ (c_node _ _ _ _ _ (inv_wf _ _ _ HI) _ _ Hn)) as Ha%Z.eqb_neq.
  exists ((if i_private (n_inode nd') =? 0 then w2 else w1) <| w_replies ::= cons reply_none |>). split.
  - unfold hsx_fuse_forget. mstep (ilookup_known _ _ _ _ (inv_wf _ _ _ HI) Hn Hi). rewrite Ha.
    mstep. mstep Hdec. destruct (i_private (n_inode nd') =? 0); [by mstep Hput|done].
  - apply Inv_reply. rewrite <-Hi. by destruct (i_private (n_inode nd') =? 0).
Qed.

(** C40. [hsx_fuse_link] hands out an entry it does not count: when the kernel gives
    back what it was given, the assertion in [hsx_fuse_ref_dec] stops the process. *)
Theorem link_entry_breaks_forget w P R ino p name w' e :
  Inv P R w → in_range 64 (P ino) →
  hsx_fuse_link ino p name w = Ok (tt, w') → w_replies w' = reply_entry e :: R →
  hsx_fuse_forget ino (P ino + granted [reply_entry e] (fe_ino e)) w' = Abort.
Proof.
  intros HI Hr Hrun Hrep. rewrite granted_one. cbn [grants]. rewrite occurrences_one, Z.eqb_refl.
  pose proof (answers_link ino p name P R w HI) as Ha. unfold wlp in Ha. rewrite Hrun in Ha.
  destruct Ha as (rs & _ & HI').
  destruct (ilookup_run w' ino (inv_wf _ _ _ HI')) as (r & Hr' & [[-> _]|(Hr0 & n & Hn & Hi)]).
  - unfold hsx_fuse_forget, mbind, M_bind. by rewrite Hr'.
  - pose proof (cnt_used _ _ (inv_counts _ _ _ HI') _ _ Hn) as Hp. rewrite Hi in Hp.
    replace (P ino + 0 - 0) with (P ino) in Hp by lia. rewrite wrap_small in Hp by done.
    unfold hsx_fuse_forget. rewrite (bind_ok _ _ _ _ _ Hr'). apply Z.eqb_neq in Hr0 as ->.
    unfold hsx_fuse_ref_dec, get_inode, load, mbind, M_bind. cbn. rewrite Hn. cbn.
    rewrite Hp. by rewrite (proj2 (Z.leb_gt _ _)) by lia.
Qed.

End Protocol.
