(* ===== verification/Failures.v ===== *)
(** * Failures of the server

    The NFSv3 procedure each request is translated to, and what the kernel gets
    when the server refuses it or does not answer. *)

From S2P Require Import Prelude Bitops Hash HList Types ErrPtr Icache NfsInode Rpc Nfs3 Acl Fuse Attrs Lookups.

(** ** Running code *)

(** [run] steps through a handler whose calls have known outcomes: the equations
    [call w = Ok (_, _)] in the context and in the database [run]. *)
Create HintDb run discriminated.
#[export] Hint Constants Opaque : run.
Ltac run_step :=
  first
  [ progress (cbn [negb orb andb Z.eqb])
  | match goal with H : ?b = _ |- context [if ?b then _ else _] => rewrite H end
  | match goal with H : ?b = _ |- context [if negb ?b then _ else _] => rewrite H end
  | etransitivity; [eapply bind_ok; solve [eauto with run nocore]|cbv beta] ].
Ltac run := repeat run_step.

Section Wire.
Context {E : Env}.

(** The inode with number [ino]. *)
Definition at_ino (w : world) (ino : Z) (n : nfs_inode) : Prop :=
  ∃ a, w_heap w !! a = Some n ∧ ino_of n = ino.
Definition in_dir (n : nfs_inode) (name : string) : diropargs3 :=
  {| do_dir := fh_bytes (n_fh n); do_name := name |}.

(** The procedure call a request becomes. *)
Inductive wire (w : world) : request → ∀ A, nfs3_call (nfs3res A) → Prop :=
| wire_lookup p np name : at_ino w p np →
    wire w (Req_lookup p name) _ (NFSPROC3_LOOKUP (in_dir np name))
| wire_getattr ino n : at_ino w ino n →
    wire w (Req_getattr ino) _ (NFSPROC3_GETATTR (fh_bytes (n_fh n)))
| wire_setattr ino n attr to_set : at_ino w ino n →
    let sattr := effective (n_inode n) (hsx_fuse_stat2iattr attr to_set stack_iattr) in
    ia_valid sattr ≠ 0 →
    wire w (Req_setattr ino attr to_set) _ (NFSPROC3_SETATTR (fh_bytes (n_fh n)) (sattr3_of sattr))
| wire_mkdir p np name mode : at_ino w p np →
    wire w (Req_mkdir p name mode) _
      (NFSPROC3_MKDIR (in_dir np name) (sattr3_zero <| sa_mode := Some (mode & 0xfff) |>))
| wire_symlink link p np name : at_ino w p np →
    wire w (Req_symlink link p name) _ (NFSPROC3_SYMLINK (in_dir np name) sattr3_zero link)
| wire_unlink p np name : at_ino w p np → name ≠ EmptyString → strlen name <= NAME_MAX →
    wire w (Req_unlink p name) _ (NFSPROC3_REMOVE (in_dir np name))
| wire_rmdir p np name : at_ino w p np →
    wire w (Req_rmdir p name) _ (NFSPROC3_RMDIR (in_dir np name))
| wire_rename p np name q nq nname : at_ino w p np → at_ino w q nq →
    name ≠ EmptyString → strlen name <= NAME_MAX → nname ≠ EmptyString → strlen nname <= NAME_MAX →
    wire w (Req_rename p name q nname 0) _ (NFSPROC3_RENAME (in_dir np name) (in_dir nq nname))
| wire_readlink ino n : at_ino w ino n →
    wire w (Req_readlink ino) _ (NFSPROC3_READLINK (fh_bytes (n_fh n)))
| wire_access ino n mask : at_ino w ino n →
    wire w (Req_access ino mask) _ (NFSPROC3_ACCESS (fh_bytes (n_fh n))
      (access_mode (S_ISDIR (ia_mode (i_iattr (n_inode n)))) mask & FULL_ACCESS))
| wire_statfs ino n : w_heap w !! sb_root (w_sb w) = Some n →
    wire w (Req_statfs ino) _ (NFSPROC3_FSSTAT (fh_bytes (n_fh n)))
| wire_readdir ino n size off : at_ino w ino n →
    wire w (Req_readdir ino size off) _
      (NFSPROC3_READDIR (fh_bytes (n_fh n)) (wrap 64 off) (n_cookieverf n) (wrap 32 size))
| wire_readdirplus ino n size off : at_ino w ino n →
    wire w (Req_readdirplus ino size off) _
      (NFSPROC3_READDIRPLUS (fh_bytes (n_fh n)) (wrap 64 off) (n_cookieverf n)
         (wrap 32 size) (wrap 32 size)).

(** The call fails with [err], whether the server says so or the RPC does, and
    the connection is up afterwards. *)
Definition fails {A} (w : world) (call : nfs3_call (nfs3res A)) (err : Z) (w1 : world) : Prop :=
  clntp (w_sb w) ∈ w_clients w1 ∧ clntp (w_sb w1) ∈ w_clients w1 ∧
  (hsi_nfs3_clnt_call (clntp (w_sb w)) call w = Ok (inr err, w1) ∨
   ∃ st, st ≠ 0 ∧ err = hsi_nfs3_stat_to_errno st ∧
     hsi_nfs3_clnt_call (clntp (w_sb w)) call w = Ok (inl (Res_fail st), w1)).

Context `{!EnvOk E}.

Lemma fails_nonzero {A} w (call : nfs3_call (nfs3res A)) err w1 : fails w call err w1 → err ≠ 0.
Proof.
  intros (_ & _ & [Hc|(st & Hst & -> & _)]); [|by apply stat_to_errno_nonzero].
  pose proof (retry_errno call (call_timeout (w_sb w)) 5 (clntp (w_sb w)) w) as H.
  unfold wlp in H. rewrite <-nfs3_call_eq, Hc in H. by apply H.
Qed.

Lemma getfh3_run w a n : w_heap w !! a = Some n → hsi_nfs3_getfh3 a w = Ok (fh_bytes (n_fh n), w).
Proof. intros Hn. unfold hsi_nfs3_getfh3. by mstep (NFS_FH_run _ _ _ Hn). Qed.
Lemma get_sb_run w : get_sb w = Ok (w_sb w, w).
Proof. done. Qed.
Lemma freeres_run w c : c ∈ w_clients w → clnt_freeres c w = Ok (tt, w).
Proof. apply live_run. Qed.
Lemma assert_nonzero (w : world) a : (a =? 0) = false → c_assert (negb (a =? 0)) w = Ok (tt, w).
Proof. by intros ->. Qed.
Lemma verf_run w a n : w_heap w !! a = Some n → __get_cookie_verf a w = Ok (n_cookieverf n, w).
Proof. intros Hn. unfold __get_cookie_verf. by mstep (load_run _ _ _ Hn). Qed.
End Wire.

#[export] Hint Resolve ilookup_known inode_sb_run getfh3_run get_sb_run freeres_run verf_run
  get_inode_run load_run
  assert_nonzero : run.

Section Failing.
Context {E : Env} `{!EnvOk E}.
Context (w : world) (Hwf : icache_wf w).

Ltac fail_op H :=
  let s := fresh "s" in destruct H as (Hc & Hc1 & [Hcall|(s & Hst & -> & Hcall)]); run; try reflexivity.

Lemma lookup_fails a n name new err w1 :
  w_heap w !! a = Some n → fails w (NFSPROC3_LOOKUP (in_dir n name)) err w1 →
  hsi_nfs3_lookup a new name w = Ok ((err, new), w1).
Proof using Hwf. intros Hn H. unfold hsi_nfs3_lookup. fail_op H. Qed.

Lemma getattr_fails a n st err w1 :
  w_heap w !! a = Some n → fails w (NFSPROC3_GETATTR (fh_bytes (n_fh n))) err w1 →
  hsi_nfs3_getattr a (Some st) w = Ok ((err, Some st), w1).
Proof using Hwf.
  intros Hn H. pose proof (proj2 (Z.eqb_neq _ _) (fails_nonzero _ _ _ _ H)) as He.
  assert (∀ fa, hsi_nfs3_do_getattr (fh_bytes (n_fh n)) fa (Some st) w = Ok ((err, fa, Some st), w1))
    as Hdo by (intros fa; unfold hsi_nfs3_do_getattr; fail_op H).
  unfold hsi_nfs3_getattr. by run.
Qed.
Lemma setattr_fails a n attr err w1 :
  w_heap w !! a = Some n → ia_valid (effective (n_inode n) attr) ≠ 0 →
  fails w (NFSPROC3_SETATTR (fh_bytes (n_fh n)) (sattr3_of (effective (n_inode n) attr))) err w1 →
  hsi_nfs_setattr hsi_nfs_sop a attr w = Ok (err, w1).
Proof using Hwf.
  intros Hn Hv H. pose proof (proj2 (Z.eqb_neq _ _) (fails_nonzero _ _ _ _ H)) as He.
  assert (∀ fa, hsi_nfs3_setattr a fa (effective (n_inode n) attr) w = Ok ((err, fa), w1)) as Hdo
    by (intros fa; unfold hsi_nfs3_setattr; fail_op H).
  unfold hsi_nfs_setattr. mstep (get_inode_run _ _ _ Hn).
  fold (effective (n_inode n) attr). apply Z.eqb_neq in Hv as ->.
  mstep (inode_sb_run _ _ _ Hwf Hn). cbn [hsi_nfs_sop sop_setattr]. mstep (Hdo _). by rewrite He.
Qed.
Lemma mkdir_fails a n name mode new err w1 :
  w_heap w !! a = Some n →
  fails w (NFSPROC3_MKDIR (in_dir n name) (sattr3_zero <| sa_mode := Some (mode & 0xfff) |>)) err w1 →
  hsi_nfs3_mkdir a new name mode w = Ok ((err, 0), w1).
Proof using Hwf. intros Hn H. unfold hsi_nfs3_mkdir. fail_op H. Qed.
Lemma symlink_fails a n link name new err w1 :
  w_heap w !! a = Some n → fails w (NFSPROC3_SYMLINK (in_dir n name) sattr3_zero link) err w1 →
  hsi_nfs3_symlink a new link name w = Ok ((err, new), w1).
Proof using Hwf. intros Hn H. unfold hsi_nfs3_symlink. fail_op H. Qed.
Lemma unlink_fails a n name err w1 :
  w_heap w !! a = Some n → fails w (NFSPROC3_REMOVE (in_dir n name)) err w1 →
  hsi_nfs3_unlink a name w = Ok (err, w1).
Proof using Hwf. intros Hn H. unfold hsi_nfs3_unlink. fail_op H. Qed.
Lemma rmdir_fails a n name err w1 :
  w_heap w !! a = Some n → fails w (NFSPROC3_RMDIR (in_dir n name)) err w1 →
  hsi_nfs3_rmdir a name w = Ok (err, w1).
Proof using Hwf. intros Hn H. unfold hsi_nfs3_rmdir. fail_op H. Qed.
Lemma rename_fails a n name b nb nname err w1 :
  w_heap w !! a = Some n → w_heap w !! b = Some nb →
  fails w (NFSPROC3_RENAME (in_dir n name) (in_dir nb nname)) err w1 →
  hsi_nfs3_rename a name b nname w = Ok (err, w1).
Proof using Hwf. intros Hn Hb H. unfold hsi_nfs3_rename. fail_op H. Qed.
Lemma readlink_fails a n err w1 :
  w_heap w !! a = Some n → fails w (NFSPROC3_READLINK (fh_bytes (n_fh n))) err w1 →
  hsi_nfs3_readlink a w = Ok ((err, None), w1).
Proof using Hwf. intros Hn H. unfold hsi_nfs3_readlink. fail_op H. Qed.
Lemma access_fails a n mask err w1 :
  w_heap w !! a = Some n → fails w (NFSPROC3_ACCESS (fh_bytes (n_fh n)) (mask & FULL_ACCESS)) err w1 →
  hsi_nfs3_access a mask w = Ok (err, w1).
Proof using Hwf. intros Hn H. unfold hsi_nfs3_access. fail_op H. Qed.
Lemma statfs_fails a n err w1 :
  w_heap w !! a = Some n → fails w (NFSPROC3_FSSTAT (fh_bytes (n_fh n))) err w1 →
  hsi_nfs3_statfs a w = Ok (err, w1).
Proof using Hwf. intros Hn H. unfold hsi_nfs3_statfs. fail_op H. Qed.
Lemma readdir_fails a n cookie count err w1 :
  w_heap w !! a = Some n →
  fails w (NFSPROC3_READDIR (fh_bytes (n_fh n)) cookie (n_cookieverf n) count) err w1 →
  hsi_nfs3_readdir a count cookie w = Ok ((err, []), w1).
Proof using Hwf. intros Hn H. unfold hsi_nfs3_readdir. fail_op H. Qed.
Lemma readdir_plus_fails a n cookie count maxc err w1 :
  w_heap w !! a = Some n →
  fails w (NFSPROC3_READDIRPLUS (fh_bytes (n_fh n)) cookie (n_cookieverf n) count maxc) err w1 →
  hsi_nfs3_readdir_plus a count cookie maxc w = Ok ((err, []), w1).
Proof using Hwf. intros Hn H. unfold hsi_nfs3_readdir_plus. fail_op H. Qed.

#[local] Hint Resolve lookup_fails getattr_fails setattr_fails mkdir_fails symlink_fails unlink_fails
  rmdir_fails rename_fails readlink_fails access_fails statfs_fails readdir_fails
  readdir_plus_fails : run.

Lemma known_nonzero a n : w_heap w !! a = Some n → (a =? 0) = false.
Proof using Hwf. intros Hn. eapply Z.eqb_neq, ok_nonzero, (c_node _ _ _ _ _ Hwf _ _ Hn). Qed.

Lemma name_checks name :
  name ≠ EmptyString → strlen name <= NAME_MAX →
  bool_decide (name = EmptyString) = false ∧ (NAME_MAX <? strlen name) = false.
Proof. intros Hn Hl. split; [by apply bool_decide_eq_false_2|by apply Z.ltb_ge]. Qed.

Lemma wire_fails req A (call : nfs3_call (nfs3res A)) err w1 :
  wire w req A call → fails w call err w1 →
  hsfs_oper req w = Ok (tt, w1 <| w_replies ::= cons (reply_err err) |>).
Proof using Hwf.
  intros Hw H. pose proof (proj2 (Z.eqb_neq _ _) (fails_nonzero _ _ _ _ H)) as He.
  destruct Hw; cbn [hsfs_oper];
    repeat match goal with Hat : at_ino _ _ _ |- _ =>
      let a := fresh "a" in let Hn := fresh "Hn" in
      destruct Hat as (a & Hn & ?); pose proof (known_nonzero _ _ Hn) end;
    repeat match goal with Hne : _ ≠ EmptyString, Hl : strlen _ <= NAME_MAX |- _ =>
      destruct (name_checks _ Hne Hl) as [? ?]; clear Hne end.
  - unfold hsx_fuse_lookup. run. reflexivity.
  - unfold hsx_fuse_getattr. run. reflexivity.
  - unfold hsx_fuse_setattr, hsfs_ll_setattr. run. reflexivity.
  - unfold hsx_fuse_mkdir. run. reflexivity.
  - unfold hsx_fuse_symlink. run. reflexivity.
  - unfold hsx_fuse_unlink. run. reflexivity.
  - unfold hsx_fuse_rmdir. run. reflexivity.
  - unfold hsx_fuse_rename. run. reflexivity.
  - unfold hsx_fuse_readlink. run. reflexivity.
  - unfold hsx_fuse_access. run. reflexivity.
  - unfold hsx_fuse_statfs. run. reflexivity.
  - unfold hsx_fuse_readdir. run. reflexivity.
  - unfold hsx_fuse_readdir_plus. run. reflexivity.
Qed.
End Failing.

(** * Properties *)

