(* ===== verification/Entries.v ===== *)
(** * What the kernel is told about files

    Complete runs of [hsx_fuse_lookup], [hsx_fuse_getattr] and [hsx_fuse_setattr]
    against a server that answers: the inode cache finds or creates the inode of
    the file, and the reply carries its number and attributes. *)

From S2P Require Import Prelude Bitops Hash HList Types ErrPtr Icache NfsInode Rpc Nfs3 Acl Fuse.
From S2P Require Import Attrs Lookups Failures.

Section Entries.
Context {E : Env} `{!EnvOk E}.

(** The server answers [call] with [out]. *)
Record served {A} (w : world) (call : nfs3_call A) (out : A) (e : est) : Prop := {
  served_live : clntp (w_sb w) ∈ w_clients w;
  served_call : env_clnt_call (clntp (w_sb w)) call (call_timeout (w_sb w)) (w_est w) =
                  (RPC_SUCCESS out, e);
}.
Lemma served_run {A} w (call : nfs3_call A) out e :
  served w call out e →
  hsi_nfs3_clnt_call (clntp (w_sb w)) call w = Ok (inl out, w <| w_est := e |>).
Proof. intros [Hl Hc]. by apply nfs3_call_success. Qed.

(** The attributes a reply of the server turns into. *)
Definition fattr_of (f : fattr3) : nfs_fattr := hsi_nfs3_fattr2fattr f (nfs_init_fattr stack_fattr).

Lemma fattr_of_valid f : (fa_valid (fattr_of f) & NFS_ATTR_FATTR =? 0) = false.
Proof.
  assert (fa_valid (fattr_of f) = Z.lor 0 NFS_ATTR_FATTR_V3) as ->
    by (unfold fattr_of, hsi_nfs3_fattr2fattr; reflexivity). vm_compute. reflexivity.
Qed.
Lemma fattr_of_usable f : f3_nlink f ≠ 0 → usable (fattr_of f) = true.
Proof.
  intros Hn. unfold usable.
  assert (fa_nlink (fattr_of f) = f3_nlink f) as -> by (unfold fattr_of, hsi_nfs3_fattr2fattr; reflexivity).
  by rewrite fattr_of_valid, (proj2 (Z.eqb_neq _ _) Hn).
Qed.

Lemma wire_fh obj :
  Z.of_nat (length obj) <= NFS_MAXFHSIZE →
  ∃ fh, nfs_copy_fh3 stack_fh (Z.of_nat (length obj)) obj = Some fh ∧ fh_ok fh ∧ fh_bytes fh = obj.
Proof.
  intros Hl. destruct (nfs_copy_fh3 stack_fh (Z.of_nat (length obj)) obj) as [fh|] eqn:Hc.
  - destruct (nfs_copy_fh3_ok _ _ _ _ stack_fh_size Hc) as (Hok & _ & Hb).
    exists fh. split_and!; [done..|]. by rewrite Hb, Nat2Z.id, firstn_all.
  - exfalso. revert Hc. unfold nfs_copy_fh3, memcpy. rewrite stack_fh_size.
    unfold NFS_MAXFHSIZE in *. rewrite !(proj2 (Z.leb_le _ _)) by lia. done.
Qed.

(** Memory is there for an inode. *)
Definition memory (w : world) : Prop :=
  is_Some (env_malloc sizeof_nfs_inode (dom (w_heap w)) (w_est w)).1.
Lemma memory_alloc w w' : memory w → alloc_inode hsi_nfs_sop w ≠ Ok (0, w').
Proof.
  intros [a Ha] Hal. unfold alloc_inode, hsi_nfs_sop, nfs_alloc_inode, malloc_inode in Hal. cbn in Hal.
  destruct (env_malloc sizeof_nfs_inode (dom (w_heap w)) (w_est w)) as [o e] eqn:Hm.
  cbn in Ha. subst o. destruct (malloc_fresh _ _ _ _ _ Hm) as (_ & Hpos & _).
  unfold gets, ext, modify, mbind, M_bind in Hal. cbn in Hal. rewrite Hm in Hal. cbn in Hal.
  rewrite (proj2 (Z.eqb_neq a 0)) in Hal by lia.
  set (w1 := w <| w_est := e |> <| w_heap ::= <[a := zero_nfs_inode]> |>) in *.
  assert (w_heap w1 !! a = Some zero_nfs_inode) as Hn by apply lookup_insert_eq.
  destruct (inode_init_always_run w1 a _ Hn) as (n' & Hi & _).
  unfold mret, M_ret in Hal. fold w1 in Hal. rewrite Hi in Hal. cbn in Hal.
  injection Hal as Hz _. lia.
Qed.

(** Of the outside world [hsi_nfs_fhget] only uses the allocator: what allocation does
    not change, it does not change. *)
Definition calm (w w' : world) : Prop :=
  ∀ J : est → Prop, (∀ size used e, J e → J (env_malloc size used e).2) → J (w_est w) → J (w_est w').

Section Quiet.
Context (J : est → Prop) (HJ : ∀ size used e, J e → J (env_malloc size used e).2).
Let I (w : world) : Prop := J (w_est w).

Lemma quiet_upd a f : preserves I (upd a f).
Proof. intros w Hw. unfold wlp, upd. by destruct (w_heap w !! a). Qed.
Lemma quiet_upd_sb f : preserves I (upd_sb f).
Proof. by intros w Hw. Qed.
Lemma quiet_get_sb : preserves I get_sb.
Proof. by intros w Hw. Qed.
Lemma quiet_malloc size n : preserves I (malloc_inode size n).
Proof using HJ.
  intros w Hw. unfold wlp, malloc_inode, ext, mbind, M_bind, gets.
  pose proof (HJ size (dom (w_heap w)) _ Hw) as Hm. by destruct (env_malloc _ _ _) as [[b|] e].
Qed.
Lemma quiet_free a : preserves I (free_inode a).
Proof. intros w Hw. unfold wlp, free_inode, load, mbind, M_bind. by destruct (w_heap w !! a). Qed.
Lemma quiet_chain_find test l : (∀ a, preserves I (test a)) → preserves I (chain_find test l).
Proof. intros Ht. induction l as [|a l IH]; cbn [chain_find]; pres; auto. Qed.
#[local] Hint Resolve quiet_upd quiet_upd_sb quiet_get_sb quiet_malloc quiet_free : pres.
Lemma quiet_id_ifind key : preserves I (__id_ifind key).
Proof. unfold __id_ifind, bucket_of. pres. apply quiet_chain_find. intros b. pres. Qed.
#[local] Hint Resolve quiet_id_ifind : pres.
Lemma quiet_pick_id fuel : preserves I (pick_id fuel).
Proof. induction fuel as [|fuel IH]; cbn [pick_id]; pres. Qed.
#[local] Hint Resolve quiet_pick_id : pres.
Lemma quiet_fhget fh fattr : preserves I (hsi_nfs_fhget hsi_nfs_sop fh fattr).
Proof using HJ.
  unfold hsi_nfs_fhget, hsfs_iget5_locked, __fh_ifind, get_new_inode, alloc_inode, inode_init_always,
    __inode_add_to_lists, table_add, nfs_init_locked, nfs_find_actor, fill_new_inode, nfs_refresh_inode,
    nfs_update_inode, ERR_PTR, bucket_of, set_nfs_fileid, hsfs_unlock_new_inode, destroy_inode, upd_inode, __iget,
    wait_on_inode.
  cbn [sop_alloc_inode sop_destroy_inode hsi_nfs_sop]. unfold nfs_alloc_inode, nfs_destroy_inode.
  pres. apply quiet_chain_find. intros b. unfold NFS_FILEID, is_bad_inode, NFS_STALE. pres.
Qed.
End Quiet.

(** [hsi_nfs_fhget] with usable attributes and memory: it returns, and the result
    is the inode of the identity, found or new. *)
Definition got_inode (k : Z * list Z) (fattr : nfs_fattr) (w : world) (a : Z) (w' : world) : Prop :=
  icache_wf w' ∧ same_rest w w' ∧ calm w w' ∧ ∃ n, w_heap w' = <[a := n]> (w_heap w) ∧ ident n = k ∧
  match w_heap w !! a with
  | Some n0 => ident n0 = k ∧ n = refreshed fattr n0
  | None => (∀ b m, w_heap w !! b = Some m → ident m ≠ k) ∧
            i_private (n_inode n) = 0 ∧ i_count (n_inode n) = 0 ∧ ∃ n1, n = new_attrs fattr n1
  end.

Lemma fhget_succeeds w fh fattr :
  icache_wf w → fh_ok fh → usable fattr = true → memory w →
  Z.of_nat (size (w_heap w)) + 2 <= cycle →
  ∃ a w', hsi_nfs_fhget hsi_nfs_sop fh fattr w = Ok (a, w') ∧
    got_inode (fa_fileid fattr, fh_bytes fh) fattr w a w'.
Proof.
  intros Hwf Hfh Hu Hm Hsz.
  destruct (fhget_run hsi_nfs_sop w fh fattr Hwf Hfh) as [(a & w' & Hrun & Hwf' & Hrest & Hp)|[_ ?]]; [|lia].
  exists a, w'. split; [done|]. split; [done|]. split; [done|]. split.
  { intros J HJ He. pose proof (quiet_fhget J HJ fh fattr w He) as Hq. unfold wlp in Hq. by rewrite Hrun in Hq. }
  destruct Hp as [[[[_ Hf]|(_ & Hal & _)] _]|[(n0 & Hn0 & Hid & n & Hh & Hk & _ & Hn)|
    (Hnone & Hno & n & Hh & Hid & Hp & _ & Hc)]].
  - congruence.
  - by destruct (memory_alloc _ _ Hm Hal).
  - exists n. rewrite Hn0. split_and!; [done| |done..].
    destruct Hk as [_ Hf Hfh' _ _ _ _ _]. unfold ident in *. by rewrite Hf, Hfh'.
  - exists (new_attrs fattr n). rewrite Hnone. split_and!; [done..|]. eauto.
Qed.

Lemma lookup_succeeds w a n name obj f e :
  icache_wf w → w_heap w !! a = Some n →
  served w (NFSPROC3_LOOKUP (in_dir n name))
    (Res_ok {| lk_object := obj; lk_obj_attributes := Some f |}) e →
  Z.of_nat (length obj) <= NFS_MAXFHSIZE → f3_nlink f ≠ 0 → memory (w <| w_est := e |>) →
  Z.of_nat (size (w_heap w)) + 2 <= cycle →
  ∃ child w', hsi_nfs3_lookup a 0 name w = Ok ((0, child), w') ∧
    got_inode (f3_fileid f, obj) (fattr_of f) (w <| w_est := e |>) child w'.
Proof.
  intros Hwf Hn Hsv Hl Hnl Hm Hsz. set (w1 := w <| w_est := e |>).
  pose proof (served_run _ _ _ _ Hsv) as Hcall. fold w1 in Hcall.
  destruct (wire_fh obj Hl) as (fh & Hfh & Hok & Hb).
  destruct (fhget_succeeds w1 fh (fattr_of f) Hwf Hok (fattr_of_usable f Hnl) Hm Hsz)
    as (child & w' & Hget & Hgot).
  rewrite Hb in Hgot. exists child, w'. split; [|exact Hgot].
  assert (clntp (w_sb w') ∈ w_clients w') as Hlive.
  { destruct Hgot as (_ & (h & s & e' & -> & Hs) & _). cbn. rewrite Hs. apply Hsv. }
  pose proof (of_option_run _ _ w1 Hfh) as Hcp. unfold hsi_nfs3_lookup. run. reflexivity.
Qed.

(** The entry of an inode. *)
Definition entry_of (w : world) (n : nfs_inode) (st : stat) : fuse_entry_param := {|
  fe_ino := ino_of n; fe_generation := 0; fe_attr := stat_of (n_inode n) st;
  fe_attr_timeout := acdirmin (w_sb w); fe_entry_timeout := acregmin (w_sb w) |}.

Lemma fill_reply_run w a n st :
  icache_wf w → w_heap w !! a = Some n →
  hsx_fuse_fill_reply a st w = Ok (entry_of w n st, w).
Proof.
  intros Hwf Hn. unfold hsx_fuse_fill_reply. mstep (fillattr_run _ _ _ st Hwf Hn). run. reflexivity.
Qed.

(** The super block, the connection and the outside world are as they were. *)
Definition unmoved (w w' : world) : Prop :=
  w_sb w' = w_sb w ∧ w_clients w' = w_clients w ∧ w_est w' = w_est w.

Definition add_lookup (n : nfs_inode) : nfs_inode :=
  n <| n_inode ::= λ i, i <| i_private ::= λ p, wrap 64 (p + 1) |> |>.

Lemma count_and_reply w a n st r :
  icache_wf w → w_heap w !! a = Some n →
  ∃ w', (_ ← hsx_fuse_ref_inc a 1; e ← hsx_fuse_fill_reply a st; reply (r e)) w = Ok (tt, w') ∧
    icache_wf w' ∧ w_heap w' = <[a := add_lookup n]> (w_heap w) ∧
    w_replies w' = r (entry_of w (add_lookup n) st) :: w_replies w ∧ unmoved w w'.
Proof.
  intros Hwf Hn. set (w1 := w <| w_heap ::= <[a := add_lookup n]> |>).
  assert (w_heap w1 !! a = Some (add_lookup n)) as Hn1 by apply lookup_insert_eq.
  assert (icache_wf w1) as Hwf1.
  { apply (cache_ok_upd _ _ _ _ _ _ n); [done..|]. split; try done. cbn. intros _. by apply wrap_range. }
  assert (hsx_fuse_ref_inc a 1 w = Ok (i_private (n_inode (add_lookup n)), w1)) as Hinc.
  { unfold hsx_fuse_ref_inc, upd_inode. mstep (upd_run _ _ _ _ Hn). by mstep (get_inode_run _ _ _ Hn1). }
  eexists. split; [mstep Hinc; mstep (fill_reply_run _ _ _ st Hwf1 Hn1); reflexivity|]. done.
Qed.

(** The super block keeps its settings, the connection stays, and of the outside world
    only the allocator was used. *)
Definition settings (s : hsfs_super) : Z * Z * Z * Z * Z := (clntp s, rsize s, wsize s, timeo s, sb_root s).
Definition steady (w w' : world) : Prop :=
  settings (w_sb w') = settings (w_sb w) ∧ w_clients w' = w_clients w ∧ calm w w'.
Lemma steady_intro w w1 w' : same_rest w w1 → calm w w1 → unmoved w1 w' → steady w w'.
Proof.
  intros (h & s & e & -> & Hs) Hc (Hsb & Hcl & He). split_and!.
  - rewrite Hsb. cbn. by rewrite Hs.
  - by rewrite Hcl.
  - intros J HJ H. rewrite He. by apply Hc.
Qed.

Lemma lookup_entry w p np name obj f e :
  icache_wf w → at_ino w p np →
  served w (NFSPROC3_LOOKUP (in_dir np name))
    (Res_ok {| lk_object := obj; lk_obj_attributes := Some f |}) e →
  Z.of_nat (length obj) <= NFS_MAXFHSIZE → f3_nlink f ≠ 0 → memory (w <| w_est := e |>) →
  Z.of_nat (size (w_heap w)) + 2 <= cycle →
  ∃ w' a n, hsx_fuse_lookup p name w = Ok (tt, w') ∧ icache_wf w' ∧
    w_heap w' = <[a := add_lookup n]> (w_heap w) ∧ ident n = (f3_fileid f, obj) ∧
    w_replies w' = reply_entry (entry_of w (add_lookup n) stack_stat) :: w_replies w ∧
    match w_heap w !! a with
    | Some n0 => ident n0 = (f3_fileid f, obj) ∧ n = refreshed (fattr_of f) n0
    | None => (∀ b m, w_heap w !! b = Some m → ident m ≠ (f3_fileid f, obj)) ∧
              i_private (n_inode n) = 0 ∧ i_count (n_inode n) = 0 ∧ ∃ n1, n = new_attrs (fattr_of f) n1
    end ∧
    steady (w <| w_est := e |>) w'.
Proof.
  intros Hwf (pa & Hp & Hi) Hsv Hl Hnl Hm Hsz.
  destruct (lookup_succeeds w pa np name obj f e Hwf Hp Hsv Hl Hnl Hm Hsz) as
    (a & w1 & Hrun & Hwf1 & Hrest & Hcalm & n & Hh & Hid & Hcase).
  assert (w_heap w1 !! a = Some n) as Hn by (by rewrite Hh, lookup_insert_eq).
  destruct (count_and_reply w1 a n stack_stat reply_entry Hwf1 Hn) as (w' & Hfin & Hwf' & Hh' & Hr' & Hun).
  pose proof (known_nonzero w Hwf _ _ Hp) as Hpz. pose proof (known_nonzero w1 Hwf1 _ _ Hn) as Haz.
  exists w', a, n. split; [unfold hsx_fuse_lookup; run; exact Hfin|]. split_and!; [done| |done| |done|].
  - by rewrite Hh', Hh, insert_insert_eq.
  - destruct Hrest as (h & s & e' & -> & Hs). rewrite Hr'. unfold entry_of. cbn. by rewrite Hs.
  - by eapply steady_intro.
Qed.

(** [hsi_nfs3_getattr] against a server that answers. *)
Lemma getattr_succeeds w a n st f e :
  icache_wf w → w_heap w !! a = Some n →
  served w (NFSPROC3_GETATTR (fh_bytes (n_fh n))) (Res_ok f) e →
  hsi_nfs3_getattr a (Some st) w =
    let st' := Some (hsi_nfs3_fattr2stat f st).2 in
    let w1 := w <| w_est := e |> in
    if same_object n (fattr_of f)
    then Ok ((0, st'), w1 <| w_heap ::= <[a := with_fattr (fattr_of f) n]> |>)
    else Ok ((- ESTALE, st'), w1).
Proof.
  intros Hwf Hn Hsv. set (w1 := w <| w_est := e |>). cbv zeta.
  pose proof (served_run _ _ _ _ Hsv) as Hcall. fold w1 in Hcall.
  assert (clntp (w_sb w1) ∈ w_clients w1) as Hlive by apply Hsv.
  assert (∀ fa, hsi_nfs3_do_getattr (fh_bytes (n_fh n)) (Some fa) (Some st) w =
    Ok ((0, Some (hsi_nfs3_fattr2fattr f fa), Some (hsi_nfs3_fattr2stat f st).2), w1)) as Hdo
    by (intros fa; unfold hsi_nfs3_do_getattr; run; reflexivity).
  pose proof (refresh_inode_run w1 a n (fattr_of f) Hn) as Href. rewrite fattr_of_valid in Href.
  unfold hsi_nfs3_getattr. run. cbn [default]. fold (fattr_of f).
  destruct (same_object n (fattr_of f)); by mstep Href.
Qed.

Lemma attr_timeout_run w a n :
  w_heap w !! a = Some n →
  attr_timeout a w = Ok (if S_ISDIR (ia_mode (i_iattr (n_inode n))) then acdirmin (w_sb w)
                         else acregmin (w_sb w), w).
Proof. intros Hn. unfold attr_timeout. run. reflexivity. Qed.

(** [hsi_nfs_setattr] against a server that carries the request out. *)
Lemma nfs_setattr_succeeds w a n attr after e :
  icache_wf w → w_heap w !! a = Some n → ia_valid (effective (n_inode n) attr) ≠ 0 →
  served w (NFSPROC3_SETATTR (fh_bytes (n_fh n)) (sattr3_of (effective (n_inode n) attr)))
    (Res_ok after) e →
  hsi_nfs_setattr hsi_nfs_sop a attr w =
    let w1 := w <| w_est := e |> in
    match after with
    | None => Ok (EAGAIN, w1)
    | Some f =>
        Ok (0, w1 <| w_heap ::= <[a := if same_object n (fattr_of f) then with_fattr (fattr_of f) n
                                       else n]> |>)
    end.
Proof.
  intros Hwf Hn Hv Hsv. set (w1 := w <| w_est := e |>). cbv zeta.
  pose proof (served_run _ _ _ _ Hsv) as Hcall. fold w1 in Hcall.
  assert (clntp (w_sb w) ∈ w_clients w1) as Hlive by apply Hsv.
  unfold hsi_nfs_setattr. mstep (get_inode_run _ _ _ Hn).
  fold (effective (n_inode n) attr). apply Z.eqb_neq in Hv as ->.
  mstep (inode_sb_run _ _ _ Hwf Hn). cbn [hsi_nfs_sop sop_setattr].
  destruct after as [f|].
  - assert (hsi_nfs3_setattr a stack_fattr (effective (n_inode n) attr) w = Ok ((0, fattr_of f), w1))
      as Hset by (unfold hsi_nfs3_setattr; run; reflexivity).
    mstep Hset. cbn [Z.eqb].
    pose proof (refresh_inode_run w1 a n (fattr_of f) Hn) as Href. rewrite fattr_of_valid in Href.
    unfold mbind, M_bind. rewrite Href. destruct (same_object n (fattr_of f)); [done|].
    unfold mret, M_ret. do 2 f_equal. unfold w1. destruct w. cbv [set]. cbn in *. by rewrite insert_id.
  - assert (∃ fa, hsi_nfs3_setattr a stack_fattr (effective (n_inode n) attr) w = Ok ((EAGAIN, fa), w1))
      as [fa Hset] by (eexists; unfold hsi_nfs3_setattr; run; reflexivity).
    by mstep Hset.
Qed.

(** The [setattr] handler, when attributes come back. *)
Lemma setattr_handler w ino a n attr to_set f e :
  let sattr := effective (n_inode n) (hsx_fuse_stat2iattr attr to_set stack_iattr) in
  icache_wf w → w_heap w !! a = Some n → ino_of n = ino → ia_valid sattr ≠ 0 →
  served w (NFSPROC3_SETATTR (fh_bytes (n_fh n)) (sattr3_of sattr)) (Res_ok (Some f)) e →
  let n' := if same_object n (fattr_of f) then with_fattr (fattr_of f) n else n in
  let w' := w <| w_est := e |> <| w_heap ::= <[a := n']> |> <| w_replies ::= cons (reply_attr (stat_of (n_inode n') stack_stat)
      (if S_ISDIR (ia_mode (i_iattr (n_inode n'))) then acdirmin (w_sb w) else acregmin (w_sb w))) |> in
  hsx_fuse_setattr ino attr to_set w = Ok (tt, w') ∧ icache_wf w'.
Proof.
  cbv zeta. intros Hwf Hn Hi Hv Hsv. pose proof (known_nonzero w Hwf _ _ Hn) as Hz.
  pose proof (nfs_setattr_succeeds w a n _ (Some f) e Hwf Hn Hv Hsv) as Hset. cbv beta iota zeta in Hset.
  set (w1 := w <| w_est := e |>) in *. unfold hsx_fuse_setattr, hsfs_ll_setattr.
  set (n' := if same_object n (fattr_of f) then with_fattr (fattr_of f) n else n) in *.
  set (w2 := w1 <| w_heap ::= <[a := n']> |>) in *.
  assert (w_heap w2 !! a = Some n') as Hn2 by apply lookup_insert_eq.
  assert (icache_wf w2) as Hwf2.
  { apply (cache_ok_upd _ _ _ _ _ _ n); [done..|]. unfold n'.
    destruct (same_object n (fattr_of f)); [apply with_fattr_keeps|by split]. }
  pose proof (fillattr_run _ _ _ stack_stat Hwf2 Hn2) as Hfill.
  pose proof (attr_timeout_run _ _ _ Hn2) as Hto.
  split; [run; reflexivity|done].
Qed.

(** * Properties *)

(** C6. A successful lookup: the cache holds exactly one inode for the file the server
    named (its file id and handle), found or newly made with the server's
    attributes; its lookup count is one more, every other inode is as it was, and
    the reply carries its number and attributes. *)
Theorem lookup_replies_entry w p np name obj f e :
  icache_wf w → at_ino w p np →
  served w (NFSPROC3_LOOKUP (in_dir np name))
    (Res_ok {| lk_object := obj; lk_obj_attributes := Some f |}) e →
  Z.of_nat (length obj) <= NFS_MAXFHSIZE → f3_nlink f ≠ 0 → memory (w <| w_est := e |>) →
  Z.of_nat (size (w_heap w)) + 2 <= cycle →
  ∃ w' a n, hsx_fuse_lookup p name w = Ok (tt, w') ∧ icache_wf w' ∧
    w_heap w' = <[a := add_lookup n]> (w_heap w) ∧ ident n = (f3_fileid f, obj) ∧
    w_replies w' = reply_entry (entry_of w (add_lookup n) stack_stat) :: w_replies w ∧
    match w_heap w !! a with
    | Some n0 => ident n0 = (f3_fileid f, obj) ∧ n = refreshed (fattr_of f) n0
    | None => (∀ b m, w_heap w !! b = Some m → ident m ≠ (f3_fileid f, obj)) ∧
              i_private (n_inode n) = 0 ∧ i_count (n_inode n) = 0 ∧ ∃ n1, n = new_attrs (fattr_of f) n1
    end.
Proof.
  intros Hwf Hp Hsv Hl Hnl Hm Hsz.
  destruct (lookup_entry w p np name obj f e Hwf Hp Hsv Hl Hnl Hm Hsz) as (w' & a & n & H). exists w', a, n. tauto.
Qed.


(** C20. A [setattr] whose request the server carries out: the cache takes the
    attributes that came back and the kernel gets them; when none came back it gets
    [EAGAIN], although the attributes were set. *)
Theorem setattr_replies_attributes w ino a n attr to_set after e :
  let sattr := effective (n_inode n) (hsx_fuse_stat2iattr attr to_set stack_iattr) in
  icache_wf w → w_heap w !! a = Some n → ino_of n = ino → ia_valid sattr ≠ 0 →
  served w (NFSPROC3_SETATTR (fh_bytes (n_fh n)) (sattr3_of sattr)) (Res_ok after) e →
  ∃ w', hsx_fuse_setattr ino attr to_set w = Ok (tt, w') ∧ icache_wf w' ∧
    match after with
    | None => w_heap w' = w_heap w ∧ w_replies w' = reply_err EAGAIN :: w_replies w
    | Some f =>
        let n' := if same_object n (fattr_of f) then with_fattr (fattr_of f) n else n in
        w_heap w' = <[a := n']> (w_heap w) ∧
        w_replies w' = reply_attr (stat_of (n_inode n') stack_stat)
          (if S_ISDIR (ia_mode (i_iattr (n_inode n'))) then acdirmin (w_sb w) else acregmin (w_sb w))
          :: w_replies w
    end.
Proof.
  cbv zeta. intros Hwf Hn Hi Hv Hsv. pose proof (known_nonzero w Hwf _ _ Hn) as Hz. destruct after as [f|].
  - destruct (setattr_handler w ino a n attr to_set f e Hwf Hn Hi Hv Hsv) as [Hrun Hwf'].
    eexists. split; [exact Hrun|]. by split.
  - pose proof (nfs_setattr_succeeds w a n _ None e Hwf Hn Hv Hsv) as Hset. cbv beta iota zeta in Hset.
    set (w1 := w <| w_est := e |>) in *. unfold hsx_fuse_setattr, hsfs_ll_setattr.
    eexists. split; [run; reflexivity|done].
Qed.

(** A [setattr] that changes nothing, such as a truncation to the present size,
    asks nothing of the server and replies with the cached attributes. *)
Lemma setattr_noop w ino a n attr to_set :
  icache_wf w → w_heap w !! a = Some n → ino_of n = ino →
  ia_valid (effective (n_inode n) (hsx_fuse_stat2iattr attr to_set stack_iattr)) = 0 →
  hsx_fuse_setattr ino attr to_set w =
    Ok (tt, w <| w_replies ::= cons (reply_attr (stat_of (n_inode n) stack_stat)
      (if S_ISDIR (ia_mode (i_iattr (n_inode n))) then acdirmin (w_sb w) else acregmin (w_sb w))) |>).
Proof.
  intros Hwf Hn Hi Hv%Z.eqb_eq. pose proof (known_nonzero w Hwf _ _ Hn) as Hz.
  assert (hsi_nfs_setattr hsi_nfs_sop a (hsx_fuse_stat2iattr attr to_set stack_iattr) w = Ok (0, w)) as Hs.
  { unfold hsi_nfs_setattr. mstep (get_inode_run _ _ _ Hn).
    fold (effective (n_inode n) (hsx_fuse_stat2iattr attr to_set stack_iattr)). by rewrite Hv. }
  pose proof (fillattr_run _ _ _ stack_stat Hwf Hn) as Hfill.
  pose proof (attr_timeout_run _ _ _ Hn) as Hto.
  unfold hsx_fuse_setattr, hsfs_ll_setattr. run. reflexivity.
Qed.

(** C39. A file the server describes without attributes: [hsi_nfs_fhget] answers with an
    error pointer, [hsi_nfs3_lookup] reports success, and the handler uses the
    error pointer as an inode. *)
Theorem lookup_without_attributes_undefined w p np name obj e :
  icache_wf w → at_ino w p np →
  served w (NFSPROC3_LOOKUP (in_dir np name))
    (Res_ok {| lk_object := obj; lk_obj_attributes := None |}) e →
  Z.of_nat (length obj) <= NFS_MAXFHSIZE → w_heap w !! (bad_hsfs_inode + ENOENT) = None →
  hsx_fuse_lookup p name w = UB.
Proof.
  intros Hwf (pa & Hp & Hi) Hsv Hl Hbad. set (w1 := w <| w_est := e |>).
  pose proof (served_run _ _ _ _ Hsv) as Hcall. fold w1 in Hcall.
  destruct (wire_fh obj Hl) as (fh & Hfh & Hok & Hb). pose proof (of_option_run _ _ w1 Hfh) as Hcp.
  assert (hsi_nfs_fhget hsi_nfs_sop fh (nfs_init_fattr stack_fattr) w1 = Ok (bad_hsfs_inode + ENOENT, w1))
    as Hget.
  { unfold hsi_nfs_fhget. mstep (ERR_PTR_run (- ENOENT) w1 ltac:(unfold ENOENT; lia)). done. }
  assert (clntp (w_sb w1) ∈ w_clients w1) as Hlive by apply Hsv.
  pose proof (known_nonzero w Hwf _ _ Hp) as Hpz.
  assert (hsi_nfs3_lookup pa 0 name w = Ok ((0, bad_hsfs_inode + ENOENT), w1)) as Hlk
    by (unfold hsi_nfs3_lookup; run; reflexivity).
  pose proof bad_inode_user as [Hb1 Hb2].
  unfold hsx_fuse_lookup. rewrite (bind_ok _ _ _ _ _ (ilookup_known _ _ _ _ Hwf Hp Hi)), Hpz.
  rewrite (bind_ok _ _ _ _ _ Hlk). cbn [negb Z.eqb].
  rewrite (proj2 (Z.eqb_neq _ 0)) by (unfold ENOENT; lia).
  unfold hsx_fuse_ref_inc, upd_inode, upd, mbind, M_bind. change (w_heap w1) with (w_heap w).
  by rewrite Hbad.
Qed.

End Entries.
