(* ===== verification/Acls.v ===== *)
(** * ACLs through the client

    The extended attribute is another form of the ACL, what is set is what is read
    back, and what setting the ACL of a directory does to its default ACL. *)

From S2P Require Import Prelude Bitops Hash HList Types ErrPtr Icache NfsInode Rpc Nfs3 Acl Fuse.
From S2P Require Import Attrs Lookups Failures Entries.

(** ** The two forms of an ACL *)

(** An entry that means something: a known tag, and an id only where it counts. *)
Definition entry_ok (e : posix_acl_entry) : Prop :=
  in_range 16 (e_perm e) ∧
  ((e_tag e ∈ [ACL_USER_OBJ; ACL_GROUP_OBJ; ACL_MASK; ACL_OTHER] ∧ e_id e = ACL_UNDEFINED_ID) ∨
   (e_tag e ∈ [ACL_USER; ACL_GROUP] ∧ in_range 32 (e_id e))).
Definition acl_ok (acl : posix_acl) : Prop :=
  Forall entry_ok acl ∧ acl ≠ [] ∧ (length acl <= 1024)%nat.

Lemma entry_ok_ranges e : entry_ok e → in_range 16 (e_perm e) ∧ in_range 32 (e_id e) ∧ 1 <= e_tag e <= 32.
Proof.
  intros [Hp [[Ht Hi]|[Ht Hi]]]; (split; [done|]; split; [try (rewrite Hi; done); done|]).
  all: repeat (apply elem_of_cons in Ht as [->|Ht]; [by vm_compute|]); by apply elem_of_nil in Ht.
Qed.

Lemma un_le16_le16 x : in_range 16 x → un_le16 (x mod 256) (x / 256 mod 256) = x.
Proof.
  unfold in_range, un_le16. intros Hx. change (2 ^ 8) with 256.
  rewrite (Z.mod_small (x / 256)); [|split; [apply Z.div_pos; lia|apply Z.div_lt_upper_bound; lia]].
  pose proof (Z.div_mod x 256 ltac:(lia)). lia.
Qed.
Lemma un_le32_le32 x : in_range 32 x →
  un_le32 (x mod 256) (x / 2 ^ 8 mod 256) (x / 2 ^ 16 mod 256) (x / 2 ^ 24 mod 256) = x.
Proof.
  unfold in_range, un_le32. intros Hx.
  rewrite (Z.mod_small (x / 2 ^ 24)); [|split; [apply Z.div_pos; lia|apply Z.div_lt_upper_bound; lia]].
  change (2 ^ 16) with (2 ^ 8 * 2 ^ 8). change (2 ^ 24) with (2 ^ 8 * 2 ^ 8 * 2 ^ 8).
  rewrite <-!Z.div_div by lia. change (2 ^ 8) with 256.
  pose proof (Z.div_mod x 256 ltac:(lia)). pose proof (Z.div_mod (x / 256) 256 ltac:(lia)).
  pose proof (Z.div_mod (x / 256 / 256) 256 ltac:(lia)). lia.
Qed.
Lemma sint_small w x : 0 < w → 0 <= x < 2 ^ (w - 1) → sint w x = x.
Proof.
  intros Hw Hx. assert (2 ^ (w - 1) <= 2 ^ w) by (apply Z.pow_le_mono_r; lia).
  unfold sint. rewrite wrap_small by (unfold in_range; lia). by destruct (Z.ltb_spec x (2 ^ (w - 1))); [|lia].
Qed.

Lemma xattr_entries_app acl : ∀ r, Forall entry_ok acl →
  xattr_entries (length acl) ((acl ≫= xattr_entry) ++ r) = Some acl.
Proof.
  induction acl as [|e acl IH]; intros r; [done|]. intros [He Hall]%list.Forall_cons.
  destruct (entry_ok_ranges e He) as (Hp & Hi & Ht).
  cbn [length mbind list_bind]. rewrite <-app_assoc. unfold xattr_entry, le16, le32. cbn [app xattr_entries].
  rewrite (un_le16_le16 (wrap 16 (e_tag e))) by (by apply wrap_range).
  rewrite (un_le16_le16 (e_perm e)), (un_le32_le32 (e_id e)) by done. rewrite IH by done.
  rewrite (wrap_small 16 (e_tag e)), (sint_small 16) by (unfold in_range; lia).
  destruct e as [tag perm id]. cbn [e_tag e_perm e_id] in *. destruct He as [_ [[Htag Hid]|[Htag _]]]; cbn in Htag.
  - cbn in Hid. subst id. by repeat (apply elem_of_cons in Htag as [->|Htag]; [done|]); apply elem_of_nil in Htag.
  - by repeat (apply elem_of_cons in Htag as [->|Htag]; [done|]); apply elem_of_nil in Htag.
Qed.
Lemma xattr_bytes_length acl : Z.of_nat (length (xattr_bytes acl)) = posix_acl_xattr_size (length acl).
Proof.
  unfold xattr_bytes, posix_acl_xattr_size. rewrite length_app. cbn [length le32].
  assert (length (acl ≫= xattr_entry) = 8 * length acl)%nat as ->; [|lia].
  induction acl as [|e acl IH]; [done|]. cbn [mbind list_bind length]. rewrite length_app, IH. cbn. lia.
Qed.

(** The ACL on the wire and back. *)
Lemma acl_of_wire_of_acl acl : Forall entry_ok acl → acl_of_wire 0 (wire_of_acl acl) = acl.
Proof.
  induction 1 as [|e acl He _ IH]; [done|]. unfold acl_of_wire, wire_of_acl in *.
  cbn [fmap list_fmap]. f_equal; [|exact IH]. destruct (entry_ok_ranges e He) as (_ & Hi & Ht).
  destruct e as [tag perm id]. cbn in *. f_equal.
  - unfold bclear. rewrite Z.ldiff_0_r. apply (sint_small 16); lia.
  - unfold sint. rewrite (wrap_small 32 id) by done. destruct (id <? 2 ^ (32 - 1)); [by apply wrap_small|].
    unfold wrap, in_range in *. rewrite Zminus_mod, Z_mod_same_full, Z.sub_0_r, Zmod_mod. by apply Z.mod_small.
Qed.

Section Acls.
Context {E : Env} `{!EnvOk E}.

Lemma from_xattr_run w w' acl :
  acl_ok acl → posix_acl_alloc (Z.of_nat (length acl)) w = Ok (true, w') →
  posix_acl_from_xattr (xattr_bytes acl) w = Ok (Some acl, w').
Proof.
  intros (Hall & Hne & Hlen) Hrun. assert (0 < length acl)%nat as Hpos by (destruct acl; [done|cbn; lia]).
  pose proof (xattr_bytes_length acl) as Hsz. unfold posix_acl_xattr_size in Hsz.
  unfold posix_acl_from_xattr. cbv zeta. rewrite Hsz.
  assert (sint 32 ((4 + 8 * Z.of_nat (length acl) - 4) / 8) = Z.of_nat (length acl)) as Hc.
  { replace (4 + 8 * Z.of_nat (length acl) - 4) with (Z.of_nat (length acl) * 8) by lia.
    rewrite Z.div_mul by lia. apply (sint_small 32); [lia|]. change (2 ^ (32 - 1)) with 2147483648. lia. }
  assert ((4 + 8 * Z.of_nat (length acl) - 4) mod 8 = 0) as Hmod.
  { replace (4 + 8 * Z.of_nat (length acl) - 4) with (Z.of_nat (length acl) * 8) by lia. apply Z_mod_mult. }
  rewrite Hc, Hmod. unfold xattr_bytes at 1. cbn [le32 app POSIX_ACL_XATTR_VERSION].
  change (un_le32 _ _ _ _ =? POSIX_ACL_XATTR_VERSION) with true. cbn [negb Z.eqb].
  rewrite (proj2 (Z.leb_gt (Z.of_nat (length acl)) 0)) by lia. mstep Hrun. cbn [negb].
  rewrite Nat2Z.id. pose proof (xattr_entries_app acl [] Hall) as Hx. rewrite app_nil_r in Hx. by rewrite Hx.
Qed.

(** The attribute in a buffer that holds it. *)
Lemma to_xattr_run acl b size :
  acl_ok acl → size = Z.of_nat (length b) →
  posix_acl_to_xattr acl (Some b) size =
    Some (if size <? posix_acl_xattr_size (length acl) then (ERANGE, b)
          else (posix_acl_xattr_size (length acl), xattr_bytes acl ++ drop (length (xattr_bytes acl)) b)).
Proof.
  intros (_ & _ & Hlen) Hsize. pose proof (xattr_bytes_length acl) as Hsz.
  assert (4 <= posix_acl_xattr_size (length acl) < 2 ^ (32 - 1)) as Hr
    by (unfold posix_acl_xattr_size; change (2 ^ (32 - 1)) with 2147483648; lia).
  unfold posix_acl_to_xattr. cbv zeta. rewrite wrap_small by (unfold in_range; lia).
  rewrite (sint_small 32) by lia. destruct (Z.ltb_spec size (posix_acl_xattr_size (length acl))); [done|].
  by destruct (Nat.ltb_spec (length b) (length (xattr_bytes acl))); [lia|].
Qed.

(** ** A server that keeps ACLs *)

(** The ACL service behind client [c] keeps an access and a default ACL for the file
    [fh]: it stores the ones the mask names and returns the ones asked for. *)
Record acl_server (c : Z) (t : Z * Z) (fh : list Z) (access dflt : est → list aclent) : Prop := {
  as_set : ∀ sec e, ∃ e', env_clnt_call c (ACLPROC3_SETACL fh sec) t e = (RPC_SUCCESS (Res_ok tt), e') ∧
    access e' = (if flag (sc_mask sec) NFS_ACL then sc_aclent sec else access e) ∧
    dflt e' = (if flag (sc_mask sec) NFS_DFACL then sc_dfaclent sec else dflt e);
  as_get : ∀ mask e, ∃ sec e',
    env_clnt_call c (ACLPROC3_GETACL fh mask) t e = (RPC_SUCCESS (Res_ok sec), e') ∧
    access e' = access e ∧ dflt e' = dflt e ∧
    (flag mask NA_ACL = true → sc_aclent sec = access e) ∧
    (flag mask NA_DFACL = true → sc_dfaclent sec = dflt e);
  as_malloc : ∀ size used e, access (env_malloc size used e).2 = access e ∧
                             dflt (env_malloc size used e).2 = dflt e;
}.
(** The inode [a] of the world has such a server, and there is memory. *)
Record acl_file (w : world) (a : Z) (n : nfs_inode) (access dflt : est → list aclent) : Prop := {
  af_wf : icache_wf w;
  af_inode : w_heap w !! a = Some n;
  af_client : acl_clntp (w_sb w) ≠ 0;
  af_live : acl_clntp (w_sb w) ∈ w_clients w;
  af_memory : memory_plenty (dom (w_heap w));
  af_server : acl_server (acl_clntp (w_sb w)) (call_timeout (w_sb w)) (fh_bytes (n_fh n)) access dflt;
}.

Section File.
Context (w : world) (a : Z) (n : nfs_inode) (access dflt : est → list aclent).
Hypothesis Hf : acl_file w a n access dflt.

Lemma acl_file_est e : acl_file (w <| w_est := e |>) a n access dflt.
Proof. by destruct Hf. Qed.

(** [e] has the ACLs of [e0]. *)
Definition same_acls (e0 e : est) : Prop := access e = access e0 ∧ dflt e = dflt e0.

Lemma acl_malloc size : ∃ e, malloc_buf size w = Ok (true, w <| w_est := e |>) ∧ same_acls (w_est w) e.
Proof.
  destruct (env_malloc size (dom (w_heap w)) (w_est w)) as [o e] eqn:Hm. exists e.
  pose proof (as_malloc _ _ _ _ _ (af_server _ _ _ _ _ Hf) size (dom (w_heap w)) (w_est w)) as Hs.
  pose proof (af_memory _ _ _ _ _ Hf size (w_est w)) as Hsome. rewrite Hm in Hs, Hsome. split; [|exact Hs].
  unfold malloc_buf. mstep. mstep (ext_run _ _ _ _ Hm). by rewrite bool_decide_eq_true_2.
Qed.
End File.

Lemma getxattr_run w a n access dflt mask : acl_file w a n access dflt → flag mask NA_ACL = true →
  ∃ e, hsi_nfs3_getxattr a mask ACL_TYPE_ACCESS w =
      Ok ((0, Some (acl_of_wire 0 (access (w_est w)))), w <| w_est := e |>) ∧
    same_acls access dflt (w_est w) e.
Proof.
  intros Hf Hmask. pose proof Hf as [Hwf Hn Hc Hl _ Hs].
  destruct (as_get _ _ _ _ _ Hs mask (w_est w)) as (sec & e1 & Hcall & Ha1 & Hd1 & Hsec & _).
  specialize (Hsec Hmask). set (w1 := w <| w_est := e1 |>).
  set (val := acl_of_wire 0 (sc_aclent sec)).
  destruct (acl_malloc w1 a n access dflt (acl_file_est _ _ _ _ _ Hf e1) (wrap 64 (8 + 8 * Z.of_nat (length val))))
    as (e2 & Hm & Ha2 & Hd2).
  assert (acl_clntp (w_sb w) ∈ w_clients (w <| w_est := e2 |>)) as Hl2 by exact Hl.
  exists e2. split; [|split; [rewrite Ha2; exact Ha1|rewrite Hd2; exact Hd1]].
  unfold hsi_nfs3_getxattr. mstep (getfh3_run _ _ _ Hn). mstep (inode_sb_run _ _ _ Hwf Hn).
  rewrite (proj2 (Z.eqb_neq _ _) Hc). mstep (nfs3_call_success _ _ _ _ _ Hl Hcall). cbv zeta. fold w1.
  change (ACL_TYPE_ACCESS =? ACL_TYPE_ACCESS) with true. fold val. unfold posix_acl_alloc. mstep Hm.
  cbn [negb]. mstep (freeres_run (w <| w_est := e2 |>) _ Hl2). unfold val. by rewrite Hsec.
Qed.

Lemma wire_array_run w a n access dflt acl : acl_file w a n access dflt →
  ∃ e, wire_array acl w = Ok (wire_of_acl acl, w <| w_est := e |>) ∧ same_acls access dflt (w_est w) e.
Proof.
  intros Hf. destruct (acl_malloc w a n access dflt Hf (12 * Z.of_nat (length acl))) as (e & Hm & Hs).
  exists e. split; [|done]. unfold wire_array. by mstep Hm.
Qed.

(** Setting the access ACL.  For a directory the old access ACL is sent as the
    default ACL. *)
Lemma setxattr_run w a n access dflt acl : acl_file w a n access dflt → acl_ok acl →
  ∃ e, hsi_nfs3_setxattr a (xattr_bytes acl) ACL_TYPE_ACCESS w = Ok (0, w <| w_est := e |>) ∧
    access e = wire_of_acl acl ∧
    dflt e = if S_ISDIR (ia_mode (i_iattr (n_inode n)))
             then wire_of_acl (acl_of_wire 0 (access (w_est w))) else dflt (w_est w).
Proof.
  intros Hf Hok. pose proof Hf as [Hwf Hn Hc Hl _ Hs]. set (dir := S_ISDIR _).
  set (mask := Z.lor (Z.lor NA_ACLCNT NA_ACL) (if dir then Z.lor NA_DFACLCNT NA_DFACL else 0)).
  destruct (acl_malloc w a n access dflt Hf (wrap 64 (8 + 8 * Z.of_nat (length acl)))) as (e1 & Hm & Ha1 & Hd1).
  set (w1 := w <| w_est := e1 |>) in *. pose proof (acl_file_est _ _ _ _ _ Hf e1) as Hf1. fold w1 in Hf1.
  assert (∃ e2 dfacl, choose_acls a ACL_TYPE_ACCESS mask dir (Some acl) w1 =
      Ok (Some (Some acl, dfacl), w <| w_est := e2 |>) ∧ same_acls access dflt e1 e2 ∧
      dfacl = if dir then Some (acl_of_wire 0 (access e1)) else None) as (e2 & dfacl & Hch & Hs2 & Hdf).
  { unfold choose_acls. change (ACL_TYPE_ACCESS =? ACL_TYPE_ACCESS) with true. destruct dir.
    - destruct (getxattr_run w1 a n access dflt mask Hf1 eq_refl) as (e2 & Hget & Hsame).
      exists e2, (Some (acl_of_wire 0 (access e1))). split; [by mstep Hget|done].
    - exists e1, None. split; [done|]. by split. }
  set (w2 := w <| w_est := e2 |>) in *. pose proof (acl_file_est _ _ _ _ _ Hf e2) as Hf2. fold w2 in Hf2.
  destruct (wire_array_run w2 a n access dflt acl Hf2) as (e3 & Harr & Hs3).
  set (w3 := w <| w_est := e3 |>). pose proof (acl_file_est _ _ _ _ _ Hf e3) as Hf3. fold w3 in Hf3.
  assert (∃ e4, (match dfacl with Some dfacl => wire_array dfacl | None => mret [] end) w3 =
      Ok (default [] (wire_of_acl <$> dfacl), w <| w_est := e4 |>) ∧ same_acls access dflt e3 e4)
    as (e4 & Harr' & Hs4).
  { destruct dfacl as [d|]; [|by exists e3].
    destruct (wire_array_run w3 a n access dflt d Hf3) as (e4 & Hd & Hs4). by exists e4. }
  set (w4 := w <| w_est := e4 |>) in *. set (dfents := default [] (wire_of_acl <$> dfacl)) in *.
  set (sec := {| sc_mask := Z.lor NFS_ACL (if dir then NFS_DFACL else 0);
    sc_aclcnt := Z.of_nat (length (wire_of_acl acl)); sc_aclent := wire_of_acl acl;
    sc_dfaclcnt := Z.of_nat (length dfents); sc_dfaclent := dfents |}).
  destruct (as_set _ _ _ _ _ Hs sec e4) as (e5 & Hcall & Ha5 & Hd5).
  assert (acl_clntp (w_sb w) ∈ w_clients w4) as Hl4 by exact Hl.
  assert (acl_clntp (w_sb w) ∈ w_clients (w <| w_est := e5 |>)) as Hl5 by exact Hl.
  exists e5. split_and!.
  - unfold hsi_nfs3_setxattr. mstep (inode_sb_run _ _ _ Hwf Hn). rewrite (proj2 (Z.eqb_neq _ _) Hc).
    mstep (get_inode_run _ _ _ Hn). cbv zeta. fold dir.
    change (ACL_TYPE_ACCESS =? ACL_TYPE_ACCESS) with true. fold mask.
    mstep (from_xattr_run _ _ _ Hok Hm). fold w1. mstep (getfh3_run w1 _ _ Hn). mstep Hch. mstep.
    mstep Harr. fold w3. mstep Harr'. fold sec.
    mstep (nfs3_call_success w4 _ _ _ _ Hl4 Hcall). by mstep (freeres_run (w <| w_est := e5 |>) _ Hl5).
  - rewrite Ha5. unfold sec. cbn [sc_mask sc_aclent]. by destruct dir.
  - rewrite Hd5. unfold sec, dfents. cbn [sc_mask sc_dfaclent]. rewrite Hdf. destruct dir; cbn.
    + by rewrite Ha1.
    + destruct Hs4 as [_ ->], Hs3 as [_ ->], Hs2 as [_ H2]. rewrite <-Hd1. exact H2.
Qed.

(** The reply to a query for the access ACL. *)
Lemma getxattr_reply w a n access dflt ino size acl :
  acl_file w a n access dflt → ino_of n = ino → acl_ok acl → access (w_est w) = wire_of_acl acl → 0 <= size →
  ∃ e, hsx_fuse_getxattr ino POSIX_ACL_XATTR_ACCESS size w =
      Ok (tt, w <| w_est := e |> <| w_replies ::= cons
        (if size =? 0 then reply_xattr ERANGE
         else if size <? posix_acl_xattr_size (length acl) then reply_err ERANGE
         else reply_buf (xattr_bytes acl)) |>) ∧ same_acls access dflt (w_est w) e.
Proof.
  intros Hf Hi Hok Hacc Hsize. pose proof Hf as [Hwf Hn _ _ _ _]. destruct Hok as (Hall & Hne & Hlen).
  pose proof (ok_nonzero _ _ (c_node _ _ _ _ _ Hwf _ _ Hn)) as Ha0%Z.eqb_neq.
  destruct (getxattr_run w a n access dflt (Z.lor (Z.lor NA_ACLCNT NA_ACL) 0) Hf eq_refl) as (e1 & Hget & Hs1).
  rewrite Hacc, acl_of_wire_of_acl in Hget by done. set (w1 := w <| w_est := e1 |>) in *.
  pose proof (acl_file_est _ _ _ _ _ Hf e1) as Hf1. fold w1 in Hf1.
  destruct (acl_malloc w1 a n access dflt Hf1 size) as (e2 & Hm & Hs2).
  exists e2. split; [|exact (conj (eq_trans (proj1 Hs2) (proj1 Hs1)) (eq_trans (proj2 Hs2) (proj2 Hs1)))].
  unfold hsx_fuse_getxattr. change (acl_type POSIX_ACL_XATTR_ACCESS) with (Some ACL_TYPE_ACCESS). cbv beta iota.
  mstep (ilookup_known _ _ _ _ Hwf Hn Hi). rewrite Ha0. cbv zeta.
  change (ACL_TYPE_ACCESS =? ACL_TYPE_ACCESS) with true. change (ACL_TYPE_ACCESS =? ACL_TYPE_DEFAULT) with false.
  mstep Hget. mstep Hm. mstep.
  pose proof (to_xattr_run acl (replicate (Z.to_nat size) 0) size (conj Hall (conj Hne Hlen))) as Hto.
  rewrite length_replicate, Z2Nat.id in Hto by done. specialize (Hto eq_refl).
  mstep (of_option_run _ _ _ Hto). pose proof (xattr_bytes_length acl) as Hl.
  assert (4 <= posix_acl_xattr_size (length acl)) as H4 by (unfold posix_acl_xattr_size; lia).
  destruct (Z.eqb_spec size 0) as [->|Hne0].
  { rewrite (proj2 (Z.ltb_lt _ _)) by lia. done. }
  destruct (Z.ltb_spec size (posix_acl_xattr_size (length acl))); [done|].
  assert (posix_acl_xattr_size (length acl) ≠ ERANGE) as Her%Z.eqb_neq
    by (unfold posix_acl_xattr_size, ERANGE; lia).
  rewrite Her. by rewrite <-Hl, Nat2Z.id, take_app_length.
Qed.

(** * Properties *)

(** An ACL survives the extended attribute: in a buffer that holds it
    [posix_acl_to_xattr] writes as many bytes as it returns, and
    [posix_acl_from_xattr] reads the same entries from them; a smaller buffer is
    left alone and reported with [ERANGE]. *)
Theorem acl_xattr_roundtrip w acl b :
  memory_plenty (dom (w_heap w)) → acl_ok acl →
  (posix_acl_xattr_size (length acl) <= Z.of_nat (length b) →
    ∃ real b' e, posix_acl_to_xattr acl (Some b) (Z.of_nat (length b)) = Some (real, b') ∧
      length b' = length b ∧
      posix_acl_from_xattr (take (Z.to_nat real) b') w = Ok (Some acl, w <| w_est := e |>)) ∧
  (Z.of_nat (length b) < posix_acl_xattr_size (length acl) →
    posix_acl_to_xattr acl (Some b) (Z.of_nat (length b)) = Some (ERANGE, b)).
Proof.
  intros Hm Hok. pose proof (to_xattr_run acl b _ Hok eq_refl) as Hto. split; intros Hlen; rewrite Hto.
  - rewrite (proj2 (Z.ltb_ge _ _)) by done. pose proof (xattr_bytes_length acl) as Hl.
    destruct (malloc_buf_any w (wrap 64 (8 + 8 * Z.of_nat (length acl)))) as (ok & e & Hrun & Hmem).
    rewrite (Hmem Hm) in Hrun. eexists _, _, e. split; [reflexivity|]. split.
    + rewrite length_app, length_drop. lia.
    + rewrite <-Hl, Nat2Z.id, take_app_length. by apply from_xattr_run.
  - by rewrite (proj2 (Z.ltb_lt _ _)).
Qed.

(** C12. What is set is what is read back: setting the access ACL of a file and asking
    for it returns the same bytes.  The reply to the first request is sent twice,
    and a query for the size (a buffer of no bytes) is answered with [ERANGE]
    instead. *)
Theorem acl_set_then_get w a n ino access dflt acl size :
  acl_file w a n access dflt → ino_of n = ino → acl_ok acl → 0 <= size →
  ∃ w1 w2, hsfs_oper (Req_setxattr ino POSIX_ACL_XATTR_ACCESS (xattr_bytes acl)) w = Ok (tt, w1) ∧
    w_replies w1 = [reply_err 0; reply_err 0] ++ w_replies w ∧
    hsfs_oper (Req_getxattr ino POSIX_ACL_XATTR_ACCESS size) w1 = Ok (tt, w2) ∧
    w_replies w2 =
      (if size =? 0 then reply_xattr ERANGE
       else if size <? Z.of_nat (length (xattr_bytes acl)) then reply_err ERANGE
       else reply_buf (xattr_bytes acl)) :: w_replies w1.
Proof.
  intros Hf Hi Hok Hsize. pose proof Hf as [Hwf Hn _ _ _ _].
  pose proof (ok_nonzero _ _ (c_node _ _ _ _ _ Hwf _ _ Hn)) as Ha0%Z.eqb_neq.
  destruct (setxattr_run w a n access dflt acl Hf Hok) as (e & Hset & Hacc & _).
  set (w1 := w <| w_est := e |> <| w_replies ::= cons (reply_err 0) |> <| w_replies ::= cons (reply_err 0) |>).
  assert (acl_file w1 a n access dflt) as Hf1 by (by destruct Hf).
  destruct (getxattr_reply w1 a n access dflt ino size acl Hf1 Hi Hok Hacc Hsize) as (e2 & Hget & _).
  exists w1. eexists. split; [|split; [done|split; [exact Hget|by rewrite xattr_bytes_length]]].
  cbn [hsfs_oper]. unfold hsx_fuse_setxattr. mstep (ilookup_known _ _ _ _ Hwf Hn Hi). rewrite Ha0.
  change (acl_type POSIX_ACL_XATTR_ACCESS) with (Some ACL_TYPE_ACCESS). cbv beta iota. by mstep Hset.
Qed.

(** Setting the access ACL of a directory also replaces its default ACL, by the
    access ACL the directory had before: [hsi_nfs3_setxattr] asks for the ACL of
    the type it is about to set. *)
Theorem directory_default_overwritten w a n ino access dflt acl :
  acl_file w a n access dflt → ino_of n = ino → acl_ok acl →
  S_ISDIR (ia_mode (i_iattr (n_inode n))) = true →
  ∃ w', hsfs_oper (Req_setxattr ino POSIX_ACL_XATTR_ACCESS (xattr_bytes acl)) w = Ok (tt, w') ∧
    access (w_est w') = wire_of_acl acl ∧
    dflt (w_est w') = wire_of_acl (acl_of_wire 0 (access (w_est w))).
Proof.
  intros Hf Hi Hok Hdir. pose proof Hf as [Hwf Hn _ _ _ _].
  pose proof (ok_nonzero _ _ (c_node _ _ _ _ _ Hwf _ _ Hn)) as Ha0%Z.eqb_neq.
  destruct (setxattr_run w a n access dflt acl Hf Hok) as (e & Hset & Hacc & Hdf). rewrite Hdir in Hdf.
  exists (w <| w_est := e |> <| w_replies ::= cons (reply_err 0) |> <| w_replies ::= cons (reply_err 0) |>).
  split; [|done]. cbn [hsfs_oper]. unfold hsx_fuse_setxattr. mstep (ilookup_known _ _ _ _ Hwf Hn Hi). rewrite Ha0.
  change (acl_type POSIX_ACL_XATTR_ACCESS) with (Some ACL_TYPE_ACCESS). cbv beta iota. by mstep Hset.
Qed.
End Acls.
