(* ===== verification/Threads.v ===== *)
(** * Lookups by several threads

    The session loop of [fuse/hsfs_main.c] runs handlers in several threads, and the
    places of [lib/hsfs_inode.c] marked [XXX LOCK] have no lock.  A thread that calls
    [hsfs_iget5_locked] searches the cache and, when it finds nothing, makes a new
    inode.  Here the two parts are the steps of a thread; threads that look for the
    same file take them in any order ([ustep]), or one thread's call at a time
    ([lstep]), as with a lock around the call. *)

From S2P Require Import Prelude Bitops Hash HList Types ErrPtr Icache NfsInode Rpc Nfs3 Acl Fuse.
From S2P Require Import Attrs Lookups Failures Entries.

(** Where a thread is in its call. *)
Inductive tstate :=
| T_start
| T_missed
| T_done (inode : Z).

Section Threads.
Context {E : Env} `{!EnvOk E}.
(** The file all threads look for. *)
Context (fh : nfs_fh) (fattr : nfs_fattr).
Hypothesis Hfh : fh_ok fh.
Let k : Z * list Z := (fa_fileid fattr, fh_bytes fh).

Definition search : M world Z := __fh_ifind (fa_fileid fattr) (nfs_find_actor fh fattr) true.
Definition make : M world Z := get_new_inode hsi_nfs_sop (fa_fileid fattr) (nfs_init_locked fh fattr).
Definition call : M world Z :=
  hsfs_iget5_locked hsi_nfs_sop (fa_fileid fattr) (nfs_find_actor fh fattr) (nfs_init_locked fh fattr).

Definition state : Type := list tstate * world.

(** Without a lock. *)
Inductive ustep : state → state → Prop :=
| ustep_search ts w i r w' :
    ts !! i = Some T_start → search w = Ok (r, w') →
    ustep (ts, w) (<[i := if r =? 0 then T_missed else T_done r]> ts, w')
| ustep_make ts w i r w' :
    ts !! i = Some T_missed → make w = Ok (r, w') →
    ustep (ts, w) (<[i := T_done r]> ts, w').

(** With a lock around the call. *)
Inductive lstep : state → state → Prop :=
| lstep_call ts w i r w' :
    ts !! i = Some T_start → call w = Ok (r, w') → lstep (ts, w) (<[i := T_done r]> ts, w').

(** A call is the two steps of one thread in a row. *)
Lemma call_steps ts w i r w' :
  ts !! i = Some T_start → call w = Ok (r, w') → rtc ustep (ts, w) (<[i := T_done r]> ts, w').
Proof.
  intros Hi Hc. unfold call, hsfs_iget5_locked in Hc. apply bind_inv in Hc as (r1 & w1 & Hs & Hc).
  eapply rtc_l; [by apply (ustep_search _ _ i r1)|]. destruct (Z.eqb_spec r1 0) as [->|Hr].
  - eapply rtc_l; [apply (ustep_make _ _ i r w'); [|exact Hc]|].
    + apply list_lookup_insert_eq. by eapply lookup_lt_Some.
    + by rewrite list_insert_insert_eq.
  - by injection Hc as -> ->.
Qed.

(** What a thread that is done holds: nothing, for lack of memory, or the inode of
    the file. *)
Definition holds (w : world) (t : tstate) : Prop :=
  match t with
  | T_done r => r = 0 ∨ ∃ n, w_heap w !! r = Some n ∧ ident n = k
  | _ => True
  end.
Definition consistent (s : state) : Prop := icache_wf s.2 ∧ Forall (holds s.2) s.1.

Lemma lstep_consistent s s' : lstep s s' → consistent s → consistent s'.
Proof.
  intros [ts w i r w' Hi Hc] [Hwf Hall]. cbn in *. unfold call in Hc.
  destruct (iget5_run hsi_nfs_sop w k _ _ Hwf (find_actor_tests fh fattr Hfh) (init_locked_sets fh fattr Hfh))
    as [(r1 & n & Hrun & Hr0 & Hn & Hid)|[Hno [(r1 & w1 & Hrun & Hwf1 & _ & Hp)|[Hrun _]]]];
    change k.1 with (fa_fileid fattr) in Hrun; rewrite Hrun in Hc; simplify_eq.
  - split; [done|]. apply Forall_insert; [done|]. cbn. eauto.
  - split; [done|]. cbn [fst snd]. destruct Hp as [(-> & Hh & _)|(Hr0 & Hnone & n & Hh & Hid & _)].
    + apply Forall_insert; [|by left]. eapply Forall_impl; [|exact Hall].
      intros [| |r1]; try done. cbn. by rewrite Hh.
    + apply Forall_insert.
      * eapply Forall_impl; [|exact Hall]. intros [| |r1]; try done. cbn.
        intros [->|(m & Hm & Hidm)]; [by left|right]. by destruct (Hno _ _ Hm).
      * right. exists n. by rewrite Hh, lookup_insert_eq.
Qed.

(** * Properties *)

(** C24. With a lock around the call, any number of threads that look for the same file,
    in any order, keep the cache well formed and end with the same inode. *)
Theorem locked_lookups_agree threads w ts w' i j r1 r2 :
  icache_wf w → rtc lstep (replicate threads T_start, w) (ts, w') →
  ts !! i = Some (T_done r1) → ts !! j = Some (T_done r2) → r1 ≠ 0 → r2 ≠ 0 →
  icache_wf w' ∧ r1 = r2.
Proof.
  intros Hwf Hsteps Hi Hj H1 H2.
  assert (consistent (replicate threads T_start, w)) as Hc.
  { split; [done|]. by apply Forall_replicate. }
  assert (consistent (ts, w')) as [Hwf' Hall].
  { revert Hc. remember (ts, w') as s' eqn:He. clear He. induction Hsteps as [|s1 s2 s3 Hstep _ IH]; [done|].
    intros Hc. apply IH. by eapply lstep_consistent. }
  split; [done|]. cbn in *.
  pose proof (Forall_lookup_1 _ _ _ _ Hall Hi) as [?|(n1 & Hn1 & Hid1)]; [done|].
  pose proof (Forall_lookup_1 _ _ _ _ Hall Hj) as [?|(n2 & Hn2 & Hid2)]; [done|].
  apply (c_ident_inj _ _ _ _ _ Hwf' r1 r2 n1 n2); congruence.
Qed.

(** C25. Without the lock two threads can both miss a file that is not cached and both
    make an inode for it: they end with different inodes of the same identity, and
    the cache is no longer well formed. *)
Theorem unlocked_lookups_duplicate w :
  icache_wf w → (∀ a n, w_heap w !! a = Some n → ident n ≠ k) →
  memory w → (∀ r1 w1, make w = Ok (r1, w1) → memory w1) →
  Z.of_nat (size (w_heap w)) + 3 <= cycle →
  ∃ r1 r2 w', rtc ustep ([T_start; T_start], w) ([T_done r1; T_done r2], w') ∧ r1 ≠ r2 ∧
    holds w' (T_done r1) ∧ holds w' (T_done r2) ∧ r1 ≠ 0 ∧ r2 ≠ 0 ∧ ¬ icache_wf w'.
Proof.
  intros Hwf Hno Hm1 Hm2 Hsz.
  destruct (fh_ifind_run (w_heap w) w (reflexivity _) (c_node _ _ _ _ _ Hwf) k _
    (c_fh _ _ _ _ _ Hwf) (find_actor_tests fh fattr Hfh)) as (r & Hs & [[-> _]|(_ & n & Hn & Hid)]);
    [|by destruct (Hno _ _ Hn)].
  pose proof (init_locked_sets fh fattr Hfh) as Hset.
  destruct (get_new_inode_run hsi_nfs_sop w k _ Hwf Hset Hno) as [(r1 & w1 & Hrun1 & Hwf1 & _ & Hp1)|[_ ?]]; [|lia].
  destruct Hp1 as [(_ & _ & Hal)|(Hr1 & Hnone & n1 & Hh1 & Hid1 & _)]; [by destruct (memory_alloc _ _ Hm1 Hal)|].
  destruct (get_new_inode_indexed hsi_nfs_sop w1 k _ (cache_ok_indexed _ _ _ _ _ Hwf1) Hset)
    as [(r2 & w2 & Hrun2 & _ & _ & Hp2)|[_ Hcyc]];
    [|rewrite Hh1, map_size_insert_None in Hcyc by done; lia].
  destruct Hp2 as [(_ & _ & Hal)|(Hr2 & Hnone2 & n2 & Hh2 & Hid2 & _)];
    [by destruct (memory_alloc _ _ (Hm2 _ _ Hrun1) Hal)|].
  assert (r1 ≠ r2) as Hne by (intros <-; rewrite Hh1, lookup_insert_eq in Hnone2; done).
  assert (w_heap w2 !! r1 = Some n1) as Hl1 by (rewrite Hh2, lookup_insert_ne, Hh1; [apply lookup_insert_eq|done]).
  assert (w_heap w2 !! r2 = Some n2) as Hl2 by (rewrite Hh2; apply lookup_insert_eq).
  exists r1, r2, w2. split_and!; [|done|right; eauto|right; eauto|done|done|].
  - eapply rtc_l; [by apply (ustep_search _ _ 0%nat 0 w)|]. eapply rtc_l; [by apply (ustep_search _ _ 1%nat 0 w)|].
    eapply rtc_l; [by apply (ustep_make _ _ 0%nat r1 w1)|]. eapply rtc_l; [by apply (ustep_make _ _ 1%nat r2 w2)|].
    done.
  - intros Hwf2. apply Hne. apply (c_ident_inj _ _ _ _ _ Hwf2 r1 r2 n1 n2); congruence.
Qed.
End Threads.
