(* ===== verification/Mounted.v ===== *)
(** * What mounting establishes

    The life of the process from [main] on: the mount procedure of [Mount] leaves a
    cache that holds the root alone, the [init] request gives the kernel its
    reference, and the sessions of [Lookups] start there.  A server that exports
    the directory is mounted; one that refuses it is reported as mounted too. *)

From S2P Require Import Prelude CString Bitops Hash HList Types ErrPtr Icache NfsInode Rpc.
From S2P Require Import ParseDev Options Nfs3 Acl Fuse Mount Attrs Lookups Failures Entries.

Section Established.
Context {E : Env} `{!EnvOk E} {ME : MountEnv E}.
Implicit Types (R : list fuse_reply).

(** ** The state before and after the super block is filled *)

(** Nothing is cached. *)
Definition bare R (w : world) : Prop := w_heap w = ∅ ∧ w_replies w = R.
(** Nothing is cached and the block size is set. *)
Definition staged R (w : world) : Prop := bare R w ∧ 0 <= bsize_bits (w_sb w) < 31.
(** At most the root is cached, and no lookup is counted. *)
Definition rooted R (w : world) : Prop :=
  Inv (λ _, 0) R w ∧ map_Forall (λ _ n, ino_of n = 1) (w_heap w).
Definition mounted R (w : world) : Prop := bare R w ∨ rooted R w.

Lemma preserves_framed_bare {A} R (m : M world A) : framed m → preserves (bare R) m.
Proof.
  intros Hm w [Hh Hr]. eapply wlp_mono; [apply Hm|]. intros a w' (Hh' & Hr' & _). split; congruence.
Qed.
Lemma preserves_framed_staged {A} R (m : M world A) : framed m → preserves (staged R) m.
Proof.
  intros Hm w [Hb Hbits]. eapply wlp_mono; [apply Hm|]. intros a w' (Hh & Hr & _ & Hs). destruct Hb.
  split; [split; congruence|]. by replace (bsize_bits (w_sb w')) with (bsize_bits (w_sb w))
    by (symmetry; exact (f_equal bsize_bits Hs)).
Qed.
(** Code that keeps the invariant and the inode numbers. *)
Definition keeps_numbers {A} (m : M world A) : Prop :=
  ∀ h, preserves (λ w, w_heap w = h) m.
Lemma preserves_rooted {A} R (m : M world A) :
  preserves (Inv (λ _, 0) R) m → keeps_numbers m → preserves (rooted R) m.
Proof.
  intros HI Hk w [Hw Hall]. specialize (HI w Hw). specialize (Hk _ w eq_refl). unfold wlp in *.
  destruct (m w) as [[a w']| | |]; [|done..]. split; [done|]. by rewrite Hk.
Qed.
Lemma keeps_framed {A} (m : M world A) : framed m → keeps_numbers m.
Proof. intros Hm h w <-. eapply wlp_mono; [apply Hm|]. by intros a w' [Hh _]. Qed.
Lemma keeps_upd_sb f : keeps_numbers (upd_sb f).
Proof. by intros h w <-. Qed.
Lemma keeps_inode_sb a : keeps_numbers (inode_sb a).
Proof. intros h. apply preserves_inode_sb. Qed.
Lemma preserves_framed_rooted {A} R (m : M world A) : framed m → preserves (rooted R) m.
Proof. intros Hm. apply preserves_rooted; [by apply preserves_framed|by apply keeps_framed]. Qed.

Lemma keeps_getfh3 a : keeps_numbers (hsi_nfs3_getfh3 a).
Proof. intros h. unfold hsi_nfs3_getfh3. pres. Qed.
Lemma keeps_call {A} c (call : nfs3_call A) : keeps_numbers (hsi_nfs3_clnt_call c call).
Proof. apply keeps_framed, framed_clnt_call. Qed.
Lemma keeps_freeres c : keeps_numbers (clnt_freeres c).
Proof. apply keeps_framed, framed_live. Qed.
#[local] Hint Resolve keeps_upd_sb keeps_inode_sb keeps_getfh3 keeps_call keeps_freeres : pres.
Ltac keeps := intros h; pres; try (match goal with |- preserves _ ?m =>
  refine ((_ : keeps_numbers m) h) end; eauto with pres nocore).

Lemma keeps_pathconf a : keeps_numbers (hsi_nfs3_pathconf a).
Proof. unfold hsi_nfs3_pathconf. keeps. Qed.
Lemma keeps_fsinfo fh fa : keeps_numbers (hsi_nfs3_fsinfo fh fa).
Proof. unfold hsi_nfs3_fsinfo, hsi_nfs3_do_getattr, get_sb. keeps. Qed.

(** ** The super block is filled *)

Lemma empty_table key : table_ok key ∅ (replicate (2 ^ 10) []).
Proof.
  split; [apply length_replicate| |by intros a n ?%lookup_empty_Some].
  intros b l a [-> _]%lookup_replicate Ha. by apply elem_of_nil in Ha.
Qed.
Lemma empty_cache c bits : 0 <= c < 2 ^ 64 → 0 <= bits < 31 →
  cache_ok ∅ (replicate (2 ^ 10) []) (replicate (2 ^ 10) []) c bits.
Proof.
  intros Hc Hb. split; [apply empty_table..|apply map_Forall_empty| | |done|done];
    intros a1 a2 n1 n2 H1; by apply lookup_empty_Some in H1.
Qed.

(** The state [hsfs_init_icache] and [curr_id = 0] leave. *)
Definition fresh_sb (s : hsfs_super) : hsfs_super :=
  s <| id_table := replicate (2 ^ HSFS_ID_HASH_BITS) [] |>
    <| fh_table := replicate (2 ^ HSFS_FH_HASH_BITS) [] |> <| curr_id := 0 |>.
(** The rest of [hsi_fill_super]. *)
Definition fill_rest (fh : list Z) : M world Z :=
  '(ret, fattr) ← hsi_nfs3_fsinfo fh (nfs_init_fattr stack_fattr);
  if negb (ret =? 0) then mret ret else
  nfh ← of_option (nfs_copy_fh3 stack_fh (Z.of_nat (length fh)) fh);
  root ← hsi_nfs_fhget hsi_nfs_sop nfh fattr;
  if IS_ERR root then mret (PTR_ERR root) else
  upd_sb (λ s, s <| sb_root := root |>);;
  i ← get_inode root;
  c_assert (i_ino i =? 1);;
  hsi_nfs3_pathconf root.
Lemma fill_super_start fh w : hsi_fill_super fh w = fill_rest fh (w <| w_sb ::= fresh_sb |>).
Proof. reflexivity. Qed.

Lemma wlp_eq {A} (m m' : M world A) Q w w' : m w = m' w' → wlp m' Q w' → wlp m Q w.
Proof. unfold wlp. by intros ->. Qed.

Lemma wlp_run {A} (m : M world A) (Q : A → world → Prop) w a w' :
  m w = Ok (a, w') → Q a w' → wlp m Q w.
Proof. unfold wlp. by intros ->. Qed.

(** The first number is 1. *)
Lemma numbered_first c : numbered ∅ 0 c → c = 1.
Proof. intros [_ H]. apply H. intros a n ?%lookup_empty_Some. done. Qed.

Lemma empty_Inv R w : staged R w → Inv (λ _, 0) R (w <| w_sb ::= fresh_sb |>).
Proof.
  intros [[Hh Hr] Hb]. split; [|split|done].
  - unfold icache_wf. cbn. rewrite Hh. apply empty_cache; [vm_compute; by split|done].
  - intros a n Hn. cbn in Hn. rewrite Hh in Hn. by apply lookup_empty_Some in Hn.
  - done.
Qed.

(** The counter of inode numbers is only moved by the cache. *)
Lemma preserves_fsinfo_fresh R fh fa :
  preserves (λ w, (Inv (λ _, 0) R w ∧ w_heap w = ∅) ∧ curr_id (w_sb w) = 0) (hsi_nfs3_fsinfo fh fa).
Proof.
  assert (∀ A (m : M world A), framed m → preserves (λ w, curr_id (w_sb w) = 0) m) as Hf.
  { intros A m Hm w Hc. eapply wlp_mono; [apply Hm|]. intros a w' (_ & _ & _ & Hs).
    rewrite <-Hc. exact (f_equal curr_id Hs). }
  assert (preserves (λ w, curr_id (w_sb w) = 0) (hsi_nfs3_fsinfo fh fa)) as Hcurr.
  { unfold hsi_nfs3_fsinfo, hsi_nfs3_do_getattr, get_sb. pres;
      first [by apply Hf, framed_clnt_call|by apply Hf, framed_live|by intros w']. }
  intros w [[HI Hh] Hc]. pose proof (preserves_fsinfo (λ _, 0) R fh fa w HI) as H1.
  pose proof (keeps_fsinfo fh fa ∅ w Hh) as H2. specialize (Hcurr w Hc). unfold wlp in *.
  by destruct (hsi_nfs3_fsinfo fh fa w) as [[a w']| | |].
Qed.

Lemma fill_super_rooted R fh w : staged R w → wlp (hsi_fill_super fh) (λ _ w', rooted R w') w.
Proof.
  intros Hst. apply (wlp_eq _ _ _ _ _ (fill_super_start fh w)), wlp_bind. eapply wlp_mono.
  { apply (preserves_fsinfo_fresh R). split; [split; [by apply empty_Inv|apply Hst]|done]. }
  intros [ret fattr] w1 [[HI1 Hh1] Hc1]. cbn beta iota.
  assert (∀ w', Inv (λ _, 0) R w' → w_heap w' = ∅ → rooted R w') as Hemp.
  { intros w' HI' Hh'. split; [done|]. rewrite Hh'. apply map_Forall_empty. }
  destruct (negb (ret =? 0)); [by apply Hemp|].
  apply wlp_bind. destruct (nfs_copy_fh3 _ _ _) as [nfh|] eqn:Hcp; [|done]. cbn [of_option].
  apply wlp_bind. pose proof (preserves_fhget hsi_nfs_sop (λ _, 0) R nfh fattr) as Hfh.
  destruct (nfs_copy_fh3_ok _ _ _ _ stack_fh_size Hcp) as (Hok & _). specialize (Hfh Hok w1 HI1).
  destruct (fhget_run hsi_nfs_sop w1 nfh fattr (inv_wf _ _ _ HI1) Hok) as [(r & w2 & Hrun & _ & _ & Hp)|[Hrun _]];
    [|unfold wlp at 1; cbn; by rewrite Hrun].
  unfold wlp in Hfh. rewrite Hrun in Hfh. apply (wlp_run _ _ _ _ _ Hrun).
  assert (rooted R w2) as Hroot.
  { destruct Hp as [[_ Hh]|[(n0 & Hn0 & _)|(_ & _ & n & Hh & _ & _ & Hnum & _)]].
    - apply Hemp; [done|]. by rewrite Hh.
    - rewrite Hh1 in Hn0. by apply lookup_empty_Some in Hn0.
    - split; [done|]. rewrite Hh, Hh1. apply map_Forall_insert_2; [|apply map_Forall_empty].
      rewrite Hh1, Hc1 in Hnum. exact (numbered_first _ Hnum). }
  destruct (IS_ERR r); [done|].
  clear Hrun Hfh Hp. revert w2 Hroot. change (preserves (rooted R) (upd_sb (λ s, s <| sb_root := r |>);;
    i ← get_inode r; c_assert (i_ino i =? 1);; hsi_nfs3_pathconf r)).
  pres; (apply preserves_rooted; [|eauto using keeps_upd_sb, keeps_pathconf]).
  - by apply preserves_upd_sb.
  - apply preserves_pathconf.
Qed.

(** ** The mount procedure *)

Lemma finish_mounted R a1 a2 d res w :
  staged R w → wlp (mount_finish a1 a2 d res) (λ _ w', mounted R w') w.
Proof.
  intros Hst. assert (∀ a, preserves (mounted R) (umnt_fail a d)) as Humnt.
  { intros a w' [Hb|Hr].
    - eapply wlp_mono; [apply (preserves_framed_bare R _ (framed_umnt_fail a d)), Hb|]. by left.
    - eapply wlp_mono; [apply (preserves_framed_rooted R _ (framed_umnt_fail a d)), Hr|]. by right. }
  assert (∀ a s r f, (∀ c sb, bsize_bits (f c sb) = bsize_bits sb) →
    ∀ (k : Z → clnt_addr_t → M world Z), (∀ c a' w', staged R w' → wlp (k c a') (λ _ w', mounted R w') w') →
    ∀ w', staged R w' →
    wlp ('(c, a') ← hsi_nfs3_clnt_create a s r; upd_sb (f c);; k c a') (λ _ w', mounted R w') w') as Hopen.
  { intros a s r f Hf k Hk w' Hw'. apply wlp_bind. eapply wlp_mono.
    { apply (preserves_framed_staged R _ (framed_create a s r)), Hw'. }
    intros [c a'] w2 [Hb Hbits]. apply wlp_bind. apply Hk. split; [done|]. cbn. by rewrite Hf. }
  unfold mount_finish. apply wlp_bind. cbn. apply Hopen; [done| |done].
  intros c a' w1 Hw1. destruct (c =? 0); [apply Humnt; left; apply Hw1|].
  apply Hopen; [done| |done]. intros c2 a2' w2 Hw2. destruct (negb _); [left; apply Hw2|].
  apply wlp_bind. eapply wlp_mono; [by apply fill_super_rooted|]. intros ret w3 Hw3. cbn beta.
  destruct (negb (ret =? 0)); [apply Humnt|]; by right.
Qed.

Lemma validate_bits s ms ns r : 10 <= bsize_bits (hsi_validate_mount_data s ms ns r).1.1.1 <= 20.
Proof.
  unfold hsi_validate_mount_data. cbv zeta. destruct (ac_defaults 3 60 _ _) as [rmn rmx].
  destruct (ac_defaults 30 60 _ _) as [dmn dmx]. set (b := bsize _).
  destruct (block_size_clamped b true) as [Hk ->]. exact Hk.
Qed.

Lemma validate_bsize s ms ns r :
  let s' := (hsi_validate_mount_data s ms ns r).1.1.1 in bsize s' = 2 ^ bsize_bits s'.
Proof.
  unfold hsi_validate_mount_data. cbv zeta. destruct (ac_defaults 3 60 _ _) as [rmn rmx].
  destruct (ac_defaults 30 60 _ _) as [dmn dmx]. match goal with
  | |- context [hsfs_block_size ?x true] => set (b := x); destruct (block_size_clamped b true) as [Hk ->]
  end.
  assert (2 ^ Z.log2 (clamped b) < 2 ^ 32) as Hlt by (apply Z.pow_lt_mono_r; lia).
  apply (wrap_small 32). split; [by apply Z.pow_nonneg|exact Hlt].
Qed.

Lemma do_mount_mounted R fuel spec udata fg w :
  bare R w → wlp (hsfs_do_mount fuel spec udata fg) (λ _ w', mounted R w') w.
Proof.
  intros Hw. unfold hsfs_do_mount. destruct (1024 <=? _)%nat; [by left|].
  apply wlp_bind. eapply wlp_mono; [apply (preserves_framed_bare R _ (framed_parse_devname _)), Hw|].
  clear w Hw. intros [[host dir]|] w Hw; [|by left]. apply wlp_bind. cbn beta. unfold get_sb, gets.
  apply wlp_bind. eapply wlp_mono; [apply (preserves_framed_bare R _ (framed_gethostbyname _ _)), Hw|].
  clear w Hw. intros [err a] w Hw. apply wlp_bind. cbn beta iota.
  destruct (negb (err =? 0)); [by left|]. apply wlp_bind. cbn beta.
  apply wlp_bind. eapply wlp_mono; [apply (preserves_framed_bare R _ (framed_parse_options _ _ _)), Hw|].
  clear w Hw. intros [[ret ma] o] w Hw. apply wlp_bind. cbn beta iota.
  destruct (negb (ret =? 0)); [by left|]. destruct (negb _); [by left|].
  pose proof (validate_bits (mo_super o) {| ca_saddr := ma; ca_pmap := mo_mnt o |}
    {| ca_saddr := zero_saddr; ca_pmap := mo_nfs o |} (mo_retry o)) as Hbits.
  destruct (hsi_validate_mount_data _ _ _ _) as [[[super ms] ns] retry]. cbn [fst] in Hbits.
  apply wlp_bind. assert (staged R (w <| w_sb := super |>)) as Hst
    by (split; [done|]; change (0 <= bsize_bits super < 31); lia).
  apply wlp_bind. eapply wlp_mono; [apply (preserves_framed_staged R _ (framed_ext env_time)), Hst|].
  clear w Hw Hst. intros now w Hw. cbn beta. destruct (negb _); [done|].
  apply wlp_bind. eapply wlp_mono; [apply (preserves_framed_staged R _ (framed_mount_loop _ _ _ _ _ _)), Hw|].
  clear w Hw. intros [[ms' res]|r] w Hw; [by apply finish_mounted|by left; apply Hw].
Qed.

(** After the [init] request. *)
Lemma start_counts R fuel page spec udata fg caps capable want w :
  bare R w →
  wlp (hsfs_start fuel page spec udata fg caps capable want)
    (λ ok w', ok = true → Inv (λ i, if i =? 1 then 1 else 0) R w') w.
Proof.
  intros Hw. unfold hsfs_start. apply wlp_bind. unfold hsfs_init. apply wlp_bind. cbn beta.
  apply wlp_bind. eapply wlp_mono; [by apply (do_mount_mounted R)|]. intros err w1 Hm. cbn beta.
  destruct (negb (err =? 0)); [done|]. apply wlp_bind. unfold hsx_fuse_init, hsx_fuse_ref_xchg, get_sb.
  apply wlp_bind. cbn beta. do 2 apply wlp_bind. apply wlp_get_inode. intros n Hn.
  destruct Hm as [[Hh _]|[HI Hall]]; [rewrite Hh in Hn; by apply lookup_empty_Some in Hn|].
  apply wlp_bind, wlp_upd_inode. intros n' Hn'. simplify_eq. cbn beta. apply wlp_bind. unfold c_assert.
  destruct (i_private (n_inode n) =? 0); [|done]. intros _.
  pose proof (Inv_bump _ _ _ _ _ 1 HI Hn) as Hb. rewrite (Hall _ _ Hn) in Hb.
  eapply Inv_proper; [|reflexivity|reflexivity|exact Hb]. done.
Qed.

(** ** A server that answers *)

(** Connections open and the services answer a ping. *)
Record server_up : Prop := {
  up_create : ∀ tcp a s r used e, is_Some (env_clnt_create tcp a s r used e).1;
  up_auth : ∀ e, (env_authunix_create e).1 = true;
  up_ping : ∀ c t e, ∃ e', env_clnt_call c NFSPROC3_NULL t e = (RPC_SUCCESS tt, e');
}.
(** The mount service answers [res] for the directory [dir]. *)
Definition mount_answer (dir : list ascii) (res : mountres3) : Prop :=
  ∀ c t e, ∃ e', env_mnt_call c dir t e = (inl res, e').
(** The NFS service knows the directory [fh]. *)
Record exports (fh : list Z) (attr : fattr3) (info : fsinfo3resok) (name_max : Z) : Prop := {
  ex_attr : fi_obj_attributes info = Some attr;
  ex_links : f3_nlink attr ≠ 0;
  ex_length : Z.of_nat (length fh) <= NFS_MAXFHSIZE;
  ex_fsinfo : ∀ c t e, ∃ e', env_clnt_call c (NFSPROC3_FSINFO fh) t e = (RPC_SUCCESS (Res_ok info), e');
  ex_pathconf : ∀ c t e, ∃ e', env_clnt_call c (NFSPROC3_PATHCONF fh) t e = (RPC_SUCCESS (Res_ok name_max), e');
}.

(** A transport [hsi_mnt_openclnt] knows. *)
Definition transport (a : clnt_addr_t) : Prop :=
  pm_prot (ca_pmap a) = IPPROTO_TCP ∨ pm_prot (ca_pmap a) = IPPROTO_UDP.

Context (Hup : server_up).

Lemma openclnt_up w a s r : transport a →
  ∃ c a' e, hsi_mnt_openclnt a s r w =
      Ok ((c, a'), w <| w_est := e |> <| w_clients ::= λ cs, {[c]} ∪ cs |>) ∧
    c ≠ 0 ∧ c ∉ w_clients w ∧ ca_pmap a' = ca_pmap a.
Proof.
  intros Ht. unfold hsi_mnt_openclnt. cbv zeta. set (a' := a <| ca_saddr ::= _ |>).
  assert ((pm_prot (ca_pmap a) =? IPPROTO_UDP) || (pm_prot (ca_pmap a) =? IPPROTO_TCP) = true) as ->
    by (destruct Ht as [->| ->]; done).
  set (tcp := _ =? IPPROTO_TCP).
  destruct (up_create Hup tcp a' s r (w_clients w) (w_est w)) as [c Hc].
  destruct (env_clnt_create tcp a' s r (w_clients w) (w_est w)) as [o e] eqn:Hcr. cbn in Hc. subst o.
  destruct (create_fresh _ _ _ _ _ _ _ _ Hcr) as [Hf Hc0].
  pose proof (up_auth Hup e) as Ha. destruct (env_authunix_create e) as [b e'] eqn:Hau. cbn in Ha. subst b.
  exists c, a', e'. split; [|done]. mstep. mstep (ext_run _ _ _ _ Hcr). mstep.
  mstep (ext_run _ (w <| w_est := e |> <| w_clients ::= λ cs, {[c]} ∪ cs |>) _ _ Hau). done.
Qed.

(** What an open client leaves: the handle, and the outside world moved on. *)
Definition connected (w : world) (c : Z) (w' : world) : Prop :=
  c ≠ 0 ∧ c ∉ w_clients w ∧ w_clients w' = {[c]} ∪ w_clients w ∧ w_sb w' = w_sb w ∧
  w_heap w' = w_heap w ∧ w_replies w' = w_replies w.

Lemma clnt_create_up w a s r : transport a →
  ∃ c a' w', hsi_nfs3_clnt_create a s r w = Ok ((c, a'), w') ∧ connected w c w' ∧
    ca_pmap a' = ca_pmap a.
Proof.
  intros Ht. destruct (openclnt_up w a s r Ht) as (c & a' & e & Hrun & Hc0 & Hf & Hp).
  set (w1 := w <| w_est := e |> <| w_clients ::= λ cs, {[c]} ∪ cs |>) in *.
  destruct (up_ping Hup c TIMEOUT (w_est w1)) as [e' Hping].
  assert (c ∈ w_clients w1) as Hin by (cbn; set_solver).
  set (w2 := w1 <| w_est := e' |> <| ssize_bak := s |> <| rsize_bak := r |>).
  set (bak := if pm_prog (ca_pmap a') =? NFS_PROGRAM then modify (λ w, w <| nfs_server_bak := a' |>)
    else if pm_prog (ca_pmap a') =? NFS_ACL_PROGRAM then modify (λ w, w <| acl_server_bak := a' |>)
    else mret tt).
  assert (∃ w3, bak w2 = Ok (tt, w3) ∧ connected w c w3) as (w3 & Hw3 & Hcon).
  { unfold bak. destruct (_ =? NFS_PROGRAM); [by eexists|]. destruct (_ =? NFS_ACL_PROGRAM); by eexists. }
  exists c, a', w3. split; [|done]. unfold hsi_nfs3_clnt_create. mstep Hrun.
  rewrite (proj2 (Z.eqb_neq _ _) Hc0). mstep (clnt_call_run _ _ _ _ _ _ Hin Hping). mstep. fold bak.
  by mstep Hw3.
Qed.

(** The handle of the mount service is closed again. *)
Lemma mount_up w a d res old : transport a → mount_answer d res → memory_plenty (dom (w_heap w)) →
  ∃ a' e, hsi_nfs3_mount a d old w = Ok ((0, a', res), w <| w_est := e |>).
Proof.
  intros Ht Hmnt Hmem.
  destruct (openclnt_up w a MNT_SENDBUFSIZE MNT_RECVBUFSIZE Ht) as (c & a' & e & Hrun & Hc0 & Hf & _).
  set (w1 := w <| w_est := e |> <| w_clients ::= λ cs, {[c]} ∪ cs |>) in *.
  destruct (Hmnt c TIMEOUT e) as [e1 He1]. set (w2 := w1 <| w_est := e1 |>).
  destruct (malloc_buf_any w2 (Z.of_nat (length (fhandle res)))) as (ok & e2 & Hbuf & Hok).
  rewrite (Hok Hmem) in Hbuf. set (w3 := w2 <| w_est := e2 |>) in *.
  assert (c ∈ w_clients w1) as Hin by (cbn; set_solver).
  exists a', e2. unfold hsi_nfs3_mount. mstep Hrun. rewrite (proj2 (Z.eqb_neq _ _) Hc0).
  mstep (live_run _ _ Hin). mstep (ext_run (env_mnt_call c d TIMEOUT) w1 _ _ He1). cbv zeta.
  fold w2. mstep Hbuf. fold w3. unfold clnt_freeres, hsi_mnt_closeclnt.
  mstep (live_run w3 c Hin). mstep (destroy_run w3 c Hin).
  unfold mret, M_ret. do 2 f_equal. unfold w3, w2, w1. destruct w as [? ? cl]. cbv [set]. cbn in *.
  f_equal. apply leibniz_equiv. set_solver.
Qed.

(** ** The super block of an exported directory *)

(** The sizes for I/O after the server has been asked. *)
Lemma fsinfo_sizes page s info :
  0 < rsize s <= 2 ^ 16 → 0 < wsize s <= 2 ^ 16 →
  let s' := hsi_fsinfo_to_super page s info in
  0 < rsize s' <= 2 ^ 16 ∧ 0 < wsize s' <= 2 ^ 16.
Proof.
  assert (∀ x cur, 0 < cur <= 2 ^ 16 →
    let rs := if cur =? 0 then wrap 32 (hsfs_block_size x false).1 else cur in
    ∀ m, let rs := if (512 <=? m) && (m <? rs) then wrap 32 (hsfs_block_size m false).1 else rs in
    let rs := if HSFS_MAX_FILE_IO_SIZE <? rs then HSFS_MAX_FILE_IO_SIZE else rs in
    0 < rs <= 2 ^ 16) as Hsize.
  { intros x cur Hcur rs m. unfold rs. rewrite (proj2 (Z.eqb_neq cur 0)) by lia.
    set (rs' := if (512 <=? m) && _ then _ else _).
    assert (0 < rs' <= 2 ^ 16) as Hrs'.
    { unfold rs'. destruct (Z.leb_spec 512 m); [|done]. destruct (Z.ltb_spec m cur); [|done]. cbn [andb].
      destruct (block_size_clamped m false) as [Hk ->]. cbn [fst].
      assert (Z.log2 (clamped m) <= 16) as Hle.
      { rewrite <-(Z.log2_pow2 16) by lia. apply Z.log2_le_mono.
        unfold clamped, HSFS_MIN_FILE_IO_SIZE, HSFS_MAX_FILE_IO_SIZE, HSFS_DEF_FILE_IO_SIZE.
        destruct (m <? 1024); [lia|]. destruct (Z.leb_spec 1048576 m); lia. }
      assert (2 ^ Z.log2 (clamped m) <= 2 ^ 16) by (apply Z.pow_le_mono_r; lia).
      rewrite wrap_small by (unfold in_range; lia). lia. }
    unfold HSFS_MAX_FILE_IO_SIZE. destruct (Z.ltb_spec 1048576 rs'); lia. }
  intros Hr Hw. split; apply Hsize; done.
Qed.

(** A new inode with the attributes [attr], not looked up yet. *)
Definition fresh_root (attr : fattr3) (n : nfs_inode) : Prop :=
  i_private (n_inode n) = 0 ∧ i_count (n_inode n) = 0 ∧ ∃ n1, n = new_attrs (fattr_of attr) n1.
(** The mounted directory: the root is the only inode cached. *)
Record mounted_root (fh : list Z) (attr : fattr3) (w : world) : Prop := {
  mr_root : ∃ n, w_heap w = {[sb_root (w_sb w) := n]} ∧ ino_of n = 1 ∧ ident n = (f3_fileid attr, fh) ∧
    fresh_root attr n;
  mr_wf : icache_wf w;
  mr_live : clntp (w_sb w) ∈ w_clients w;
  mr_rsize : 0 < rsize (w_sb w) <= 2 ^ 16;
  mr_wsize : 0 < wsize (w_sb w) <= 2 ^ 16;
}.

(** What the options decide and filling the super block leaves. *)
Definition policy (s : hsfs_super) : Z * Z * (Z * Z) * (Z * Z) :=
  (timeo s, retrans s, (acregmin s, acregmax s), (acdirmin s, acdirmax s)).

(** What the cache does not touch. *)
Definition essentials (w : world) : Z * Z * Z * (Z * Z * (Z * Z) * (Z * Z)) * gset Z :=
  (clntp (w_sb w), rsize (w_sb w), wsize (w_sb w), policy (w_sb w), w_clients w).
Lemma same_rest_essentials w w' : same_rest w w' → essentials w' = essentials w.
Proof. intros (h & s & e & -> & Hs). unfold essentials, policy. cbn. by rewrite Hs. Qed.

(** A client that is ready for I/O. *)
Definition ready_for_io (w : world) : Prop :=
  clntp (w_sb w) ∈ w_clients w ∧ 0 < rsize (w_sb w) <= 2 ^ 16 ∧ 0 < wsize (w_sb w) <= 2 ^ 16.
Lemma essentials_kept w w' : essentials w' = essentials w → ready_for_io w →
  ready_for_io w' ∧ policy (w_sb w') = policy (w_sb w).
Proof.
  unfold essentials. intros H. apply pair_equal_spec in H as [H Hcl].
  apply pair_equal_spec in H as [H Hp]. apply pair_equal_spec in H as [H Hw].
  apply pair_equal_spec in H as [Hc Hr]. unfold ready_for_io. by rewrite Hcl, Hp, Hw, Hc, Hr.
Qed.

Lemma fsinfo_up fh attr info nm w :
  exports fh attr info nm → ready_for_io w →
  ∃ w', hsi_nfs3_fsinfo fh (nfs_init_fattr stack_fattr) w = Ok ((0, fattr_of attr), w') ∧
    ready_for_io w' ∧ policy (w_sb w') = policy (w_sb w).
Proof.
  intros [Hat Hnl _ Hfs _] (Hc & Hrs & Hws).
  destruct (Hfs (clntp (w_sb w)) (call_timeout (w_sb w)) (w_est w)) as [e He].
  set (w1 := w <| w_est := e |> <| w_sb ::= λ s, hsi_fsinfo_to_super (w_page_size w) s info |>).
  assert (clntp (w_sb w) ∈ w_clients w1) as Hc1 by exact Hc. exists w1. split.
  - unfold hsi_nfs3_fsinfo. mstep. mstep (nfs3_call_success _ _ _ _ _ Hc He). mstep. mstep.
    rewrite Hat. cbn [hsi_nfs3_post2fattr]. fold (fattr_of attr). rewrite fattr_of_valid. mstep.
    by mstep (freeres_run w1 _ Hc1).
  - destruct (fsinfo_sizes (w_page_size w) (w_sb w) info Hrs Hws) as [Hrs' Hws']. done.
Qed.
Lemma pathconf_up fh attr info nm w a n : exports fh attr info nm → clntp (w_sb w) ∈ w_clients w →
  icache_wf w → w_heap w !! a = Some n → fh_bytes (n_fh n) = fh →
  ∃ w', hsi_nfs3_pathconf a w = Ok (0, w') ∧ essentials w' = essentials w ∧
    w_heap w' = w_heap w ∧ sb_root (w_sb w') = sb_root (w_sb w) ∧ icache_wf w'.
Proof.
  intros [_ _ _ _ Hpc] Hc Hwf Hn Hfh.
  destruct (Hpc (clntp (w_sb w)) (call_timeout (w_sb w)) (w_est w)) as [e He].
  set (w1 := w <| w_est := e |> <| w_sb ::= λ s, s <| namlen := sint 32 nm |> |>).
  assert (clntp (w_sb w) ∈ w_clients w1) as Hc1 by exact Hc. exists w1. split; [|done].
  unfold hsi_nfs3_pathconf. mstep (inode_sb_run _ _ _ Hwf Hn).
  mstep (getfh3_run _ _ _ Hn). rewrite Hfh.
  mstep (nfs3_call_success _ _ _ _ _ Hc He). mstep. by mstep (freeres_run w1 _ Hc1).
Qed.

(** The root of an exported directory is cached under number 1. *)
Lemma root_up R fh attr info nm w nfh :
  Inv (λ _, 0) R w → w_heap w = ∅ → curr_id (w_sb w) = 0 → exports fh attr info nm →
  memory_plenty ∅ → fh_ok nfh → fh_bytes nfh = fh →
  ∃ r w' root, hsi_nfs_fhget hsi_nfs_sop nfh (fattr_of attr) w = Ok (r, w') ∧ icache_wf w' ∧
    essentials w' = essentials w ∧ w_heap w' = {[r := root]} ∧ ino_of root = 1 ∧
    ident root = (f3_fileid attr, fh) ∧ fresh_root attr root.
Proof.
  intros HI Hh Hcur Hex Hmem Hok Hb.
  destruct (fhget_run hsi_nfs_sop w nfh (fattr_of attr) (inv_wf _ _ _ HI) Hok)
    as [(r & w2 & Hget & Hwf2 & Hrest & Hp)|[_ Hsz]];
    [|rewrite Hh, map_size_empty in Hsz; unfold cycle in Hsz; lia].
  rewrite Hh, Hcur, Hb in Hp.
  destruct Hp as [[[[_ Hf]|(_ & Hal & _)] _]|[(n0 & Hn0 & _)|(_ & _ & n & Hh2 & Hid & Hpriv & Hnum & Hcnt)]].
  - by rewrite (fattr_of_usable attr (ex_links _ _ _ _ Hex)) in Hf.
  - destruct (memory_alloc w w2); [|done]. unfold memory. rewrite Hh, dom_empty_L. apply Hmem.
  - by apply lookup_empty_Some in Hn0.
  - exists r, w2, (new_attrs (fattr_of attr) n). split_and!; [done|done|by apply same_rest_essentials| | |done|].
    + by rewrite Hh2.
    + exact (numbered_first _ Hnum).
    + split_and!; [done..|]. by exists n.
Qed.

Lemma fill_rest_up R fh attr info nm w :
  Inv (λ _, 0) R w → w_heap w = ∅ → curr_id (w_sb w) = 0 →
  exports fh attr info nm → memory_plenty ∅ → ready_for_io w →
  ∃ w', fill_rest fh w = Ok (0, w') ∧ mounted_root fh attr w' ∧ policy (w_sb w') = policy (w_sb w).
Proof.
  intros HI Hh Hcur Hex Hmem Hio.
  destruct (fsinfo_up fh attr info nm w Hex Hio) as (w1 & Hfs & Hio1 & <-).
  pose proof (preserves_fsinfo_fresh R fh (nfs_init_fattr stack_fattr) w (conj (conj HI Hh) Hcur)) as Hp.
  unfold wlp in Hp. rewrite Hfs in Hp. destruct Hp as [[HI1 Hh1] Hcur1].
  destruct (wire_fh fh (ex_length _ _ _ _ Hex)) as (nfh & Hcp & Hok & Hbytes).
  destruct (root_up R fh attr info nm w1 nfh HI1 Hh1 Hcur1 Hex Hmem Hok Hbytes)
    as (r & w2 & root & Hget & Hwf2 & Hes2 & Hh2 & Hino & Hid & Hfresh).
  set (w3 := w2 <| w_sb ::= λ s, s <| sb_root := r |> |>).
  destruct (essentials_kept w1 w3 Hes2 Hio1) as [Hio3 <-].
  assert (icache_wf w3) as Hwf3 by exact Hwf2.
  assert (w_heap w3 = {[r := root]}) as Hh3 by exact Hh2.
  assert (w_heap w3 !! r = Some root) as Hn3 by (rewrite Hh3; apply lookup_singleton_eq).
  destruct (pathconf_up fh attr info nm w3 r root Hex (proj1 Hio3) Hwf3 Hn3) as (w4 & Hpc & Hes4 & Hh4 & Hr4 & Hwf4);
    [by injection Hid|].
  destruct (essentials_kept w3 w4 Hes4 Hio3) as [Hio4 Hpol4].
  exists w4. split; [|split; [|done]].
  - unfold fill_rest. mstep Hfs. cbn [negb Z.eqb]. mstep (of_option_run _ _ _ Hcp). mstep Hget.
    rewrite IS_ERR_user by (pose proof (ok_addr _ _ (c_node _ _ _ _ _ Hwf3 _ _ Hn3)); lia).
    mstep. mstep (get_inode_run _ _ _ Hn3). fold (ino_of root). rewrite Hino. mstep. exact Hpc.
  - destruct Hio4 as (? & ? & ?). split; [exists root|done..]. split; [|done]. by rewrite Hh4, Hr4.
Qed.
Lemma fill_super_up R fh attr info nm w :
  staged R w → exports fh attr info nm → memory_plenty ∅ → ready_for_io w →
  ∃ w', hsi_fill_super fh w = Ok (0, w') ∧ mounted_root fh attr w' ∧
    policy (w_sb w') = policy (w_sb w).
Proof.
  intros Hst Hex Hmem Hio. rewrite fill_super_start.
  exact (fill_rest_up R fh attr info nm _ (empty_Inv R w Hst) (proj1 (proj1 Hst)) eq_refl Hex Hmem Hio).
Qed.

(** ** The whole procedure *)

(** The NFS and the ACL client are open; what is left of [mount_finish]. *)
Lemma finish_start R ms ns d res w :
  staged R w → transport ns → 0 < rsize (w_sb w) <= 2 ^ 16 → 0 < wsize (w_sb w) <= 2 ^ 16 →
  ∃ w', mount_finish ms ns d res w =
      (if negb (fhs_status res =? 0) then mret 0 else
       ret ← hsi_fill_super (fhandle res);
       if negb (ret =? 0) then umnt_fail ms d else mret 0) w' ∧
    staged R w' ∧ ready_for_io w' ∧ policy (w_sb w') = policy (w_sb w).
Proof.
  intros [[Hh Hr] Hbits] Hns Hrs Hws. set (s := w_sb w) in *.
  destruct (clnt_create_up w ns (sint 32 (wsize s)) (sint 32 (rsize s)) Hns)
    as (c & ns' & w1 & Hrun & (Hc0 & _ & Hcl & Hsb & Hh1 & Hr1) & Hp).
  set (w2 := w1 <| w_sb ::= λ s, s <| clntp := c |> |>).
  set (as_ := ns' <| ca_pmap ::= λ p, p <| pm_prog := NFS_ACL_PROGRAM |> <| pm_vers := NFS_ACL_V3 |> |>).
  assert (transport as_) as Has by (unfold transport; cbn; rewrite Hp; exact Hns).
  destruct (clnt_create_up w2 as_ (sint 32 (wsize s)) (sint 32 (rsize s)) Has)
    as (c' & as' & w3 & Hrun' & (_ & _ & Hcl' & Hsb' & Hh3 & Hr3) & _).
  assert (w_sb w3 = s <| clntp := c |>) as Hs3 by (rewrite Hsb'; cbn; by rewrite Hsb).
  assert (w_clients w3 = {[c']} ∪ ({[c]} ∪ w_clients w)) as Hcl3 by (rewrite Hcl'; cbn; by rewrite Hcl).
  exists (w3 <| w_sb ::= λ s, s <| acl_clntp := c' |> |>). split_and!.
  - unfold mount_finish. mstep. mstep Hrun. mstep. rewrite (proj2 (Z.eqb_neq _ _) Hc0).
    mstep Hrun'. by mstep.
  - split; [split|].
    + exact (eq_trans Hh3 (eq_trans Hh1 Hh)).
    + exact (eq_trans Hr3 (eq_trans Hr1 Hr)).
    + cbn. by rewrite Hs3.
  - unfold ready_for_io. cbn. rewrite Hs3, Hcl3. cbn. split; [set_solver|done].
  - unfold policy. cbn. by rewrite Hs3.
Qed.
Lemma mount_loop_up fuel fg t w a d res :
  transport a → mount_answer d res → memory_plenty (dom (w_heap w)) →
  ∃ a' e, mount_loop (S fuel) fg t a d zero_mountres w = Ok (inl (a', res), w <| w_est := e |>).
Proof.
  intros Ha Hd Hm. destruct (mount_up w a d res zero_mountres Ha Hd Hm) as (a' & e & Hrun).
  exists a', e. cbn [mount_loop]. by mstep Hrun.
Qed.

(** The options as they are before parsing. *)
Definition initial_opts (s : hsfs_super) : mount_opts :=
  {| mo_super := s; mo_retry := -1; mo_mnt := zero_pmap; mo_nfs := zero_pmap;
     mo_mounthost := None; mo_new := [] |}.
(** The policy the validation makes of the options. *)
Definition validated_policy (s : hsfs_super) : Z * Z * (Z * Z) * (Z * Z) :=
  (if timeo s =? 0 then 600 else timeo s, if retrans s =? 0 then 3 else retrans s,
   ac_defaults 3 60 (acregmin s) (acregmax s), ac_defaults 30 60 (acdirmin s) (acdirmax s)).

Lemma validate_policy s ms ns r :
  policy (hsi_validate_mount_data s ms ns r).1.1.1 = validated_policy s.
Proof.
  unfold hsi_validate_mount_data, validated_policy. cbv zeta.
  set (s1 := if timeo s =? 0 then _ else s). set (s2 := if retrans s1 =? 0 then _ else s1).
  assert (retrans s1 = retrans s) as Hr by (unfold s1; by destruct (timeo s =? 0)).
  assert (policy s2 = (if timeo s =? 0 then 600 else timeo s, if retrans s =? 0 then 3 else retrans s,
    (acregmin s, acregmax s), (acdirmin s, acdirmax s))) as Hp.
  { unfold s2. rewrite Hr. unfold s1, policy. by destruct (timeo s =? 0), (retrans s =? 0). }
  clearbody s2. apply pair_equal_spec in Hp as [Hp Hd]. apply pair_equal_spec in Hp as [Hp Hg].
  injection Hd as Hd1 Hd2. injection Hg as Hg1 Hg2. injection Hp as <- <-.
  rewrite <-Hg1, <-Hg2, <-Hd1, <-Hd2. destruct (ac_defaults 3 60 _ _) as [rmn rmx].
  set (s3 := s2 <| acregmin := rmn |> <| acregmax := rmx |>).
  change (acdirmin s3) with (acdirmin s2). change (acdirmax s3) with (acdirmax s2).
  destruct (ac_defaults 30 60 _ _) as [dmn dmx]. by destruct (hsfs_block_size _ true) as [bs bits].
Qed.
Lemma validate_data s ms ns r :
  pm_prot (ca_pmap ms) = 0 → pm_prot (ca_pmap ns) = 0 → -1 <= r <= 35791394 →
  ∃ s' ms' ns' r', hsi_validate_mount_data s ms ns r = (s', ms', ns', r') ∧
    transport ms' ∧ transport ns' ∧ - 2 ^ 31 <= 60 * r' < 2 ^ 31 ∧ rsize s' = 2 ^ 16 ∧
    wsize s' = 2 ^ 16 ∧ policy s' = validated_policy s ∧ 0 <= bsize_bits s' < 31.
Proof.
  intros Hms Hns Hr. pose proof (validate_bits s ms ns r) as Hbits.
  pose proof (validate_policy s ms ns r) as Hpol.
  assert (- 2 ^ 31 <= 60 * (if r =? -1 then 10000 else r) < 2 ^ 31) as Hr60
    by (destruct (Z.eqb_spec r (-1)); lia).
  destruct ms as [? [? ? prot1 ?]], ns as [? [? ? prot2 ?]]. cbn in Hms, Hns. subst prot1 prot2.
  unfold hsi_validate_mount_data in *. cbv zeta in *. set (s2 := if retrans _ =? 0 then _ else _) in *.
  destruct (ac_defaults 3 60 _ _) as [rmn rmx], (ac_defaults 30 60 _ _) as [dmn dmx].
  destruct (hsfs_block_size _ true) as [bs bits]. eexists _, _, _, _. split; [reflexivity|].
  cbn [fst] in *. split_and!; [by left|by left|apply Hr60|apply Hr60|done|done|done|lia|lia].
Qed.

(** The numeric options do not name a host or a transport. *)
Lemma setting_keeps x o : valid_setting x →
  let o' := apply_setting o x in
  mo_mounthost o' = mo_mounthost o ∧ pm_prot (mo_mnt o') = pm_prot (mo_mnt o) ∧
  pm_prot (mo_nfs o') = pm_prot (mo_nfs o) ∧ (-1 <= mo_retry o → -1 <= mo_retry o').
Proof.
  destruct x as [[name f] v]. intros [Hf Hv]. cbn [fst snd] in *. revert Hf. unfold numeric, apply_setting.
  intros Hin. repeat (apply elem_of_cons in Hin as [[= -> ->]|Hin]); [..|by apply elem_of_nil in Hin].
  all: split_and!; try done. cbn. lia.
Qed.
Lemma apply_setting_new x o : valid_setting x →
  mo_new (apply_setting o x) = mo_new o ++ setting_text x ++ [","%char].
Proof.
  intros Hx. unfold apply_setting. cbn. f_equal. revert Hx. destruct x as [[name f] v]. intros [Hf _].
  cbn [fst snd] in *. revert Hf. unfold numeric.
  intros Hin. by repeat (apply elem_of_cons in Hin as [[= -> ->]|Hin]); [..|apply elem_of_nil in Hin].
Qed.
Lemma settings_keep ss : ∀ o, Forall valid_setting ss →
  let o' := fold_left apply_setting ss o in
  mo_mounthost o' = mo_mounthost o ∧ pm_prot (mo_mnt o') = pm_prot (mo_mnt o) ∧
  pm_prot (mo_nfs o') = pm_prot (mo_nfs o) ∧ (-1 <= mo_retry o → -1 <= mo_retry o').
Proof.
  induction ss as [|x ss IH]; intros o Hall; [done|]. apply list.Forall_cons in Hall as [Hx Hall].
  cbn [fold_left]. cbv zeta. destruct (setting_keeps x o Hx) as (H1 & H2 & H3 & H4).
  destruct (IH (apply_setting o x) Hall) as (-> & -> & -> & Hr). split_and!; auto.
Qed.

(** A string of settings of at most 48 options is parsed into their effects. *)
Lemma parse_options_run w text ss addr o :
  memory_plenty (dom (w_heap w)) → Forall valid_setting ss → (length ss <= 48)%nat →
  chars text = joined (setting_text <$> ss) → mo_new o = [] → mo_mounthost o = None →
  ∃ e, hsi_nfs3_parse_options text addr o w =
    Ok ((0, addr, fold_left apply_setting ss o), w <| w_est := e |>).
Proof.
  intros Hm Hall Hlen Ht Hnew Hhost. unfold hsi_nfs3_parse_options. rewrite Ht.
  set (size := Z.of_nat (length (joined (setting_text <$> ss))) + 1).
  destruct (malloc_buf_any w size) as (ok & e & Hrun & Hok).
  rewrite (Hok Hm) in Hrun. set (w1 := w <| w_est := e |>) in *.
  assert (xstrdup (joined (setting_text <$> ss)) w = Ok (tt, w1)) as Hdup.
  { unfold xstrdup, xmalloc. fold size. rewrite (proj2 (Z.eqb_neq size 0)) by lia. by mstep Hrun. }
  assert (opt_items (joined (setting_text <$> ss)) [] false = setting_text <$> ss) as Hitems.
  { apply opt_items_joined, Forall_fmap. eapply Forall_impl; [|exact Hall]. intros x Hx.
    by destruct (parse_setting x o w Hx) as (_ & ? & ? & _). }
  exists e. mstep Hdup. rewrite Hitems.
  mstep (parse_settings 1024 ss o w1 Hall ltac:(rewrite Hnew; cbn [length]; lia)).
  by destruct (settings_keep ss o Hall) as (-> & _); rewrite Hhost.
Qed.

(** A command line the client accepts: a device name the parser accepts, whose host
    is a literal address, and numeric options that ask for no other protocol
    version.  [dir] is the directory and [o] what the options set. *)
Inductive invocation (w : world) (spec text : string) : list ascii → mount_opts → Prop :=
| invocation_intro host dir addr ss o :
    no_nul (chars spec) → (length (chars spec) < 1024)%nat → devname (chars spec) host dir →
    env_inet_aton host = Some addr →
    Forall valid_setting ss → (length ss <= 48)%nat → chars text = joined (setting_text <$> ss) →
    o = fold_left apply_setting ss
          (initial_opts ((w_sb w) <| sb_saddr ::= λ a, a <| sin_addr := addr |> |>)) →
    hsi_nfsmnt_check_compat (mo_nfs o) (mo_mnt o) = 0 → mo_retry o <= 35791394 →
    invocation w spec text dir o.

(** Up to the loop of [hsfs_do_mount]. *)
Lemma do_mount_start R fuel w spec dir text o fg :
  bare R w → memory_plenty ∅ → invocation w spec text dir o →
  ∃ w' t ms ns, hsfs_do_mount fuel spec (Some text) fg w =
      (r ← mount_loop fuel fg t ms dir zero_mountres;
       match r with
       | inr ret => mret ret
       | inl (ms, res) => mount_finish ms ns dir res
       end) w' ∧
    staged R w' ∧ transport ms ∧ transport ns ∧ rsize (w_sb w') = 2 ^ 16 ∧ wsize (w_sb w') = 2 ^ 16 ∧
    policy (w_sb w') = validated_policy (mo_super o).
Proof.
  intros [Hh Hr] Hmem Hinv. destruct Hinv as [host dir addr ss o Hnul Hlen Hdev Hhost Hss Hl Htext Ho Hcompat Hretry].
  set (s := (w_sb w) <| sb_saddr ::= λ a, a <| sin_addr := addr |> |>) in *.
  assert (memory_plenty (dom (w_heap w))) as Hm by (rewrite Hh, dom_empty_L; exact Hmem).
  destruct (devname_complete w spec host dir Hm Hnul Hdev) as [e1 Hparse]. set (w1 := w <| w_est := e1 |>) in *.
  set (w2 := w1 <| w_sb := s |>).
  destruct (parse_options_run w2 text ss zero_saddr (initial_opts s) Hm Hss Hl Htext eq_refl eq_refl)
    as [e2 Hopts]. rewrite <-Ho in Hopts.
  destruct (settings_keep ss (initial_opts s) Hss) as (_ & Hp1 & Hp2 & Hr1).
  rewrite <-Ho in Hp1, Hp2, Hr1.
  destruct (validate_data (mo_super o) {| ca_saddr := zero_saddr; ca_pmap := mo_mnt o |}
    {| ca_saddr := zero_saddr; ca_pmap := mo_nfs o |} (mo_retry o))
    as (s' & ms & ns & r' & Hval & Hms & Hns & Hr60 & Hrs & Hws & Hpol & Hbits);
    [done|done|split; [by apply Hr1|done]|].
  destruct (env_time e2) as [now e3] eqn:Ht.
  exists (w1 <| w_sb := s' |> <| w_est := e3 |>), (now + 60 * r'), ms, ns. split_and!; [|done..].
  unfold hsfs_do_mount. destruct (Nat.leb_spec 1024 (length (chars spec))); [lia|].
  mstep Hparse. mstep. unfold hsi_gethostbyname. rewrite Hhost. mstep. mstep. mstep. cbn [default].
  mstep Hopts. mstep. rewrite Hcompat. cbn [negb Z.eqb]. rewrite Hval. mstep.
  mstep (ext_run env_time (w2 <| w_est := e2 |> <| w_sb := s' |>) _ _ Ht).
  rewrite !(proj2 (Z.leb_le _ _)), (proj2 (Z.ltb_lt _ _)) by lia. reflexivity.
Qed.

(** A server that answers is mounted. *)
Lemma do_mount_up w spec dir text o fg fuel fh attr info name_max :
  w_heap w = ∅ → memory_plenty ∅ → invocation w spec text dir o →
  mount_answer dir {| fhs_status := 0; fhandle := fh |} → exports fh attr info name_max →
  ∃ w', hsfs_do_mount (S fuel) spec (Some text) fg w = Ok (0, w') ∧ mounted_root fh attr w' ∧
    policy (w_sb w') = validated_policy (mo_super o).
Proof.
  intros Hh Hmem Hinv Hans Hex.
  destruct (do_mount_start (w_replies w) (S fuel) w spec dir text o fg (conj Hh eq_refl) Hmem Hinv)
    as (w1 & t & ms & ns & Hrun & Hst & Hms & Hns & Hrs & Hws & Hpol).
  assert (memory_plenty (dom (w_heap w1))) as Hm by (rewrite (proj1 (proj1 Hst)), dom_empty_L; exact Hmem).
  destruct (mount_loop_up fuel fg t w1 ms dir _ Hms Hans Hm) as (ms' & e & Hloop).
  set (w2 := w1 <| w_est := e |>) in *.
  destruct (finish_start (w_replies w) ms' ns dir {| fhs_status := 0; fhandle := fh |} w2 Hst Hns)
    as (w3 & Hfin & Hst3 & Hio3 & Hpol3); [cbn; lia..|].
  destruct (fill_super_up _ fh attr info name_max w3 Hst3 Hex Hmem Hio3) as (w4 & Hfill & Hroot & Hpol4).
  exists w4. split; [|split; [done|]].
  - rewrite Hrun. mstep Hloop. rewrite Hfin. cbn [fhs_status fhandle negb Z.eqb]. by mstep Hfill.
  - rewrite Hpol4, Hpol3. exact Hpol.
Qed.

(** * Properties *)

(** C11. From the start of [main] on, whatever the server answers: when the process
    starts serving, the lookup count of the root (number 1) is 1 and every other is
    0; from there every session keeps the cache well formed and the counts with the
    kernel's. *)
Theorem counts_since_the_start fuel page spec udata fg caps capable want w w0 tr w' :
  w_heap w = ∅ →
  hsfs_start fuel page spec udata fg caps capable want w = Ok (true, w0) →
  session tr w0 w' →
  ∃ R', Inv (λ i, (if i =? 1 then 1 else 0) + total counted tr i -
                  total (λ req _, forgotten req) tr i) R' w'.
Proof.
  intros Hh Hs Htr.
  pose proof (start_counts (w_replies w) fuel page spec udata fg caps capable want w) as H.
  unfold wlp in H. rewrite Hs in H.
  exact (proj2 (session_Inv _ _ _ _ _ Htr (H (conj Hh eq_refl) eq_refl))).
Qed.

(** C5. A server that exports the directory gets mounted: with a device name the parser
    accepts, a host with a literal address, and any list of numeric options that
    asks for no other protocol version, [hsfs_do_mount] returns 0 at the first
    attempt; the root is the only inode cached, under number 1 and with the
    identity the server gave; the client is open, the transfer sizes are positive,
    and timeouts and attribute ages are the ones the options set or their
    defaults. *)
Theorem mount_succeeds w spec dir text o fg fuel fh attr info name_max :
  w_heap w = ∅ → memory_plenty ∅ → invocation w spec text dir o →
  mount_answer dir {| fhs_status := 0; fhandle := fh |} → exports fh attr info name_max →
  ∃ w', hsfs_do_mount (S fuel) spec (Some text) fg w = Ok (0, w') ∧ mounted_root fh attr w' ∧
    policy (w_sb w') = validated_policy (mo_super o).
Proof. apply do_mount_up. Qed.

(** C37. A mount the server refuses is reported as a success: the status in the answer
    is only looked at to print a message, [hsfs_do_mount] returns 0 and nothing is
    cached; the [init] request of the kernel then dereferences the root that was
    never set. *)
Theorem refused_mount_reports_success w spec dir text o fg fuel status :
  w_heap w = ∅ → memory_plenty ∅ → invocation w spec text dir o →
  status ≠ 0 → mount_answer dir {| fhs_status := status; fhandle := [] |} →
  ∃ w', hsfs_do_mount (S fuel) spec (Some text) fg w = Ok (0, w') ∧ w_heap w' = ∅ ∧
    ∀ caps capable want, hsx_fuse_init caps capable want w' = UB.
Proof.
  intros Hh Hmem Hinv Hstat Hans.
  destruct (do_mount_start (w_replies w) (S fuel) w spec dir text o fg (conj Hh eq_refl) Hmem Hinv)
    as (w1 & t & ms & ns & Hrun & Hst & Hms & Hns & Hrs & Hws & Hpol).
  assert (memory_plenty (dom (w_heap w1))) as Hm by (rewrite (proj1 (proj1 Hst)), dom_empty_L; exact Hmem).
  destruct (mount_loop_up fuel fg t w1 ms dir _ Hms Hans Hm) as (ms' & e & Hloop).
  set (w2 := w1 <| w_est := e |>) in *.
  destruct (finish_start (w_replies w) ms' ns dir {| fhs_status := status; fhandle := [] |} w2 Hst Hns)
    as (w3 & Hfin & [[Hh3 _] _] & _); [cbn; lia..|].
  exists w3. split_and!; [|done|].
  - rewrite Hrun. mstep Hloop. rewrite Hfin. cbn [fhs_status]. by rewrite (proj2 (Z.eqb_neq _ _) Hstat).
  - intros caps capable want. unfold hsx_fuse_init, hsx_fuse_ref_xchg, get_inode, load, mbind, M_bind. cbn.
    by rewrite Hh3, lookup_empty.
Qed.

(** C30. A string of numeric options sets exactly what its options say, in their order,
    and rebuilds the string for mtab. *)
Theorem options_applied w text ss addr s :
  memory_plenty (dom (w_heap w)) → Forall valid_setting ss → (length ss <= 48)%nat →
  chars text = joined (setting_text <$> ss) →
  ∃ e, hsi_nfs3_parse_options text addr (initial_opts s) w =
      Ok ((0, addr, fold_left apply_setting ss (initial_opts s)), w <| w_est := e |>) ∧
    mo_new (fold_left apply_setting ss (initial_opts s)) = (ss ≫= λ x, setting_text x ++ [","%char]).
Proof.
  intros Hm Hss Hl Ht.
  destruct (parse_options_run w text ss addr (initial_opts s) Hm Hss Hl Ht eq_refl eq_refl) as [e He].
  exists e. split; [done|]. clear - Hss. change (ss ≫= _) with (mo_new (initial_opts s) ++ (ss ≫= λ x, setting_text x ++ [","%char])).
  revert Hss. generalize (initial_opts s). induction ss as [|x ss IH]; intros o Hss; [by rewrite app_nil_r|].
  apply list.Forall_cons in Hss as [Hx Hss]. cbn [fold_left]. rewrite IH by done.
  cbn [mbind list_bind]. rewrite app_assoc. f_equal. by apply apply_setting_new.
Qed.

(** The mount data after validation: timeouts are set, each minimum age is at most
    its maximum, and the block size is the power of two of its logarithm, between
    1 KiB and 1 MiB, as [statfs] relies on. *)
Theorem mount_data_validated s ms ns retry :
  let s' := (hsi_validate_mount_data s ms ns retry).1.1.1 in
  policy s' = validated_policy s ∧ timeo s' ≠ 0 ∧ retrans s' ≠ 0 ∧
  acregmin s' <= acregmax s' ∧ acdirmin s' <= acdirmax s' ∧
  10 <= bsize_bits s' <= 20 ∧ bsize s' = 2 ^ bsize_bits s'.
Proof.
  intros s'. pose proof (validate_policy s ms ns retry) as Hp. fold s' in Hp.
  pose proof (validate_bits s ms ns retry) as Hb. fold s' in Hb.
  assert (∀ lo hi mn mx, lo <= hi → (ac_defaults lo hi mn mx).1 <= (ac_defaults lo hi mn mx).2) as Hac.
  { intros lo hi mn mx Hle. unfold ac_defaults. cbv zeta. set (a := if mn =? 0 then _ else _).
    set (b := if mx =? 0 then _ else _). destruct (Z.ltb_spec b a); done. }
  split; [done|]. unfold policy, validated_policy in Hp. apply pair_equal_spec in Hp as [Hp Hd].
  apply pair_equal_spec in Hp as [Hp Hg]. apply pair_equal_spec in Hp as [Ht Hr].
  split_and!; [..|apply Hb|apply Hb|].
  - rewrite Ht. destruct (Z.eqb_spec (timeo s) 0); lia.
  - rewrite Hr. destruct (Z.eqb_spec (retrans s) 0); lia.
  - specialize (Hac 3 60 (acregmin s) (acregmax s)). rewrite <-Hg in Hac. apply Hac. lia.
  - specialize (Hac 30 60 (acdirmin s) (acdirmax s)). rewrite <-Hd in Hac. apply Hac. lia.
  - apply validate_bsize.
Qed.
End Established.
