(* ===== verification/CmdLine.v ===== *)
(** * The command line and [main]

    The command line of [fuse/hsfs_main.c]: [hsfs_cmdline_proc] takes each argument
    from the FUSE library and sorts it into the options of this program
    ([struct hsfs_cmdline_opts]), the options of the mount ([udata]) and the
    arguments left to the library; [hsfs_main] is [main].  The library's cutting of
    the arguments, its option lists and its own command line are the parameters of
    [FuseLib]. *)

From S2P Require Import Prelude CString Bitops Hash HList Types ErrPtr Icache NfsInode Rpc.
From S2P Require Import ParseDev Options Nfs3 Acl Fuse Mount.
From S2P Require Import Attrs Lookups Failures Entries Mounted.

Definition MS_RDONLY : Z := 1.
(** The keys: characters, and [FUSE_OPT_KEY_OPT] and [FUSE_OPT_KEY_NONOPT]. *)
Definition KEY_r : Z := 114.
Definition KEY_v : Z := 118.
Definition KEY_w : Z := 119.
Definition KEY_f : Z := 102.
Definition KEY_n : Z := 110.
Definition FUSE_OPT_KEY_OPT : Z := -1.
Definition FUSE_OPT_KEY_NONOPT : Z := -2.

(** [struct hsfs_cmdline_opts], with the global variables [verbose] and [nomtab]. *)
Record hsfs_cmdline_opts := {
  co_flags : Z; co_fake : Z; co_fg : Z; co_spec : option string; co_udata : option string;
  co_verbose : Z; co_nomtab : Z }.
Definition zero_opts : hsfs_cmdline_opts :=
  {| co_flags := 0; co_fake := 0; co_fg := 0; co_spec := None; co_udata := None;
     co_verbose := 0; co_nomtab := 0 |}.

(** What the program uses of [struct fuse_cmdline_opts]. *)
Record fuse_cmdline_opts := {
  fc_mountpoint : option string; fc_show_help : bool; fc_show_version : bool }.

(** What [fuse_opt_parse] does with an argument under [hsfs_cmdline_spec]: [--fake]
    sets the field, everything else goes to the callback with its key. *)
Inductive fuse_event :=
| Ev_fake
| Ev_key (key : Z) (arg : string).

Class FuseLib := {
  (** the arguments, cut into options, in order *)
  fuse_opt_events : list string → list fuse_event;
  (** [fuse_opt_add_opt]: the new list, [None] for -1 *)
  fuse_opt_add_opt : option string → string → option string;
  (** [fuse_parse_cmdline] on the arguments that were kept; [None] for an error *)
  fuse_parse_cmdline : list (Z * string) → option fuse_cmdline_opts;
}.
(** An option list separates its options with commas. *)
Class FuseLibOk (L : FuseLib) : Prop := {
  add_first a : fuse_opt_add_opt None a = Some a;
  add_next l a : fuse_opt_add_opt (Some l) a = Some (l ++ "," ++ a)%string;
}.

Section CmdLine.
Context {E : Env} {ME : MountEnv E} {L : FuseLib}.

(** The result is -1 for an error, 0 to drop the argument and 1 to keep it for the
    library; [case 'n'] falls through. *)
Definition hsfs_cmdline_proc (o : hsfs_cmdline_opts) (arg : string) (key : Z) :
    M world (Z * hsfs_cmdline_opts) :=
  let nonopt o :=
    match co_spec o with
    | Some _ => mret (1, o)
    | None => xstrdup (chars arg);; mret (0, o <| co_spec := Some arg |>)
    end in
  if key =? KEY_r then mret (0, o <| co_flags ::= λ f, Z.lor f MS_RDONLY |>)
  else if key =? KEY_v then mret (0, o <| co_verbose ::= Z.add 1 |>)
  else if key =? KEY_w then mret (0, o <| co_flags ::= λ f, bclear f MS_RDONLY |>)
  else if key =? KEY_f then mret (1, o <| co_fg := 1 |>)
  else if key =? KEY_n then nonopt (o <| co_nomtab := 1 |>)
  else if key =? FUSE_OPT_KEY_NONOPT then nonopt o
  else match fuse_opt_add_opt (co_udata o) arg with
       | Some udata => mret (1, o <| co_udata := Some udata |>)
       | None => mret (-1, o)
       end.

(** [fuse_opt_parse]: the options and the arguments kept, [None] after an error. *)
Fixpoint parse_events (evs : list fuse_event) (o : hsfs_cmdline_opts) :
    M world (option (hsfs_cmdline_opts * list (Z * string))) :=
  match evs with
  | [] => mret (Some (o, []))
  | Ev_fake :: evs => parse_events evs (o <| co_fake := 1 |>)
  | Ev_key key arg :: evs =>
      '(ret, o) ← hsfs_cmdline_proc o arg key;
      if ret =? -1 then mret None else
      r ← parse_events evs o;
      mret ('(o, kept) ← r; Some (o, if ret =? 0 then kept else (key, arg) :: kept))
  end.

(** [inr] is the exit status of [exit_usage] or [print_version]. *)
Definition hsfs_parse_cmdline (args : list string) :
    M world ((hsfs_cmdline_opts * string) + Z) :=
  r ← parse_events (fuse_opt_events args) zero_opts;
  match r with
  | None => mret (inr 1)
  | Some (o, kept) =>
      match fuse_parse_cmdline kept with
      | None => mret (inr 1)
      | Some fuse_opts =>
          if fc_show_help fuse_opts then mret (inr 0) else
          if fc_show_version fuse_opts then mret (inr 0) else
          match co_spec o, fc_mountpoint fuse_opts with
          | Some spec, Some _ => mret (inl (o, spec))
          | _, _ => mret (inr 1)
          end
      end
  end.

(** The requests of the session loop. *)
Fixpoint serve (reqs : list request) : M world unit :=
  match reqs with
  | [] => mret tt
  | req :: reqs => hsfs_oper req;; serve reqs
  end.

(** [main]: the exit status.  [session] are the requests that come, [None] when the
    session cannot be set up. *)
Definition hsfs_main (fuel : nat) (page : Z) (args : list string) (session : option (list request))
    (caps : list Z) (capable want : Z) : M world Z :=
  r ← hsfs_parse_cmdline args;
  match r with
  | inr status => mret status
  | inl (o, spec) =>
      err ← hsfs_init page;
      if negb (err =? 0) then mret 1 else
      err ← hsfs_do_mount fuel spec (co_udata o) (negb (co_fg o =? 0));
      if negb (err =? 0) then mret 1 else
      err ← (match session with
             | None => mret (-1)
             | Some reqs => _ ← hsx_fuse_init caps capable want; serve reqs;; mret 0
             end);
      _ ← hsfs_do_unmount spec;
      mret (if err =? 0 then 0 else 1)
  end.
End CmdLine.

(** ** What a command line says *)

Definition own_key (key : Z) : bool := (key =? KEY_r) || (key =? KEY_v) || (key =? KEY_w) || (key =? KEY_f).
Definition nonopt_key (key : Z) : bool := (key =? KEY_n) || (key =? FUSE_OPT_KEY_NONOPT).

(** The arguments that are not options, the options for the mount, and how often a
    key occurs. *)
Definition nonopts (evs : list fuse_event) : list string :=
  omap (λ ev, match ev with Ev_key k a => if nonopt_key k then Some a else None | _ => None end) evs.
Definition mount_options (evs : list fuse_event) : list string :=
  omap (λ ev, match ev with
              | Ev_key k a => if own_key k || nonopt_key k then None else Some a
              | _ => None
              end) evs.
Definition has_key (key : Z) (ev : fuse_event) : bool :=
  match ev with Ev_key k _ => k =? key | _ => false end.
Definition count_key (key : Z) (evs : list fuse_event) : nat :=
  length (filter (λ ev, has_key key ev = true) evs).

(** Everything but the first argument that is no option, and the keys of the program
    other than [-f], is left to the library. *)
Fixpoint left_over (seen : bool) (evs : list fuse_event) : list (Z * string) :=
  match evs with
  | [] => []
  | Ev_fake :: evs => left_over seen evs
  | Ev_key k a :: evs =>
      if nonopt_key k then if seen then (k, a) :: left_over seen evs else left_over true evs
      else if own_key k && negb (k =? KEY_f) then left_over seen evs
      else (k, a) :: left_over seen evs
  end.

Definition add_option (u : option string) (a : string) : option string :=
  Some (match u with None => a | Some l => l ++ "," ++ a end)%string.

Lemma chars_options l : ∀ u, ∃ t, fold_left add_option l (Some u) = Some t ∧
  chars t = joined (chars u :: (chars <$> l)).
Proof.
  induction l as [|a l IH]; intros u; [by exists u|]. cbn [fold_left add_option].
  destruct (IH (u ++ "," ++ a)%string) as (t & Hf & Ht). exists t. split; [exact Hf|]. rewrite Ht.
  rewrite !chars_app. cbn [fmap list_fmap joined]. change (chars ",") with [","%char].
  destruct l; cbn [fmap list_fmap joined app]; by rewrite <-?app_assoc.
Qed.
Lemma udata_options l : l ≠ [] → ∃ t, fold_left add_option l None = Some t ∧ chars t = joined (chars <$> l).
Proof. destruct l as [|a l]; [done|]. intros _. apply (chars_options l a). Qed.

Section Read.
Context {E : Env} {ME : MountEnv E} {L : FuseLib} {LOk : FuseLibOk L}.

Lemma add_opt_run u a : fuse_opt_add_opt u a = add_option u a.
Proof. destruct u; [apply add_next|apply add_first]. Qed.

(** One argument. *)
Lemma cmdline_proc_run o arg key w : memory_plenty (dom (w_heap w)) →
  ∃ ret o' e, hsfs_cmdline_proc o arg key w = Ok ((ret, o'), w <| w_est := e |>) ∧
    co_spec o' = (if nonopt_key key then match co_spec o with Some s => Some s | None => Some arg end else co_spec o) ∧
    co_udata o' = (if own_key key || nonopt_key key then co_udata o else add_option (co_udata o) arg) ∧
    co_verbose o' = co_verbose o + (if key =? KEY_v then 1 else 0) ∧
    co_fg o' = (if key =? KEY_f then 1 else co_fg o) ∧
    ret = (if nonopt_key key then match co_spec o with Some _ => 1 | None => 0 end
           else if own_key key && negb (key =? KEY_f) then 0 else 1).
Proof.
  intros Hm. unfold hsfs_cmdline_proc, own_key, nonopt_key.
  assert (Hw : w = w <| w_est := w_est w |>) by (by destruct w).
  assert (Hdup : ∃ e, xstrdup (chars arg) w = Ok (tt, w <| w_est := e |>)).
  { destruct (malloc_buf_any w (Z.of_nat (length (chars arg)) + 1)) as (ok & e & Hrun & Hok).
    rewrite (Hok Hm) in Hrun. exists e. unfold xstrdup, xmalloc. rewrite (proj2 (Z.eqb_neq _ 0)) by lia. by mstep Hrun. }
  destruct Hdup as [e Hdup].
  destruct (Z.eqb_spec key KEY_r) as [->|]; [eexists _, _, (w_est w); rewrite <-Hw; split_and!; try done; cbn; lia|].
  destruct (Z.eqb_spec key KEY_v) as [->|]; [eexists _, _, (w_est w); rewrite <-Hw; split_and!; try done; cbn; lia|].
  destruct (Z.eqb_spec key KEY_w) as [->|]; [eexists _, _, (w_est w); rewrite <-Hw; split_and!; try done; cbn; lia|].
  destruct (Z.eqb_spec key KEY_f) as [->|]; [eexists _, _, (w_est w); rewrite <-Hw; split_and!; try done; cbn; lia|].
  cbn [orb andb negb].
  destruct (Z.eqb_spec key KEY_n) as [->|]; cbn [orb].
  { destruct (co_spec o) as [sp|] eqn:Hsp; cbn; rewrite ?Hsp.
    - eexists _, _, (w_est w). rewrite <-Hw. split_and!; try done; cbn; lia.
    - eexists _, _, e. split; [by mstep Hdup|]. split_and!; try done; cbn; lia. }
  destruct (Z.eqb_spec key FUSE_OPT_KEY_NONOPT) as [->|].
  { destruct (co_spec o) as [sp|] eqn:Hsp.
    - eexists _, _, (w_est w). rewrite <-Hw. split_and!; try done; lia.
    - eexists _, _, e. split; [by mstep Hdup|]. split_and!; try done; cbn; lia. }
  rewrite add_opt_run. unfold add_option at 1. eexists _, _, (w_est w). rewrite <-Hw. split_and!; try done; cbn; lia.
Qed.

Lemma parse_events_run evs : ∀ o w, memory_plenty (dom (w_heap w)) →
  ∃ o' e, parse_events evs o w =
      Ok (Some (o', left_over (bool_decide (is_Some (co_spec o))) evs), w <| w_est := e |>) ∧
    co_spec o' = (match co_spec o with Some s => Some s | None => list.head (nonopts evs) end) ∧
    co_udata o' = fold_left add_option (mount_options evs) (co_udata o) ∧
    co_verbose o' = co_verbose o + Z.of_nat (count_key KEY_v evs) ∧
    co_fg o' = (if bool_decide (count_key KEY_f evs = 0%nat) then co_fg o else 1).
Proof.
  induction evs as [|[|key arg] evs IH]; intros o w Hm; cbn [parse_events left_over].
  - exists o, (w_est w). split; [by destruct w|]. split_and!; try done; [by destruct (co_spec o)|cbn; lia].
  - destruct (IH (o <| co_fake := 1 |>) w Hm) as (o' & e & Hrun & H1 & H2 & H3 & H4). by exists o', e.
  - destruct (cmdline_proc_run o arg key w Hm) as (ret & o1 & e1 & Hrun & S1 & U1 & V1 & F1 & Hret).
    set (w1 := w <| w_est := e1 |>) in *.
    destruct (IH o1 w1 Hm) as (o' & e & Hev & S2 & U2 & V2 & F2). exists o', e. split; [|split_and!].
    + mstep Hrun. assert (ret =? -1 = false) as ->.
      { rewrite Hret. by destruct (nonopt_key key), (co_spec o), (own_key key && negb (key =? KEY_f)). }
      mstep Hev. cbn. rewrite S1, Hret. clear.
      destruct (nonopt_key key); [|by destruct (own_key key && negb (key =? KEY_f))].
      by destruct (co_spec o).
    + rewrite S2, S1. unfold nonopts. cbn [omap list_omap]. by destruct (nonopt_key key), (co_spec o).
    + rewrite U2, U1. unfold mount_options. cbn [omap list_omap]. by destruct (own_key key || nonopt_key key).
    + rewrite V2, V1. unfold count_key. rewrite filter_cons. cbn [has_key].
      destruct (key =? KEY_v); [rewrite decide_True by done|rewrite decide_False by done]; cbn [length]; lia.
    + rewrite F2, F1. unfold count_key. rewrite (filter_cons _ (Ev_key key arg)). cbn [has_key].
      destruct (key =? KEY_f); [rewrite (decide_True (P := true = true)) by done|by rewrite (decide_False (P := false = true))].
      by repeat case_bool_decide.
Qed.

(** The options of a command line that can be mounted. *)
Lemma parse_cmdline_run args w spec fo : memory_plenty (dom (w_heap w)) →
  let evs := fuse_opt_events args in
  list.head (nonopts evs) = Some spec → fuse_parse_cmdline (left_over false evs) = Some fo →
  fc_show_help fo = false → fc_show_version fo = false → is_Some (fc_mountpoint fo) →
  ∃ o e, hsfs_parse_cmdline args w = Ok (inl (o, spec), w <| w_est := e |>) ∧
    co_udata o = fold_left add_option (mount_options evs) None ∧
    co_verbose o = Z.of_nat (count_key KEY_v evs) ∧
    co_fg o = (if bool_decide (count_key KEY_f evs = 0%nat) then 0 else 1).
Proof.
  intros Hm evs Hspec Hfo Hh Hv [mp Hmp]. destruct (parse_events_run evs zero_opts w Hm) as (o & e & Hrun & H1 & H2 & H3 & H4).
  exists o, e. split; [|by split_and!]. unfold hsfs_parse_cmdline. mstep Hrun. cbn in H1. rewrite Hspec in H1.
  change (bool_decide (is_Some (co_spec zero_opts))) with false. by rewrite Hfo, Hh, Hv, H1, Hmp.
Qed.

(** *** Options the mount does not know *)

(** A flag the option parser does not know. *)
Record unsupported (x : list ascii) : Prop := {
  us_plain : plain x;
  us_ne : x ≠ [];
  us_flag : "="%char ∉ x;
  us_short : (length x < CBUF_SIZE)%nat;
  us_unknown : ∀ o, flag_option x o = Out_bad;
}.

Lemma scan_all stop l : Forall (λ x, stop x = false) l → scan stop l = None.
Proof. induction 1 as [|c l Hc _ IH]; cbn; [done|]. by rewrite Hc, IH. Qed.
Lemma parse_items_app size l1 l2 : ∀ o o' w w',
  parse_items size l1 o w = Ok ((None, o'), w') →
  parse_items size (l1 ++ l2) o w = parse_items size l2 o' w'.
Proof.
  induction l1 as [|i l1 IH]; intros o o' w w' H; cbn [parse_items app] in *; [by injection H as -> ->|].
  apply bind_inv in H as (r & w1 & Hr & H). mstep Hr. destruct r as [o1 text| | |]; [|by apply IH|done..].
  destruct (_ <=? _)%nat; [done|]. destruct (_ <=? _)%nat; [done|]. by apply IH.
Qed.
Lemma parse_unsupported size x l o w : unsupported x → parse_items size (x :: l) o w = Ok ((Some 1, o), w).
Proof.
  intros [_ _ Hq Hs Hu]. cbn [parse_items]. assert (parse_item x o w = Ok (Out_bad, w)) as Hr; [|by mstep Hr].
  unfold parse_item. destruct (Nat.leb_spec CBUF_SIZE (length x)); [lia|].
  rewrite scan_all by (by apply Forall_not_char). by rewrite Hu.
Qed.

Lemma options_refused w text ss x rest addr s :
  memory_plenty (dom (w_heap w)) → Forall valid_setting ss → (length ss <= 48)%nat → unsupported x →
  Forall (λ i, plain i ∧ i ≠ []) rest → chars text = joined ((setting_text <$> ss) ++ x :: rest) →
  ∃ e o, hsi_nfs3_parse_options text addr (initial_opts s) w = Ok ((1, addr, o), w <| w_est := e |>).
Proof.
  intros Hm Hall Hlen Hx Hrest Ht. unfold hsi_nfs3_parse_options. rewrite Ht.
  set (items := (setting_text <$> ss) ++ x :: rest).
  destruct (malloc_buf_any w (Z.of_nat (length (joined items)) + 1)) as (ok & e & Hrun & Hok).
  rewrite (Hok Hm) in Hrun. set (w1 := w <| w_est := e |>) in *.
  assert (xstrdup (joined items) w = Ok (tt, w1)) as Hdup.
  { unfold xstrdup, xmalloc. rewrite (proj2 (Z.eqb_neq _ 0)) by lia. by mstep Hrun. }
  assert (opt_items (joined items) [] false = items) as Hitems.
  { apply opt_items_joined, list.Forall_app. split; [|constructor; [|done]; destruct Hx; done].
    apply Forall_fmap. eapply Forall_impl; [|exact Hall]. intros y Hy.
    by destruct (parse_setting y (initial_opts s) w Hy) as (_ & ? & ? & _). }
  pose proof (parse_settings 1024 ss (initial_opts s) w1 Hall ltac:(cbn [initial_opts mo_new length]; lia)) as Hset.
  exists e, (fold_left apply_setting ss (initial_opts s)). mstep Hdup. rewrite Hitems. unfold items.
  pose proof (parse_items_app 1024 _ (x :: rest) _ _ _ _ Hset) as Happ.
  rewrite (parse_unsupported 1024 x rest _ w1 Hx) in Happ. by mstep Happ.
Qed.

Lemma do_mount_refused fuel w spec host dir addr text ss x rest fg :
  memory_plenty (dom (w_heap w)) → no_nul (chars spec) → (length (chars spec) < 1024)%nat →
  devname (chars spec) host dir → env_inet_aton host = Some addr →
  Forall valid_setting ss → (length ss <= 48)%nat → unsupported x →
  Forall (λ i, plain i ∧ i ≠ []) rest → chars text = joined ((setting_text <$> ss) ++ x :: rest) →
  ∃ w', hsfs_do_mount fuel spec (Some text) fg w = Ok (-1, w') ∧ w_heap w' = w_heap w ∧ w_replies w' = w_replies w.
Proof.
  intros Hm Hnul Hlen Hdev Hhost Hss Hl Hx Hrest Ht.
  destruct (devname_complete w spec host dir Hm Hnul Hdev) as [e1 Hparse]. set (w1 := w <| w_est := e1 |>) in *.
  set (s := (w_sb w) <| sb_saddr ::= λ a, a <| sin_addr := addr |> |>).
  set (w2 := w1 <| w_sb := s |>).
  destruct (options_refused w2 text ss x rest zero_saddr s Hm Hss Hl Hx Hrest Ht) as (e2 & o & Hopts).
  eexists. split; [|split]; cycle 1; [| |unfold hsfs_do_mount;
    destruct (Nat.leb_spec 1024 (length (chars spec))); [lia|];
    mstep Hparse; mstep; unfold hsi_gethostbyname; rewrite Hhost; mstep; mstep; mstep; cbn [default];
    mstep Hopts; mstep; reflexivity]; done.
Qed.

End Read.

(** * Properties *)

Section Properties.
Context {E : Env} {ME : MountEnv E} {L : FuseLib} {LOk : FuseLibOk L}.


(** One flag the option parser does not know refuses the mount: [main] ends with
    status 1, nothing cached and nothing replied.  All flags of the command line but
    [-v] and [-f] reach that parser, also those meant for the FUSE library or the
    kernel ([-s], [-d], [ro], [nosuid], [allow_other]). *)
Theorem unsupported_flag_refuses_mount fuel page args session caps capable want w fo spec host dir addr ss x rest :
  memory_plenty (dom (w_heap w)) →
  let evs := fuse_opt_events args in
  list.head (nonopts evs) = Some spec → fuse_parse_cmdline (left_over false evs) = Some fo →
  fc_show_help fo = false → fc_show_version fo = false → is_Some (fc_mountpoint fo) →
  no_nul (chars spec) → (length (chars spec) < 1024)%nat → devname (chars spec) host dir →
  env_inet_aton host = Some addr →
  chars <$> mount_options evs = (setting_text <$> ss) ++ x :: rest →
  Forall valid_setting ss → (length ss <= 48)%nat → unsupported x → Forall (λ i, plain i ∧ i ≠ []) rest →
  ∃ w', hsfs_main fuel page args session caps capable want w = Ok (1, w') ∧
    w_heap w' = w_heap w ∧ w_replies w' = w_replies w.
Proof.
  intros Hm evs Hspec Hfo Hh Hv Hmp Hnul Hlen Hdev Hhost Hopts Hss Hl Hx Hrest.
  destruct (parse_cmdline_run args w spec fo Hm Hspec Hfo Hh Hv Hmp) as (o & e & Hrun & Hu & _).
  destruct (udata_options (mount_options evs)) as (text & Ht & Htext).
  { intros Hn. rewrite Hn in Hopts. by destruct ss. }
  fold evs in Hu. rewrite Ht in Hu. rewrite Hopts in Htext.
  set (w1 := w <| w_est := e |>) in *. set (w2 := w1 <| w_page_size := wrap 32 page |>).
  destruct (do_mount_refused fuel w2 spec host dir addr text ss x rest (negb (co_fg o =? 0)))
    as (w' & Hmount & Hh' & Hr'); [done..|]. exists w'. split; [|done].
  unfold hsfs_main. mstep Hrun. mstep. cbn [negb Z.eqb]. rewrite Hu. by mstep Hmount.
Qed.
End Properties.
