(* ===== verification/Typed.v ===== *)
(** * Types of the mount data

    The fields of the super block and of the addresses of the services keep the
    ranges of their C types through the parsing of any option string, through the
    validation of the mount data and through the answer to [FSINFO]. *)

From S2P Require Import Prelude CString Bitops Hash HList Types ErrPtr Icache NfsInode Rpc.
From S2P Require Import ParseDev Options Nfs3 Acl Fuse Mount Attrs.

(** [int] *)
Definition int_range (z : Z) : Prop := - 2 ^ 31 <= z < 2 ^ 31.

(** The fields the mount sets, by their types in [include/hsfs.h]. *)
Record typed_super (s : hsfs_super) : Prop := {
  ty_flags : int_range (sb_flags s);
  ty_rsize : in_range 32 (rsize s); ty_wsize : in_range 32 (wsize s);
  ty_timeo : int_range (timeo s); ty_retrans : int_range (retrans s);
  ty_acregmin : int_range (acregmin s); ty_acregmax : int_range (acregmax s);
  ty_acdirmin : int_range (acdirmin s); ty_acdirmax : int_range (acdirmax s);
  ty_dtsize : in_range 32 (dtsize s); ty_bsize : in_range 32 (bsize s); ty_bits : in_range 8 (bsize_bits s);
  ty_rtmax : in_range 32 (rtmax s); ty_rtpref : in_range 32 (rtpref s); ty_rtmult : in_range 32 (rtmult s);
  ty_wtmax : in_range 32 (wtmax s); ty_wtpref : in_range 32 (wtpref s); ty_wtmult : in_range 32 (wtmult s);
  ty_dtpref : in_range 32 (dtpref s); ty_maxfilesize : in_range 64 (maxfilesize s);
  ty_properties : in_range 32 (properties s);
}.
(** [struct pmap] holds [unsigned long]s. *)
Record typed_pmap (p : pmap) : Prop := {
  ty_prog : in_range 64 (pm_prog p); ty_vers : in_range 64 (pm_vers p);
  ty_prot : in_range 64 (pm_prot p); ty_port : in_range 64 (pm_port p);
}.
Record typed_opts (o : mount_opts) : Prop := {
  ty_super : typed_super (mo_super o); ty_retry : int_range (mo_retry o);
  ty_mnt : typed_pmap (mo_mnt o); ty_nfs : typed_pmap (mo_nfs o);
}.
(** XDR hands out unsigned integers of their width. *)
Record typed_fsinfo (f : fsinfo3resok) : Prop := {
  ty_fi_rtmax : in_range 32 (fi_rtmax f); ty_fi_rtpref : in_range 32 (fi_rtpref f);
  ty_fi_rtmult : in_range 32 (fi_rtmult f); ty_fi_wtmax : in_range 32 (fi_wtmax f);
  ty_fi_wtpref : in_range 32 (fi_wtpref f); ty_fi_dtpref : in_range 32 (fi_dtpref f);
  ty_fi_maxfilesize : in_range 64 (fi_maxfilesize f); ty_fi_properties : in_range 32 (fi_properties f);
}.

(** ** Lemmas *)

Lemma sint_int z : int_range (sint 32 z).
Proof.
  unfold int_range, sint, wrap. pose proof (Z.mod_pos_bound z (2 ^ 32) ltac:(lia)).
  destruct (Z.ltb_spec (z mod 2 ^ 32) (2 ^ (32 - 1))); lia.
Qed.
Lemma clear_tcp f : int_range f → int_range (bclear f NFS_MOUNT_TCP).
Proof.
  unfold int_range, bclear. change NFS_MOUNT_TCP with (Z.ones 1). rewrite Z.ldiff_ones_r by lia.
  rewrite Z.shiftl_mul_pow2, Z.shiftr_div_pow2 by lia. intros. pose proof (Z.div_mod f (2 ^ 1) ltac:(lia)).
  pose proof (Z.mod_pos_bound f (2 ^ 1) ltac:(lia)). lia.
Qed.
Lemma set_tcp f : int_range f → int_range (Z.lor f NFS_MOUNT_TCP).
Proof.
  intros Hf. assert (Z.lor f NFS_MOUNT_TCP = 2 * (f / 2) + 1) as ->.
  { apply Z.bits_inj'. intros i Hi. rewrite Z.lor_spec. unfold NFS_MOUNT_TCP.
    destruct (decide (i = 0)) as [->|Hne]; [by rewrite Z.testbit_odd_0, orb_true_r|].
    replace i with (Z.succ (i - 1)) by lia. rewrite Z.testbit_odd_succ by lia.
    change 1 with (2 * 0 + 1) at 1. rewrite (Z.testbit_odd_succ 0) by lia. rewrite Z.bits_0, orb_false_r.
    rewrite (Z.div_pow2_bits f 1) by lia. done. }
  unfold int_range in *. pose proof (Z.div_mod f 2 ltac:(lia)). pose proof (Z.mod_pos_bound f 2 ltac:(lia)). lia.
Qed.

Lemma wrap64_range z : in_range 64 (wrap 64 z).
Proof. by apply wrap_range. Qed.
Lemma wrap32_range z : in_range 32 (wrap 32 z).
Proof. by apply wrap_range. Qed.
Lemma atoi_int l : int_range (atoi l).
Proof. apply sint_int. Qed.
Lemma tcp_range : in_range 64 IPPROTO_TCP.
Proof. done. Qed.
Lemma udp_range : in_range 64 IPPROTO_UDP.
Proof. done. Qed.
Create HintDb typed discriminated.
#[local] Hint Resolve wrap64_range wrap32_range atoi_int sint_int clear_tcp set_tcp : typed.
#[local] Hint Resolve tcp_range udp_range : typed.

(** An update of some fields: the others are typed as they were. *)
Ltac typed_fields :=
  repeat match goal with H : typed_opts _ |- _ => destruct H | H : typed_super _ |- _ => destruct H
                       | H : typed_pmap _ |- _ => destruct H end;
  repeat (split; try (cbn; eauto with typed nocore; fail)); eauto with typed nocore.

Lemma typed_prot prot o : in_range 64 prot → typed_opts o → typed_opts (set_prot prot o).
Proof. intros Hp H. typed_fields. Qed.
Lemma typed_tcp_on o : typed_opts o → typed_opts (tcp_on o).
Proof. intros H. typed_fields. Qed.
Lemma typed_tcp_off o : typed_opts o → typed_opts (tcp_off o).
Proof. intros H. typed_fields. Qed.
#[local] Hint Resolve typed_prot typed_tcp_on typed_tcp_off : typed.

Definition typed_outcome (r : outcome) : Prop := match r with Keep o _ => typed_opts o | _ => True end.

Section Parser.
Context {E : Env}.

Lemma wlp_then {A B} (m : M world A) (k : M world B) Q w :
  (∀ w', wlp k Q w') → wlp (m;; k) Q w.
Proof. intros H. apply wlp_bind. unfold wlp at 1. destruct (m w) as [[a w']| | |]; auto. Qed.

Ltac typed_branch :=
  first [apply wlp_then; intros ?|idtac];
  unfold wlp; cbn [mret M_ret typed_outcome];
  solve [exact I|eauto with typed nocore|typed_fields].

Lemma typed_number name value o w :
  typed_opts o → wlp (number_option name value o) (λ r _, typed_outcome r) w.
Proof.
  intros H. unfold number_option. cbv zeta.
  repeat match goal with |- wlp (if ?b then _ else _) _ _ => destruct b; [typed_branch|] end.
  typed_branch.
Qed.
Lemma typed_text name value o w :
  typed_opts o → wlp (text_option name value o) (λ r _, typed_outcome r) w.
Proof.
  intros H. unfold text_option. cbv zeta.
  repeat match goal with |- wlp (if ?b then _ else _) _ _ => destruct b; try typed_branch end.
  all: typed_branch.
Qed.
Lemma typed_flag opt o : typed_opts o → typed_outcome (flag_option opt o).
Proof.
  intros H. unfold flag_option. cbv zeta.
  repeat match goal with |- typed_outcome (if ?b then _ else _) => destruct b end;
    cbn [typed_outcome]; solve [exact I|eauto 6 with typed nocore].
Qed.
Lemma typed_item opt o w : typed_opts o → wlp (parse_item opt o) (λ r _, typed_outcome r) w.
Proof.
  intros H. unfold parse_item. destruct (_ <=? _)%nat; [done|].
  destruct (scan _ opt) as [i|]; [|by apply typed_flag]. cbv zeta.
  destruct (drop _ opt) as [|c v]; [by apply typed_text|].
  destruct (isdigit c); [by apply typed_number|by apply typed_text].
Qed.
Lemma typed_items size items : ∀ o w, typed_opts o →
  wlp (parse_items size items o) (λ r _, typed_opts r.2) w.
Proof.
  induction items as [|opt items IH]; intros o w H; cbn [parse_items]; [done|].
  apply wlp_bind. eapply wlp_mono; [by apply typed_item|]. intros r w1 Hr.
  destruct r as [o1 text| | |]; [|by apply IH|done..].
  destruct (_ <=? _)%nat; [done|]. destruct (_ <=? _)%nat; [done|]. apply IH. cbn in Hr. by destruct Hr.
Qed.
End Parser.

(** ** Validation and FSINFO *)

Lemma ac_defaults_int lo hi mn mx :
  int_range lo → int_range hi → int_range mn → int_range mx →
  int_range (ac_defaults lo hi mn mx).1 ∧ int_range (ac_defaults lo hi mn mx).2.
Proof.
  intros. unfold ac_defaults. destruct (mn =? 0), (mx =? 0); cbv zeta; destruct (_ <? _); done.
Qed.

Lemma typed_validate s ms ns retry :
  typed_super s → typed_pmap (ca_pmap ms) → typed_pmap (ca_pmap ns) → int_range retry →
  let '(s', ms', ns', retry') := hsi_validate_mount_data s ms ns retry in
  typed_super s' ∧ typed_pmap (ca_pmap ms') ∧ typed_pmap (ca_pmap ns') ∧ int_range retry'.
Proof.
  intros Hs Hms Hns Hr. unfold hsi_validate_mount_data. cbv zeta.
  set (s1 := if timeo s =? 0 then _ else s).
  assert (H1 : typed_super s1) by (subst s1; destruct (timeo s =? 0); [|done]; typed_fields; done).
  clearbody s1. set (s2 := if retrans s1 =? 0 then _ else s1).
  assert (H2 : typed_super s2) by (subst s2; destruct (retrans s1 =? 0); [|done]; typed_fields; done).
  clearbody s2. clear s s1 Hs H1. rename s2 into s, H2 into Hs.
  destruct (ac_defaults 3 60 (acregmin s) (acregmax s)) as [rmn rmx] eqn:Ha.
  destruct (ac_defaults_int 3 60 (acregmin s) (acregmax s)) as [Hrmn Hrmx]; [done|done|apply Hs..|]. rewrite Ha in Hrmn, Hrmx.
  set (s3 := s <| acregmin := rmn |> <| acregmax := rmx |>).
  assert (H3 : typed_super s3) by (cbn in Hrmn, Hrmx; typed_fields).
  clearbody s3. clear s Hs Ha Hrmn Hrmx. rename s3 into s, H3 into Hs.
  destruct (ac_defaults 30 60 (acdirmin s) (acdirmax s)) as [dmn dmx] eqn:Hd.
  destruct (ac_defaults_int 30 60 (acdirmin s) (acdirmax s)) as [Hdmn Hdmx]; [done|done|apply Hs..|]. rewrite Hd in Hdmn, Hdmx.
  set (s4 := s <| acdirmin := dmn |> <| acdirmax := dmx |>).
  assert (H4 : typed_super s4) by (cbn in Hdmn, Hdmx; typed_fields).
  clearbody s4. clear s Hs Hd Hdmn Hdmx. rename s4 into s, H4 into Hs.
  destruct (block_size_clamped (bsize s) true) as [Hk ->].
  set (s5 := s <| bsize := _ |> <| bsize_bits := _ |>).
  assert (H5 : typed_super s5).
  { assert (in_range 8 (Z.log2 (clamped (bsize s)))) by (unfold in_range; lia). typed_fields. }
  clearbody s5. clear s Hs Hk. rename s5 into s, H5 into Hs. split_and!.
  - set (size := if pm_prot _ =? IPPROTO_TCP then _ else _).
    assert (in_range 32 size) by (subst size; repeat case_match; done). clearbody size. typed_fields.
  - destruct Hms. split; cbn; [done|done|case_match; eauto with typed nocore|done].
  - destruct Hns. split; cbn; [done|done|case_match; eauto with typed nocore|done].
  - case_match; done.
Qed.

Lemma typed_fsinfo_super page s f :
  typed_super s → typed_fsinfo f → typed_super (hsi_fsinfo_to_super page s f).
Proof.
  intros Hs Hf. unfold hsi_fsinfo_to_super. cbv zeta.
  set (rs := if _ <? (if _ && _ then _ else if rsize s =? 0 then _ else _) then _ else _).
  set (ws := if _ <? (if _ && _ then _ else if wsize s =? 0 then _ else _) then _ else _).
  assert (Hrs : in_range 32 rs).
  { subst rs. pose proof (ty_rsize s Hs). repeat case_match; eauto with typed nocore; done. }
  assert (Hws : in_range 32 ws).
  { subst ws. pose proof (ty_wsize s Hs). repeat case_match; eauto with typed nocore; done. }
  clearbody rs ws.
  set (dt := if rs <? _ then rs else _).
  assert (Hdt : in_range 32 dt) by (subst dt; repeat case_match; eauto with typed nocore).
  clearbody dt. destruct Hf. typed_fields.
Qed.

(** * Properties *)

Section Properties.
Context {E : Env} {ME : MountEnv E}.

End Properties.
