(* ===== verification/Io.v ===== *)
(** * Reading and writing files

    The loops of [hsx_fuse_read] and [hsx_fuse_write] against a server that holds
    a file and may transfer less than it is asked for: they end, and the kernel
    gets the bytes of the file, or the file gets the bytes of the kernel. *)

From S2P Require Import Prelude Bitops Hash HList Types ErrPtr Icache NfsInode Rpc Nfs3 Acl Fuse.
From S2P Require Import Attrs Lookups Failures Entries.

(** ** The server's side *)

(** The file with [d] written at [off], padded with zeros up to there. *)
Definition write_at (c : list Z) (off : nat) (d : list Z) : list Z :=
  take off (c ++ replicate (off - length c) 0) ++ d ++ drop (off + length d) c.

Section Server.
Context {E : Env}.

(** The server keeps a file behind [fh], [file] of the state of the outside world, and
    answers a read with a piece of it: at least a byte, unless the end has been reached
    and said so.  Neither reading nor memory allocation changes the file.  The server does
    so in its [good] states and stays in them. *)
Record serves_file (clnt : Z) (t : Z * Z) (fh : list Z) (good : est → Prop) (file : est → list Z) : Prop := {
  sf_read : ∀ off count e, good e → 0 <= off → 0 < count →
    ∃ d eof e', env_clnt_call clnt (NFSPROC3_READ fh off count) t e =
      (RPC_SUCCESS (Res_ok {| rd_count := Z.of_nat (length d); rd_eof := eof; rd_data := d |}), e') ∧
    d = take (length d) (drop (Z.to_nat off) (file e)) ∧ Z.of_nat (length d) <= count ∧
    (eof = 0 → d ≠ []) ∧ (eof ≠ 0 → Z.of_nat (length (file e)) <= off + Z.of_nat (length d)) ∧
    file e' = file e ∧ good e';
  sf_malloc : ∀ size used e, good e →
    file (env_malloc size used e).2 = file e ∧ good (env_malloc size used e).2;
}.

(** The server keeps the file [file] and stores at least a byte of each write. *)
Record stores_file (clnt : Z) (t : Z * Z) (fh : list Z) (stable : Z) (good : est → Prop)
    (file : est → list Z) : Prop := {
  st_write : ∀ off d e, good e → 0 <= off → d ≠ [] → off + Z.of_nat (length d) < 2 ^ 63 → ∃ k e',
    env_clnt_call clnt (NFSPROC3_WRITE fh off (Z.of_nat (length d)) stable d) t e =
      (RPC_SUCCESS (Res_ok {| wr_count := Z.of_nat k |}), e') ∧
    (0 < k <= length d)%nat ∧ file e' = write_at (file e) (Z.to_nat off) (take k d) ∧ good e';
  st_malloc : ∀ size used e, good e →
    file (env_malloc size used e).2 = file e ∧ good (env_malloc size used e).2;
}.
End Server.

(** ** Lemmas *)

Section Io.
Context {E : Env} `{!EnvOk E}.

Lemma malloc_buf_run w size :
  is_Some (env_malloc size (dom (w_heap w)) (w_est w)).1 →
  malloc_buf size w = Ok (true, w <| w_est := (env_malloc size (dom (w_heap w)) (w_est w)).2 |>).
Proof.
  intros [a Ha]. destruct (env_malloc size (dom (w_heap w)) (w_est w)) as [o e] eqn:Hm. cbn in *. subst o.
  unfold malloc_buf. mstep. by mstep (ext_run _ _ _ _ Hm).
Qed.

Section Read.
Context (a size off : Z) (n : nfs_inode) (good : est → Prop) (file : est → list Z) (c : list Z).
Hypothesis Hsize : 0 <= size < 2 ^ 32.
Hypothesis Hoff : 0 <= off ∧ off + size < 2 ^ 63.

(** What a loop over [read_loop] runs in: only the outside world changes. *)
Definition reading (w : world) : Prop :=
  icache_wf w ∧ w_heap w !! a = Some n ∧ clntp (w_sb w) ∈ w_clients w ∧ 0 < rsize (w_sb w) ∧
  serves_file (clntp (w_sb w)) (call_timeout (w_sb w)) (fh_bytes (n_fh n)) good file ∧
  file (w_est w) = c ∧ good (w_est w).

Let part := drop (Z.to_nat off) c.

(** One round: the next piece of the file arrives in the buffer. *)
Lemma read_round w buf cnt :
  reading w → length buf = Z.to_nat size → 0 <= cnt < size →
  let tmp := Z.min (size - cnt) (rsize (w_sb w)) in
  ∃ d eof e, hsi_nfs3_read
      {| rw_inode := a; rw_size := tmp; rw_off := off + cnt; ret_count := 0; rw_eof := 0;
         rw_stable := 0; data_len := tmp; data_val := drop (Z.to_nat cnt) buf |} w =
    Ok ((0, {| rw_inode := a; rw_size := tmp; rw_off := off + cnt;
               ret_count := Z.of_nat (length d); rw_eof := eof; rw_stable := 0;
               data_len := Z.of_nat (length d);
               data_val := d ++ drop (length d) (drop (Z.to_nat cnt) buf) |}),
        w <| w_est := e |>) ∧
    d = take (length d) (drop (Z.to_nat cnt) part) ∧ cnt + Z.of_nat (length d) <= size ∧
    (eof = 0 → d ≠ []) ∧ (eof ≠ 0 → Z.of_nat (length part) <= cnt + Z.of_nat (length d)) ∧ reading (w <| w_est := e |>).
Proof using Hsize Hoff EnvOk0.
  intros (Hwf & Hn & Hlive & Hrs & Hsrv & Hc & Hg) Hbuf Hcnt tmp.
  assert (0 < tmp <= size - cnt) as Htmp by (unfold tmp; lia).
  destruct (sf_read _ _ _ _ _ Hsrv (off + cnt) tmp (w_est w)) as (d & eof & e & Hcall & Hd & Hlen & Hne & Heof & Hsame & Hg');
    [done|lia..|].
  rewrite Hc in Hd, Heof, Hsame.
  exists d, eof, e. split.
  - pose proof (nfs3_call_success w _ _ _ _ Hlive Hcall) as Hrun.
    set (w1 := w <| w_est := e |>) in *.
    assert (clntp (w_sb w) ∈ w_clients w1) as Hl1 by done.
    assert (memcpy (drop (Z.to_nat cnt) buf) d (Z.of_nat (length d)) =
      Some (d ++ drop (length d) (drop (Z.to_nat cnt) buf))) as Hcp.
    { unfold memcpy. rewrite length_drop, Hbuf, !(proj2 (Z.leb_le _ _)) by lia. cbn [andb].
      by rewrite Nat2Z.id, firstn_all. }
    pose proof (of_option_run _ _ w1 Hcp) as Hcp'.
    unfold hsi_nfs3_read. cbn [rw_inode rw_off rw_size].
    rewrite (wrap_small 64 (off + cnt)), (wrap_small 32 tmp) by (unfold in_range; lia).
    cbn [data_val]. run. cbn [rd_data rd_count rd_eof]. run. reflexivity.
  - split_and!; [|lia|done| |done].
    + unfold part. rewrite drop_drop. rewrite Hd at 1. do 2 f_equal. lia.
    + intros He. specialize (Heof He). unfold part. rewrite length_drop. lia.
Qed.

Lemma read_loop_run fuel : ∀ w buf cnt,
  reading w → length buf = Z.to_nat size → 0 <= cnt <= size →
  take (Z.to_nat cnt) buf = take (Z.to_nat cnt) part → cnt <= Z.of_nat (length part) →
  size - cnt <= Z.of_nat fuel →
  ∃ buf' e, read_loop fuel a size off buf cnt w =
    Ok (inl (buf', Z.min size (Z.of_nat (length part))), w <| w_est := e |>) ∧ file e = c ∧ good e ∧
    length buf' = Z.to_nat size ∧
    take (Z.to_nat (Z.min size (Z.of_nat (length part)))) buf' = take (Z.to_nat size) part.
Proof using Hsize Hoff EnvOk0.
  induction fuel as [|fuel IH]; intros w buf cnt Hrd Hbuf Hcnt Htake Hle Hfuel;
    cbn [read_loop]; destruct (Z.ltb_spec cnt size) as [Hlt|Hge]; try lia.
  1, 3: exists buf, (w_est w); assert (cnt = size) as -> by lia;
    rewrite Z.min_l by lia; split_and!; [by destruct w|apply Hrd|apply Hrd|done..].
  destruct (read_round w buf cnt Hrd Hbuf ltac:(lia)) as (d & eof & e & Hrun & Hd & Hlen & Hne & Heof & Hrd1).
  set (w1 := w <| w_est := e |>) in *.
  set (buf1 := take (Z.to_nat cnt) buf ++ d ++ drop (length d) (drop (Z.to_nat cnt) buf)).
  set (cnt1 := cnt + Z.of_nat (length d)).
  assert (length buf1 = Z.to_nat size) as Hbuf1.
  { unfold buf1. rewrite !length_app, length_take, !length_drop. lia. }
  assert (take (Z.to_nat cnt1) buf1 = take (Z.to_nat cnt1) part) as Htake1.
  { replace (Z.to_nat cnt1) with (Z.to_nat cnt + length d)%nat by (unfold cnt1; lia).
    unfold buf1. rewrite take_app_add', take_app_length by (rewrite length_take; lia).
    rewrite Htake, <-take_take_drop. f_equal. exact Hd. }
  assert (cnt1 <= Z.of_nat (length part)) as Hle1.
  { apply (f_equal length) in Hd. rewrite length_take, length_drop in Hd. unfold cnt1. lia. }
  rewrite (bind_ok get_sb _ w _ _ eq_refl), (bind_ok _ _ _ _ _ Hrun).
  cbn [negb Z.eqb data_val ret_count rw_eof]. fold buf1 cnt1.
  destruct (Z.eqb_spec eof 0) as [He|He]; cbn [negb].
  - destruct (IH w1 buf1 cnt1 Hrd1 Hbuf1) as (buf' & e' & Hloop & Hres); [unfold cnt1; lia|done..| |].
    { destruct d; [by destruct Hne|]. unfold cnt1. cbn [length]. lia. }
    exists buf', e'. split; [|done]. rewrite Hloop. by destruct w.
  - specialize (Heof He). fold cnt1 in Heof. exists buf1, e.
    replace (Z.min size (Z.of_nat (length part))) with cnt1 by (unfold cnt1 in *; lia).
    split_and!; [done|apply Hrd1|apply Hrd1|done|]. rewrite Htake1, !firstn_all2 by (unfold cnt1 in *; lia). done.
Qed.
End Read.

(** ** Writing *)

Lemma length_write_at c off d :
  length (write_at c off d) = Nat.max (off + length d) (length c).
Proof. unfold write_at. rewrite !length_app, length_take, length_app, length_replicate, length_drop. lia. Qed.

(** Consecutive writes are one write. *)
Lemma write_at_app c off d1 d2 :
  write_at (write_at c off d1) (off + length d1) d2 = write_at c off (d1 ++ d2).
Proof.
  set (p := take off (c ++ replicate (off - length c) 0)).
  assert (length p = off) as Hp by (unfold p; rewrite length_take, length_app, length_replicate; lia).
  unfold write_at at 1. rewrite length_write_at.
  replace (off + length d1 - (Nat.max (off + length d1) (length c)))%nat with 0%nat by lia.
  cbn [replicate]. rewrite app_nil_r. unfold write_at. fold p. rewrite length_app.
  rewrite take_app_add', take_app_length by done.
  rewrite (drop_app_ge p), (drop_app_ge d1), drop_drop, <-!app_assoc by (rewrite ?Hp; lia).
  do 4 f_equal. lia.
Qed.

Section Write.
Context (a size off stable : Z) (n : nfs_inode) (buf : list Z) (good : est → Prop) (file : est → list Z).
Hypothesis Hsize : size = Z.of_nat (length buf) ∧ size < 2 ^ 32.
Hypothesis Hoff : 0 <= off ∧ off + size < 2 ^ 63.

Definition writing (w : world) : Prop :=
  icache_wf w ∧ w_heap w !! a = Some n ∧ clntp (w_sb w) ∈ w_clients w ∧ 0 < wsize (w_sb w) ∧
  stores_file (clntp (w_sb w)) (call_timeout (w_sb w)) (fh_bytes (n_fh n)) stable good file ∧ good (w_est w).

(** One round: the next bytes of the buffer reach the file. *)
Lemma write_round w cnt :
  writing w → 0 <= cnt < size →
  let tmp := Z.min (size - cnt) (wsize (w_sb w)) in
  ∃ k e, hsi_nfs3_write
      {| rw_inode := a; rw_size := tmp; rw_off := off + cnt; ret_count := 0; rw_eof := 0;
         rw_stable := stable; data_len := tmp;
         data_val := take (Z.to_nat tmp) (drop (Z.to_nat cnt) buf) |} w =
    Ok ((0, {| rw_inode := a; rw_size := tmp; rw_off := off + cnt; ret_count := Z.of_nat k;
               rw_eof := 0; rw_stable := stable; data_len := tmp;
               data_val := take (Z.to_nat tmp) (drop (Z.to_nat cnt) buf) |}),
        w <| w_est := e |>) ∧
    (0 < k)%nat ∧ cnt + Z.of_nat k <= size ∧
    file e = write_at (file (w_est w)) (Z.to_nat (off + cnt)) (take k (drop (Z.to_nat cnt) buf)) ∧
    good e.
Proof using Hsize Hoff EnvOk0.
  intros (Hwf & Hn & Hlive & Hws & Hsrv & Hg) Hcnt tmp.
  assert (0 < tmp <= size - cnt) as Htmp by (unfold tmp; lia).
  set (d := take (Z.to_nat tmp) (drop (Z.to_nat cnt) buf)).
  assert (length d = Z.to_nat tmp) as Hd by (unfold d; rewrite length_take, length_drop; lia).
  destruct (st_write _ _ _ _ _ _ Hsrv (off + cnt) d (w_est w)) as (k & e & Hcall & Hk & Hfile & Hg');
    [done|lia|by destruct d; [cbn in Hd; lia|]|lia|].
  rewrite Hd, Z2Nat.id in Hcall by lia. exists k, e. split_and!; [|lia..| |done].
  - pose proof (nfs3_call_success w _ _ _ _ Hlive Hcall) as Hrun.
    set (w1 := w <| w_est := e |>) in *.
    assert (clntp (w_sb w) ∈ w_clients w1) as Hl1 by done.
    unfold hsi_nfs3_write. cbn [rw_inode rw_off rw_size rw_stable data_len data_val].
    rewrite (wrap_small 64 (off + cnt)), (wrap_small 32 tmp) by (unfold in_range; lia).
    rewrite (firstn_all2 d) by lia. run. cbn [wr_count]. reflexivity.
  - rewrite Hfile. f_equal. unfold d. rewrite take_take. f_equal. lia.
Qed.

Lemma write_loop_run fuel : ∀ w cnt,
  writing w → 0 <= cnt <= size → size - cnt <= Z.of_nat fuel →
  ∃ e, write_loop fuel a buf size off stable cnt w = Ok (inl size, w <| w_est := e |>) ∧
    (cnt < size → file e = write_at (file (w_est w)) (Z.to_nat (off + cnt)) (drop (Z.to_nat cnt) buf)) ∧
    (cnt = size → e = w_est w) ∧ good e.
Proof using Hsize Hoff EnvOk0.
  induction fuel as [|fuel IH]; intros w cnt Hwr Hcnt Hfuel;
    cbn [write_loop]; destruct (Z.ltb_spec cnt size) as [Hlt|Hge]; try lia.
  1, 3: exists (w_est w); assert (cnt = size) as -> by lia; split_and!; [by destruct w|lia|done|apply Hwr].
  destruct (write_round w cnt Hwr ltac:(lia)) as (k & e & Hrun & Hk & Hle & Hfile & Hg).
  set (w1 := w <| w_est := e |>) in *.
  assert (writing w1) as Hwr1 by (destruct Hwr as (? & ? & ? & ? & ? & _); by split_and!).
  rewrite (bind_ok get_sb _ w _ _ eq_refl), (bind_ok _ _ _ _ _ Hrun). cbn [negb Z.eqb ret_count].
  destruct (IH w1 (cnt + Z.of_nat k) Hwr1) as (e' & Hloop & Hf' & He' & Hg'); [lia..|].
  exists e'. split_and!; [rewrite Hloop; by destruct w| |lia|done]. intros _.
  set (rest := drop (Z.to_nat cnt) buf) in *.
  assert (length rest = Z.to_nat (size - cnt)) as Hrest by (unfold rest; rewrite length_drop; lia).
  destruct (Z.lt_ge_cases (cnt + Z.of_nat k) size) as [Hlt'|Hge'].
  - rewrite (Hf' Hlt'). change (w_est w1) with e. rewrite Hfile.
    rewrite <-(take_drop k rest) at 2. rewrite <-write_at_app. f_equal.
    + rewrite length_take. lia.
    + unfold rest. rewrite drop_drop. f_equal. lia.
  - rewrite He' by lia. change (w_est w1) with e. by rewrite Hfile, firstn_all2 by lia.
Qed.
End Write.

(** ** The handlers *)

Lemma read_handler w ino a n size off good file :
  icache_wf w → w_heap w !! a = Some n → ino_of n = ino →
  is_Some (env_malloc size (dom (w_heap w)) (w_est w)).1 →
  clntp (w_sb w) ∈ w_clients w → 0 < rsize (w_sb w) →
  serves_file (clntp (w_sb w)) (call_timeout (w_sb w)) (fh_bytes (n_fh n)) good file → good (w_est w) →
  0 <= size < 2 ^ 32 → 0 <= off → off + size < 2 ^ 63 →
  ∃ e, hsfs_oper (Req_read ino size off) w = Ok (tt, w <| w_est := e |> <| w_replies ::= cons
      (reply_buf (take (Z.to_nat size) (drop (Z.to_nat off) (file (w_est w))))) |>) ∧
    file e = file (w_est w) ∧ good e.
Proof.
  intros Hwf Hn Hi Hm Hlive Hrs Hsrv Hg Hsize Hoff Hsum.
  pose proof (malloc_buf_run _ _ Hm) as Hmal.
  set (e0 := (env_malloc size (dom (w_heap w)) (w_est w)).2) in *. set (w1 := w <| w_est := e0 |>) in *.
  destruct (sf_malloc _ _ _ _ _ Hsrv size (dom (w_heap w)) (w_est w) Hg) as [Hc Hg1]. fold e0 in Hc, Hg1.
  assert (icache_wf w1) as Hwf1 by done. assert (w_heap w1 !! a = Some n) as Hn1 by done.
  pose proof (known_nonzero w Hwf _ _ Hn) as Hz. set (c := file (w_est w)) in *.
  destruct (read_loop_run a size off n good file c Hsize (conj Hoff Hsum) (Z.to_nat size) w1
    (replicate (Z.to_nat size) heap_byte) 0) as (buf' & e & Hloop & Hfile & Hge & Hlen & Htake).
  { done. } { apply length_replicate. } { lia. } { done. } { lia. } { lia. }
  set (k := Z.min size _) in *. exists e. split; [|done]. rewrite <-Htake.
  cbn [hsfs_oper]. unfold hsx_fuse_read. run.
  rewrite (proj2 (Z.leb_le k _)) by (unfold k; lia). reflexivity.
Qed.

Lemma write_handler w ino a n buf off fi good file :
  let stable := if fi_direct_io fi then HSFS_FILE_SYNC else HSFS_UNSTABLE in
  icache_wf w → w_heap w !! a = Some n → ino_of n = ino →
  is_Some (env_malloc (wsize (w_sb w)) (dom (w_heap w)) (w_est w)).1 →
  clntp (w_sb w) ∈ w_clients w → 0 < wsize (w_sb w) →
  stores_file (clntp (w_sb w)) (call_timeout (w_sb w)) (fh_bytes (n_fh n)) stable good file → good (w_est w) →
  buf ≠ [] → Z.of_nat (length buf) < 2 ^ 32 → 0 <= off → off + Z.of_nat (length buf) < 2 ^ 63 →
  ∃ e, hsfs_oper (Req_write ino buf off fi) w =
      Ok (tt, w <| w_est := e |> <| w_replies ::= cons (reply_write (Z.of_nat (length buf))) |>) ∧
    file e = write_at (file (w_est w)) (Z.to_nat off) buf ∧ good e.
Proof.
  intros stable Hwf Hn Hi Hm Hlive Hws Hsrv Hg Hne Hsize Hoff Hsum.
  pose proof (malloc_buf_run _ _ Hm) as Hmal.
  destruct (st_malloc _ _ _ _ _ _ Hsrv (wsize (w_sb w)) (dom (w_heap w)) (w_est w) Hg) as [Hc Hg1].
  set (e0 := (env_malloc (wsize (w_sb w)) (dom (w_heap w)) (w_est w)).2) in *.
  set (w1 := w <| w_est := e0 |>) in *.
  assert (icache_wf w1) as Hwf1 by done. assert (w_heap w1 !! a = Some n) as Hn1 by done.
  pose proof (known_nonzero w Hwf _ _ Hn) as Hz. set (size := Z.of_nat (length buf)) in *.
  destruct (write_loop_run a size off stable n buf good file (conj eq_refl Hsize) (conj Hoff Hsum)
    (length buf) w1 0) as (e & Hloop & Hfile & _ & Hge).
  { done. } { unfold size. lia. } { unfold size. lia. }
  exists e. split_and!; [| |done].
  - cbn [hsfs_oper]. fold size. unfold hsx_fuse_write. fold stable. run. reflexivity.
  - rewrite Hfile by (destruct buf; [done|unfold size; cbn; lia]). change (w_est w1) with e0. by rewrite Hc, Z.add_0_r.
Qed.

Lemma read_back c off d : take (length d) (drop off (write_at c off d)) = d.
Proof.
  unfold write_at. set (p := take off _).
  assert (length p = off) as Hp by (unfold p; rewrite length_take, length_app, length_replicate; lia).
  by rewrite <-Hp, drop_app_length, take_app_length.
Qed.

(** * Properties *)

(** C8. A read returns the bytes of the file: for a server that answers every read
    with some of the bytes asked for, the loop ends, and the one reply is the part
    of the file from [off] on, [size] bytes or up to the end of the file. *)
Theorem read_returns_file w ino a n size off good file :
  icache_wf w → w_heap w !! a = Some n → ino_of n = ino →
  is_Some (env_malloc size (dom (w_heap w)) (w_est w)).1 →
  clntp (w_sb w) ∈ w_clients w → 0 < rsize (w_sb w) →
  serves_file (clntp (w_sb w)) (call_timeout (w_sb w)) (fh_bytes (n_fh n)) good file → good (w_est w) →
  0 <= size < 2 ^ 32 → 0 <= off → off + size < 2 ^ 63 →
  ∃ w', hsfs_oper (Req_read ino size off) w = Ok (tt, w') ∧ w_heap w' = w_heap w ∧
    file (w_est w') = file (w_est w) ∧
    w_replies w' = reply_buf (take (Z.to_nat size) (drop (Z.to_nat off) (file (w_est w)))) :: w_replies w.
Proof.
  intros Hwf Hn Hi Hm Hlive Hrs Hsrv Hg Hsize Hoff Hsum.
  destruct (read_handler w ino a n size off good file Hwf Hn Hi Hm Hlive Hrs Hsrv Hg Hsize Hoff Hsum) as (e & Hrun & Hf & _).
  eexists. split; [exact Hrun|]. done.
Qed.

(** C9. A write stores the bytes of the kernel: for a server that stores some of the
    bytes of every write, the loop ends, the file holds the buffer at [off], and
    the one reply is the whole length. *)
Theorem write_stores_buffer w ino a n buf off fi good file :
  let stable := if fi_direct_io fi then HSFS_FILE_SYNC else HSFS_UNSTABLE in
  icache_wf w → w_heap w !! a = Some n → ino_of n = ino →
  is_Some (env_malloc (wsize (w_sb w)) (dom (w_heap w)) (w_est w)).1 →
  clntp (w_sb w) ∈ w_clients w → 0 < wsize (w_sb w) →
  stores_file (clntp (w_sb w)) (call_timeout (w_sb w)) (fh_bytes (n_fh n)) stable good file → good (w_est w) →
  buf ≠ [] → Z.of_nat (length buf) < 2 ^ 32 → 0 <= off → off + Z.of_nat (length buf) < 2 ^ 63 →
  ∃ w', hsfs_oper (Req_write ino buf off fi) w = Ok (tt, w') ∧ w_heap w' = w_heap w ∧
    file (w_est w') = write_at (file (w_est w)) (Z.to_nat off) buf ∧
    w_replies w' = reply_write (Z.of_nat (length buf)) :: w_replies w.
Proof.
  intros stable Hwf Hn Hi Hm Hlive Hws Hsrv Hg Hne Hsize Hoff Hsum.
  destruct (write_handler w ino a n buf off fi good file Hwf Hn Hi Hm Hlive Hws Hsrv Hg Hne Hsize Hoff Hsum) as (e & Hrun & Hf & _).
  eexists. split; [exact Hrun|]. done.
Qed.

(** C21. What was written is read back: a write at [off] followed by a read of as many bytes
    there replies the buffer of the write, and the length before it, whatever pieces
    the transfer sizes and the server cut the two into. *)
Theorem written_data_is_read w ino a n buf off fi good file :
  let stable := if fi_direct_io fi then HSFS_FILE_SYNC else HSFS_UNSTABLE in
  let size := Z.of_nat (length buf) in
  icache_wf w → w_heap w !! a = Some n → ino_of n = ino → memory_plenty (dom (w_heap w)) →
  clntp (w_sb w) ∈ w_clients w → 0 < wsize (w_sb w) → 0 < rsize (w_sb w) →
  stores_file (clntp (w_sb w)) (call_timeout (w_sb w)) (fh_bytes (n_fh n)) stable good file →
  serves_file (clntp (w_sb w)) (call_timeout (w_sb w)) (fh_bytes (n_fh n)) good file → good (w_est w) →
  buf ≠ [] → size < 2 ^ 32 → 0 <= off → off + size < 2 ^ 63 →
  ∃ w1 w2, hsfs_oper (Req_write ino buf off fi) w = Ok (tt, w1) ∧
    hsfs_oper (Req_read ino size off) w1 = Ok (tt, w2) ∧
    w_replies w2 = reply_buf buf :: reply_write size :: w_replies w.
Proof.
  intros stable size Hwf Hn Hi Hm Hlive Hws Hrs Hst Hsf Hg Hne Hsize Hoff Hsum.
  destruct (write_handler w ino a n buf off fi good file Hwf Hn Hi (Hm _ _) Hlive Hws Hst Hg Hne Hsize Hoff Hsum)
    as (e & Hrun & Hf & Hge). fold size in Hrun.
  set (w1 := w <| w_est := e |> <| w_replies ::= _ |>) in Hrun. assert (icache_wf w1) as Hwf1 by exact Hwf.
  destruct (read_handler w1 ino a n size off good file Hwf1 Hn Hi (Hm _ _) Hlive Hrs Hsf Hge) as (e2 & Hrun2 & _); [lia..|].
  exists w1. eexists. split; [exact Hrun|]. split; [exact Hrun2|].
  change (reply_buf (take (Z.to_nat size) (drop (Z.to_nat off) (file e))) :: reply_write size :: w_replies w =
    reply_buf buf :: reply_write size :: w_replies w). rewrite Hf. unfold size. by rewrite Nat2Z.id, read_back.
Qed.

(** C38. A truncation is lost after a write: [hsx_fuse_write] leaves the cached size alone, and
    [hsi_nfs_setattr] drops a size that equals the cached one.  So when a write made a file
    longer, cutting it back to the length it had is answered as done, with that length, and
    nothing is sent: the file keeps the length the write gave it. *)
Theorem truncation_after_write_lost w ino a n buf off fi good file attr :
  let stable := if fi_direct_io fi then HSFS_FILE_SYNC else HSFS_UNSTABLE in
  let size := Z.of_nat (length buf) in
  let len := Z.of_nat (length (file (w_est w))) in
  icache_wf w → w_heap w !! a = Some n → ino_of n = ino → memory_plenty (dom (w_heap w)) →
  clntp (w_sb w) ∈ w_clients w → 0 < wsize (w_sb w) →
  stores_file (clntp (w_sb w)) (call_timeout (w_sb w)) (fh_bytes (n_fh n)) stable good file → good (w_est w) →
  buf ≠ [] → size < 2 ^ 32 → 0 <= off → off + size < 2 ^ 63 →
  ia_size (i_iattr (n_inode n)) = len → len < off + size → st_size attr = len →
  ∃ w1 w2 st t, hsfs_oper (Req_write ino buf off fi) w = Ok (tt, w1) ∧
    hsfs_oper (Req_setattr ino attr FUSE_SET_ATTR_SIZE) w1 = Ok (tt, w2) ∧
    w_replies w2 = reply_attr st t :: reply_write size :: w_replies w ∧ st_size st = len ∧
    Z.of_nat (length (file (w_est w2))) = off + size.
Proof.
  intros stable size len Hwf Hn Hi Hm Hlive Hws Hst Hg Hne Hsize Hoff Hsum Hcache Hlonger Hattr.
  destruct (write_handler w ino a n buf off fi good file Hwf Hn Hi (Hm _ _) Hlive Hws Hst Hg Hne Hsize Hoff Hsum)
    as (e & Hrun & Hf & _). fold size in Hrun.
  set (w1 := w <| w_est := e |> <| w_replies ::= _ |>) in Hrun. assert (icache_wf w1) as Hwf1 by exact Hwf.
  assert (ia_valid (effective (n_inode n) (hsx_fuse_stat2iattr attr FUSE_SET_ATTR_SIZE stack_iattr)) = 0) as Hv.
  { unfold effective. rewrite stat2iattr_eq. cbn [ia_valid ia_size]. rewrite Hcache, Hattr.
    change (if flag FUSE_SET_ATTR_SIZE FUSE_SET_ATTR_SIZE then len else _) with len. by rewrite Z.eqb_refl, orb_true_r. }
  pose proof (setattr_noop w1 ino a n attr FUSE_SET_ATTR_SIZE Hwf1 Hn Hi Hv) as Hset.
  exists w1. eexists _, _, _. split; [exact Hrun|]. split; [exact Hset|]. split; [reflexivity|]. split; [exact Hcache|].
  change (Z.of_nat (length (file e)) = off + size). rewrite Hf, length_write_at. unfold size, len in *. lia.
Qed.
End Io.
