(* ===== verification/Dirs.v ===== *)
(** * Directories

    A complete run of [hsx_fuse_readdir] against a server that lists a directory:
    the reply holds the entries in order, as many as fit, and the cookie verifier
    of the listing is remembered for the next request. *)

From S2P Require Import Prelude Bitops Hash HList Types ErrPtr Icache NfsInode Rpc Nfs3 Acl Fuse.
From S2P Require Import Attrs Lookups Failures Entries Io.

Section Dirs.
Context {E : Env} `{!EnvOk E}.

(** What the client makes of an entry of the server. *)
Definition ctx_of (e : entry3) : hsfs_readdir_ctx := {|
  rc_off := sint 64 (e_cookie e); rc_name := String.substring 0 255 (e_name e);
  rc_ino := e_fileid e; rc_inode := 0 |}.
Definition dirent_of (c : hsfs_readdir_ctx) : dirent := Dirent (rc_name c) (rc_ino c) (rc_off c).
(** The bytes the entries take in the reply. *)
Definition dir_bytes (l : list hsfs_readdir_ctx) : Z :=
  foldr (λ c acc, direntry_size (rc_name c) + acc) 0 l.

Lemma dir_bytes_snoc l c : dir_bytes (l ++ [c]) = dir_bytes l + direntry_size (rc_name c).
Proof. induction l as [|c' l IH]; cbn; [lia|]. unfold dir_bytes in *. lia. Qed.

(** The loop takes the longest prefix that leaves a byte free. *)
Lemma dir_loop_prefix size ctx : ∀ done_,
  dir_bytes done_ < size →
  ∃ k, (k <= length ctx)%nat ∧ let l := done_ ++ take k ctx in
    dir_loop ctx size (dirent_of <$> done_) (dir_bytes done_) = (dirent_of <$> l, dir_bytes l) ∧
    dir_bytes l < size ∧
    (∀ c, ctx !! k = Some c → size <= dir_bytes l + direntry_size (rc_name c)).
Proof.
  induction ctx as [|c ctx IH]; intros done_ Hlt; cbn [dir_loop].
  - exists 0%nat. cbn. rewrite app_nil_r. split_and!; [lia|done..].
  - destruct (Z.leb_spec (size - dir_bytes done_) (direntry_size (rc_name c))) as [Hle|Hgt].
    + exists 0%nat. cbn [take]. rewrite app_nil_r. split_and!; [lia|done..|]. intros c' [= <-]. lia.
    + destruct (IH (done_ ++ [c])) as (k & Hk & Hloop & Hsz & Hnext); [rewrite dir_bytes_snoc; lia|].
      exists (S k). rewrite <-app_assoc in *. cbn [take app] in *.
      split_and!; [cbn; lia| |done|done]. rewrite <-Hloop, fmap_app, dir_bytes_snoc. done.
Qed.

Lemma alloc_name_run w name :
  memory_plenty (dom (w_heap w)) →
  ∃ e, __alloc_copy_name name w =
    Ok (Some {| rc_off := 0; rc_name := String.substring 0 255 name; rc_ino := 0; rc_inode := 0 |},
        w <| w_est := e |>).
Proof.
  intros Hm. unfold __alloc_copy_name. pose proof (malloc_buf_run w 200 (Hm _ _)) as H1.
  set (w1 := w <| w_est := _ |>) in H1.
  pose proof (malloc_buf_run w1 (strlen (String.substring 0 255 name) + 1) (Hm _ _)) as H2.
  eexists. run. by destruct w.
Qed.
Lemma readdir_entries_run es : ∀ ctx w, memory_plenty (dom (w_heap w)) →
  ∃ e, readdir_entries es ctx w = Ok ((0, ctx ++ (ctx_of <$> es)), w <| w_est := e |>).
Proof.
  induction es as [|e es IH]; intros ctx w Hm; cbn [readdir_entries].
  - exists (w_est w). rewrite app_nil_r. by destruct w.
  - destruct (alloc_name_run w (e_name e) Hm) as (e1 & Hal). set (w1 := w <| w_est := e1 |>) in Hal.
    destruct (IH (ctx ++ [ctx_of e]) w1 Hm) as (e2 & Hrun). exists e2.
    mstep Hal. rewrite <-app_assoc in Hrun. cbn in Hrun. etransitivity; [exact Hrun|]. by destruct w.
Qed.

(** The attributes of the directory that came with the listing. *)
Definition dir_refreshed (attrs : post_op_attr) (n : nfs_inode) : nfs_inode :=
  match attrs with Some f => with_fattr (fattr_of f) n | None => n end.

Lemma dir_refresh_run w a n attrs :
  w_heap w !! a = Some n →
  match attrs with Some f => same_object n (fattr_of f) = true | None => True end →
  nfs_refresh_inode a (hsi_nfs3_post2fattr attrs (nfs_init_fattr stack_fattr)).2 w =
    Ok (0, w <| w_heap ::= <[a := dir_refreshed attrs n]> |>).
Proof.
  intros Hn Hat. destruct attrs as [f|]; cbn [hsi_nfs3_post2fattr snd dir_refreshed]; rewrite (refresh_inode_run w a n _ Hn).
  - fold (fattr_of f). by rewrite fattr_of_valid, Hat.
  - replace (w <| w_heap ::= <[a := n]> |>) with w; [done|].
    destruct w. cbv [set]. cbn in *. by rewrite insert_id.
Qed.
Lemma set_verf_run w a n1 verf :
  __set_cookie_verf a verf (w <| w_heap ::= <[a := n1]> |>) =
    Ok (tt, w <| w_heap ::= <[a := n1 <| n_cookieverf := verf |>]> |>).
Proof. unfold __set_cookie_verf. rewrite (upd_run _ a n1) by apply lookup_insert_eq. by rewrite heap_upd_upd. Qed.

Lemma nfs3_readdir_run w a n count cookie attrs verf es e :
  icache_wf w → w_heap w !! a = Some n → memory_plenty (dom (w_heap w)) →
  match attrs with Some f => same_object n (fattr_of f) = true | None => True end →
  served w (NFSPROC3_READDIR (fh_bytes (n_fh n)) cookie (n_cookieverf n) count)
    (Res_ok {| rr_dir_attributes := attrs; rr_cookieverf := verf; rr_entries := es |}) e →
  ∃ e', hsi_nfs3_readdir a count cookie w =
    Ok ((0, ctx_of <$> es), w <| w_est := e' |>
      <| w_heap ::= <[a := (dir_refreshed attrs n) <| n_cookieverf := verf |>]> |>).
Proof.
  intros Hwf Hn Hm Hat Hsv. pose proof (served_run _ _ _ _ Hsv) as Hcall.
  set (w1 := w <| w_est := e |>) in *. set (n1 := dir_refreshed attrs n).
  set (w2 := w1 <| w_heap ::= <[a := n1]> |>).
  assert (w_heap w2 !! a = Some n1) as Hn2 by apply lookup_insert_eq.
  set (n2 := n1 <| n_cookieverf := verf |>). set (w3 := w1 <| w_heap ::= <[a := n2]> |>).
  assert (memory_plenty (dom (w_heap w3))) as Hm3
    by (unfold w3, w1; cbn; by rewrite dom_insert_lookup_L).
  destruct (readdir_entries_run es [] w3 Hm3) as (e' & Hent). cbn [app] in Hent.
  exists e'.
  pose proof (dir_refresh_run w1 a n attrs Hn Hat : _ = Ok (0, w2)) as Href.
  pose proof (set_verf_run w1 a n1 verf : _ = Ok (tt, w3)) as Hverf.
  set (w4 := w3 <| w_est := e' |>) in *. assert (clntp (w_sb w) ∈ w_clients w4) as Hlive by apply Hsv.
  unfold hsi_nfs3_readdir. run. cbn [rr_dir_attributes rr_cookieverf rr_entries].
  destruct (hsi_nfs3_post2fattr attrs (nfs_init_fattr stack_fattr)) as [b fa]. cbn [snd] in Href.
  run. reflexivity.
Qed.

(** The handler: the world it leaves and what it replied. *)
Lemma readdir_run w ino a n size off attrs verf es e :
  icache_wf w → w_heap w !! a = Some n → ino_of n = ino → memory_plenty (dom (w_heap w)) → 0 < size →
  match attrs with Some f => same_object n (fattr_of f) = true | None => True end →
  served w (NFSPROC3_READDIR (fh_bytes (n_fh n)) (wrap 64 off) (n_cookieverf n) (wrap 32 size))
    (Res_ok {| rr_dir_attributes := attrs; rr_cookieverf := verf; rr_entries := es |}) e →
  ∃ e' k, (k <= length es)%nat ∧ let l := ctx_of <$> take k es in
    hsx_fuse_readdir ino size off w =
      Ok (tt, w <| w_est := e' |> <| w_heap ::= <[a := (dir_refreshed attrs n) <| n_cookieverf := verf |>]> |>
                <| w_replies ::= cons (reply_dirbuf (dirent_of <$> l) (dir_bytes l)) |>) ∧
    dir_bytes l < size ∧
    (∀ en, es !! k = Some en → size <= dir_bytes l + direntry_size (rc_name (ctx_of en))).
Proof.
  intros Hwf Hn Hi Hm Hsize Hat Hsv. pose proof (known_nonzero w Hwf _ _ Hn) as Hz.
  destruct (nfs3_readdir_run w a n _ _ attrs verf es e Hwf Hn Hm Hat Hsv) as (e' & Hrd).
  set (w1 := w <| w_est := e' |> <| w_heap ::= _ |>) in Hrd.
  assert (memory_plenty (dom (w_heap w1))) as Hm1 by (unfold w1; cbn; by rewrite dom_insert_lookup_L).
  pose proof (malloc_buf_run w1 size (Hm1 _ _)) as Hmal. set (w2 := w1 <| w_est := _ |>) in Hmal.
  destruct (dir_loop_prefix size (ctx_of <$> es) []) as (k & Hk & Hloop & Hsz & Hnext); [done|].
  rewrite length_fmap in Hk. cbn [app fmap list_fmap] in Hloop. rewrite <-fmap_take in *.
  exists (w_est w2), k. split; [done|]. cbv zeta. split_and!; [|done|].
  - assert (dir_loop (ctx_of <$> es) size [] 0 =
      (dirent_of <$> (ctx_of <$> take k es), dir_bytes (ctx_of <$> take k es))) as Hl by exact Hloop.
    unfold hsx_fuse_readdir. run. rewrite Hl. reflexivity.
  - intros en Hen. apply Hnext. by rewrite list_lookup_fmap, Hen.
Qed.

(** ** Listing a whole directory *)

Definition dirent_off (d : dirent) : Z := match d with Dirent _ _ off | DirentPlus _ _ off => off end.

(** How the kernel reads a directory: each request goes on from the offset of the
    last entry it got, until a reply is empty. *)
Fixpoint list_directory (fuel : nat) (ino size off : Z) : M world (list dirent) :=
  match fuel with
  | O => out_of_fuel
  | S fuel =>
      hsx_fuse_readdir ino size off;;
      replies ← gets w_replies;
      match replies with
      | reply_dirbuf out _ :: _ =>
          match list.last out with
          | None => mret []
          | Some d => rest ← list_directory fuel ino size (dirent_off d); mret (out ++ rest)
          end
      | _ => mret []
      end
  end.

(** The cookie to ask for the entries from the [i]-th on. *)
Definition cookie_at (D : list entry3) (i : nat) : Z :=
  match i with O => 0 | S i => from_option e_cookie 0 (D !! i) end.

(** The server lists [D] for the directory [n], with the verifier [V]: it answers some
    of the entries that follow a cookie, at least one if there are any.  A cookie
    other than 0 is only good together with the verifier. *)
Definition serves_dir (clnt : Z) (t : Z * Z) (n : nfs_inode) (D : list entry3) (V count : Z) : Prop :=
  ∀ i verf e, (i <= length D)%nat → i = 0%nat ∨ verf = V →
    ∃ k attrs e', env_clnt_call clnt (NFSPROC3_READDIR (fh_bytes (n_fh n)) (cookie_at D i) verf count) t e =
      (RPC_SUCCESS (Res_ok {| rr_dir_attributes := attrs; rr_cookieverf := V;
                              rr_entries := take k (drop i D) |}), e') ∧
    ((i < length D)%nat → (0 < k)%nat) ∧
    match attrs with Some f => same_object n (fattr_of f) = true | None => True end.

(** The directory as the requests leave it. *)
Definition same_dir (n n' : nfs_inode) : Prop :=
  keeps n n' ∧ ia_mode (i_iattr (n_inode n')) & S_IFMT = ia_mode (i_iattr (n_inode n)) & S_IFMT.
Lemma same_dir_object n n' f : same_dir n n' → same_object n' f = same_object n f.
Proof. intros [[_ Hf _] Hm]. unfold same_object. by rewrite Hf, Hm. Qed.
Lemma dir_refreshed_same n attrs V :
  match attrs with Some f => same_object n (fattr_of f) = true | None => True end →
  same_dir n ((dir_refreshed attrs n) <| n_cookieverf := V |>).
Proof.
  destruct attrs as [f|]; intros H; (split; [by split|]); [|done].
  apply andb_true_iff in H as [_ H%Z.eqb_eq]. symmetry. exact H.
Qed.
Lemma same_dir_trans n n' n'' : same_dir n n' → same_dir n' n'' → same_dir n n''.
Proof. intros [[] H1] [[] H2]. split; [split; try congruence; [lia|auto]|congruence]. Qed.

Lemma cookie_at_snoc D i k en : (i + k < length D)%nat → list.last (take (S k) (drop i D)) = Some en →
  cookie_at D (i + S k) = e_cookie en.
Proof.
  intros Hlt Hl. rewrite Nat.add_succ_r. cbn.
  rewrite last_lookup, length_take, length_drop, Nat.min_l in Hl by lia. cbn [pred] in Hl.
  by rewrite lookup_take_lt, lookup_drop in Hl by lia; rewrite Hl.
Qed.

Lemma wrap_sint64 c : in_range 64 c → wrap 64 (sint 64 c) = c.
Proof.
  intros Hc. unfold sint. rewrite (wrap_small 64 c) by done. unfold in_range in Hc.
  case_match; unfold wrap; [by rewrite Z.mod_small|].
  rewrite <-(Z_mod_plus_full _ 1), Z.mod_small; lia.
Qed.

Section Listing.
Context (a ino size V : Z) (n : nfs_inode) (D : list entry3).
Hypothesis Hsize : 0 < size < 2 ^ 32.
Hypothesis Hfits : Forall (λ en, in_range 64 (e_cookie en) ∧ direntry_size (rc_name (ctx_of en)) < size) D.

(** What every request of the listing starts from. *)
Record listing (i : nat) (w : world) : Prop := {
  ls_wf : icache_wf w;
  ls_plenty : memory_plenty (dom (w_heap w));
  ls_live : clntp (w_sb w) ∈ w_clients w;
  ls_dir : ∃ n', w_heap w !! a = Some n' ∧ ino_of n' = ino ∧ same_dir n n' ∧ (i = 0%nat ∨ n_cookieverf n' = V);
  ls_server : serves_dir (clntp (w_sb w)) (call_timeout (w_sb w)) n D V size;
}.

(** One request: some of the entries that follow, at least one if there are any. *)
Lemma listing_step i off w :
  listing i w → (i <= length D)%nat → wrap 64 off = cookie_at D i →
  ∃ k w' len, hsx_fuse_readdir ino size off w = Ok (tt, w') ∧ (i + k <= length D)%nat ∧ listing (i + k) w' ∧
    w_replies w' = reply_dirbuf (dirent_of <$> (ctx_of <$> take k (drop i D))) len :: w_replies w ∧
    ((i < length D)%nat → (0 < k)%nat).
Proof using Hsize Hfits EnvOk0.
  intros [Hwf Hm Hlive (n' & Hn & Hi & Hsame & Hv) Hsrv] Hlen Hoff.
  destruct (Hsrv i (n_cookieverf n') (w_est w) Hlen Hv) as (k0 & attrs & e & Hcall & Hpos & Hat).
  assert (Hat' : match attrs with Some f => same_object n' (fattr_of f) = true | None => True end).
  { destruct attrs; [|done]. by rewrite (same_dir_object n). }
  destruct (readdir_run w ino a n' size off attrs V (take k0 (drop i D)) e Hwf Hn Hi Hm (proj1 Hsize) Hat')
    as (e' & k & Hk & Hrun & Hsz & Hnext).
  { split; [done|]. rewrite Hoff, (wrap_small 32) by (unfold in_range; lia).
    destruct Hsame as [[_ _ -> _] _]. exact Hcall. }
  set (n1 := (dir_refreshed attrs n') <| n_cookieverf := V |>) in *. cbv zeta in *.
  pose proof (dir_refreshed_same n' attrs V Hat' : same_dir n' n1) as Hd.
  rewrite length_take, length_drop in Hk. rewrite take_take, (Nat.min_l k) in * by lia.
  eexists k, _, _. split; [exact Hrun|]. split; [lia|]. split; [|split; [reflexivity|]].
  - split; [..|exact Hsrv].
    + cbn. by apply (cache_ok_upd _ _ _ _ _ _ n'); [..|apply Hd].
    + cbn. by rewrite dom_insert_lookup_L.
    + done.
    + exists n1. split; [apply lookup_insert_eq|]. split; [rewrite <-Hi; apply Hd|].
      split; [by eapply same_dir_trans|by right].
  - intros Hlt. specialize (Hpos Hlt). destruct k as [|k]; [|lia]. exfalso.
    destruct (lookup_lt_is_Some_2 D i Hlt) as [en Hen].
    assert (take k0 (drop i D) !! 0%nat = Some en) as H0.
    { rewrite lookup_take_lt, lookup_drop, Nat.add_0_r by lia. done. }
    specialize (Hnext en H0). change (dir_bytes _) with 0 in Hnext.
    destruct (proj1 (Forall_lookup _ _) Hfits i en Hen). lia.
Qed.

Lemma list_directory_run fuel : ∀ i off w,
  listing i w → (i <= length D)%nat → (length D - i < fuel)%nat → wrap 64 off = cookie_at D i →
  ∃ w', list_directory fuel ino size off w = Ok (dirent_of <$> (ctx_of <$> drop i D), w') ∧
    listing (length D) w'.
Proof using Hsize Hfits EnvOk0.
  induction fuel as [|fuel IH]; intros i off w Hw Hi Hf Hoff; [lia|]. cbn [list_directory].
  destruct (listing_step i off w Hw Hi Hoff) as (k & w1 & len & Hrun & Hk & Hw1 & Hrep & Hpos).
  rewrite (bind_ok _ _ _ _ _ Hrun), (bind_ok _ _ _ _ _ (eq_refl : gets w_replies w1 = _)), Hrep.
  destruct k as [|k].
  { assert (i = length D) as -> by lia. rewrite drop_all. exists w1. cbn. by rewrite Nat.add_0_r in Hw1. }
  destruct (list.last (take (S k) (drop i D))) as [en|] eqn:Hl.
  2:{ apply last_None, (f_equal length) in Hl. rewrite length_take, length_drop in Hl.
      change (length []) with 0%nat in Hl. lia. }
  rewrite !fmap_last, Hl. cbn [fmap option_fmap option_map].
  destruct (IH (i + S k)%nat (dirent_off (dirent_of (ctx_of en))) w1) as (w2 & Hrest & Hw2); [done|lia|lia| |].
  { rewrite (cookie_at_snoc D i k en) by (done || lia). cbn. apply wrap_sint64.
    assert (en ∈ D) as Hin.
    { apply last_Some_elem_of in Hl. by apply (subseteq_drop i), (subseteq_take (S k)). }
    by destruct (proj1 (list.Forall_forall _ _) Hfits en Hin). }
  exists w2. split; [|done]. mstep Hrest. rewrite <-!fmap_app, <-drop_drop, take_drop. done.
Qed.
End Listing.

(** * Properties *)

(** Listing a directory: the reply holds the server's entries in order (names cut
    at 255 bytes, each with its file id and the cookie of the next), the longest
    prefix that takes fewer than [size] bytes; the cookie verifier and the
    attributes of the directory are kept, no other inode changes. *)
Theorem readdir_replies_entries w ino a n size off attrs verf es e :
  icache_wf w → w_heap w !! a = Some n → ino_of n = ino → memory_plenty (dom (w_heap w)) → 0 < size →
  match attrs with Some f => same_object n (fattr_of f) = true | None => True end →
  served w (NFSPROC3_READDIR (fh_bytes (n_fh n)) (wrap 64 off) (n_cookieverf n) (wrap 32 size))
    (Res_ok {| rr_dir_attributes := attrs; rr_cookieverf := verf; rr_entries := es |}) e →
  ∃ w' k, hsx_fuse_readdir ino size off w = Ok (tt, w') ∧ (k <= length es)%nat ∧
    let l := ctx_of <$> take k es in
    w_replies w' = reply_dirbuf (dirent_of <$> l) (dir_bytes l) :: w_replies w ∧
    dir_bytes l < size ∧
    (∀ en, es !! k = Some en → size <= dir_bytes l + direntry_size (rc_name (ctx_of en))) ∧
    w_heap w' = <[a := (dir_refreshed attrs n) <| n_cookieverf := verf |>]> (w_heap w).
Proof.
  intros Hwf Hn Hi Hm Hsize Hat Hsv.
  destruct (readdir_run w ino a n size off attrs verf es e Hwf Hn Hi Hm Hsize Hat Hsv)
    as (e' & k & Hk & Hrun & Hsz & Hnext). by eexists _, k.
Qed.

(** C17. The whole listing: a program that reads the directory from the start, each time
    from the offset of the last entry it got, gets every entry of the server's
    directory once and in order, however many entries the server puts into an answer
    and however many of those fit into [size] bytes, when each entry fits alone.
    After the first request the server gets the verifier it gave. *)
Theorem directory_is_listed w ino a n size V D fuel :
  icache_wf w → w_heap w !! a = Some n → ino_of n = ino → memory_plenty (dom (w_heap w)) →
  clntp (w_sb w) ∈ w_clients w → 0 < size < 2 ^ 32 →
  serves_dir (clntp (w_sb w)) (call_timeout (w_sb w)) n D V size →
  Forall (λ en, in_range 64 (e_cookie en) ∧ direntry_size (rc_name (ctx_of en)) < size) D →
  (length D < fuel)%nat →
  ∃ w', list_directory fuel ino size 0 w = Ok (dirent_of <$> (ctx_of <$> D), w') ∧ icache_wf w'.
Proof.
  intros Hwf Hn Hi Hm Hlive Hsize Hsrv Hfits Hf.
  destruct (list_directory_run a ino size V n D Hsize Hfits fuel 0 0 w) as (w' & Hrun & Hw'); [|lia..|done|].
  - split; [done..| |done]. exists n. split_and!; [done..|by split|by left].
  - exists w'. split; [exact Hrun|apply Hw'].
Qed.
End Dirs.
