(* ===== verification/Creations.v ===== *)
(** * Requests that make a file

    Complete runs of [mkdir], [symlink], [mknod] and [create] against a server that
    carries the request out: one theorem for the four, over the relation between a
    request and the call it becomes. *)

From S2P Require Import Prelude Bitops Hash HList Types ErrPtr Icache NfsInode Rpc Nfs3 Acl Fuse.
From S2P Require Import Attrs Lookups Failures Entries Io.

Section Creations.
Context {E : Env} `{!EnvOk E}.

(** [create] stores the caller's ids in the cached directory before it calls. *)
Definition owned (uid gid : Z) (n : nfs_inode) : nfs_inode :=
  n <| n_inode ::= λ i, i <| i_iattr ::= λ ia, ia <| ia_uid := uid |> <| ia_gid := gid |> |> |>.

(** The modes of a CREATE that is not exclusive. *)
Definition UNCHECKED : Z := 0.
Definition GUARDED : Z := 1.

(** [creation w req w0 call st mk]: the request [req], received in [w], is sent as
    [call] in [w0], and an entry made from [st] is replied with [mk].  An exclusive
    [create] makes a second call and is not among them. *)
Inductive creation (w : world) : request → world → nfs3_call (nfs3res diropres3ok) → stat →
    (fuse_entry_param → fuse_reply) → Prop :=
| creation_mkdir p np name mode : at_ino w p np →
    creation w (Req_mkdir p name mode) w
      (NFSPROC3_MKDIR (in_dir np name) (sattr3_zero <| sa_mode := Some (mode & 0xfff) |>)) zero_stat reply_entry
| creation_symlink link p np name : at_ino w p np →
    creation w (Req_symlink link p name) w
      (NFSPROC3_SYMLINK (in_dir np name) sattr3_zero link) stack_stat reply_entry
| creation_mknod p np name mode rdev b e : at_ino w p np → strlen name < NAME_MAX →
    env_malloc NAME_MAX (dom (w_heap w)) (w_est w) = (Some b, e) →
    creation w (Req_mknod p name mode rdev) (w <| w_est := e |>)
      (NFSPROC3_MKNOD (in_dir np name) (mknod_what mode rdev)) stack_stat reply_entry
| creation_create p a np name mode uid gid fi : w_heap w !! a = Some np → ino_of np = p →
    flag (fi_flags fi) O_EXCL = false →
    creation w (Req_create p name mode uid gid fi) (w <| w_heap ::= <[a := owned uid gid np]> |>)
      (NFSPROC3_CREATE (in_dir np name) (CREATE_ATTR (if flag (fi_flags fi) O_TRUNC then GUARDED else UNCHECKED)
         {| sa_mode := Some (mode & S_IRWXUGO); sa_uid := Some uid; sa_gid := Some gid; sa_size := None;
            sa_atime := SET_TO_SERVER_TIME; sa_mtime := SET_TO_SERVER_TIME |}))
      stack_stat (λ e, reply_create e fi).

(** The inode with the one reference a creation counts. *)
Definition first_lookup (n : nfs_inode) : nfs_inode := n <| n_inode ::= λ i, i <| i_private := 1 |> |>.

Lemma reply_new_run w a n st mk :
  icache_wf w → w_heap w !! a = Some n →
  if i_private (n_inode n) =? 0 then
    ∃ w', reply_new a st mk w = Ok (tt, w') ∧ icache_wf w' ∧
      w_heap w' = <[a := first_lookup n]> (w_heap w) ∧
      w_replies w' = mk (entry_of w (first_lookup n) st) :: w_replies w ∧ unmoved w w'
  else reply_new a st mk w = Abort.
Proof.
  intros Hwf Hn. set (w1 := w <| w_heap ::= <[a := first_lookup n]> |>).
  assert (hsx_fuse_ref_xchg a 1 w = Ok (i_private (n_inode n), w1)) as Hx.
  { unfold hsx_fuse_ref_xchg, upd_inode. mstep (get_inode_run _ _ _ Hn). by mstep (upd_run _ _ _ _ Hn). }
  assert (w_heap w1 !! a = Some (first_lookup n)) as Hn1 by apply lookup_insert_eq.
  assert (icache_wf w1) as Hwf1.
  { apply (cache_ok_upd _ _ _ _ _ _ n); [done..|]. by split. }
  destruct (i_private (n_inode n) =? 0) eqn:Hp.
  - eexists. split.
    + unfold reply_new. mstep Hx. rewrite Hp. unfold c_assert. mstep.
      mstep (fill_reply_run _ _ _ st Hwf1 Hn1). reflexivity.
    + done.
  - unfold reply_new. mstep Hx. by rewrite Hp.
Qed.

(** The file the server made gets its inode. *)
Lemma handle_create_succeeds w obj f :
  icache_wf w → Z.of_nat (length obj) <= NFS_MAXFHSIZE → f3_nlink f ≠ 0 → memory w →
  Z.of_nat (size (w_heap w)) + 2 <= cycle →
  ∃ a w', hsi_nfs3_handle_create {| dr_obj := Some obj; dr_obj_attributes := Some f |} w = Ok (a, w') ∧
    got_inode (f3_fileid f, obj) (fattr_of f) w a w' ∧ IS_ERR a = false ∧ (a =? 0) = false.
Proof.
  intros Hwf Hl Hnl Hm Hsz. destruct (wire_fh obj Hl) as (fh & Hfh & Hok & Hb).
  destruct (fhget_succeeds w fh (fattr_of f) Hwf Hok (fattr_of_usable f Hnl) Hm Hsz) as (a & w' & Hget & Hgot).
  rewrite Hb in Hgot. exists a, w'. split.
  { pose proof (of_option_run _ _ w Hfh) as Hcp. unfold hsi_nfs3_handle_create. run. exact Hget. }
  split; [exact Hgot|]. destruct Hgot as (Hwf' & _ & _ & n & Hh & _).
  assert (w_heap w' !! a = Some n) as Hn by (by rewrite Hh, lookup_insert_eq).
  destruct (ok_addr _ _ (c_node _ _ _ _ _ Hwf' _ _ Hn)). split; [apply IS_ERR_user|apply Z.eqb_neq]; lia.
Qed.

(** The mode [create] makes of the kernel's, and what is sent of it. *)
Lemma create_mode mode how : how = 0 ∨ how = 1 →
  let mymode := Z.lor (Z.lor (Z.lor (mode & 7) (mode & 0x38)) (mode & 0x1c0)) (how << 16) in
  (mymode & 0xf0000) >> 16 = how ∧ mymode & S_IRWXUGO = mode & S_IRWXUGO.
Proof.
  intros Hhow. cbv zeta.
  assert (Z.lor (Z.lor (mode & 7) (mode & 0x38)) (mode & 0x1c0) = mode & 0x1ff) as ->.
  { rewrite <-!Z.land_lor_distr_r. done. }
  rewrite !Z.land_lor_distr_l, <-!Z.land_assoc.
  change (0x1ff & 0xf0000) with 0. rewrite Z.land_0_r, Z.lor_0_l.
  unfold S_IRWXUGO. rewrite Z.land_diag. destruct Hhow as [-> | ->]; (split; [done|]).
  - change ((0 << 16) & 0x1ff) with 0. apply Z.lor_0_r.
  - change ((1 << 16) & 0x1ff) with 0. apply Z.lor_0_r.
Qed.

(** [create] up to the call: the mode it passes on, and what follows the call. *)
Lemma create_handler w pa np p name mode uid gid fi :
  let how := if flag (fi_flags fi) O_TRUNC then GUARDED else UNCHECKED in
  let w2 := w <| w_heap ::= <[pa := owned uid gid np]> |> in
  icache_wf w → w_heap w !! pa = Some np → ino_of np = p → flag (fi_flags fi) O_EXCL = false →
  icache_wf w2 ∧ ∃ mymode, (mymode & 0xf0000) >> 16 = how ∧ mymode & S_IRWXUGO = mode & S_IRWXUGO ∧
    ∀ err a w3, hsi_nfs3_create pa 0 name mymode w2 = Ok ((err, a), w3) →
      hsfs_oper (Req_create p name mode uid gid fi) w =
        (if negb (err =? 0) then reply (reply_err err) else
         if a =? 0 then reply (reply_err ENOMEM) else reply_new a stack_stat (λ e, reply_create e fi)) w3.
Proof.
  intros how w2 Hwf Hn Hi Hex. split; [by apply (cache_ok_upd _ _ _ _ _ _ np); [..|by split]|].
  set (bits := Z.lor (Z.lor (mode & 7) (mode & 0x38)) (mode & 0x1c0)).
  set (mymode := Z.lor bits (how << 16)).
  destruct (create_mode mode how) as [Hhow Hmode]; [unfold how; destruct (flag _ _); auto|].
  exists mymode. split; [exact Hhow|]. split; [exact Hmode|]. intros err a w3 Hop.
  pose proof (known_nonzero w Hwf _ _ Hn) as Hpz.
  assert (upd_inode pa (λ i, i <| i_iattr ::= λ ia, ia <| ia_uid := uid |> <| ia_gid := gid |> |>) w = Ok (tt, w2))
    as Hupd by exact (upd_run _ _ _ (owned uid gid) Hn).
  assert ((if flag (fi_flags fi) O_EXCL then Z.lor bits (2 << 16) else
    if flag (fi_flags fi) O_TRUNC then Z.lor bits (1 << 16) else bits) = mymode) as Hmy.
  { unfold mymode, how. rewrite Hex. destruct (flag (fi_flags fi) O_TRUNC); [done|]. by rewrite Z.lor_0_r. }
  cbn [hsfs_oper]. unfold hsx_fuse_create. fold bits. cbv zeta. rewrite Hmy. clearbody mymode. run. reflexivity.
Qed.

Section Made.
Context (w w0 : world) (call : nfs3_call (nfs3res diropres3ok)) (a : Z) (obj : list Z) (f : fattr3) (e : est) (w1 : world).
Let made := {| dr_obj := Some obj; dr_obj_attributes := Some f |}.
Hypothesis Hwf : icache_wf w.
Hypothesis Hsv : served w0 call (Res_ok made) e.
Hypothesis Hmade : hsi_nfs3_handle_create made (w0 <| w_est := e |>) = Ok (a, w1).
Hypothesis Herr : IS_ERR a = false.
Hypothesis Hz : (a =? 0) = false.
Hypothesis Hlive : clntp (w_sb w0) ∈ w_clients w1.
Hypothesis Hlive1 : clntp (w_sb w1) ∈ w_clients w1.

(** Up to the reply the handler is the call and [hsi_nfs3_handle_create]. *)
Lemma creation_run req st mk :
  creation w req w0 call st mk → hsfs_oper req w = reply_new a st mk w1.
Proof.
  intros Hc. pose proof (served_run _ _ _ _ Hsv) as Hcall.
  destruct Hc as [p np name mode (pa & Hn & Hi)|link p np name (pa & Hn & Hi)
    |p np name mode rdev b e0 (pa & Hn & Hi) Hlen Hmal|p pa np name mode uid gid fi Hn Hi Hex];
    pose proof (known_nonzero w Hwf _ _ Hn) as Hpz; cbn [hsfs_oper].
  - assert (hsi_nfs3_mkdir pa 0 name mode w = Ok ((0, a), w1)) as Hop
      by (unfold hsi_nfs3_mkdir; run; reflexivity).
    unfold hsx_fuse_mkdir. run. reflexivity.
  - assert (hsi_nfs3_symlink pa 0 link name w = Ok ((0, a), w1)) as Hop
      by (unfold hsi_nfs3_symlink; run; reflexivity).
    unfold hsx_fuse_symlink. run. reflexivity.
  - set (w2 := w <| w_est := e0 |>) in *.
    assert (malloc_buf NAME_MAX w = Ok (true, w2)) as Hbuf.
    { rewrite malloc_buf_run, Hmal; [done|]. rewrite Hmal. by eexists. }
    assert (icache_wf w2) as Hwf2 by exact Hwf. assert (w_heap w2 !! pa = Some np) as Hn2 by exact Hn.
    assert ((NAME_MAX <? strlen name) = false) as Hshort by (apply Z.ltb_ge; lia).
    assert (strcpy_fits NAME_MAX name = true) as Hfit by (apply Z.leb_le; lia).
    assert (hsi_nfs3_mknod pa 0 name mode rdev w = Ok ((0, a), w1)) as Hop
      by (unfold hsi_nfs3_mknod; run; mstep; run; reflexivity).
    unfold hsx_fuse_mknod. run. reflexivity.
  - destruct (create_handler w pa np p name mode uid gid fi Hwf Hn Hi Hex) as (Hwf2 & mymode & Hhow & Hmode & Hrun).
    set (how := if flag (fi_flags fi) O_TRUNC then GUARDED else UNCHECKED) in *. set (n1 := owned uid gid np) in *.
    set (w2 := w <| w_heap ::= <[pa := n1]> |>) in *. assert (w_heap w2 !! pa = Some n1) as Hn2 by apply lookup_insert_eq.
    assert (hsi_nfs3_create pa 0 name mymode w2 = Ok ((0, a), w1)) as Hop.
    { unfold hsi_nfs3_create. rewrite Hhow, Hmode.
      assert ((how =? EXCLUSIVE) = false) as Hne by (unfold how; by destruct (flag _ _)).
      run. mstep. run. reflexivity. }
    pose proof (Hrun _ _ _ Hop) as Heq. cbn [negb Z.eqb] in Heq. by rewrite Hz in Heq.
Qed.
End Made.

(** What happens before the call. *)
Lemma creation_before w req w0 call st mk :
  icache_wf w → creation w req w0 call st mk →
  icache_wf w0 ∧ w_sb w0 = w_sb w ∧ w_replies w0 = w_replies w ∧ size (w_heap w0) = size (w_heap w).
Proof.
  intros Hwf [| | |p pa np name mode uid gid fi Hn Hi Hex]; try done. split_and!; [|done..|].
  - by apply (cache_ok_upd _ _ _ _ _ _ np); [..|by split].
  - cbn. by apply map_size_insert_Some.
Qed.

(** The whole run, with what it leaves alone. *)
Lemma creation_entry w req w0 call st mk obj f e :
  icache_wf w → creation w req w0 call st mk →
  served w0 call (Res_ok {| dr_obj := Some obj; dr_obj_attributes := Some f |}) e →
  Z.of_nat (length obj) <= NFS_MAXFHSIZE → f3_nlink f ≠ 0 → memory (w0 <| w_est := e |>) →
  Z.of_nat (size (w_heap w)) + 2 <= cycle →
  ∃ a n, ident n = (f3_fileid f, obj) ∧
    match w_heap w0 !! a with
    | Some n0 => ident n0 = (f3_fileid f, obj) ∧ n = refreshed (fattr_of f) n0
    | None => (∀ b m, w_heap w0 !! b = Some m → ident m ≠ (f3_fileid f, obj)) ∧
              i_private (n_inode n) = 0 ∧ i_count (n_inode n) = 0 ∧ ∃ n1, n = new_attrs (fattr_of f) n1
    end ∧
    if i_private (n_inode n) =? 0 then
      ∃ w', hsfs_oper req w = Ok (tt, w') ∧ icache_wf w' ∧
        w_heap w' = <[a := first_lookup n]> (w_heap w0) ∧
        w_replies w' = mk (entry_of w (first_lookup n) st) :: w_replies w ∧
        steady (w0 <| w_est := e |>) w'
    else hsfs_oper req w = Abort.
Proof.
  intros Hwf Hc Hsv Hl Hnl Hm Hsz. destruct (creation_before w req w0 call st mk Hwf Hc) as (Hwf0 & Hsb & Hrep & Hcard).
  set (w2 := w0 <| w_est := e |>) in *. assert (icache_wf w2) as Hwf2 by exact Hwf0.
  destruct (handle_create_succeeds w2 obj f Hwf2 Hl Hnl Hm) as (a & w1 & Hmade & Hgot & Herr & Hz);
    [unfold w2; cbn; by rewrite Hcard|].
  destruct Hgot as (Hwf1 & Hrest & Hcalm & n & Hh & Hid & Hcase). pose proof Hrest as (h & s & e1 & Hw1 & Hs).
  assert (w_heap w1 !! a = Some n) as Hn by (by rewrite Hh, lookup_insert_eq).
  exists a, n. split; [done|]. split; [done|].
  rewrite (creation_run w w0 call a obj f e w1 Hwf Hsv Hmade Herr Hz) with (st := st) (mk := mk); [|..|done].
  - pose proof (reply_new_run w1 a n st mk Hwf1 Hn) as Hfin. destruct (i_private (n_inode n) =? 0); [|done].
    destruct Hfin as (w' & Hrun & Hwf' & Hh' & Hr' & Hun). exists w'. split_and!; [done..| | |by eapply steady_intro].
    + by rewrite Hh', Hh, insert_insert_eq.
    + rewrite Hr', <-Hrep, Hw1. unfold entry_of. cbn. by rewrite Hs, <-Hsb.
  - rewrite Hw1. apply Hsv.
  - rewrite Hw1. cbn. rewrite Hs. apply Hsv.
Qed.

(** * Properties *)

(** C16. The server carries out a [mkdir], [symlink], [mknod] or (not exclusive) [create]:
    the new file's inode is found or made in the cache.  When nobody holds a
    reference on it, the kernel gets its entry and one reference is counted; no
    other inode changes, but for the owner of the directory in [create].  When the
    kernel already knows that inode, the assertion in the handler ends the process. *)
Theorem creation_replies_entry w req w0 call st mk obj f e :
  icache_wf w → creation w req w0 call st mk →
  served w0 call (Res_ok {| dr_obj := Some obj; dr_obj_attributes := Some f |}) e →
  Z.of_nat (length obj) <= NFS_MAXFHSIZE → f3_nlink f ≠ 0 → memory (w0 <| w_est := e |>) →
  Z.of_nat (size (w_heap w)) + 2 <= cycle →
  ∃ a n, ident n = (f3_fileid f, obj) ∧
    match w_heap w0 !! a with
    | Some n0 => ident n0 = (f3_fileid f, obj) ∧ n = refreshed (fattr_of f) n0
    | None => (∀ b m, w_heap w0 !! b = Some m → ident m ≠ (f3_fileid f, obj)) ∧ i_private (n_inode n) = 0
    end ∧
    if i_private (n_inode n) =? 0 then
      ∃ w', hsfs_oper req w = Ok (tt, w') ∧ icache_wf w' ∧
        w_heap w' = <[a := first_lookup n]> (w_heap w0) ∧
        w_replies w' = mk (entry_of w (first_lookup n) st) :: w_replies w
    else hsfs_oper req w = Abort.
Proof.
  intros Hwf Hc Hsv Hl Hnl Hm Hsz.
  destruct (creation_entry w req w0 call st mk obj f e Hwf Hc Hsv Hl Hnl Hm Hsz) as (a & n & Hid & Hcase & Hend).
  exists a, n. split; [done|]. split; [destruct (w_heap w0 !! a); tauto|].
  destruct (i_private (n_inode n) =? 0); [|done]. destruct Hend as (w' & Hend). exists w'. tauto.
Qed.
End Creations.
