(* ===== verification/DirsPlus.v ===== *)
(** * Directories with attributes

    A complete run of [hsx_fuse_readdir_plus]: each entry of the server is found in
    the cache or put there, and the entries that fit are replied and counted. *)

From S2P Require Import Prelude Bitops Hash HList Types ErrPtr Icache NfsInode Rpc Nfs3 Acl Fuse.
From S2P Require Import Attrs Lookups Failures Entries Io Dirs.

Section DirsPlus.
Context {E : Env} `{!EnvOk E}.

(** An entry with a handle and attributes, and the file it names. *)
Definition plus_ok (en : entryplus3) : Prop :=
  match ep_name_handle en, ep_name_attributes en with
  | Some h, Some f => Z.of_nat (length h) <= NFS_MAXFHSIZE ∧ f3_nlink f ≠ 0
  | _, _ => False
  end.
Definition plus_ident (en : entryplus3) : Z * list Z :=
  (from_option f3_fileid 0 (ep_name_attributes en), default [] (ep_name_handle en)).
(** What the client makes of the entry, with the inode of its file. *)
Definition plus_ctx (en : entryplus3) (a : Z) : hsfs_readdir_ctx := (ctx_of (ep_entry en)) <| rc_inode := a |>.
Definition plus_name (en : entryplus3) : string := rc_name (ctx_of (ep_entry en)).
Definition plus_bytes (l : list entryplus3) : Z := foldr (λ en acc, direntry_plus_size (plus_name en) + acc) 0 l.

(** There is memory for [k] more inodes. *)
Definition room (w : world) (k : nat) : Prop :=
  ∀ used, dom (w_heap w) ⊆ used → (size used <= size (dom (w_heap w)) + k)%nat → memory_plenty used.

(** Every cached inode stays, with its identity and its number. *)
Definition cache_grows (w w' : world) : Prop :=
  ∀ a n, w_heap w !! a = Some n → ∃ n', w_heap w' !! a = Some n' ∧ ident n' = ident n ∧ ino_of n' = ino_of n.
Lemma cache_grows_refl w : cache_grows w w.
Proof. intros a n H. eauto. Qed.
Lemma cache_grows_trans w1 w2 w3 : cache_grows w1 w2 → cache_grows w2 w3 → cache_grows w1 w3.
Proof.
  intros H1 H2 a n Ha. destruct (H1 a n Ha) as (n2 & Ha2 & Hi2 & Ho2).
  destruct (H2 a n2 Ha2) as (n3 & Ha3 & Hi3 & Ho3). exists n3. split_and!; [done|congruence..].
Qed.
Lemma cache_grows_insert w w' a n n' :
  w_heap w' = <[a := n']> (w_heap w) → w_heap w !! a = Some n → ident n' = ident n → ino_of n' = ino_of n →
  cache_grows w w'.
Proof.
  intros Hh Hn Hi Ho b m Hb. rewrite Hh. destruct (decide (b = a)) as [->|Hne].
  - exists n'. rewrite lookup_insert_eq. assert (m = n) as -> by congruence. done.
  - exists m. by rewrite lookup_insert_ne.
Qed.

Lemma refreshed_keeps fattr n : n_fileid n = fa_fileid fattr → keeps n (refreshed fattr n).
Proof.
  intros Hf. unfold refreshed. destruct (flag _ _); [by apply new_attrs_keeps|].
  destruct (same_object n fattr); [apply with_fattr_keeps|by split].
Qed.

(** One file found or made. *)
Lemma got_inode_grows k fattr w a w' : k.1 = fa_fileid fattr → got_inode k fattr w a w' →
  cache_grows w w' ∧ (∃ n, w_heap w' !! a = Some n ∧ ident n = k) ∧ dom (w_heap w') = {[a]} ∪ dom (w_heap w).
Proof.
  intros Hk (_ & _ & _ & n & Hh & Hid & Hcase). split_and!.
  - destruct (w_heap w !! a) as [n0|] eqn:Ha.
    + destruct Hcase as [Hid0 ->]. assert (n_fileid n0 = fa_fileid fattr) as Hf by (by rewrite <-Hk, <-Hid0).
      apply (cache_grows_insert w w' a n0 _ Hh Ha); [congruence|apply (refreshed_keeps _ _ Hf)].
    + intros b m Hb. exists m. rewrite Hh, lookup_insert_ne by congruence. done.
  - exists n. by rewrite Hh, lookup_insert_eq.
  - rewrite Hh. apply dom_insert_L.
Qed.
Lemma heap_grows w w' a : dom (w_heap w') = {[a]} ∪ dom (w_heap w) → (size (w_heap w') <= S (size (w_heap w)))%nat.
Proof.
  intros Hd. rewrite <-!size_dom, Hd.
  pose proof (size_union_alt ({[a]} : gset Z) (dom (w_heap w))) as Hu.
  pose proof (subseteq_size (dom (w_heap w) ∖ {[a]}) (dom (w_heap w)) ltac:(set_solver)).
  rewrite size_singleton in Hu. lia.
Qed.
Lemma room_grows w w' a k : dom (w_heap w') = {[a]} ∪ dom (w_heap w) → room w (S k) → room w' k.
Proof.
  intros Hd Hr used Hsub Hsz. apply Hr; [set_solver|]. pose proof (heap_grows _ _ _ Hd) as Hg.
  rewrite size_dom in *. lia.
Qed.
Lemma room_plenty w k : room w k → memory_plenty (dom (w_heap w)).
Proof. intros Hr. apply Hr; [done|lia]. Qed.

Lemma same_rest_trans w1 w2 w3 : same_rest w1 w2 → same_rest w2 w3 → same_rest w1 w3.
Proof.
  intros (h1 & s1 & e1 & -> & H1) (h2 & s2 & e2 & -> & H2). exists h2, s2, e2. split; [done|].
  rewrite H2. cbn. rewrite H1. done.
Qed.
Lemma same_rest_est w e : same_rest w (w <| w_est := e |>).
Proof. exists (w_heap w), (w_sb w), e. by destruct w as [? []]. Qed.

(** All entries of an answer. *)
Lemma plus_entries_run es : ∀ ctx w,
  icache_wf w → Forall plus_ok es → room w (length es) →
  Z.of_nat (size (w_heap w)) + Z.of_nat (length es) + 1 <= cycle →
  ∃ addrs w', readdir_plus_entries es ctx w = Ok ((0, ctx ++ zip_with plus_ctx es addrs), w') ∧
    icache_wf w' ∧ same_rest w w' ∧ cache_grows w w' ∧ memory_plenty (dom (w_heap w')) ∧
    Forall2 (λ en a, ∃ n, w_heap w' !! a = Some n ∧ ident n = plus_ident en) es addrs.
Proof.
  induction es as [|en es IH]; intros ctx w Hwf Hok Hroom Hsz; cbn [readdir_plus_entries].
  { exists [], w. cbn. rewrite app_nil_r. split_and!; [done..|apply same_rest_refl|apply cache_grows_refl| |constructor].
    by apply (room_plenty w 0). }
  apply Forall_cons_iff in Hok as [Hen Hok]. unfold plus_ok in Hen.
  destruct (ep_name_handle en) as [h|] eqn:Hh; [|done]. destruct (ep_name_attributes en) as [f|] eqn:Hf; [|done].
  destruct Hen as [Hl Hnl]. destruct (alloc_name_run w (e_name (ep_entry en)) (room_plenty _ _ Hroom)) as (e1 & Hal).
  set (w1 := w <| w_est := e1 |>) in Hal. assert (icache_wf w1) as Hwf1 by exact Hwf.
  destruct (wire_fh h Hl) as (fh & Hfh & Hfok & Hb).
  destruct (fhget_succeeds w1 fh (fattr_of f) Hwf1 Hfok (fattr_of_usable f Hnl)) as (a & w2 & Hget & Hgot).
  { apply (room_plenty _ _ Hroom). }
  { unfold w1. cbn. cbn [length] in Hsz. lia. }
  rewrite Hb in Hgot. destruct (got_inode_grows (fa_fileid (fattr_of f), h) _ _ _ _ eq_refl Hgot) as (Hgrow & (n & Hn & Hid) & Hdom).
  destruct Hgot as (Hwf2 & Hrest & _). destruct (ok_addr _ _ (c_node _ _ _ _ _ Hwf2 _ _ Hn)) as [Hlo Hhi].
  assert (IS_ERR a = false) as Herr by (apply IS_ERR_user; lia).
  destruct (IH (ctx ++ [plus_ctx en a]) w2 Hwf2 Hok) as (addrs & w3 & Hrun & Hwf3 & Hrest3 & Hgrow3 & Hm3 & Hall).
  { by apply (room_grows w w2 a). }
  { pose proof (heap_grows w1 w2 a Hdom) as Hg. cbn [length] in Hsz. change (w_heap w1) with (w_heap w) in Hg. lia. }
  exists (a :: addrs), w3. split.
  { pose proof (of_option_run _ _ w1 Hfh) as Hcp. mstep Hal. cbn [hsi_nfs3_post2fattr]. mstep Hcp. mstep Hget.
    rewrite Herr. cbn [zip_with]. rewrite <-app_assoc in Hrun. exact Hrun. }
  split_and!; [done| |by eapply cache_grows_trans|done|].
  - eapply same_rest_trans; [apply (same_rest_est w e1)|]. by eapply same_rest_trans.
  - constructor; [|done]. destruct (Hgrow3 a n Hn) as (n3 & Hn3 & Hid3 & _). exists n3. split; [done|].
    rewrite Hid3, Hid. unfold plus_ident. by rewrite Hh, Hf.
Qed.

(** The inodes but for their counts. *)
Definition same_entry (n n' : nfs_inode) : Prop :=
  ident n' = ident n ∧ ino_of n' = ino_of n ∧ ∀ st, stat_of (n_inode n') st = stat_of (n_inode n) st.
Definition entries_kept (h h' : gmap Z nfs_inode) : Prop :=
  ∀ a n, h !! a = Some n → ∃ n', h' !! a = Some n' ∧ same_entry n n'.
Lemma entry_of_same w w' n n' st : same_entry n n' → w_sb w' = w_sb w → entry_of w' n' st = entry_of w n st.
Proof. intros (_ & Hi & Hs) Hsb. unfold entry_of. by rewrite Hi, Hs, Hsb. Qed.
Lemma add_lookup_kept h a n : h !! a = Some n → entries_kept h (<[a := add_lookup n]> h).
Proof.
  intros Hn b m Hb. destruct (decide (b = a)) as [->|Hne].
  - exists (add_lookup n). rewrite lookup_insert_eq. assert (m = n) as -> by congruence. done.
  - exists m. by rewrite lookup_insert_ne.
Qed.

Lemma entries_kept_trans h1 h2 h3 : entries_kept h1 h2 → entries_kept h2 h3 → entries_kept h1 h3.
Proof.
  intros H1 H2 a n Ha. destruct (H1 a n Ha) as (n2 & Ha2 & Hi2 & Ho2 & Hs2).
  destruct (H2 a n2 Ha2) as (n3 & Ha3 & Hi3 & Ho3 & Hs3). exists n3.
  split; [done|]. split_and!; [congruence..|]. intros st. by rewrite Hs3.
Qed.
Lemma Forall2_impl_take {A B} (P : A → Prop) (R R' : A → B → Prop) k l l' :
  (∀ x y, P x → R x y → R' x y) → Forall2 R (take k l) l' → Forall P l → Forall2 R' (take k l) l'.
Proof.
  intros Himp H HP. apply (Forall_take _ k) in HP. induction H; inversion HP; constructor; auto.
Qed.

Definition ctx_bytes (l : list hsfs_readdir_ctx) : Z := foldr (λ c acc, direntry_plus_size (rc_name c) + acc) 0 l.

(** What is replied for an entry. *)
Definition plus_reply (w : world) (c : hsfs_readdir_ctx) (d : dirent) : Prop :=
  ∃ n, w_heap w !! rc_inode c = Some n ∧ d = DirentPlus (rc_name c) (entry_of w n stack_stat) (rc_off c).

Lemma plus_loop_run size ctx : ∀ out len w,
  icache_wf w → Forall (λ c, is_Some (w_heap w !! rc_inode c)) ctx → len < size →
  ∃ k outs h, let w' := w <| w_heap := h |> in let l := take k ctx in
    plus_loop ctx size out len w = Ok ((out ++ outs, len + ctx_bytes l), w') ∧ (k <= length ctx)%nat ∧
    icache_wf w' ∧ entries_kept (w_heap w) h ∧ len + ctx_bytes l < size ∧
    (∀ c, ctx !! k = Some c → size <= len + ctx_bytes l + direntry_plus_size (rc_name c)) ∧
    Forall2 (plus_reply w) l outs.
Proof.
  induction ctx as [|c ctx IH]; intros out len w Hwf Hall Hlt; cbn [plus_loop].
  { exists 0%nat, [], (w_heap w). cbn. rewrite app_nil_r, Z.add_0_r. split_and!; [by destruct w|lia|done| |done..|constructor].
    intros a n Hn. by exists n. }
  apply Forall_cons_iff in Hall as [[n Hn] Hall]. cbv zeta.
  rewrite (bind_ok _ _ _ _ _ (fill_reply_run w _ n stack_stat Hwf Hn)).
  destruct (Z.leb_spec (size - len) (direntry_plus_size (rc_name c))) as [Hle|Hgt].
  { exists 0%nat, [], (w_heap w). cbn. rewrite app_nil_r, Z.add_0_r. split_and!; [by destruct w|lia|done| |done| |constructor].
    - intros a m Hm. by exists m.
    - intros c' [= <-]. lia. }
  set (w1 := w <| w_heap ::= <[rc_inode c := add_lookup n]> |>).
  pose proof (add_lookup_kept _ _ _ Hn : entries_kept (w_heap w) (w_heap w1)) as Hkept.
  assert (icache_wf w1) as Hwf1.
  { apply (cache_ok_upd _ _ _ _ _ _ n); [done..|]. split; try done. cbn. intros _. by apply wrap_range. }
  assert (hsx_fuse_ref_inc (rc_inode c) 1 w = Ok (i_private (n_inode (add_lookup n)), w1)) as Hinc.
  { unfold hsx_fuse_ref_inc, upd_inode. mstep (upd_run _ _ _ _ Hn).
    by mstep (get_inode_run w1 _ _ (lookup_insert_eq _ _ _)). }
  destruct (IH (out ++ [DirentPlus (rc_name c) (entry_of w n stack_stat) (rc_off c)])
    (len + direntry_plus_size (rc_name c)) w1 Hwf1) as (k & outs & h & Hrun & Hk & Hwf' & Hkept' & Hb & Hnext & Hout).
  { eapply Forall_impl; [|exact Hall]. intros c' [m Hm]. destruct (Hkept _ _ Hm) as (m' & -> & _). eauto. }
  { lia. }
  exists (S k), (DirentPlus (rc_name c) (entry_of w n stack_stat) (rc_off c) :: outs), h. cbv zeta in *.
  cbn [take ctx_bytes foldr]. fold (ctx_bytes (take k ctx)). rewrite Z.add_assoc.
  replace (w <| w_heap := h |>) with (w1 <| w_heap := h |>) by (by destruct w).
  split_and!; [|cbn; lia|done| |done|done|].
  - mstep Hinc. rewrite <-app_assoc in Hrun. exact Hrun.
  - by eapply entries_kept_trans.
  - constructor; [by exists n|]. eapply Forall2_impl_take; [|exact Hout|exact Hall]. intros c' d [m Hm] (m' & Hm' & ->).
    exists m. split; [done|]. destruct (Hkept _ _ Hm) as (m1 & Hm1 & Hs). assert (m1 = m') as -> by congruence.
    f_equal. by apply entry_of_same.
Qed.

Lemma nfs3_readdir_plus_run w a n count cookie attrs verf es e :
  icache_wf w → w_heap w !! a = Some n → room w (length es) → Forall plus_ok es →
  Z.of_nat (size (w_heap w)) + Z.of_nat (length es) + 1 <= cycle →
  match attrs with Some f => same_object n (fattr_of f) = true | None => True end →
  served w (NFSPROC3_READDIRPLUS (fh_bytes (n_fh n)) cookie (n_cookieverf n) count count)
    (Res_ok {| rp_dir_attributes := attrs; rp_cookieverf := verf; rp_entries := es |}) e →
  ∃ addrs w', hsi_nfs3_readdir_plus a count cookie count w = Ok ((0, zip_with plus_ctx es addrs), w') ∧
    icache_wf w' ∧ w_sb w' = (w_sb w) <| id_table := id_table (w_sb w') |> <| fh_table := fh_table (w_sb w') |>
                                <| curr_id := curr_id (w_sb w') |> ∧
    w_replies w' = w_replies w ∧ cache_grows w w' ∧ memory_plenty (dom (w_heap w')) ∧
    Forall2 (λ en b, ∃ m, w_heap w' !! b = Some m ∧ ident m = plus_ident en) es addrs.
Proof.
  intros Hwf Hn Hroom Hok Hsz Hat Hsv. pose proof (served_run _ _ _ _ Hsv) as Hcall.
  set (w1 := w <| w_est := e |>) in *. set (n1 := dir_refreshed attrs n).
  set (w2 := w1 <| w_heap ::= <[a := n1]> |>).
  pose proof (dir_refresh_run w1 a n attrs Hn Hat : _ = Ok (0, w2)) as Href.
  set (n2 := n1 <| n_cookieverf := verf |>). set (w3 := w1 <| w_heap ::= <[a := n2]> |>).
  pose proof (set_verf_run w1 a n1 verf : _ = Ok (tt, w3)) as Hverf.
  pose proof (dir_refreshed_same n attrs verf Hat : same_dir n n2) as [Hkeep _].
  assert (icache_wf w3) as Hwf3 by (by apply (cache_ok_upd _ _ _ _ _ _ n)).
  assert (cache_grows w w3) as Hgrow.
  { apply (cache_grows_insert w w3 a n n2); [done..| |apply Hkeep]. destruct Hkeep as [_ Hf Hfh]. unfold ident. congruence. }
  assert (dom (w_heap w3) = dom (w_heap w)) as Hdom by (unfold w3, w1; cbn; by rewrite dom_insert_lookup_L).
  destruct (plus_entries_run es [] w3 Hwf3 Hok) as (addrs & w4 & Hent & Hwf4 & Hrest & Hgrow4 & Hm4 & Hall).
  { unfold room. rewrite Hdom. exact Hroom. }
  { rewrite <-(size_dom (w_heap w3)), Hdom, size_dom. done. }
  cbn [app] in Hent. pose proof (same_rest_replies _ _ Hrest) as Hrep. destruct Hrest as (h & s & e4 & -> & Hs).
  set (w4 := w3 <| w_heap := h |> <| w_sb := s |> <| w_est := e4 |>) in *.
  exists addrs, w4. split; [|split_and!; [done|exact Hs|exact Hrep|by eapply cache_grows_trans|done..]].
  assert (clntp (w_sb w) ∈ w_clients w4) as Hlive by apply Hsv.
  unfold hsi_nfs3_readdir_plus. run. cbn [rp_dir_attributes rp_cookieverf rp_entries].
  destruct (hsi_nfs3_post2fattr attrs (nfs_init_fattr stack_fattr)) as [b fa]. cbn [snd] in Href.
  run. reflexivity.
Qed.

Lemma ctx_bytes_zip es addrs : length es = length addrs → ctx_bytes (zip_with plus_ctx es addrs) = plus_bytes es.
Proof.
  revert addrs. induction es as [|en es IH]; intros [|a addrs] Hl; cbn; [done..|].
  injection Hl as Hl. f_equal. by apply IH.
Qed.
(** The replies for the entries of the server. *)
Lemma plus_replies w w0 h es addrs outs :
  w_sb w0 = (w_sb w) <| id_table := id_table (w_sb w0) |> <| fh_table := fh_table (w_sb w0) |>
              <| curr_id := curr_id (w_sb w0) |> →
  Forall2 (λ en b, ∃ m, w_heap w0 !! b = Some m ∧ ident m = plus_ident en) es addrs →
  entries_kept (w_heap w0) h → Forall2 (plus_reply w0) (zip_with plus_ctx es addrs) outs →
  Forall2 (λ en d, ∃ b m, h !! b = Some m ∧ ident m = plus_ident en ∧
    d = DirentPlus (plus_name en) (entry_of w m stack_stat) (sint 64 (e_cookie (ep_entry en)))) es outs.
Proof.
  intros Hsb Hall Hkept. revert outs. induction Hall as [|en b es addrs (m & Hm & Hid) _ IH]; intros outs Hout.
  { apply Forall2_nil_inv_l in Hout as ->. constructor. }
  cbn [zip_with] in Hout. apply Forall2_cons_inv_l in Hout as (d & outs' & (m0 & Hm0 & ->) & Hrest & ->).
  constructor; [|by apply IH]. change (rc_inode _) with b in Hm0. assert (m0 = m) as -> by congruence.
  destruct (Hkept _ _ Hm) as (m' & Hm' & Hi & Hino & Hst). exists b, m'. split_and!; [done|congruence|].
  unfold entry_of. rewrite Hino, Hst, Hsb. done.
Qed.

(** * Properties *)

End DirsPlus.
