(* ===== verification/FileServer.v ===== *)
(** * A file system behind NFSv3

    The abstract server of the session theorem: a file system whose files are known by
    their handles, and what each procedure of NFSv3 may answer and do to it, as RFC 1813
    describes them.  The server may refuse to change anything, may transfer files in
    pieces, and may set times and link counts as it likes. *)

From S2P Require Import Prelude Bitops Hash HList Types ErrPtr Icache NfsInode Rpc Nfs3 Acl Fuse.
From S2P Require Import Attrs Lookups Failures Entries Io Creations.

(** ** File systems *)

(** A file: its attributes, the bytes of a regular file, the entries of a directory, the
    text of a symbolic link. *)
Record object := {
  o_attr : fattr3; o_data : list Z; o_names : gmap string (list Z); o_link : string }.

(** The files by handle.  A handle is never used again: [None] is a file that is gone. *)
Notation fsys := (gmap (list Z) (option object)).
Definition alive (F : fsys) (h : list Z) (o : object) : Prop := F !! h = Some (Some o).

Definition type_of (o : object) : Z := f3_type (o_attr o).
Definition fileid_of (o : object) : Z := f3_fileid (o_attr o).

(** New attributes of the same file. *)
Definition same_file (f f' : fattr3) : Prop := f3_type f' = f3_type f ∧ f3_fileid f' = f3_fileid f.

Record attr_ok (f : fattr3) : Prop := {
  at_type : NF3REG <= f3_type f <= NF3FIFO;
  at_mode : in_range 12 (f3_mode f);
  at_nlink : f3_nlink f ≠ 0;
  at_size : in_range 63 (f3_size f);
}.

(** Every entry names a file, and the size of a file is the number of its bytes. *)
Record fsys_ok (F : fsys) : Prop := {
  fs_handle : ∀ h x, F !! h = Some x → Z.of_nat (length h) <= NFS3_FHSIZE;
  fs_attr : ∀ h o, alive F h o → attr_ok (o_attr o);
  fs_size : ∀ h o, alive F h o → type_of o = NF3REG → f3_size (o_attr o) = Z.of_nat (length (o_data o));
  fs_names : ∀ h o name h', alive F h o → o_names o !! name = Some h' → ∃ o', alive F h' o';
}.

(** ** Changes *)

Definition with_attr (f : fattr3) (o : object) : object := o <| o_attr := f |>.

(** The file [o] behind [h] gets the attributes [f] and is otherwise changed by [g]. *)
Definition changed (F : fsys) (h : list Z) (o : object) (g : object → object) (F' : fsys) : Prop :=
  ∃ f, same_file (o_attr o) f ∧ F' = <[h := Some (with_attr f (g o))]> F.

(** The file [o] behind the new handle [h] becomes the entry [name] of the directory [d]. *)
Definition added (F : fsys) (d : list Z) (name : string) (h : list Z) (o : object) (F' : fsys) : Prop :=
  ∃ p F1, alive F d p ∧ o_names p !! name = None ∧ F !! h = None ∧
    changed F d p (λ p, p <| o_names ::= <[name := h]> |>) F1 ∧ F' = <[h := Some o]> F1.

(** One entry less names the file [o] behind [h]: it is gone, or has other attributes. *)
Definition unlinked (F : fsys) (h : list Z) (o : object) (F' : fsys) : Prop :=
  F' = <[h := None]> F ∨ changed F h o id F'.

(** The entry [name] of the directory [d], which names [h], is removed. *)
Definition removed (F : fsys) (d : list Z) (name : string) (h : list Z) (F' : fsys) : Prop :=
  ∃ p, alive F d p ∧ o_names p !! name = Some h ∧
    changed F d p (λ p, p <| o_names ::= delete name |>) F'.

(** The entry [name] of [d] becomes the entry [name'] of [d']; what that named before is
    unlinked, unless it is the same file. *)
Definition moved (F : fsys) (d : list Z) (name : string) (d' : list Z) (name' : string) (F' : fsys) : Prop :=
  ∃ h F1 q F2, removed F d name h F1 ∧ alive F1 d' q ∧
    changed F1 d' q (λ q, q <| o_names ::= <[name' := h]> |>) F2 ∧
    match o_names q !! name' with
    | None => F' = F2
    | Some t => ∃ o, alive F2 t o ∧ t ≠ h ∧ unlinked F2 t o F'
    end.

(** What the caller of a procedure asks of a new file. *)
Definition as_asked (type : Z) (a : sattr3) (link : string) (o : object) : Prop :=
  type_of o = type ∧ o_data o = [] ∧ o_names o = ∅ ∧ o_link o = link ∧
  ∀ m, sa_mode a = Some m → f3_mode (o_attr o) = m.
(** A device with its number. *)
Definition has_device (major minor : Z) (o : object) : Prop :=
  f3_rdev_major (o_attr o) = major ∧ f3_rdev_minor (o_attr o) = minor.

(** The attributes [f'] are [f] with what the caller asks for; times are the server's, and
    it may clear bits of the mode when the owner changes. *)
Definition set_as_asked (a : sattr3) (f f' : fattr3) : Prop :=
  same_file f f' ∧ f3_size f' = f3_size f ∧
  f3_uid f' = default (f3_uid f) (sa_uid a) ∧ f3_gid f' = default (f3_gid f) (sa_gid a) ∧
  match sa_mode a with
  | Some m => f3_mode f' = m
  | None => sa_uid a = None → sa_gid a = None → f3_mode f' = f3_mode f
  end.

(** ** The procedures *)

Definition NFS3ERR_NOENT : Z := 2.
Definition NFS3ERR_INVAL : Z := 22.
Definition NFS3ERR_STALE : Z := 70.

Definition refused {A : Type} (F : fsys) (out : nfs3res A) (F' : fsys) : Prop :=
  F' = F ∧ ∃ st, st ≠ 0 ∧ out = Res_fail st.
Definition stale {A : Type} (F : fsys) (out : nfs3res A) (F' : fsys) : Prop :=
  F' = F ∧ out = Res_fail NFS3ERR_STALE.

(** A new file in the directory of [where_], one that is [good]. *)
Definition makes (F : fsys) (where_ : diropargs3) (good : object → Prop)
    (out : nfs3res diropres3ok) (F' : fsys) : Prop :=
  refused F out F' ∨ ∃ h o, added F (do_dir where_) (do_name where_) h o F' ∧ good o ∧
    out = Res_ok {| dr_obj := Some h; dr_obj_attributes := Some (o_attr o) |}.

(** What the server may answer to a call in [F] and leave behind; nothing is said of the
    procedures that are not listed. *)
Definition nfs3_spec {A : Type} (F : fsys) (call : nfs3_call A) : A → fsys → Prop :=
  match call in nfs3_call A return A → fsys → Prop with
  | NFSPROC3_GETATTR h => λ out F',
      match F !! h with
      | Some (Some o) => F' = F ∧ out = Res_ok (o_attr o)
      | _ => stale F out F'
      end
  | NFSPROC3_SETATTR h a => λ out F', sa_size a = None → refused F out F' ∨
      ∃ o f, alive F h o ∧ set_as_asked a (o_attr o) f ∧ F' = <[h := Some (with_attr f o)]> F ∧ out = Res_ok (Some f)
  | NFSPROC3_LOOKUP what => λ out F',
      match F !! do_dir what with
      | Some (Some d) =>
          F' = F ∧
          match o_names d !! do_name what with
          | Some h => ∃ o, alive F h o ∧ out = Res_ok {| lk_object := h; lk_obj_attributes := Some (o_attr o) |}
          | None => out = Res_fail NFS3ERR_NOENT
          end
      | _ => stale F out F'
      end
  | NFSPROC3_READLINK h => λ out F',
      match F !! h with
      | Some (Some o) => F' = F ∧ out = if type_of o =? NF3LNK then Res_ok (o_link o) else Res_fail NFS3ERR_INVAL
      | _ => stale F out F'
      end
  | NFSPROC3_READ h off count => λ out F', ∀ o, alive F h o → type_of o = NF3REG → 0 <= off → 0 < count →
      ∃ d eof, out = Res_ok {| rd_count := Z.of_nat (length d); rd_eof := eof; rd_data := d |} ∧
        d = take (length d) (drop (Z.to_nat off) (o_data o)) ∧ Z.of_nat (length d) <= count ∧
        (eof = 0 → d ≠ []) ∧ (eof ≠ 0 → Z.of_nat (length (o_data o)) <= off + Z.of_nat (length d)) ∧
        changed F h o id F'
  | NFSPROC3_WRITE h off count stable d => λ out F', ∀ o, alive F h o → type_of o = NF3REG →
      0 <= off → d ≠ [] → off + Z.of_nat (length d) < 2 ^ 63 →
      ∃ k, out = Res_ok {| wr_count := Z.of_nat k |} ∧ (0 < k <= length d)%nat ∧
        changed F h o (λ o, o <| o_data ::= λ c, write_at c (Z.to_nat off) (take k d) |>) F'
  | NFSPROC3_CREATE where_ how => λ out F',
      match how with
      | CREATE_EXCLUSIVE _ => True
      | CREATE_ATTR mode a =>
          makes F where_ (as_asked NF3REG a "") out F' ∨
          mode = UNCHECKED ∧ F' = F ∧ ∃ p h o, alive F (do_dir where_) p ∧
            o_names p !! do_name where_ = Some h ∧ alive F h o ∧
            out = Res_ok {| dr_obj := Some h; dr_obj_attributes := Some (o_attr o) |}
      end
  | NFSPROC3_MKDIR where_ a => makes F where_ (as_asked NF3DIR a "")
  | NFSPROC3_SYMLINK where_ a link => makes F where_ (as_asked NF3LNK a link)
  | NFSPROC3_MKNOD where_ what =>
      match what with
      | MKNOD_DEVICE type a major minor => makes F where_ (λ o, as_asked type a "" o ∧ has_device major minor o)
      | MKNOD_PIPE type a => makes F where_ (as_asked type a "")
      | MKNOD_OTHER _ => refused F
      end
  | NFSPROC3_REMOVE what => λ out F', refused F out F' ∨
      out = Res_ok tt ∧ ∃ h F1 o, removed F (do_dir what) (do_name what) h F1 ∧ alive F1 h o ∧
        type_of o ≠ NF3DIR ∧ unlinked F1 h o F'
  | NFSPROC3_RMDIR what => λ out F', refused F out F' ∨
      out = Res_ok tt ∧ ∃ h F1 o, removed F (do_dir what) (do_name what) h F1 ∧ alive F1 h o ∧
        type_of o = NF3DIR ∧ o_names o = ∅ ∧ F' = <[h := None]> F1
  | NFSPROC3_RENAME from to => λ out F', refused F out F' ∨
      out = Res_ok tt ∧ moved F (do_dir from) (do_name from) (do_dir to) (do_name to) F'
  | NFSPROC3_NULL => λ _ F', F' = F
  | NFSPROC3_FSINFO _ => λ _ F', F' = F
  | NFSPROC3_PATHCONF _ => λ _ F', F' = F
  | NFSPROC3_FSSTAT _ => λ _ F', F' = F
  | NFSPROC3_ACCESS _ _ => λ _ F', F' = F
  | _ => λ _ _, True
  end.

(** A server behind the RPC client [clnt] that keeps the file system [srv] of the state of
    the outside world: it answers every call, as NFSv3 asks; allocating memory does not
    touch it. *)
Record nfs_server {E : Env} (clnt : Z) (t : Z * Z) (srv : est → fsys) : Prop := {
  ns_call : ∀ (A : Type) (call : nfs3_call A) e, fsys_ok (srv e) →
    ∃ out e', env_clnt_call clnt call t e = (RPC_SUCCESS out, e') ∧
      nfs3_spec (srv e) call out (srv e') ∧ fsys_ok (srv e');
  ns_malloc : ∀ size used e, srv (env_malloc size used e).2 = srv e;
}.

(** ** Lemmas *)

(** What stays of a file system: handles stay used, gone files stay gone, and a file keeps
    its type and file id. *)
Definition evolves (F F' : fsys) : Prop :=
  ∀ h x, F !! h = Some x → ∃ x', F' !! h = Some x' ∧
    ∀ o', x' = Some o' → ∃ o, x = Some o ∧ same_file (o_attr o) (o_attr o').

Lemma same_file_refl f : same_file f f.
Proof. by split. Qed.
Lemma evolves_refl F : evolves F F.
Proof. intros h x Hx. exists x. split; [done|]. intros o ->. exists o. by split. Qed.
Lemma evolves_trans F1 F2 F3 : evolves F1 F2 → evolves F2 F3 → evolves F1 F3.
Proof.
  intros H12 H23 h x Hx. destruct (H12 h x Hx) as (x2 & Hx2 & H2). destruct (H23 h x2 Hx2) as (x3 & Hx3 & H3).
  exists x3. split; [done|]. intros o3 Ho3. destruct (H3 o3 Ho3) as (o2 & Ho2 & [Ht2 Hi2]).
  destruct (H2 o2 Ho2) as (o & Ho & [Ht Hi]). exists o. split; [done|]. split; congruence.
Qed.
#[global] Instance evolves_preorder : PreOrder evolves.
Proof. split; [exact evolves_refl|exact evolves_trans]. Qed.

Lemma evolves_insert F h x x' :
  F !! h = Some x → (∀ o', x' = Some o' → ∃ o, x = Some o ∧ same_file (o_attr o) (o_attr o')) →
  evolves F (<[h := x']> F).
Proof.
  intros Hx Hx' h1 x1 H1. destruct (decide (h1 = h)) as [->|Hne].
  - exists x'. rewrite lookup_insert_eq. split; [done|]. rewrite Hx in H1. by injection H1 as <-.
  - rewrite lookup_insert_ne by done. by apply evolves_refl.
Qed.
Lemma evolves_new F h x : F !! h = None → evolves F (<[h := x]> F).
Proof.
  intros Hh h1 x1 H1. rewrite lookup_insert_ne by congruence. by apply evolves_refl.
Qed.
Lemma changed_evolves F h o g F' : alive F h o → changed F h o g F' → evolves F F'.
Proof.
  intros Ho (f & Hf & ->). apply (evolves_insert F h (Some o)); [exact Ho|]. intros o' [= <-]. by exists o.
Qed.
Lemma unlinked_evolves F h o F' : alive F h o → unlinked F h o F' → evolves F F'.
Proof.
  intros Ho [-> |Hc]; [|by eapply changed_evolves]. by apply (evolves_insert F h (Some o)).
Qed.
Lemma removed_evolves F d name h F' : removed F d name h F' → evolves F F'.
Proof. intros (p & Hp & _ & Hc). by eapply changed_evolves. Qed.
Lemma changed_lookup F d p g F' h : changed F d p g F' → h ≠ d → F' !! h = F !! h.
Proof. intros (f & _ & ->) Hne. by rewrite lookup_insert_ne. Qed.
Lemma added_evolves F d name h o F' : added F d name h o F' → evolves F F'.
Proof.
  intros (p & F1 & Hp & _ & Hh & Hc & ->). transitivity F1; [by eapply changed_evolves|].
  apply evolves_new. rewrite (changed_lookup _ _ _ _ _ h Hc); [done|]. unfold alive in Hp. congruence.
Qed.
Lemma moved_evolves F d name d' name' F' : moved F d name d' name' F' → evolves F F'.
Proof.
  intros (h & F1 & q & F2 & Hr & Hq & Hc & Ht). transitivity F1; [by eapply removed_evolves|].
  transitivity F2; [by eapply changed_evolves|]. destruct (o_names q !! name') as [t|]; [|by subst].
  destruct Ht as (o & Ho & _ & Hu). by eapply unlinked_evolves.
Qed.

(** The new file is there. *)
Lemma added_live F d name h o F' : added F d name h o F' → alive F' h o ∧ F !! h = None.
Proof. intros (p & F1 & _ & _ & Hh & _ & ->). split; [|done]. unfold alive. by rewrite lookup_insert_eq. Qed.

(** A well-formed file system with one file replaced, or one added. *)
Lemma fsys_ok_insert F h o :
  fsys_ok F → Z.of_nat (length h) <= NFS3_FHSIZE → attr_ok (o_attr o) →
  (type_of o = NF3REG → f3_size (o_attr o) = Z.of_nat (length (o_data o))) →
  (∀ name h', o_names o !! name = Some h' → h' = h ∨ ∃ o', alive F h' o') →
  fsys_ok (<[h := Some o]> F).
Proof.
  intros HF Hh Ha Hs Hn. assert (∀ h' o', alive F h' o' → ∃ o2, alive (<[h := Some o]> F) h' o2) as Hlive.
  { intros h' o' Ho'. destruct (decide (h' = h)) as [->|Hne]; [exists o|exists o']; unfold alive.
    - by rewrite lookup_insert_eq.
    - by rewrite lookup_insert_ne. }
  split.
  - intros h' x [[<- _]|[_ Hx]]%lookup_insert_Some; [done|by eapply fs_handle].
  - intros h' o' [[_ [= <-]]|[_ Ho']]%lookup_insert_Some; [done|by eapply fs_attr].
  - intros h' o' [[_ [= <-]]|[_ Ho']]%lookup_insert_Some; [done|by eapply fs_size].
  - intros h' o' name t [[_ [= <-]]|[_ Ho']]%lookup_insert_Some Ht.
    + destruct (Hn name t Ht) as [->|[o' Ho']]; [|by eapply Hlive]. exists o. unfold alive. by rewrite lookup_insert_eq.
    + destruct (fs_names F HF h' o' name t Ho' Ht) as [o2 Ho2]. by eapply Hlive.
Qed.
