(* ===== verification/Session.v ===== *)
(** * Sessions with a file server

    The client and a server that keeps a file system ([FileServer]), seen from the kernel:
    the abstract state is the file system, the numbers the client gave its files, and the
    lookups the kernel holds; [fs_step] says what a request may reply and do there.  Every
    conversation of a kernel that asks for what exists ends, with the replies [fs_step]
    allows. *)

From S2P Require Import Prelude Bitops Hash HList Types ErrPtr Icache NfsInode Rpc Nfs3 Acl Fuse CacheSpec.
From S2P Require Import Attrs Lookups Failures Entries Io Creations Dirs DirsPlus FileServer.

(** ** The abstract specification *)

Record fstate := {
  fs_files : fsys;
  (** the files the kernel may name, by their numbers *)
  fs_numbers : gmap Z (Z * list Z);
  (** the lookups of each number that the kernel has not forgotten *)
  fs_lookups : Z → Z;
}.

Definition known (S : fstate) (i : Z) : Prop := is_Some (fs_numbers S !! i).
(** Number [i] is the file behind the handle [h]. *)
Definition numbered_as (S : fstate) (i : Z) (h : list Z) : Prop := ∃ fid, fs_numbers S !! i = Some (fid, h).
Definition file_at (S : fstate) (i : Z) (h : list Z) (o : object) : Prop :=
  numbered_as S i h ∧ alive (fs_files S) h o.
Definition gone_at (S : fstate) (i : Z) : Prop := ∃ h, numbered_as S i h ∧ fs_files S !! h = Some None.

(** The [stat] the kernel gets for the attributes of the server. *)
Record shows (f : fattr3) (st : stat) : Prop := {
  sh_ino : st_ino st = f3_fileid f;
  sh_mode : ∃ fmt, fattr2stat_fmt (f3_type f) = Some fmt ∧ st_mode st = Z.lor (f3_mode f) fmt;
  sh_nlink : st_nlink st = f3_nlink f;
  sh_owner : st_uid st = f3_uid f ∧ st_gid st = f3_gid f;
  sh_size : f3_size f < LLONG_MAX → st_size st = f3_size f;
  sh_times : tv_sec (st_atim st) = seconds (f3_atime f) ∧ tv_sec (st_mtim st) = seconds (f3_mtime f) ∧
             tv_sec (st_ctim st) = seconds (f3_ctime f);
}.

(** The kernel gets the entry [e] for the file [o] behind [h], in the file system [F]. *)
Definition entered (S : fstate) (F : fsys) (h : list Z) (o : object) (e : fuse_entry_param) (S' : fstate) : Prop :=
  shows (o_attr o) (fe_attr e) ∧
  spec_get (fs_numbers S) (fileid_of o, h) (fe_ino e) (fs_numbers S') ∧
  fs_files S' = F ∧ fs_lookups S' = bump (fs_lookups S) (fe_ino e) 1.

(** The type of file a [mknod] request asks for. *)
Definition node_type (mode : Z) : option Z :=
  let fmt := mode & S_IFMT in
  if fmt =? S_IFCHR then Some NF3CHR else if fmt =? S_IFBLK then Some NF3BLK
  else if fmt =? S_IFSOCK then Some NF3SOCK else if fmt =? S_IFIFO then Some NF3FIFO else None.
Definition is_device (type : Z) : bool := (type =? NF3CHR) || (type =? NF3BLK).

(** The requests that make a file: the directory and the name, what the file shall be, and
    the reply for its entry.  An exclusive [create] is not among them. *)
Inductive creates : request → Z → string → (object → Prop) → (fuse_entry_param → fuse_reply) → Prop :=
| creates_mkdir p name mode :
    creates (Req_mkdir p name mode) p name
      (as_asked NF3DIR (sattr3_zero <| sa_mode := Some (mode & 0xfff) |>) "") reply_entry
| creates_symlink link p name :
    creates (Req_symlink link p name) p name (as_asked NF3LNK sattr3_zero link) reply_entry
| creates_mknod p name mode rdev type : node_type mode = Some type →
    creates (Req_mknod p name mode rdev) p name
      (λ o, as_asked type (sattr3_zero <| sa_mode := Some (mode & 0xfff) |>) "" o ∧
            (is_device type = true → has_device (dev_major rdev) (dev_minor rdev) o)) reply_entry
| creates_file p name mode uid gid fi : flag (fi_flags fi) O_EXCL = false →
    creates (Req_create p name mode uid gid fi) p name
      (as_asked NF3REG {| sa_mode := Some (mode & S_IRWXUGO); sa_uid := Some uid; sa_gid := Some gid; sa_size := None;
         sa_atime := SET_TO_SERVER_TIME; sa_mtime := SET_TO_SERVER_TIME |} "") (λ e, reply_create e fi).

(** The attributes a [setattr] request asks for, but for a size; every time is the server's. *)
Definition asked_attrs (attr : stat) (to_set : Z) : sattr3 :=
  let ask {A} (m : Z) (v : A) := if flag to_set m then Some v else None in
  let ask_time m := if flag to_set m then SET_TO_SERVER_TIME else DONT_CHANGE in
  {| sa_mode := ask FUSE_SET_ATTR_MODE (bclear (st_mode attr) S_IFMT); sa_uid := ask FUSE_SET_ATTR_UID (st_uid attr);
     sa_gid := ask FUSE_SET_ATTR_GID (st_gid attr); sa_size := None;
     sa_atime := ask_time FUSE_SET_ATTR_ATIME; sa_mtime := ask_time FUSE_SET_ATTR_MTIME |}.
(** It asks for something. *)
Definition asks_attrs (to_set : Z) : bool :=
  flag to_set FUSE_SET_ATTR_MODE || flag to_set FUSE_SET_ATTR_UID || flag to_set FUSE_SET_ATTR_GID
    || flag to_set FUSE_SET_ATTR_ATIME || flag to_set FUSE_SET_ATTR_MTIME.

(** The requests a server may refuse, and those that need the file itself. *)
Definition changes (req : request) : Prop :=
  match req with
  | Req_setattr _ _ _ | Req_mkdir _ _ _ | Req_mknod _ _ _ _ | Req_symlink _ _ _ | Req_create _ _ _ _ _ _ | Req_unlink _ _ | Req_rmdir _ _
  | Req_rename _ _ _ _ _ => True
  | _ => False
  end.
Definition asks_of (req : request) (i : Z) : Prop :=
  match req with
  | Req_lookup p _ => p = i
  | Req_getattr j | Req_readlink j => j = i
  | _ => False
  end.

(** [fs_step S req r S']: in [S] the request [req] may get the reply [r] and lead to [S']. *)
Inductive fs_step (S : fstate) : request → fuse_reply → fstate → Prop :=
| step_lookup p name d o h x e S' :
    file_at S p d o → o_names o !! name = Some h → alive (fs_files S) h x →
    entered S (fs_files S) h x e S' → fs_step S (Req_lookup p name) (reply_entry e) S'
| step_missing p name d o :
    file_at S p d o → o_names o !! name = None → fs_step S (Req_lookup p name) (reply_err ENOENT) S
| step_gone req i : asks_of req i → gone_at S i → fs_step S req (reply_err ESTALE) S
| step_getattr i h o st t :
    file_at S i h o → shows (o_attr o) st → fs_step S (Req_getattr i) (reply_attr st t) S
| step_setattr i attr to_set h o f st t :
    file_at S i h o → set_as_asked (asked_attrs attr to_set) (o_attr o) f → shows f st →
    fs_step S (Req_setattr i attr to_set) (reply_attr st t) (S <| fs_files ::= <[h := Some (with_attr f o)]> |>)
| step_readlink i h o :
    file_at S i h o → type_of o = NF3LNK → fs_step S (Req_readlink i) (reply_readlink (o_link o)) S
| step_no_link i h o :
    file_at S i h o → type_of o ≠ NF3LNK → fs_step S (Req_readlink i) (reply_err EINVAL) S
| step_read i size off h o F' :
    file_at S i h o → changed (fs_files S) h o id F' →
    fs_step S (Req_read i size off) (reply_buf (take (Z.to_nat size) (drop (Z.to_nat off) (o_data o))))
      (S <| fs_files := F' |>)
| step_write i buf off fi h o F' :
    file_at S i h o → changed (fs_files S) h o (λ o, o <| o_data ::= λ c, write_at c (Z.to_nat off) buf |>) F' →
    fs_step S (Req_write i buf off fi) (reply_write (Z.of_nat (length buf))) (S <| fs_files := F' |>)
| step_create req p name good mk d h o F' e S' :
    creates req p name good mk → numbered_as S p d → added (fs_files S) d name h o F' →
    good o → entered S F' h o e S' → fs_step S req (mk e) S'
| step_unlink p name d h F1 o F' :
    numbered_as S p d → removed (fs_files S) d name h F1 → alive F1 h o → type_of o ≠ NF3DIR →
    unlinked F1 h o F' → fs_step S (Req_unlink p name) (reply_err 0) (S <| fs_files := F' |>)
| step_rmdir p name d h F1 o :
    numbered_as S p d → removed (fs_files S) d name h F1 → alive F1 h o → type_of o = NF3DIR → o_names o = ∅ →
    fs_step S (Req_rmdir p name) (reply_err 0) (S <| fs_files := <[h := None]> F1 |>)
| step_rename p name q name' d d' F' :
    numbered_as S p d → numbered_as S q d' → moved (fs_files S) d name d' name' F' →
    fs_step S (Req_rename p name q name' 0) (reply_err 0) (S <| fs_files := F' |>)
| step_refused req st :
    changes req → st ≠ 0 → fs_step S req (reply_err (hsi_nfs3_stat_to_errno st)) S
| step_open i fi fh : fs_step S (Req_open i fi) (reply_open (fi <| fi_fh := fh |>)) S
| step_opendir i fi : fs_step S (Req_opendir i fi) (reply_open fi) S
| step_release i fi : fs_step S (Req_release i fi) (reply_err 0) S
| step_forget i n : fs_step S (Req_forget i n) reply_none (S <| fs_lookups ::= λ P, bump P i (- n) |>).

(** What a kernel asks: it names files it was told of, reads and writes regular files
    within the range of a file offset, sets attributes other than the size, creates what is not there, and forgets no more than
    it was given. *)
Definition name_ok (name : string) : Prop := name ≠ EmptyString ∧ strlen name <= NAME_MAX.
Definition transfer_ok (S : fstate) (i len off : Z) : Prop :=
  (∃ h o, file_at S i h o ∧ type_of o = NF3REG) ∧ 0 <= len < 2 ^ 32 ∧ 0 <= off ∧ off + len < 2 ^ 63.
Definition allowed (S : fstate) (req : request) : Prop :=
  match req with
  | Req_lookup p _ | Req_mkdir p _ _ | Req_symlink _ p _ | Req_rmdir p _ => known S p
  | Req_getattr i | Req_readlink i | Req_opendir i _ => known S i
  | Req_setattr i _ to_set => known S i ∧ asks_attrs to_set = true ∧ flag to_set FUSE_SET_ATTR_SIZE = false
  | Req_read i size off => transfer_ok S i size off
  | Req_write i buf off _ => transfer_ok S i (Z.of_nat (length buf)) off ∧ buf ≠ []
  | Req_mknod p name mode _ => known S p ∧ strlen name < NAME_MAX ∧ is_Some (node_type mode)
  | Req_create p name _ _ _ fi => known S p ∧ flag (fi_flags fi) O_EXCL = false ∧
      ∀ h o, file_at S p h o → o_names o !! name = None
  | Req_unlink p name => known S p ∧ name_ok name
  | Req_rename p name q name' flags => known S p ∧ known S q ∧ name_ok name ∧ name_ok name' ∧ flags = 0
  | Req_open _ _ | Req_release _ _ => True
  | Req_forget i n => known S i ∧ 0 <= n <= fs_lookups S i
  | _ => False
  end.

(** ** Conversations *)

(** A kernel that sends [n] requests, each depending on the replies so far. *)
Fixpoint converse {E : Env} (kernel : list fuse_reply → request) (n : nat) : M world unit :=
  match n with
  | O => mret tt
  | S n => rs ← gets w_replies; hsfs_oper (kernel rs);; converse kernel n
  end.

(** A run of the specification, from the replies [rs]. *)
Inductive fs_run (kernel : list fuse_reply → request) :
    nat → list fuse_reply → fstate → list fuse_reply → fstate → Prop :=
| run_nil rs S : fs_run kernel 0 rs S rs S
| run_cons n rs S r S1 rs' S' :
    fs_step S (kernel rs) r S1 → fs_run kernel n (r :: rs) S1 rs' S' → fs_run kernel (1 + n) rs S rs' S'.

(** The kernel asks for what is allowed, whatever the specification lets it see. *)
Fixpoint obedient (kernel : list fuse_reply → request) (n : nat) (rs : list fuse_reply) (S : fstate) : Prop :=
  match n with
  | O => True
  | Datatypes.S n => allowed S (kernel rs) ∧
      ∀ r S', fs_step S (kernel rs) r S' → obedient kernel n (r :: rs) S'
  end.

(** ** The relation between client and specification *)

Section Session.
Context {E : Env} `{!EnvOk E}.
Context (clnt : Z) (t : Z * Z) (srv : est → fsys).

(** A cached inode is the file behind its handle, which may be gone. *)
Definition backed (F : fsys) (n : nfs_inode) : Prop :=
  real_ino (n_inode n) = n_fileid n ∧ ∃ x, F !! fh_bytes (n_fh n) = Some x ∧
  ∀ o, x = Some o → same_object n (fattr_of (o_attr o)) = true.

(** The state [w] of the client stands for [S], with memory, inode numbers and counters for
    [b] more requests. *)
Record related (b : nat) (w : world) (S : fstate) : Prop := {
  rl_inv : Inv (fs_lookups S) (w_replies w) w;
  rl_numbers : represents w (fs_numbers S);
  rl_files : srv (w_est w) = fs_files S;
  rl_ok : fsys_ok (fs_files S);
  rl_client : clntp (w_sb w) = clnt ∧ call_timeout (w_sb w) = t ∧ clnt ∈ w_clients w;
  rl_sizes : 0 < rsize (w_sb w) ∧ 0 < wsize (w_sb w);
  rl_room : room w b;
  rl_space : Z.of_nat (size (w_heap w)) + Z.of_nat b + 1 <= cycle;
  rl_nodes : ∀ a n, w_heap w !! a = Some n →
    backed (fs_files S) n ∧ INT_MIN + Z.of_nat b < i_count (n_inode n);
  rl_bounds : ∀ i, 0 <= fs_lookups S i ∧ fs_lookups S i + Z.of_nat b < 2 ^ 64;
  rl_short : Z.of_nat b < 2 ^ 31;
}.

(** *** Attributes *)

Lemma fattr_of_fileid f : fa_fileid (fattr_of f) = f3_fileid f.
Proof. unfold fattr_of, hsi_nfs3_fattr2fattr. reflexivity. Qed.
Lemma same_file_object n f f' : same_file f f' →
  same_object n (fattr_of f') = same_object n (fattr_of f).
Proof.
  intros [Ht Hi]. unfold same_object. rewrite !fattr_of_fileid, Hi.
  pose proof (cache_type_bits f (nfs_init_fattr stack_fattr)) as H1.
  pose proof (cache_type_bits f' (nfs_init_fattr stack_fattr)) as H2. rewrite Ht in H2.
  fold (fattr_of f) in H1. fold (fattr_of f') in H2. by rewrite H1, H2.
Qed.
Lemma backed_evolves F F' n : evolves F F' → backed F n → backed F' n.
Proof.
  intros He (Hr & x & Hx & Ho). split; [done|]. destruct (He _ _ Hx) as (x' & Hx' & Hs). exists x'. split; [done|].
  intros o' Ho'. destruct (Hs o' Ho') as (o & -> & Hf). rewrite (same_file_object _ _ _ Hf). by apply Ho.
Qed.

(** The three ways an inode gets the attributes [f]. *)
Record has_attrs (f : fattr3) (n : nfs_inode) : Prop := {
  ha_fileid : n_fileid n = f3_fileid f;
  ha_real : real_ino (n_inode n) = f3_fileid f;
  ha_nlink : i_nlink (n_inode n) = f3_nlink f;
  ha_mode : ia_mode (i_iattr (n_inode n)) = fa_mode (fattr_of f);
  ha_uid : ia_uid (i_iattr (n_inode n)) = f3_uid f;
  ha_gid : ia_gid (i_iattr (n_inode n)) = f3_gid f;
  ha_size : ia_size (i_iattr (n_inode n)) = nfs_size_to_off_t (f3_size f);
  ha_atime : ia_atime (i_iattr (n_inode n)) = hsi_nfs3_time2spec (f3_atime f);
  ha_mtime : ia_mtime (i_iattr (n_inode n)) = hsi_nfs3_time2spec (f3_mtime f);
  ha_ctime : ia_ctime (i_iattr (n_inode n)) = hsi_nfs3_time2spec (f3_ctime f);
}.
Lemma new_attrs_has f n : has_attrs f (new_attrs (fattr_of f) n).
Proof. split; reflexivity. Qed.
Lemma with_fattr_has f n : n_fileid n = f3_fileid f → real_ino (n_inode n) = f3_fileid f →
  has_attrs f (with_fattr (fattr_of f) n).
Proof. intros H1 H2. split; [exact H1|exact H2|reflexivity..]. Qed.
Lemma same_object_fileid n f : same_object n (fattr_of f) = true → n_fileid n = f3_fileid f.
Proof. intros [H _]%andb_true_iff. by apply Z.eqb_eq in H. Qed.
Lemma refreshed_has f n : real_ino (n_inode n) = n_fileid n → same_object n (fattr_of f) = true →
  has_attrs f (refreshed (fattr_of f) n).
Proof.
  intros Hr Hs. pose proof (same_object_fileid _ _ Hs) as Hf. unfold refreshed. rewrite Hs.
  destruct (flag _ _); [apply new_attrs_has|]. apply with_fattr_has; congruence.
Qed.
Lemma has_attrs_shows f n st : attr_ok f → has_attrs f n → shows f (stat_of (n_inode n) st).
Proof.
  intros [Ht Hm _ Hsz] [Hf Hr Hl Hmo Hu Hg Hs Hat Hmt Hct]. unfold stat_of. rewrite Hmo, Hu, Hg, Hs, Hat, Hmt, Hct, Hr, Hl.
  destruct (cache_mode f (nfs_init_fattr stack_fattr) Hm Ht) as (fmt & Hfmt & _ & _ & Hmode).
  split; cbn; [done| |done|done| |done].
  - exists fmt. split; [done|]. exact Hmode.
  - intros Hlt. unfold nfs_size_to_off_t. by destruct (Z.ltb_spec (LLONG_MAX - 1) (f3_size f)); [lia|].
Qed.
Lemma has_attrs_backed F h o n : alive F h o → has_attrs (o_attr o) n → fh_bytes (n_fh n) = h → backed F n.
Proof.
  intros Ho Ha Hh. destruct Ha as [Hf Hr _ Hmo _ _ _ _ _ _]. split; [congruence|].
  exists (Some o). split; [by rewrite Hh|].
  intros o' [= <-]. unfold same_object. rewrite Hmo, Z.eqb_refl, andb_true_r, fattr_of_fileid. by apply Z.eqb_eq.
Qed.
Lemma fattr2stat_shows f st : attr_ok f → shows f (hsi_nfs3_fattr2stat f st).2.
Proof.
  intros [Ht Hm _ Hsz]. destruct (cache_mode f (nfs_init_fattr stack_fattr) Hm Ht) as (fmt & Hfmt & _).
  unfold hsi_nfs3_fattr2stat. rewrite Hfmt. destruct (perm_bits _ Hm) as [Hp _].
  split; cbn -[Z.land Z.lor sint]; [done| |done|done| |done].
  - exists fmt. by rewrite Hp.
  - intros _. unfold sint. unfold in_range in Hsz. rewrite wrap_small by (unfold in_range; lia).
    change (64 - 1) with 63. by rewrite (proj2 (Z.ltb_lt _ _)) by lia.
Qed.

(** *** Steps *)

(** The inodes after a step, each backed and with counters for [b] more requests. *)
Definition nodes_ok (b : nat) (F : fsys) (h : gmap Z nfs_inode) : Prop :=
  ∀ a n, h !! a = Some n → backed F n ∧ INT_MIN + Z.of_nat b < i_count (n_inode n).
Lemma nodes_ok_evolves b b' F F' h : (b' <= b)%nat → evolves F F' → nodes_ok b F h → nodes_ok b' F' h.
Proof. intros Hb He Hok a n Hn. destruct (Hok a n Hn). split; [by eapply backed_evolves|lia]. Qed.
Lemma nodes_ok_insert b F h a n : nodes_ok b F h → backed F n → INT_MIN + Z.of_nat b < i_count (n_inode n) →
  nodes_ok b F (<[a := n]> h).
Proof. intros Hok Hb Hc a' n' [[<- <-]|[_ Hn]]%lookup_insert_Some; [done|by apply (Hok a')]. Qed.

(** The state after a handler returned: what is left to show for the next request. *)
Lemma advance b w S req w' r S' :
  related (Datatypes.S b) w S → hsfs_oper req w = Ok (tt, w') → w_replies w' = r :: w_replies w →
  match req with Req_link _ _ _ => False | _ => True end →
  (∀ i, fs_lookups S' i = fs_lookups S i + granted [r] i - forgotten req i) →
  (∀ i, 0 <= fs_lookups S' i <= fs_lookups S i + 1) →
  (icache_wf w' → represents w' (fs_numbers S')) → srv (w_est w') = fs_files S' → fsys_ok (fs_files S') →
  settings (w_sb w') = settings (w_sb w) → w_clients w' = w_clients w →
  dom (w_heap w) ⊆ dom (w_heap w') → (size (w_heap w') <= 1 + size (w_heap w))%nat →
  nodes_ok b (fs_files S') (w_heap w') → related b w' S'.
Proof.
  intros HR Hrun Hrep Hnl Hlk Hbd Hnum Hf Hok Hset Hcl Hdom Hsz Hnodes.
  assert (Inv (fs_lookups S') (w_replies w') w') as HI.
  { pose proof (hsfs_oper_answers req _ _ w (rl_inv _ _ _ HR)) as Ha. unfold wlp in Ha. rewrite Hrun in Ha.
    destruct Ha as (rs & _ & HI). pose proof (inv_replies _ _ _ HI) as Hrs. rewrite Hrep in Hrs.
    assert (rs = [r]) as -> by (symmetry; by apply (app_inv_tail (w_replies w) [r] rs)).
    rewrite Hrep. eapply Inv_proper, HI; [|done..]. intros i. rewrite Hlk. by destruct req. }
  unfold settings in Hset. injection Hset as Hc Hr Hw Ht _. destruct HR as [_ _ _ _ (Hc1 & Ht1 & Hl1) [Hr1 Hw1] Hroom Hsp _ Hb Hshort].
  split; [done|by apply Hnum, HI|done|done| | | | |done| |lia].
  - rewrite Hc, Hcl. unfold call_timeout in *. by rewrite Ht.
  - by rewrite Hr, Hw.
  - intros used Hsub Hu. apply Hroom; [set_solver|]. rewrite !size_dom in *. lia.
  - lia.
  - intros i. destruct (Hb i), (Hbd i). lia.
Qed.

(** Requests that leave the cache alone. *)
Lemma advance_same b w S req e r F' :
  related (Datatypes.S b) w S →
  hsfs_oper req w = Ok (tt, w <| w_est := e |> <| w_replies ::= cons r |>) →
  match req with Req_link _ _ _ | Req_forget _ _ => False | _ => True end → grants r = [] →
  srv e = F' → fsys_ok F' → evolves (fs_files S) F' →
  related b (w <| w_est := e |> <| w_replies ::= cons r |>) (S <| fs_files := F' |>).
Proof.
  intros HR Hrun Hreq Hg Hf Hok Hev. set (w' := w <| w_est := e |> <| w_replies ::= cons r |>) in *.
  apply (advance b w S req w' r (S <| fs_files := F' |>) HR Hrun); try done.
  - by destruct req.
  - intros i. rewrite granted_one, Hg. destruct req; cbn; unfold occurrences; cbn; (done || lia).
  - intros i. cbn. destruct (rl_bounds _ _ _ HR i). lia.
  - intros Hwf. split; [done|]. apply (rl_numbers _ _ _ HR).
  - cbn. lia.
  - eapply (nodes_ok_evolves (1 + b)); [lia|exact Hev|exact (rl_nodes _ _ _ HR)].
Qed.
(** Requests that change one cached inode. *)
Lemma advance_upd b w S req w' r S' a n n' :
  related (1 + b) w S → hsfs_oper req w = Ok (tt, w') → w_replies w' = r :: w_replies w →
  match req with Req_link _ _ _ => False | _ => True end → grants r = [] →
  (∀ i, fs_lookups S' i = fs_lookups S i - forgotten req i) →
  (∀ i, 0 <= fs_lookups S' i <= fs_lookups S i + 1) →
  fs_numbers S' = fs_numbers S → fs_files S' = fs_files S → srv (w_est w') = fs_files S →
  settings (w_sb w') = settings (w_sb w) → w_clients w' = w_clients w →
  w_heap w !! a = Some n → w_heap w' = <[a := n']> (w_heap w) → ino_of n' = ino_of n → ident n' = ident n →
  backed (fs_files S) n' → INT_MIN + Z.of_nat b < i_count (n_inode n') → related b w' S'.
Proof.
  intros HR Hrun Hrep Hnl Hg Hlk Hbd Hnum Hfiles Hsrv Hset Hcl Hn Hh Hino Hid Hb Hc.
  apply (advance b w S req w' r S' HR Hrun Hrep Hnl); [|done|..].
  - intros i. rewrite Hlk, granted_one, Hg. unfold occurrences. cbn. lia.
  - intros Hwf. rewrite Hnum. by apply (represents_upd w w' _ a n n' (rl_numbers _ _ _ HR)).
  - by rewrite Hfiles.
  - rewrite Hfiles. apply HR.
  - done.
  - done.
  - rewrite Hh, dom_insert_L. set_solver.
  - rewrite Hh, map_size_insert_Some by done. lia.
  - rewrite Hfiles, Hh. apply nodes_ok_insert; [|done..].
    eapply (nodes_ok_evolves (1 + b)); [lia|reflexivity|exact (rl_nodes _ _ _ HR)].
Qed.
Lemma files_id S : S <| fs_files := fs_files S |> = S.
Proof. by destruct S. Qed.

(** The inode of a known number. *)
Lemma known_node b w S i h : related b w S → numbered_as S i h →
  ∃ a n, w_heap w !! a = Some n ∧ ino_of n = i ∧ fh_bytes (n_fh n) = h ∧ backed (fs_files S) n.
Proof.
  intros HR (fid & Hi). apply (proj2 (rl_numbers _ _ _ HR)) in Hi as (a & n & Hn & Hino & Hid). exists a, n.
  split_and!; [done..|by injection Hid|]. apply (rl_nodes _ _ _ HR a n Hn).
Qed.
(** A known file is there, or gone. *)
Lemma known_file b w S i : related b w S → known S i →
  ∃ a n h, w_heap w !! a = Some n ∧ ino_of n = i ∧ fh_bytes (n_fh n) = h ∧ numbered_as S i h ∧
    backed (fs_files S) n ∧ (fs_files S !! h = Some None ∨ ∃ o, alive (fs_files S) h o).
Proof.
  intros HR [[fid h] Hi]. destruct (known_node b w S i h HR) as (a & n & Hn & Hino & Hh & Hb); [by exists fid|].
  exists a, n, h. split_and!; [done..|by exists fid|done|]. destruct Hb as (_ & [o|] & Hx & _); rewrite Hh in Hx.
  - right. by exists o.
  - by left.
Qed.

Section Server.
Context (Hsrv : nfs_server clnt t srv).

(** A call to the server. *)
Lemma server_call {A : Type} w (call : nfs3_call A) :
  clntp (w_sb w) = clnt ∧ call_timeout (w_sb w) = t ∧ clnt ∈ w_clients w → fsys_ok (srv (w_est w)) →
  ∃ out e, served w call out e ∧ nfs3_spec (srv (w_est w)) call out (srv e) ∧ fsys_ok (srv e).
Proof using Hsrv.
  intros (Hc & Ht & Hl) HF. destruct (ns_call _ _ _ Hsrv A call (w_est w) HF) as (out & e & Hcall & Hspec & Hok).
  exists out, e. split_and!; [|done..]. split; [by rewrite Hc|by rewrite Hc, Ht].
Qed.
Lemma related_call {A : Type} b w S (call : nfs3_call A) : related b w S →
  ∃ out e, served w call out e ∧ nfs3_spec (fs_files S) call out (srv e) ∧ fsys_ok (srv e).
Proof using Hsrv.
  intros HR. pose proof (server_call w call (rl_client _ _ _ HR)) as Hcall.
  rewrite (rl_files _ _ _ HR) in Hcall. apply Hcall, HR.
Qed.

(** A call the server answers with a failure. *)
Lemma served_fails {A} w (call : nfs3_call (nfs3res A)) st e :
  served w call (Res_fail st) e → st ≠ 0 → fails w call (hsi_nfs3_stat_to_errno st) (w <| w_est := e |>).
Proof.
  intros Hsv Hst. split_and!; [apply Hsv..|]. right. exists st. split_and!; [done..|]. by apply served_run.
Qed.
Lemma wire_refused b w S req A (call : nfs3_call (nfs3res A)) st e :
  related (1 + b) w S → wire w req A call → served w call (Res_fail st) e → st ≠ 0 →
  srv e = fs_files S → match req with Req_link _ _ _ | Req_forget _ _ => False | _ => True end →
  ∃ w', hsfs_oper req w = Ok (tt, w') ∧
    w_replies w' = reply_err (hsi_nfs3_stat_to_errno st) :: w_replies w ∧ related b w' S.
Proof using Type*.
  intros HR Hw Hsv Hst He Hreq. set (w1 := w <| w_est := e |>).
  pose proof (wire_fails w (inv_wf _ _ _ (rl_inv _ _ _ HR)) req A call _ w1 Hw (served_fails _ _ _ _ Hsv Hst)) as Hrun.
  eexists. split; [exact Hrun|]. split; [done|]. rewrite <-(files_id S).
  apply (advance_same b w S req e _ (fs_files S) HR Hrun Hreq); [done..|apply HR|reflexivity].
Qed.

(** What a request of the session shows. *)
Definition simulated (b : nat) (w : world) (S : fstate) (req : request) : Prop :=
  ∃ w' r S', hsfs_oper req w = Ok (tt, w') ∧ w_replies w' = r :: w_replies w ∧
    fs_step S req r S' ∧ related b w' S'.

Lemma simulated_refused b w S req A (call : nfs3_call (nfs3res A)) st e :
  related (1 + b) w S → wire w req A call → served w call (Res_fail st) e → st ≠ 0 → srv e = fs_files S →
  match req with Req_link _ _ _ | Req_forget _ _ => False | _ => True end →
  fs_step S req (reply_err (hsi_nfs3_stat_to_errno st)) S → simulated b w S req.
Proof using Type*.
  intros HR Hw Hsv Hst He Hreq Hstep.
  destruct (wire_refused b w S req A call st e HR Hw Hsv Hst He Hreq) as (w' & Hrun & Hrep & HR').
  by exists w', (reply_err (hsi_nfs3_stat_to_errno st)), S.
Qed.
(** A request on a file that is gone. *)
Lemma simulated_gone b w S req i A (call : nfs3_call (nfs3res A)) e :
  related (1 + b) w S → wire w req A call → served w call (Res_fail NFS3ERR_STALE) e → srv e = fs_files S →
  asks_of req i → gone_at S i → simulated b w S req.
Proof using Type*.
  intros HR Hw Hsv He Hask Hg.
  apply (simulated_refused b w S req A call NFS3ERR_STALE e HR Hw Hsv); [done|done|by destruct req|].
  by apply (step_gone S req i).
Qed.

(** *** getattr *)

Lemma sim_getattr b w S i : related (1 + b) w S → known S i → simulated b w S (Req_getattr i).
Proof using Type*.
  intros HR Hk. destruct (known_file _ _ _ _ HR Hk) as (a & n & h & Hn & Hi & Hh & Hnum & Hb & Hx).
  pose proof (inv_wf _ _ _ (rl_inv _ _ _ HR)) as Hwf.
  destruct (related_call _ _ _ (NFSPROC3_GETATTR h) HR) as (out & e & Hsv & Hspec & Hok). cbn [nfs3_spec] in Hspec.
  destruct Hx as [Hx|[o Hx]]; unfold alive in Hx; rewrite Hx in Hspec; destruct Hspec as [He ->].
  { apply (simulated_gone b w S (Req_getattr i) i _ (NFSPROC3_GETATTR h) e HR); [|done|done|done|by exists h].
    rewrite <-Hh. apply wire_getattr. by exists a. }
  rewrite <-Hh in Hsv. pose proof (getattr_succeeds w a n zero_stat (o_attr o) e Hwf Hn Hsv) as Hga. cbv zeta in Hga.
  destruct Hb as (Hreal & x & Hx' & Hob). rewrite Hh, Hx in Hx'. injection Hx' as <-. pose proof (Hob o eq_refl) as Hso.
  rewrite Hso in Hga. set (w1 := w <| w_est := e |>) in *. set (n' := with_fattr (fattr_of (o_attr o)) n) in *.
  set (w2 := w1 <| w_heap ::= <[a := n']> |>) in *. pose proof (known_nonzero w Hwf _ _ Hn) as Hz.
  assert (w_heap w2 !! a = Some n') as Hn2 by apply lookup_insert_eq.
  set (to := if S_ISDIR (ia_mode (i_iattr (n_inode n'))) then acdirmin (w_sb w2) else acregmin (w_sb w2)).
  pose proof (attr_timeout_run w2 a n' Hn2 : _ = Ok (to, w2)) as Hto.
  set (r := reply_attr (hsi_nfs3_fattr2stat (o_attr o) zero_stat).2 to).
  assert (hsfs_oper (Req_getattr i) w = Ok (tt, w2 <| w_replies ::= cons r |>)) as Hrun
    by (cbn [hsfs_oper]; unfold hsx_fuse_getattr; run; reflexivity).
  set (w3 := w2 <| w_replies ::= cons r |>) in *.
  exists w3, r, S. split; [done|]. split; [done|]. split.
  { apply (step_getattr S i h o); [by split|]. apply fattr2stat_shows, (fs_attr _ (rl_ok _ _ _ HR) h o Hx). }
  destruct (rl_nodes _ _ _ HR a n Hn) as [_ Hc].
  apply (advance_upd b w S (Req_getattr i) w3 r S a n n' HR Hrun); try done.
  - intros i'. cbn. lia.
  - intros i'. destruct (rl_bounds _ _ _ HR i'). lia.
  - pose proof (same_object_fileid _ _ Hso). apply (has_attrs_backed _ h o); [exact Hx| |exact Hh].
    apply with_fattr_has; congruence.
  - cbn in *. lia.
Qed.
(** *** setattr *)

Lemma sattr3_asked i attr to_set junk : flag to_set FUSE_SET_ATTR_SIZE = false →
  sattr3_of (effective i (hsx_fuse_stat2iattr attr to_set junk)) = asked_attrs attr to_set.
Proof.
  intros Hs. destruct (setattr_sent attr to_set junk i) as (H1 & H2 & H3 & H4 & H5 & H6). rewrite Hs in H4.
  unfold asked_attrs. destruct (sattr3_of _). cbn in *. by subst.
Qed.
Lemma sim_setattr b w S i attr to_set :
  related (1 + b) w S → known S i → asks_attrs to_set = true → flag to_set FUSE_SET_ATTR_SIZE = false →
  simulated b w S (Req_setattr i attr to_set).
Proof using Type*.
  intros HR Hk Hask Hsize. destruct (known_file _ _ _ _ HR Hk) as (a & n & h & Hn & Hi & Hh & Hnum & Hb & _).
  pose proof (inv_wf _ _ _ (rl_inv _ _ _ HR)) as Hwf. assert (at_ino w i n) as Hat by (by exists a).
  pose proof (setattr_effective attr to_set stack_iattr (n_inode n) Hask) as Hv.
  pose proof (wire_setattr w i n attr to_set Hat Hv) as Hw. pose proof (setattr_handler w i a n attr to_set) as Hrun.
  cbv zeta in Hw, Hrun. rewrite (sattr3_asked _ _ _ _ Hsize) in Hw. rewrite Hh in Hw.
  setoid_rewrite (sattr3_asked _ _ _ _ Hsize) in Hrun. rewrite Hh in Hrun.
  destruct (related_call _ _ _ (NFSPROC3_SETATTR h (asked_attrs attr to_set)) HR) as (out & e & Hsv & Hspec & Hok).
  destruct (Hspec eq_refl) as [[He (st & Hst & ->)]|(o & f & Ho & Hf & He & ->)].
  { apply (simulated_refused b w S _ _ _ st e HR Hw Hsv Hst He); [done|]. by constructor. }
  destruct (Hrun f e Hwf Hn Hi Hv Hsv) as [Hgo _]. clear Hrun Hw.
  destruct Hb as (Hreal & x & Hx & Hob). unfold alive in Ho. rewrite Hh, Ho in Hx. injection Hx as <-.
  pose proof (Hob o eq_refl) as Hso. rewrite <-(same_file_object n _ _ (proj1 Hf)) in Hso. rewrite Hso in Hgo.
  set (n' := with_fattr (fattr_of f) n) in *. set (r := reply_attr (stat_of (n_inode n') stack_stat) _) in Hgo.
  set (w' := w <| w_est := e |> <| w_heap ::= <[a := n']> |> <| w_replies ::= cons r |>) in *.
  set (S' := S <| fs_files ::= <[h := Some (with_attr f o)]> |>).
  assert (has_attrs f n') as Hha.
  { pose proof (same_object_fileid _ _ Hso). apply with_fattr_has; congruence. }
  assert (alive (fs_files S') h (with_attr f o)) as Ho' by exact (lookup_insert_eq (fs_files S) h _).
  assert (fs_files S' = srv e) as HF by (symmetry; exact He).
  assert (attr_ok f) as Haf by (rewrite HF in Ho'; exact (fs_attr _ Hok h _ Ho')).
  exists w', r, S'. split; [done|]. split; [done|]. split.
  { apply (step_setattr S i attr to_set h o f); [by split|done|by apply has_attrs_shows]. }
  destruct (rl_nodes _ _ _ HR a n Hn) as [_ Hc].
  apply (advance b w S (Req_setattr i attr to_set) w' r S' HR Hgo); [done|done|..].
  - intros j. rewrite granted_one. unfold occurrences. cbn. lia.
  - intros j. destruct (rl_bounds _ _ _ HR j). cbn. lia.
  - intros Hwf'. by apply (represents_upd w w' _ a n n' (rl_numbers _ _ _ HR)).
  - by rewrite HF.
  - by rewrite HF.
  - done.
  - done.
  - cbn. rewrite dom_insert_L. set_solver.
  - cbn. rewrite map_size_insert_Some by done. lia.
  - apply nodes_ok_insert.
    + eapply (nodes_ok_evolves (1 + b)); [lia| |exact (rl_nodes _ _ _ HR)].
      apply (evolves_insert _ h (Some o)); [done|]. intros o' [= <-]. exists o. by split; [|apply Hf].
    + by apply (has_attrs_backed _ h (with_attr f o)).
    + cbn in *. lia.
Qed.

(** *** Entries *)

(** The inode [n] after a file was found in or put into the cache of [w0]. *)
Definition got_node (h0 : gmap Z nfs_inode) (k : Z * list Z) (f : fattr3) (a : Z) (n : nfs_inode) : Prop :=
  ident n = k ∧
  match h0 !! a with
  | Some n0 => ident n0 = k ∧ n = refreshed (fattr_of f) n0
  | None => (∀ b m, h0 !! b = Some m → ident m ≠ k) ∧
            i_private (n_inode n) = 0 ∧ i_count (n_inode n) = 0 ∧ ∃ n1, n = new_attrs (fattr_of f) n1
  end.

(** With a new lookup count. *)
Definition counting (v : Z) (n : nfs_inode) : nfs_inode := n <| n_inode ::= λ i, i <| i_private := v |> |>.

Lemma got_node_attrs b F F' h0 h o a n :
  Z.of_nat b < 2 ^ 31 → nodes_ok (1 + b) F h0 → evolves F F' → alive F' h o → got_node h0 (fileid_of o, h) (o_attr o) a n →
  has_attrs (o_attr o) n ∧ INT_MIN + Z.of_nat b < i_count (n_inode n) ∧
  match h0 !! a with Some n0 => ino_of n = ino_of n0 | None => True end.
Proof.
  intros Hshort Hok Hev Ho [Hid Hcase]. destruct (h0 !! a) as [n0|] eqn:Ha.
  - destruct Hcase as [Hid0 ->]. destruct (Hok a n0 Ha) as [Hb Hc].
    apply (backed_evolves F F' n0 Hev) in Hb as (Hr & x & Hx & Hob).
    assert (fh_bytes (n_fh n0) = h) as Hh by (by injection Hid0). rewrite Hh in Hx.
    unfold alive in Ho. rewrite Ho in Hx. injection Hx as <-. pose proof (Hob o eq_refl) as Hso.
    split_and!; [by apply refreshed_has| |].
    + unfold refreshed. destruct (flag _ _); [|rewrite Hso]; cbn; lia.
    + apply refreshed_keeps. rewrite fattr_of_fileid. by apply same_object_fileid.
  - destruct Hcase as (_ & _ & Hc & n1 & ->). split_and!; [apply new_attrs_has| |done].
    rewrite Hc. unfold INT_MIN. lia.
Qed.

(** The cache and the numbers after the entry was made. *)
Lemma entry_inode b F F' w0 w' A a n v h o :
  Z.of_nat b < 2 ^ 31 → represents w0 A → nodes_ok (1 + b) F (w_heap w0) → evolves F F' → alive F' h o →
  got_node (w_heap w0) (fileid_of o, h) (o_attr o) a n → icache_wf w' →
  w_heap w' = <[a := counting v n]> (w_heap w0) →
  ∃ A', represents w' A' ∧ spec_get A (fileid_of o, h) (ino_of n) A' ∧ has_attrs (o_attr o) (counting v n) ∧
    nodes_ok b F' (w_heap w') ∧ dom (w_heap w0) ⊆ dom (w_heap w') ∧
    (size (w_heap w') <= 1 + size (w_heap w0))%nat.
Proof.
  intros Hshort HA Hok Hev Ho Hgot Hwf' Hh.
  destruct (got_node_attrs b F F' _ h o a n Hshort Hok Hev Ho Hgot) as (Hat & Hc & Hino). destruct Hgot as [Hid Hcase].
  assert (has_attrs (o_attr o) (counting v n)) as Hat' by (by destruct Hat).
  assert (nodes_ok b F' (w_heap w')) as Hok'.
  { rewrite Hh. apply nodes_ok_insert; [by eapply (nodes_ok_evolves (1 + b)); [lia|..]| |done].
    apply (has_attrs_backed _ h o); [done..|]. by injection Hid. }
  assert (dom (w_heap w0) ⊆ dom (w_heap w') ∧ (size (w_heap w') <= 1 + size (w_heap w0))%nat) as [Hd Hs].
  { rewrite Hh. split; [rewrite dom_insert_L; set_solver|]. destruct (w_heap w0 !! a) eqn:Ha.
    - rewrite map_size_insert_Some by done. lia.
    - rewrite map_size_insert_None by done. lia. }
  destruct (w_heap w0 !! a) as [n0|] eqn:Ha.
  - destruct Hcase as [Hid0 _]. exists A. split_and!; [|left|done..].
    + apply (represents_upd w0 w' A a n0 (counting v n)); [done..|]. change (ident n = ident n0). congruence.
    + split; [|done]. apply (proj2 HA). exists a, n0. by rewrite Hino.
  - destruct Hcase as (Hno & _). exists (<[ino_of n := ident n]> A).
    destruct (represents_new w0 w' A a (counting v n) HA Hwf' Ha Hh) as [Hfree HA'].
    split_and!; [done| |done..]. right. split_and!; [|done| | |by rewrite Hid].
    + intros j (b' & m & Hm & _ & Hmk)%(proj2 HA). by eapply Hno.
    + apply (c_node _ _ _ _ _ Hwf' a (counting v n)). by rewrite Hh, lookup_insert_eq.
    + apply (c_node _ _ _ _ _ Hwf' a (counting v n)). by rewrite Hh, lookup_insert_eq.
Qed.

(** *** lookup *)

Lemma sim_lookup b w S p name : related (1 + b) w S → known S p → simulated b w S (Req_lookup p name).
Proof using Type*.
  intros HR Hk. destruct (known_file _ _ _ _ HR Hk) as (pa & np & d & Hn & Hi & Hd & Hnum & _ & Hx).
  pose proof (inv_wf _ _ _ (rl_inv _ _ _ HR)) as Hwf. assert (at_ino w p np) as Hat by (by exists pa).
  destruct (related_call _ _ _ (NFSPROC3_LOOKUP (in_dir np name)) HR) as (out & e & Hsv & Hspec & Hok).
  cbn [nfs3_spec in_dir do_dir do_name] in Hspec. rewrite Hd in Hspec. pose proof (wire_lookup w p np name Hat) as Hw.
  destruct Hx as [Hx|[o Hx]]; unfold alive in Hx; rewrite Hx in Hspec; destruct Hspec as [He Hspec].
  { subst out. apply (simulated_gone b w S _ p _ _ e HR Hw Hsv); [done|done|by exists d]. }
  destruct (o_names o !! name) as [h|] eqn:Hname; cycle 1.
  { subst out. apply (simulated_refused b w S _ _ _ _ e HR Hw Hsv); [done..|].
    by apply (step_missing S p name d o). }
  destruct Hspec as (x & Hlx & ->). pose proof (fs_attr _ (rl_ok _ _ _ HR) h x Hlx) as Hao.
  destruct (lookup_entry w p np name h (o_attr x) e Hwf Hat Hsv) as
    (w' & a & n & Hrun & Hwf' & Hh & Hid & Hrep & Hcase & Hst).
  { pose proof (fs_handle _ (rl_ok _ _ _ HR) h _ Hlx). unfold NFS3_FHSIZE, NFS_MAXFHSIZE in *. lia. }
  { apply Hao. }
  { apply (room_plenty w (1 + b) (rl_room _ _ _ HR)). }
  { pose proof (rl_space _ _ _ HR). lia. }
  pose proof (rl_short _ _ _ HR) as Hshort.
  destruct (entry_inode b (fs_files S) (fs_files S) w w' (fs_numbers S) a n (wrap 64 (i_private (n_inode n) + 1)) h x)
    as (A' & HA' & Hget & Hat' & Hnodes & Hdom & Hsz); [lia|apply HR|exact (rl_nodes _ _ _ HR)|reflexivity|done|done|done|done|].
  set (en := entry_of w (add_lookup n) stack_stat) in *.
  set (S' := {| fs_files := fs_files S; fs_numbers := A'; fs_lookups := bump (fs_lookups S) (fe_ino en) 1 |}).
  exists w', (reply_entry en), S'. split; [exact Hrun|]. split; [done|]. split.
  { apply (step_lookup S p name d o h x en S'); [by split|done|done|]. split_and!; [|done..].
    by apply has_attrs_shows. }
  destruct Hst as (Hset & Hcl & Hcalm).
  apply (advance b w S (Req_lookup p name) w' (reply_entry en) S' HR Hrun Hrep);
    [done| | |done| |apply HR|exact Hset|exact Hcl|done..].
  - intros i. rewrite granted_one. cbn [grants fs_lookups S' forgotten]. rewrite occurrences_one. unfold bump. lia.
  - intros i. destruct (rl_bounds _ _ _ HR i). cbn. unfold bump. destruct (i =? _); lia.
  - apply (Hcalm (λ e', srv e' = fs_files S)); [|done]. intros sz u e' <-. apply (ns_malloc _ _ _ Hsrv).
Qed.

(** *** Requests that leave the cache alone *)

Lemma simulated_same b w S req e r F' :
  related (1 + b) w S → hsfs_oper req w = Ok (tt, w <| w_est := e |> <| w_replies ::= cons r |>) →
  match req with Req_link _ _ _ | Req_forget _ _ => False | _ => True end → grants r = [] →
  srv e = F' → fsys_ok F' → evolves (fs_files S) F' → fs_step S req r (S <| fs_files := F' |>) → simulated b w S req.
Proof.
  intros HR Hrun Hreq Hg Hf Hok Hev Hstep.
  pose proof (advance_same b w S req e r F' HR Hrun Hreq Hg Hf Hok Hev) as HR'.
  by exists (w <| w_est := e |> <| w_replies ::= cons r |>), r, (S <| fs_files := F' |>).
Qed.

Lemma sim_readlink b w S i : related (1 + b) w S → known S i → simulated b w S (Req_readlink i).
Proof using Type*.
  intros HR Hk. destruct (known_file _ _ _ _ HR Hk) as (a & n & h & Hn & Hi & Hh & Hnum & _ & Hx).
  pose proof (inv_wf _ _ _ (rl_inv _ _ _ HR)) as Hwf. assert (at_ino w i n) as Hat by (by exists a).
  destruct (related_call _ _ _ (NFSPROC3_READLINK (fh_bytes (n_fh n))) HR) as (out & e & Hsv & Hspec & Hok).
  cbn [nfs3_spec] in Hspec. rewrite Hh in Hspec. pose proof (wire_readlink w i n Hat) as Hw.
  destruct Hx as [Hx|[o Hx]]; unfold alive in Hx; rewrite Hx in Hspec; destruct Hspec as [He Hspec].
  { subst out. apply (simulated_gone b w S _ i _ _ e HR Hw Hsv); [done|done|by exists h]. }
  destruct (Z.eqb_spec (type_of o) NF3LNK) as [Ht|Ht]; subst out; cycle 1.
  { apply (simulated_refused b w S _ _ _ _ e HR Hw Hsv); [done..|]. by apply (step_no_link S i h o). }
  set (w1 := w <| w_est := e |>). pose proof (served_run _ _ _ _ Hsv) as Hcall. fold w1 in Hcall.
  pose proof (malloc_buf_run w1 (strlen (o_link o) + 1) (room_plenty w _ (rl_room _ _ _ HR) _ _)) as Hm.
  set (e1 := (env_malloc _ _ _).2) in Hm. set (w2 := w1 <| w_est := e1 |>) in *.
  assert (clntp (w_sb w) ∈ w_clients w2) as Hl by apply Hsv. pose proof (known_nonzero w Hwf _ _ Hn) as Hz.
  assert (hsi_nfs3_readlink a w = Ok ((0, Some (o_link o)), w2)) as Hop by (unfold hsi_nfs3_readlink; run; reflexivity).
  assert (hsfs_oper (Req_readlink i) w = Ok (tt, w <| w_est := e1 |> <| w_replies ::= cons (reply_readlink (o_link o)) |>)) as Hrun
    by (cbn [hsfs_oper]; unfold hsx_fuse_readlink; run; reflexivity).
  apply (simulated_same b w S _ e1 _ (fs_files S) HR Hrun); [done|done| |apply HR|reflexivity|].
  - unfold e1. by rewrite (ns_malloc _ _ _ Hsrv).
  - rewrite files_id. by apply (step_readlink S i h o).
Qed.

Lemma sim_open b w S i fi : related (1 + b) w S → simulated b w S (Req_open i fi).
Proof using Type*.
  intros HR. destruct (room_plenty w _ (rl_room _ _ _ HR) FI_FH_LEN (w_est w)) as [fh Hfh].
  destruct (env_malloc FI_FH_LEN (dom (w_heap w)) (w_est w)) as [x e] eqn:Hm. cbn in Hfh. subst x.
  assert (hsfs_oper (Req_open i fi) w = Ok (tt, w <| w_est := e |> <| w_replies ::= cons (reply_open (fi <| fi_fh := fh |>)) |>)) as Hrun.
  { cbn [hsfs_oper]. unfold hsx_fuse_open. mstep. by mstep (ext_run _ _ _ _ Hm). }
  apply (simulated_same b w S _ e _ (fs_files S) HR Hrun); [done|done| |apply HR|reflexivity|rewrite files_id; constructor].
  pose proof (ns_malloc _ _ _ Hsrv FI_FH_LEN (dom (w_heap w)) (w_est w)) as He. rewrite Hm in He. cbn in He.
  rewrite He. apply HR.
Qed.
(** Requests that only reply. *)
Lemma simulated_reply b w S req r :
  related (1 + b) w S → hsfs_oper req w = reply r w →
  match req with Req_link _ _ _ | Req_forget _ _ => False | _ => True end → grants r = [] →
  fs_step S req r S → simulated b w S req.
Proof.
  intros HR Hrun Hreq Hg Hstep.
  apply (simulated_same b w S req (w_est w) r (fs_files S) HR); [|done|done|apply HR|apply HR|reflexivity|by rewrite files_id].
  rewrite Hrun. unfold reply, modify. by destruct w.
Qed.
Lemma sim_release b w S i fi : related (1 + b) w S → simulated b w S (Req_release i fi).
Proof. intros HR. apply (simulated_reply b w S _ (reply_err 0) HR); [done..|constructor]. Qed.
Lemma sim_opendir b w S i fi : related (1 + b) w S → known S i → simulated b w S (Req_opendir i fi).
Proof.
  intros HR Hk. destruct (known_file _ _ _ _ HR Hk) as (a & n & h & Hn & Hi & _).
  pose proof (inv_wf _ _ _ (rl_inv _ _ _ HR)) as Hwf. pose proof (known_nonzero w Hwf _ _ Hn) as Hz.
  apply (simulated_reply b w S _ (reply_open fi) HR); [|done..|constructor].
  cbn [hsfs_oper]. unfold hsx_fuse_opendir. run. reflexivity.
Qed.

(** *** read and write *)

(** The bytes of the file behind [h]. *)
Definition bytes_at (h : list Z) (e : est) : list Z :=
  match srv e !! h with Some (Some o) => o_data o | _ => [] end.
(** The file system is [F] but for the file behind [h], which is [o] with attributes and
    bytes of its own. *)
Definition only_changed (F : fsys) (h : list Z) (o : object) (e : est) : Prop :=
  fsys_ok (srv e) ∧ changed F h o (λ o, o <| o_data := bytes_at h e |>) (srv e).

Lemma only_changed_live F h o e : only_changed F h o e →
  ∃ f, same_file (o_attr o) f ∧ alive (srv e) h (with_attr f (o <| o_data := bytes_at h e |>)).
Proof. intros (_ & f & Hf & He). exists f. split; [done|]. unfold alive. by rewrite He, lookup_insert_eq. Qed.
(** A second change of the same file. *)
Lemma only_changed_next F h o e o1 g e' :
  only_changed F h o e → alive (srv e) h o1 → changed (srv e) h o1 g (srv e') → fsys_ok (srv e') →
  (∀ x, o_names (g x) = o_names x ∧ o_link (g x) = o_link x) →
  only_changed F h o e' ∧ bytes_at h e' = o_data (g o1).
Proof.
  intros Hoc Ho1 (f' & Hf' & He') Hok' Hg. destruct (only_changed_live _ _ _ _ Hoc) as (f & Hf & Hlive).
  unfold alive in *. rewrite Hlive in Ho1. injection Ho1 as <-.
  set (o1 := with_attr f (o <| o_data := bytes_at h e |>)) in *.
  assert (bytes_at h e' = o_data (g o1)) as Hbytes by (unfold bytes_at; by rewrite He', lookup_insert_eq).
  split; [|done]. split; [done|]. exists f'. split.
  - destruct Hf as [Ht Hi], Hf' as [Ht' Hi']. change (o_attr o1) with f in Ht', Hi'. split; congruence.
  - rewrite Hbytes, He'. destruct Hoc as (_ & f0 & _ & He). rewrite He, insert_insert_eq.
    f_equal. f_equal. destruct (Hg o1) as [Hn Hl]. unfold with_attr. destruct (g o1). cbn in *. by subst.
Qed.
Lemma only_changed_start F h o e : srv e = F → fsys_ok F → alive F h o → only_changed F h o e ∧ bytes_at h e = o_data o.
Proof.
  intros He Hok Ho. unfold alive in Ho. assert (bytes_at h e = o_data o) as Hb by (unfold bytes_at; by rewrite He, Ho).
  split; [|done]. split; [by rewrite He|]. exists (o_attr o). split; [done|].
  rewrite He, Hb, insert_id; [done|]. rewrite Ho. by destruct o.
Qed.
Lemma only_changed_malloc F h o size used e : only_changed F h o e →
  bytes_at h (env_malloc size used e).2 = bytes_at h e ∧ only_changed F h o (env_malloc size used e).2.
Proof using Hsrv.
  intros [Hok Hc]. pose proof (ns_malloc _ _ _ Hsrv size used e) as He.
  assert (bytes_at h (env_malloc size used e).2 = bytes_at h e) as Hb by (unfold bytes_at; by rewrite He).
  split; [done|]. split; [by rewrite He|]. by rewrite Hb, He.
Qed.

Lemma only_changed_serves F h o : type_of o = NF3REG →
  serves_file clnt t h (only_changed F h o) (bytes_at h).
Proof using Hsrv.
  intros Ht. split; [|intros; by apply only_changed_malloc].
  intros off count e Hoc Hoff Hcount. destruct (only_changed_live _ _ _ _ Hoc) as (f & [Hft Hfi] & Hlive).
  set (o1 := with_attr f (o <| o_data := bytes_at h e |>)) in *.
  destruct (ns_call _ _ _ Hsrv _ (NFSPROC3_READ h off count) e (proj1 Hoc)) as (out & e' & Hcall & Hspec & Hok').
  destruct (Hspec o1 Hlive) as (d & eof & -> & Hd & Hlen & Hne & Heof & Hch); [exact (eq_trans Hft Ht)|done..|].
  destruct (only_changed_next F h o e o1 id e' Hoc Hlive Hch Hok') as [Hoc' Hb]; [done|].
  exists d, eof, e'. by split_and!.
Qed.
Lemma only_changed_stores F h o stable : type_of o = NF3REG →
  stores_file clnt t h stable (only_changed F h o) (bytes_at h).
Proof using Hsrv.
  intros Ht. split; [|intros; by apply only_changed_malloc].
  intros off d e Hoc Hoff Hd Hmax. destruct (only_changed_live _ _ _ _ Hoc) as (f & [Hft Hfi] & Hlive).
  set (o1 := with_attr f (o <| o_data := bytes_at h e |>)) in *.
  destruct (ns_call _ _ _ Hsrv _ (NFSPROC3_WRITE h off (Z.of_nat (length d)) stable d) e (proj1 Hoc))
    as (out & e' & Hcall & Hspec & Hok').
  destruct (Hspec o1 Hlive) as (k & -> & Hk & Hch); [exact (eq_trans Hft Ht)|done..|].
  destruct (only_changed_next F h o e o1 _ e' Hoc Hlive Hch Hok') as [Hoc' Hb]; [done|].
  exists k, e'. split; [done|]. split; [done|]. by split.
Qed.

Lemma sim_read b w S i size off : related (1 + b) w S → allowed S (Req_read i size off) →
  simulated b w S (Req_read i size off).
Proof using Type*.
  intros HR ((h & o & [Hnum Ho] & Ht) & Hsize & Hoff & Hsum).
  destruct (known_node _ _ _ _ _ HR Hnum) as (a & n & Hn & Hi & Hh & _). destruct (rl_client _ _ _ HR) as (Hc & Hto & Hl).
  destruct (only_changed_start (fs_files S) h o (w_est w)) as [Hoc Hb]; [apply HR..|done|].
  pose proof (only_changed_serves (fs_files S) h o Ht) as Hsf. rewrite <-Hc, <-Hto, <-Hh in Hsf at 1.
  destruct (read_handler w i a n size off (only_changed (fs_files S) h o) (bytes_at h)) as (e & Hrun & Hbe & [Hok Hch]);
    [apply HR|done|done|apply (room_plenty w _ (rl_room _ _ _ HR))|by rewrite Hc|apply HR|done|done|done..|].
  rewrite Hbe, Hb in Hch. rewrite Hb in Hrun.
  assert (changed (fs_files S) h o id (srv e)) as Hid by (destruct Hch as (f & Hf & ->); exists f; split; [done|]; by destruct o).
  apply (simulated_same b w S _ e _ (srv e) HR Hrun); [done..|by eapply changed_evolves|].
  by apply (step_read S i size off h o).
Qed.
Lemma sim_write b w S i buf off fi : related (1 + b) w S → allowed S (Req_write i buf off fi) →
  simulated b w S (Req_write i buf off fi).
Proof using Type*.
  intros HR (((h & o & [Hnum Ho] & Ht) & Hsize & Hoff & Hsum) & Hne).
  destruct (known_node _ _ _ _ _ HR Hnum) as (a & n & Hn & Hi & Hh & _). destruct (rl_client _ _ _ HR) as (Hc & Hto & Hl).
  destruct (only_changed_start (fs_files S) h o (w_est w)) as [Hoc Hb]; [apply HR..|done|].
  pose proof (only_changed_stores (fs_files S) h o (if fi_direct_io fi then HSFS_FILE_SYNC else HSFS_UNSTABLE) Ht) as Hsf.
  rewrite <-Hc, <-Hto, <-Hh in Hsf at 1.
  destruct (write_handler w i a n buf off fi (only_changed (fs_files S) h o) (bytes_at h)) as (e & Hrun & Hbe & [Hok Hch]);
    [apply HR|done|done|apply (room_plenty w _ (rl_room _ _ _ HR))|by rewrite Hc|apply HR|done|done|done|lia|done..|].
  rewrite Hbe, Hb in Hch.
  apply (simulated_same b w S _ e _ (srv e) HR Hrun); [done..|by eapply changed_evolves|].
  by apply (step_write S i buf off fi h o).
Qed.

(** *** unlink, rmdir and rename *)

Lemma unlink_run w p np name e :
  icache_wf w → at_ino w p np → name_ok name → served w (NFSPROC3_REMOVE (in_dir np name)) (Res_ok tt) e →
  hsfs_oper (Req_unlink p name) w = Ok (tt, w <| w_est := e |> <| w_replies ::= cons (reply_err 0) |>).
Proof.
  intros Hwf (a & Hn & Hi) [Hne Hlen] Hsv. destruct (name_checks name Hne Hlen) as [Hc1 Hc2].
  pose proof (known_nonzero w Hwf _ _ Hn) as Hz. pose proof (served_run _ _ _ _ Hsv) as Hcall.
  set (w1 := w <| w_est := e |>) in *. assert (clntp (w_sb w) ∈ w_clients w1) as Hl by apply Hsv.
  assert (hsi_nfs3_unlink a name w = Ok (0, w1)) as Hop by (unfold hsi_nfs3_unlink; run; reflexivity).
  cbn [hsfs_oper]. clear Hne. unfold hsx_fuse_unlink. run. reflexivity.
Qed.
Lemma rmdir_run w p np name e :
  icache_wf w → at_ino w p np → served w (NFSPROC3_RMDIR (in_dir np name)) (Res_ok tt) e →
  hsfs_oper (Req_rmdir p name) w = Ok (tt, w <| w_est := e |> <| w_replies ::= cons (reply_err 0) |>).
Proof.
  intros Hwf (a & Hn & Hi) Hsv. pose proof (known_nonzero w Hwf _ _ Hn) as Hz.
  pose proof (served_run _ _ _ _ Hsv) as Hcall. set (w1 := w <| w_est := e |>) in *.
  assert (clntp (w_sb w1) ∈ w_clients w1) as Hl by apply Hsv.
  assert (hsi_nfs3_rmdir a name w = Ok (0, w1)) as Hop by (unfold hsi_nfs3_rmdir; run; reflexivity).
  cbn [hsfs_oper]. unfold hsx_fuse_rmdir. run. reflexivity.
Qed.
Lemma rename_run w p np name q nq name' e :
  icache_wf w → at_ino w p np → at_ino w q nq → name_ok name → name_ok name' →
  served w (NFSPROC3_RENAME (in_dir np name) (in_dir nq name')) (Res_ok tt) e →
  hsfs_oper (Req_rename p name q name' 0) w = Ok (tt, w <| w_est := e |> <| w_replies ::= cons (reply_err 0) |>).
Proof.
  intros Hwf (a & Hn & Hi) (a' & Hn' & Hi') [Hne Hlen] [Hne' Hlen'] Hsv.
  destruct (name_checks name Hne Hlen) as [Hc1 Hc2]. destruct (name_checks name' Hne' Hlen') as [Hc3 Hc4].
  pose proof (known_nonzero w Hwf _ _ Hn) as Hz. pose proof (known_nonzero w Hwf _ _ Hn') as Hz'.
  pose proof (served_run _ _ _ _ Hsv) as Hcall.
  set (w1 := w <| w_est := e |>) in *. assert (clntp (w_sb w) ∈ w_clients w1) as Hl by apply Hsv.
  assert (hsi_nfs3_rename a name a' name' w = Ok (0, w1)) as Hop by (unfold hsi_nfs3_rename; run; reflexivity).
  cbn [hsfs_oper]. clear Hne Hne'. unfold hsx_fuse_rename. run. reflexivity.
Qed.

Lemma sim_unlink b w S p name : related (1 + b) w S → known S p → name_ok name → simulated b w S (Req_unlink p name).
Proof using Type*.
  intros HR Hk Hname. destruct (known_file _ _ _ _ HR Hk) as (a & np & d & Hn & Hi & Hd & Hnum & _).
  pose proof (inv_wf _ _ _ (rl_inv _ _ _ HR)) as Hwf. assert (at_ino w p np) as Hat by (by exists a).
  destruct (related_call _ _ _ (NFSPROC3_REMOVE (in_dir np name)) HR) as (out & e & Hsv & Hspec & Hok).
  destruct Hspec as [[He (st & Hst & ->)]|(-> & h & F1 & o & Hrem & Ho & Ht & Hun)].
  - apply (simulated_refused b w S _ _ _ st e HR (wire_unlink w p np name Hat (proj1 Hname) (proj2 Hname)) Hsv Hst He); [done|].
    by constructor.
  - cbn [in_dir do_dir do_name] in Hrem. rewrite Hd in Hrem.
    apply (simulated_same b w S _ e _ (srv e) HR (unlink_run w p np name e Hwf Hat Hname Hsv)); [done..| |].
    + transitivity F1; [by eapply removed_evolves|by eapply unlinked_evolves].
    + by apply (step_unlink S p name d h F1 o).
Qed.
Lemma sim_rmdir b w S p name : related (1 + b) w S → known S p → simulated b w S (Req_rmdir p name).
Proof using Type*.
  intros HR Hk. destruct (known_file _ _ _ _ HR Hk) as (a & np & d & Hn & Hi & Hd & Hnum & _).
  pose proof (inv_wf _ _ _ (rl_inv _ _ _ HR)) as Hwf. assert (at_ino w p np) as Hat by (by exists a).
  destruct (related_call _ _ _ (NFSPROC3_RMDIR (in_dir np name)) HR) as (out & e & Hsv & Hspec & Hok).
  destruct Hspec as [[He (st & Hst & ->)]|(-> & h & F1 & o & Hrem & Ho & Ht & Hempty & He)].
  - apply (simulated_refused b w S _ _ _ st e HR (wire_rmdir w p np name Hat) Hsv Hst He); [done|]. by constructor.
  - cbn [in_dir do_dir do_name] in Hrem. rewrite Hd in Hrem.
    apply (simulated_same b w S _ e _ (srv e) HR (rmdir_run w p np name e Hwf Hat Hsv)); [done..| |].
    + rewrite He. transitivity F1; [by eapply removed_evolves|].
      apply (unlinked_evolves F1 h o); [done|by left].
    + rewrite He. by apply (step_rmdir S p name d h F1 o).
Qed.
Lemma sim_rename b w S p name q name' :
  related (1 + b) w S → known S p → known S q → name_ok name → name_ok name' →
  simulated b w S (Req_rename p name q name' 0).
Proof using Type*.
  intros HR Hk Hk' Hname Hname'. destruct (known_file _ _ _ _ HR Hk) as (a & np & d & Hn & Hi & Hd & Hnum & _).
  destruct (known_file _ _ _ _ HR Hk') as (a' & nq & d' & Hn' & Hi' & Hd' & Hnum' & _).
  pose proof (inv_wf _ _ _ (rl_inv _ _ _ HR)) as Hwf. assert (at_ino w p np) as Hat by (by exists a).
  assert (at_ino w q nq) as Hat' by (by exists a').
  destruct (related_call _ _ _ (NFSPROC3_RENAME (in_dir np name) (in_dir nq name')) HR) as (out & e & Hsv & Hspec & Hok).
  destruct Hspec as [[He (st & Hst & ->)]|(-> & Hmv)].
  - apply (simulated_refused b w S _ _ _ st e HR (wire_rename w p np name q nq name' Hat Hat'
      (proj1 Hname) (proj2 Hname) (proj1 Hname') (proj2 Hname')) Hsv Hst He); [done|]. by constructor.
  - cbn [in_dir do_dir do_name] in Hmv. rewrite Hd, Hd' in Hmv.
    apply (simulated_same b w S _ e _ (srv e) HR (rename_run w p np name q nq name' e Hwf Hat Hat' Hname Hname' Hsv));
      [done..|by eapply moved_evolves|].
    by apply (step_rename S p name q name' d d').
Qed.

(** *** forget *)

(** An inode after [d] references were given back. *)
Definition fewer (d : Z) (n : nfs_inode) : nfs_inode :=
  let n1 := counting (wrap 64 (i_private (n_inode n) - d)) n in
  if i_private (n_inode n1) =? 0 then n1 <| n_inode ::= λ i, i <| i_count ::= λ c, c - 1 |> |> else n1.
Lemma fewer_fields d n :
  ino_of (fewer d n) = ino_of n ∧ ident (fewer d n) = ident n ∧
  real_ino (n_inode (fewer d n)) = real_ino (n_inode n) ∧ i_iattr (n_inode (fewer d n)) = i_iattr (n_inode n) ∧
  i_count (n_inode n) - 1 <= i_count (n_inode (fewer d n)).
Proof. unfold fewer. destruct (_ =? 0); cbn; split_and!; (done || lia). Qed.
Lemma forget_run w ino d a n :
  icache_wf w → w_heap w !! a = Some n → ino_of n = ino → 0 <= d <= i_private (n_inode n) →
  i_count (n_inode n) ≠ INT_MIN →
  hsfs_oper (Req_forget ino d) w = Ok (tt, w <| w_heap ::= <[a := fewer d n]> |> <| w_replies ::= cons reply_none |>).
Proof.
  intros Hwf Hn Hi Hd Hc%Z.eqb_neq. set (v := wrap 64 (i_private (n_inode n) - d)). set (n1 := counting v n).
  set (w1 := w <| w_heap ::= <[a := n1]> |>). assert (w_heap w1 !! a = Some n1) as Hn1 by apply lookup_insert_eq.
  assert (icache_wf w1) as Hwf1.
  { apply (cache_ok_upd _ _ _ _ _ _ n); [done..|]. split; try done. intros _. by apply wrap_range. }
  assert (hsx_fuse_ref_dec a d w = Ok (v, w1)) as Hdec.
  { unfold hsx_fuse_ref_dec, upd_inode. mstep (get_inode_run _ _ _ Hn).
    rewrite (proj2 (Z.leb_le d _)) by lia. mstep. mstep (upd_run _ _ _ _ Hn). by mstep (get_inode_run _ _ _ Hn1). }
  pose proof (iput_run hsi_nfs_sop w1 a n1 Hwf1 Hn1) as Hput. change (i_count (n_inode n1)) with (i_count (n_inode n)) in Hput.
  rewrite Hc in Hput. pose proof (known_nonzero w Hwf _ _ Hn) as Hz.
  cbn [hsfs_oper]. unfold hsx_fuse_forget, fewer. fold v n1. change (i_private (n_inode n1)) with v. run.
  destruct (v =? 0); [|done]. mstep Hput. unfold reply, modify. do 2 f_equal. unfold w1. by rewrite heap_upd_upd.
Qed.

Lemma sim_forget b w S i d : related (1 + b) w S → known S i → 0 <= d <= fs_lookups S i → simulated b w S (Req_forget i d).
Proof.
  intros HR Hk Hd. destruct (known_file _ _ _ _ HR Hk) as (a & n & h & Hn & Hi & Hh & _ & Hb & _).
  pose proof (inv_wf _ _ _ (rl_inv _ _ _ HR)) as Hwf. destruct (rl_bounds _ _ _ HR i) as [Hlo Hhi].
  assert (i_private (n_inode n) = fs_lookups S i) as Hp.
  { rewrite (cnt_used _ _ (inv_counts _ _ _ (rl_inv _ _ _ HR)) _ _ Hn), Hi. apply wrap_small. unfold in_range. lia. }
  destruct (rl_nodes _ _ _ HR a n Hn) as [_ Hcnt]. destruct (fewer_fields d n) as (Hino & Hid & Hreal & Hia & Hle).
  pose proof (forget_run w i d a n Hwf Hn Hi) as Hrun.
  set (w' := w <| w_heap ::= <[a := fewer d n]> |> <| w_replies ::= cons reply_none |>) in *.
  specialize (Hrun ltac:(rewrite Hp; lia) ltac:(lia)).
  set (S' := S <| fs_lookups ::= λ P, bump P i (- d) |>).
  exists w', reply_none, S'. split; [done|]. split; [done|]. split; [constructor|].
  apply (advance_upd b w S (Req_forget i d) w' reply_none S' a n (fewer d n) HR Hrun); try done.
  - intros j. cbn. unfold bump. destruct (j =? i); lia.
  - intros j. cbn. unfold bump. destruct (rl_bounds _ _ _ HR j). destruct (Z.eqb_spec j i); [subst j|]; lia.
  - apply HR.
  - unfold ident in Hid. injection Hid as Hfid Hfh. destruct Hb as (Hr & x & Hx & Ho). split; [congruence|].
    exists x. rewrite Hfh. split; [done|]. intros o Hxo. specialize (Ho o Hxo). unfold same_object in *. by rewrite Hfid, Hia.
  - lia.
Qed.

(** *** Requests that make a file *)

(** [w0] is [w] but for attributes of cached inodes and allocated memory. *)
Record same_cache (b : nat) (S : fstate) (w w0 : world) : Prop := {
  sc_numbers : represents w0 (fs_numbers S);
  sc_nodes : nodes_ok b (fs_files S) (w_heap w0);
  sc_dom : dom (w_heap w0) = dom (w_heap w);
  sc_sb : w_sb w0 = w_sb w;
  sc_clients : w_clients w0 = w_clients w;
  sc_files : srv (w_est w0) = fs_files S;
}.
Lemma same_cache_refl b w S : related b w S → same_cache b S w w.
Proof. intros HR. split; [apply HR|exact (rl_nodes _ _ _ HR)|done|done|done|apply HR]. Qed.
Lemma same_cache_malloc b w S size : related b w S →
  same_cache b S w (w <| w_est := (env_malloc size (dom (w_heap w)) (w_est w)).2 |>).
Proof using Hsrv.
  intros HR. split; [|exact (rl_nodes _ _ _ HR)|done|done|done|].
  - split; [apply (inv_wf _ _ _ (rl_inv _ _ _ HR))|apply (rl_numbers _ _ _ HR)].
  - rewrite <-(rl_files _ _ _ HR). apply (ns_malloc _ _ _ Hsrv).
Qed.
Lemma same_cache_owned b w S a n uid gid : related b w S → w_heap w !! a = Some n →
  same_cache b S w (w <| w_heap ::= <[a := owned uid gid n]> |>).
Proof.
  intros HR Hn. set (w0 := w <| w_heap ::= <[a := owned uid gid n]> |>). destruct (rl_nodes _ _ _ HR a n Hn) as [Hb Hc].
  assert (icache_wf w0) as Hwf0.
  { apply (cache_ok_upd _ _ _ _ _ _ n); [apply (inv_wf _ _ _ (rl_inv _ _ _ HR))|done|by split]. }
  split; [| | |done|done|apply HR].
  - by apply (represents_upd w w0 _ a n (owned uid gid n) (rl_numbers _ _ _ HR)).
  - apply nodes_ok_insert; [exact (rl_nodes _ _ _ HR)|exact Hb|exact Hc].
  - cbn. rewrite dom_insert_L. apply subseteq_union_1_L, singleton_subseteq_l, elem_of_dom. eauto.
Qed.

Lemma makes_mono F where_ (good good' : object → Prop) out F' :
  (∀ o, good o → good' o) → makes F where_ good out F' → makes F where_ good' out F'.
Proof. intros Hg [Hr|(h & o & Ha & Ho & Hout)]; [by left|right]. exists h, o. split_and!; auto. Qed.
(** What the server makes for a [mknod]. *)
Lemma mknod_makes F where_ mode rdev type out F' : node_type mode = Some type →
  nfs3_spec F (NFSPROC3_MKNOD where_ (mknod_what mode rdev)) out F' →
  makes F where_ (λ o, as_asked type (sattr3_zero <| sa_mode := Some (mode & 0xfff) |>) "" o ∧
    (is_device type = true → has_device (dev_major rdev) (dev_minor rdev) o)) out F'.
Proof.
  unfold node_type, mknod_what. cbv zeta. destruct (_ =? S_IFCHR); [|destruct (_ =? S_IFBLK); [|
    destruct (_ =? S_IFSOCK); [|destruct (_ =? S_IFIFO); [|done]]]]; intros [= <-]; cbn [nfs3_spec]; apply makes_mono.
  - by intros o [Ho Hd].
  - by intros o [Ho Hd].
  - by intros o Ho.
  - by intros o Ho.
Qed.
(** A [mknod] the server refuses. *)
Lemma mknod_refused w p np name mode rdev err e0 e :
  icache_wf w → at_ino w p np → strlen name < NAME_MAX → malloc_buf NAME_MAX w = Ok (true, w <| w_est := e0 |>) →
  served (w <| w_est := e0 |>) (NFSPROC3_MKNOD (in_dir np name) (mknod_what mode rdev)) (Res_fail err) e → err ≠ 0 →
  hsfs_oper (Req_mknod p name mode rdev) w =
    Ok (tt, w <| w_est := e |> <| w_replies ::= cons (reply_err (hsi_nfs3_stat_to_errno err)) |>).
Proof.
  intros Hwf (a & Hn & Hi) Hlen Hbuf Hsv Herr. pose proof (known_nonzero w Hwf _ _ Hn) as Hz.
  set (w2 := w <| w_est := e0 |>) in *. pose proof (served_run _ _ _ _ Hsv) as Hcall. set (w1 := w2 <| w_est := e |>) in *.
  assert (icache_wf w2) as Hwf2 by exact Hwf. assert (w_heap w2 !! a = Some np) as Hn2 by exact Hn.
  assert (clntp (w_sb w2) ∈ w_clients w1) as Hl by apply Hsv.
  assert ((NAME_MAX <? strlen name) = false) as Hshort by (apply Z.ltb_ge; lia).
  assert (strcpy_fits NAME_MAX name = true) as Hfit by (apply Z.leb_le; lia).
  pose proof (proj2 (Z.eqb_neq _ _) (stat_to_errno_nonzero err Herr)) as He.
  assert (hsi_nfs3_mknod a 0 name mode rdev w = Ok ((hsi_nfs3_stat_to_errno err, 0), w1)) as Hop
    by (unfold hsi_nfs3_mknod; run; mstep; run; reflexivity).
  cbn [hsfs_oper]. unfold hsx_fuse_mknod. run. reflexivity.
Qed.

(** A request that makes a file: the call it becomes, made in [w0]; what the server does for
    it; and the reply when the server refuses. *)
Lemma creates_sent b w S req p name good mk :
  related b w S → creates req p name good mk → allowed S req →
  ∃ d w0 call st, numbered_as S p d ∧ creation w req w0 call st mk ∧ same_cache b S w w0 ∧
    (∀ out F', nfs3_spec (fs_files S) call out F' →
       makes (fs_files S) {| do_dir := d; do_name := name |} good out F') ∧
    (∀ err e, served w0 call (Res_fail err) e → err ≠ 0 →
       hsfs_oper req w =
         Ok (tt, w0 <| w_est := e |> <| w_replies ::= cons (reply_err (hsi_nfs3_stat_to_errno err)) |>)).
Proof using Hsrv.
  intros HR Hc Hal. pose proof (inv_wf _ _ _ (rl_inv _ _ _ HR)) as Hwf.
  assert (known S p) as Hk by (destruct Hc; apply Hal).
  destruct (known_file _ _ _ _ HR Hk) as (a & np & d & Hn & Hi & Hd & Hnum & _). assert (at_ino w p np) as Hat by (by exists a).
  pose proof (same_cache_refl _ _ _ HR) as Hsame. exists d.
  destruct Hc as [p name mode|link p name|p name mode rdev type Htype|p name mode uid gid fi Hex].
  - eexists w, _, _. split; [done|]. split; [by apply creation_mkdir|]. split; [done|]. split.
    + intros out F' Hs. unfold in_dir in Hs. by rewrite Hd in Hs.
    + intros err e Hsv Herr. apply (wire_fails w Hwf _ _ _ _ _ (wire_mkdir w p np name mode Hat)). by apply served_fails.
  - eexists w, _, _. split; [done|]. split; [by apply creation_symlink|]. split; [done|]. split.
    + intros out F' Hs. unfold in_dir in Hs. by rewrite Hd in Hs.
    + intros err e Hsv Herr. apply (wire_fails w Hwf _ _ _ _ _ (wire_symlink w link p np name Hat)). by apply served_fails.
  - destruct Hal as (_ & Hlen & _). set (w0 := w <| w_est := (env_malloc NAME_MAX (dom (w_heap w)) (w_est w)).2 |>).
    pose proof (room_plenty w _ (rl_room _ _ _ HR) NAME_MAX (w_est w)) as Hm. pose proof (malloc_buf_run _ _ Hm) as Hbuf.
    destruct Hm as [x Hx]. eexists w0, _, _. split; [done|].
    split; [apply (creation_mknod w p np name mode rdev x); [done|done|by rewrite <-Hx, <-surjective_pairing]|].
    split; [by apply same_cache_malloc|]. split.
    + intros out F' Hs. unfold in_dir in Hs. rewrite Hd in Hs. by apply mknod_makes.
    + intros err e Hsv Herr. by apply (mknod_refused w p np name mode rdev err (w_est w0)).
  - destruct (create_handler w a np p name mode uid gid fi Hwf Hn Hi Hex) as (Hwf0 & mymode & Hhow & Hmode & Hrun).
    set (how := if flag (fi_flags fi) O_TRUNC then GUARDED else UNCHECKED) in *. set (n1 := owned uid gid np) in *.
    set (w0 := w <| w_heap ::= <[a := n1]> |>) in *. assert (w_heap w0 !! a = Some n1) as Hn0 by apply lookup_insert_eq.
    eexists w0, _, _. split; [done|]. split; [by apply creation_create|]. split; [by apply same_cache_owned|]. split.
    + intros out F' Hs. unfold in_dir in Hs. rewrite Hd in Hs. destruct Hs as [Hm|(_ & _ & o & h & x & Ho & Hname & _)];
        [exact Hm|].
      destruct Hal as (_ & _ & Hno). specialize (Hno d o (conj Hnum Ho)). cbn in Hname. congruence.
    + intros err e Hsv Herr. pose proof (served_run _ _ _ _ Hsv) as Hcall. set (w1 := w0 <| w_est := e |>) in *.
      assert (clntp (w_sb w0) ∈ w_clients w1) as Hl by apply Hsv.
      pose proof (proj2 (Z.eqb_neq _ _) (stat_to_errno_nonzero err Herr)) as He.
      assert (hsi_nfs3_create a 0 name mymode w0 = Ok ((hsi_nfs3_stat_to_errno err, 0), w1)) as Hop.
      { unfold hsi_nfs3_create. rewrite Hhow, Hmode.
        assert ((how =? EXCLUSIVE) = false) as Hne by (unfold how; destruct (flag (fi_flags fi) O_TRUNC); reflexivity). run. reflexivity. }
      rewrite (Hrun _ _ _ Hop), He. reflexivity.
Qed.

Lemma sim_create b w S req p name good mk :
  related (1 + b) w S → creates req p name good mk → allowed S req → simulated b w S req.
Proof using Type*.
  intros HR Hc Hal.
  destruct (creates_sent _ w S req p name good mk HR Hc Hal) as
    (d & w0 & call & st & Hnum & Hcr & [HA0 Hok0 Hdom0 Hsb0 Hcl0 He0] & Hmake & Hfail).
  destruct (server_call w0 call) as (out & e & Hsv & Hspec & Hok);
    [rewrite Hsb0, Hcl0; apply HR|rewrite He0; apply HR|]. rewrite He0 in Hspec.
  assert (size (w_heap w0) = size (w_heap w)) as Hsz0 by (by rewrite <-!size_dom, Hdom0).
  assert (match req with Req_link _ _ _ => False | _ => True end ∧ (∀ i, forgotten req i = 0) ∧ changes req ∧
    ∀ e, grants (mk e) = [fe_ino e]) as (Hreq & Hforget & Hch & Hgr) by (by destruct Hc).
  destruct (Hmake _ _ Hspec) as [[He (err & Herr & ->)]|(h & o & Hadd & Hask & ->)].
  { pose proof (Hfail err e Hsv Herr) as Hrun. set (r := reply_err (hsi_nfs3_stat_to_errno err)) in *.
    set (w' := w0 <| w_est := e |> <| w_replies ::= cons r |>) in *.
    assert (w_replies w' = r :: w_replies w) as Hrep.
    { destruct Hcr; done. }
    exists w', r, S. split; [done|]. split; [done|]. split; [by constructor|].
    apply (advance b w S req w' r S HR Hrun Hrep Hreq); [| | |done|apply HR| |done| | |].
    - intros i. rewrite Hforget. unfold granted, occurrences. cbn. lia.
    - intros i. destruct (rl_bounds _ _ _ HR i). lia.
    - intros Hwf'. split; [done|]. apply HA0.
    - cbn. by rewrite Hsb0.
    - cbn. by rewrite Hdom0.
    - cbn. lia.
    - by apply (nodes_ok_evolves (1 + b) b (fs_files S)); [lia|reflexivity|]. }
  destruct (added_live _ _ _ _ _ _ Hadd) as [Ho Hfresh]. pose proof (fs_attr _ Hok h o Ho) as Hao.
  destruct (creation_entry w req w0 call st mk h (o_attr o) e (inv_wf _ _ _ (rl_inv _ _ _ HR)) Hcr Hsv) as
    (a & n & Hid & Hcase & Hend).
  { pose proof (fs_handle _ Hok h _ Ho). unfold NFS3_FHSIZE, NFS_MAXFHSIZE in *. lia. }
  { apply Hao. }
  { unfold memory. cbn. rewrite Hdom0. apply (room_plenty w _ (rl_room _ _ _ HR)). }
  { pose proof (rl_space _ _ _ HR). lia. }
  assert (i_private (n_inode n) = 0) as Hp0.
  { destruct (w_heap w0 !! a) as [n0|] eqn:Ha; [|by apply Hcase]. exfalso. destruct Hcase as [Hid0 _].
    destruct (Hok0 a n0 Ha) as [(_ & x & Hx & _) _]. injection Hid0 as _ Hh0. congruence. }
  rewrite Hp0 in Hend. cbn [Z.eqb] in Hend. destruct Hend as (w' & Hrun & Hwf' & Hh & Hrep & Hset & Hcl & Hcalm).
  pose proof (rl_short _ _ _ HR) as Hshort. pose proof (added_evolves _ _ _ _ _ _ Hadd) as Hev.
  destruct (entry_inode b (fs_files S) (srv e) w0 w' (fs_numbers S) a n 1 h o) as (A' & HA' & Hget & Hat' & Hnodes & Hdom & Hsz);
    [lia|done|done|done|done|done|done|done|].
  set (en := entry_of w (first_lookup n) st) in *.
  set (S' := {| fs_files := srv e; fs_numbers := A'; fs_lookups := bump (fs_lookups S) (fe_ino en) 1 |}).
  exists w', (mk en), S'. split; [done|]. split; [done|]. split.
  { apply (step_create S req p name good mk d h o (srv e) en S'); [done..|]. split_and!; [|done..].
    by apply has_attrs_shows. }
  apply (advance b w S req w' (mk en) S' HR Hrun Hrep Hreq); [| |done| |done| | |by rewrite <-Hdom0|lia|done].
  - intros i. rewrite granted_one, Hgr, Hforget, occurrences_one. cbn. unfold bump. lia.
  - intros i. destruct (rl_bounds _ _ _ HR i). cbn. unfold bump. destruct (i =? _); lia.
  - apply (Hcalm (λ e', srv e' = srv e)); [|done]. intros sz u e' <-. apply (ns_malloc _ _ _ Hsrv).
  - rewrite Hset. cbn. by rewrite Hsb0.
  - rewrite Hcl. done.
Qed.

(** Every request. *)
Lemma request_simulated b w S req : related (1 + b) w S → allowed S req → simulated b w S req.
Proof using Type*.
  intros HR Hal. destruct req; try done.
  - by apply sim_lookup.
  - apply sim_forget; [done|apply Hal..].
  - by apply sim_getattr.
  - apply sim_setattr; [done|apply Hal..].
  - by apply sim_readlink.
  - destruct Hal as (Hp & Hlen & type & Ht). by eapply sim_create; [|by apply creates_mknod|].
  - by eapply sim_create; [|constructor|].
  - apply sim_unlink; [done|apply Hal..].
  - by apply sim_rmdir.
  - by eapply sim_create; [|constructor|].
  - destruct Hal as (Hp & Hq & Hn & Hn' & ->). by apply sim_rename.
  - by apply sim_open.
  - by apply sim_read.
  - by apply sim_write.
  - by apply sim_release.
  - by apply sim_opendir.
  - eapply sim_create; [done|apply creates_file, Hal|done].
Qed.
End Server.
End Session.

(** A whole conversation. *)
Lemma conversation_simulated {E : Env} `{!EnvOk E} clnt t srv kernel n w S :
  nfs_server clnt t srv → related clnt t srv n w S → obedient kernel n (w_replies w) S →
  ∃ w' S', converse kernel n w = Ok (tt, w') ∧ fs_run kernel n (w_replies w) S (w_replies w') S' ∧
    related clnt t srv 0 w' S'.
Proof.
  intros Hsrv. revert w S. induction n as [|n IH]; intros w S HR Hob.
  { exists w, S. split; [done|]. split; [constructor|done]. }
  destruct Hob as [Hal Hob].
  destruct (request_simulated clnt t srv Hsrv n w S (kernel (w_replies w)) HR Hal) as (w1 & r & S1 & Hrun & Hrep & Hstep & HR1).
  destruct (IH w1 S1 HR1) as (w' & S' & Hrest & Hspec & HR'); [rewrite Hrep; by apply Hob|].
  exists w', S'. split_and!; [|rewrite Hrep in Hspec; by econstructor|done].
  cbn [converse]. mstep. by mstep Hrun.
Qed.

(** * Properties *)

