(* ===== verification/Serving.v ===== *)
(** * From the mount to the sessions

    The start of the program up to the first request ([hsfs_start]), against a file server
    that exports its root: mounting leaves the files alone, and the client it leaves stands
    for the file system with the root as the only file known; so the conversations of
    [Session] start there. *)

From S2P Require Import Prelude CString Bitops Hash HList Types ErrPtr Icache NfsInode Rpc.
From S2P Require Import ParseDev Options Nfs3 Acl Fuse Mount CacheSpec Attrs Lookups Failures Entries Mounted.
From S2P Require Import Io Creations Dirs DirsPlus FileServer Session.

(** ** Mounting does not touch the files *)

(** The procedures mounting calls. *)
Definition asks_about {A} (call : nfs3_call A) : Prop :=
  match call with
  | NFSPROC3_NULL | NFSPROC3_GETATTR _ | NFSPROC3_FSINFO _ | NFSPROC3_PATHCONF _ => True
  | _ => False
  end.

(** What the outside world does for a mount leaves [J] true. *)
Record undisturbed {E : Env} {ME : MountEnv E} (J : est → Prop) : Prop := {
  ud_malloc : ∀ size used e, J e → J (env_malloc size used e).2;
  ud_create : ∀ tcp a s r used e, J e → J (env_clnt_create tcp a s r used e).2;
  ud_auth : ∀ e, J e → J (env_authunix_create e).2;
  ud_call : ∀ A (call : nfs3_call A) c t e, asks_about call → J e → J (env_clnt_call c call t e).2;
  ud_host : ∀ h e, J e → J (env_gethostbyname h e).2;
  ud_mnt : ∀ c d t e, J e → J (env_mnt_call c d t e).2;
  ud_umnt : ∀ c d t e, J e → J (env_umnt_call c d t e).2;
  ud_time : ∀ e, J e → J (env_time e).2;
  ud_createerr : ∀ e, J e → J (env_createerr e).2;
}.

Section Undisturbed.
Context {E : Env} `{!EnvOk E} {ME : MountEnv E} (J : est → Prop) (HJ : undisturbed J).
Let I (w : world) : Prop := J (w_est w).

Lemma still_ext {A} (f : est → A * est) : (∀ e, J e → J (f e).2) → preserves I (ext f).
Proof. intros Hf w Hw. specialize (Hf _ Hw). unfold wlp, ext. by destruct (f (w_est w)). Qed.
Lemma still_modify (f : world → world) : (∀ w, w_est (f w) = w_est w) → preserves I (modify f).
Proof. intros Hf w Hw. unfold I. change (J (w_est (f w))). by rewrite Hf. Qed.
Lemma still_upd_sb f : preserves I (upd_sb f).
Proof. by apply still_modify. Qed.
Lemma still_get_sb : preserves I get_sb.
Proof. by intros w Hw. Qed.
Lemma still_live c : preserves I (Rpc.live c).
Proof. unfold Rpc.live. pres. Qed.
Lemma still_destroy c : preserves I (CLNT_DESTROY c).
Proof. unfold CLNT_DESTROY. pres; [apply still_live|by apply still_modify]. Qed.
Lemma still_malloc_buf size : preserves I (malloc_buf size).
Proof using HJ. unfold malloc_buf. pres. apply still_ext. intros e. apply HJ. Qed.
#[local] Hint Resolve still_upd_sb still_get_sb still_live still_destroy still_malloc_buf : pres.

Lemma still_openclnt a s r : preserves I (hsi_mnt_openclnt a s r).
Proof using HJ.
  unfold hsi_mnt_openclnt. pres; first [apply still_ext; intros e; apply HJ|by apply still_modify].
Qed.
#[local] Hint Resolve still_openclnt : pres.
Lemma still_clnt_call {A} c (call : nfs3_call A) t : asks_about call → preserves I (clnt_call c call t).
Proof using HJ. intros Hc. unfold clnt_call. pres. apply still_ext. intros e. by apply HJ. Qed.
Lemma still_create a s r : preserves I (hsi_nfs3_clnt_create a s r).
Proof using HJ.
  unfold hsi_nfs3_clnt_create, hsi_mnt_closeclnt. pres; first [by apply still_clnt_call|by apply still_modify].
Qed.
#[local] Hint Resolve still_create : pres.
Lemma still_reconnect c : preserves I (hsi_nfs3_clnt_reconnect c).
Proof using HJ. unfold hsi_nfs3_clnt_reconnect, hsi_mnt_closeclnt. pres; by apply still_modify. Qed.
#[local] Hint Resolve still_reconnect : pres.
Lemma still_call {A} c (call : nfs3_call A) : asks_about call → preserves I (hsi_nfs3_clnt_call c call).
Proof using HJ.
  intros Hc. unfold hsi_nfs3_clnt_call. apply preserves_bind; [apply still_get_sb|]. intros s. cbv zeta.
  generalize (Z.quot (timeo s) 10, Z.rem (timeo s) 10 * 100000). intros t. generalize 5%nat. intros n. revert c.
  induction n as [|n IH]; intros c; cbn [clnt_call_retry]; pres; auto using still_clnt_call.
Qed.

(** *** Device name and options *)

Lemma still_parse_devname d : preserves I (nfs_parse_devname d).
Proof using HJ.
  unfold nfs_parse_devname, nfs_parse_square_bracket, nfs_parse_nfs_url, nfs_parse_simple_hostname, dup_parts, strndup,
    strndup_at, strchr, store, char_at, strlen_at. pres.
Qed.
Lemma still_xstrdup l : preserves I (xstrdup l).
Proof using HJ. unfold xstrdup, xmalloc, die. pres. Qed.
#[local] Hint Resolve still_xstrdup : pres.
Lemma still_parse_item i o : preserves I (parse_item i o).
Proof using HJ. unfold parse_item, number_option, text_option. pres. Qed.
#[local] Hint Resolve still_parse_item : pres.
Lemma still_parse_items size items : ∀ o, preserves I (parse_items size items o).
Proof using HJ. induction items; intros o; cbn [parse_items]; pres. Qed.
#[local] Hint Resolve still_parse_items : pres.
Lemma still_gethostbyname h a : preserves I (hsi_gethostbyname h a).
Proof using HJ. unfold hsi_gethostbyname. pres. apply still_ext. intros e. apply HJ. Qed.
#[local] Hint Resolve still_gethostbyname : pres.
Lemma still_parse_options s a o : preserves I (hsi_nfs3_parse_options s a o).
Proof using HJ. unfold hsi_nfs3_parse_options. pres. Qed.

(** *** The mount *)

Lemma still_mount a d r : preserves I (hsi_nfs3_mount a d r).
Proof using HJ.
  unfold hsi_nfs3_mount, clnt_freeres, hsi_mnt_closeclnt. pres. apply still_ext. intros e. apply HJ.
Qed.
#[local] Hint Resolve still_mount : pres.
Lemma still_mount_loop fg t fuel d : ∀ a r, preserves I (mount_loop fuel fg t a d r).
Proof using HJ.
  induction fuel as [|fuel IH]; intros a r; cbn [mount_loop]; pres; apply still_ext; intros e; apply HJ.
Qed.
Lemma still_umnt_fail a d : preserves I (umnt_fail a d).
Proof using HJ.
  unfold umnt_fail, hsi_nfs3_unmount, hsi_mnt_closeclnt. pres. apply still_ext. intros e. apply HJ.
Qed.
Lemma still_fill_super fh : preserves I (hsi_fill_super fh).
Proof using HJ.
  unfold hsi_fill_super, hsfs_init_icache, hsi_nfs3_fsinfo, hsi_nfs3_do_getattr, hsi_nfs3_pathconf, clnt_freeres,
    hsi_nfs3_getfh3.
  pres; first [by apply still_call|apply (quiet_fhget J), HJ].
Qed.
#[local] Hint Resolve still_parse_devname still_parse_options still_mount_loop still_umnt_fail still_fill_super : pres.
Lemma still_do_mount fuel spec udata fg : preserves I (hsfs_do_mount fuel spec udata fg).
Proof using HJ.
  unfold hsfs_do_mount, mount_finish. pres. apply still_ext. intros e. apply HJ.
Qed.
End Undisturbed.

(** ** The client after the start *)

Section Started.
Context {E : Env} `{!EnvOk E} {ME : MountEnv E} (srv : est → fsys).

(** Opening connections, resolving names, mounting and the clock leave the files alone. *)
Record aside : Prop := {
  as_create : ∀ tcp a s r used e, srv (env_clnt_create tcp a s r used e).2 = srv e;
  as_auth : ∀ e, srv (env_authunix_create e).2 = srv e;
  as_host : ∀ h e, srv (env_gethostbyname h e).2 = srv e;
  as_mnt : ∀ c d t e, srv (env_mnt_call c d t e).2 = srv e;
  as_umnt : ∀ c d t e, srv (env_umnt_call c d t e).2 = srv e;
  as_time : ∀ e, srv (env_time e).2 = srv e;
  as_createerr : ∀ e, srv (env_createerr e).2 = srv e;
}.

Lemma asked_same {A : Type} (call : nfs3_call A) c t e :
  nfs_server c t srv → fsys_ok (srv e) → asks_about call → srv (env_clnt_call c call t e).2 = srv e.
Proof.
  intros Hs Hok Hask. destruct (ns_call _ _ _ Hs A call e Hok) as (out & e' & -> & Hspec & _). cbn [snd].
  destruct call; try done; cbn [nfs3_spec] in Hspec. destruct (srv e !! fh) as [[o|]|]; by destruct Hspec.
Qed.
Lemma files_undisturbed F :
  (∀ c t, nfs_server c t srv) → aside → fsys_ok F → undisturbed (λ e, srv e = F).
Proof.
  intros Hs Ha Hok. split; intros *; try (intros <-; apply Ha).
  - intros <-. apply (ns_malloc _ _ _ (Hs 0 (0, 0))).
  - intros Hask <-. by apply asked_same.
Qed.

(** The [init] request. *)
Lemma fuse_init_run caps capable want w n :
  w_heap w !! sb_root (w_sb w) = Some n → i_private (n_inode n) = 0 →
  hsx_fuse_init caps capable want w =
    Ok (hsx_fuse_init_cap caps capable want, w <| w_heap ::= <[sb_root (w_sb w) := counting 1 n]> |>).
Proof.
  intros Hn Hp. set (w' := w <| w_heap ::= <[sb_root (w_sb w) := counting 1 n]> |>).
  assert (hsx_fuse_ref_xchg (sb_root (w_sb w)) 1 w = Ok (0, w')) as Hx.
  { unfold hsx_fuse_ref_xchg, upd_inode. mstep (get_inode_run _ _ _ Hn). mstep (upd_run _ _ _ _ Hn). by rewrite Hp. }
  unfold hsx_fuse_init. mstep. by mstep Hx.
Qed.

(** The file system as mounted: the kernel knows the root, by one lookup. *)
Definition mounted_state (F : fsys) (attr : fattr3) (fh : list Z) : fstate :=
  {| fs_files := F; fs_numbers := {[1 := (f3_fileid attr, fh)]}; fs_lookups := λ i, if i =? 1 then 1 else 0 |}.

Lemma mounted_related b R w attr fh root o n :
  mounted_root fh attr w → w_heap w = {[sb_root (w_sb w) := n]} → ino_of n = 1 → ident n = (f3_fileid attr, fh) →
  fresh_root attr n → fsys_ok (srv (w_est w)) → alive (srv (w_est w)) fh o → same_file attr (o_attr o) →
  root = counting 1 n → Z.of_nat b < 2 ^ 31 → (∀ used, (size used <= 1 + b)%nat → memory_plenty used) →
  let w' := w <| w_heap ::= <[sb_root (w_sb w) := root]> |> in
  Inv (λ i, if i =? 1 then 1 else 0) R w' → w_replies w' = R →
  related (clntp (w_sb w)) (call_timeout (w_sb w)) srv b w' (mounted_state (srv (w_est w)) attr fh).
Proof.
  intros Hm Hh Hino Hid (_ & Hc & n1 & Hn1) Hok Ho Hsame -> Hb Hmem w' HI Hrep.
  assert (w_heap w' = {[sb_root (w_sb w) := counting 1 n]}) as Hh' by (cbn; by rewrite Hh, insert_singleton_eq).
  split; try done.
  - rewrite Hrep. exact HI.
  - split; [apply HI|]. intros i k. rewrite Hh'. cbn [fs_numbers mounted_state]. rewrite lookup_singleton_Some. split.
    + intros [<- <-]. exists (sb_root (w_sb w)), (counting 1 n). by rewrite lookup_singleton_eq.
    + intros (a & m & [<- <-]%lookup_singleton_Some & <- & <-). by split.
  - split_and!; [done..|]. apply (mr_live _ _ _ Hm).
  - destruct (mr_rsize _ _ _ Hm), (mr_wsize _ _ _ Hm). by split.
  - intros used _ Hu. apply Hmem. rewrite Hh', dom_singleton_L, size_singleton in Hu. lia.
  - rewrite Hh', map_size_singleton. unfold cycle. lia.
  - intros a m. rewrite Hh'. intros [_ <-]%lookup_singleton_Some. split; [|cbn; rewrite Hc; unfold INT_MIN; lia].
    split; [by subst n|]. exists (Some o). injection Hid as Hf Hfh. split; [by rewrite <-Hfh in Ho|].
    intros o' [= <-]. subst n. rewrite (same_file_object _ _ _ Hsame). unfold same_object. cbn -[fattr_of].
    by rewrite !Z.eqb_refl.
  - intros i. cbn. destruct (i =? 1); lia.
Qed.

(** The server is mounted and the kernel says hello: the client stands for the file system. *)
Lemma start_related w spec dir text o fg fuel page caps capable want fh attr info name_max root n :
  server_up → (∀ c t, nfs_server c t srv) → aside → fsys_ok (srv (w_est w)) →
  alive (srv (w_est w)) fh root → same_file attr (o_attr root) →
  w_heap w = ∅ → (∀ used, (size used <= 1 + n)%nat → memory_plenty used) → Z.of_nat n < 2 ^ 31 →
  invocation w spec text dir o → mount_answer dir {| fhs_status := 0; fhandle := fh |} →
  exports fh attr info name_max →
  ∃ w' c t, hsfs_start (S fuel) page spec (Some text) fg caps capable want w = Ok (true, w') ∧
    w_replies w' = w_replies w ∧ related c t srv n w' (mounted_state (srv (w_est w)) attr fh).
Proof using Type*.
  intros Hup Hs Has Hok Hroot Hsame Hh Hmem Hn Hinv Hans Hex. set (w0 := w <| w_page_size := wrap 32 page |>).
  assert (invocation w0 spec text dir o) as Hinv0 by (destruct Hinv as [host d addr ss o0]; by eapply invocation_intro).
  destruct (do_mount_up Hup w0 spec dir text o fg fuel fh attr info name_max Hh) as (w1 & Hrun & Hmr & _);
    [apply Hmem; rewrite size_empty; lia|done..|].
  pose proof (still_do_mount _ (files_undisturbed _ Hs Has Hok) (S fuel) spec (Some text) fg w0 eq_refl) as Hf.
  unfold wlp in Hf. rewrite Hrun in Hf. rewrite <-Hf in Hok, Hroot |- *.
  destruct (mr_root _ _ _ Hmr) as (n1 & Hh1 & Hino & Hid & Hfresh).
  assert (w_heap w1 !! sb_root (w_sb w1) = Some n1) as Hn1 by (rewrite Hh1; apply lookup_singleton_eq).
  pose proof (fuse_init_run caps capable want w1 n1 Hn1 (proj1 Hfresh)) as Hinit.
  set (w2 := w1 <| w_heap ::= <[sb_root (w_sb w1) := counting 1 n1]> |>) in *.
  assert (hsfs_start (S fuel) page spec (Some text) fg caps capable want w = Ok (true, w2)) as Hstart.
  { unfold hsfs_start, hsfs_init. change (_ w) with ((err ← hsfs_do_mount (S fuel) spec (Some text) fg;
      if negb (err =? 0) then mret false else _ ← hsx_fuse_init caps capable want; mret true) w0).
    mstep Hrun. cbn [negb Z.eqb]. by mstep Hinit. }
  pose proof (start_counts (w_replies w) (S fuel) page spec (Some text) fg caps capable want w (conj Hh eq_refl)) as HI.
  unfold wlp in HI. rewrite Hstart in HI. specialize (HI eq_refl). pose proof (inv_replies _ _ _ HI) as Hrep.
  exists w2, (clntp (w_sb w1)), (call_timeout (w_sb w1)). split_and!; [done..|].
  by apply (mounted_related n (w_replies w) w1 attr fh (counting 1 n1) root n1).
Qed.
End Started.

(** * Properties *)

