(* ===== verification/Witness.v ===== *)
(** * A sample world

    A concrete outside world (an allocator, a small NFSv3 server with a directory,
    a file and a busy port), the state of a client that has it mounted, and an
    instance of each property on it: the hypotheses of the theorems can hold. *)

From S2P Require Import Prelude Bitops Hash HList Types ErrPtr Icache NfsInode Rpc Nfs3 Acl Fuse.
From S2P Require Import CacheSpec Attrs Lookups Failures Entries Acls Threads Io Dirs Creations DirsPlus.

(** ** The outside world *)

(** A tick per allocation and refused call; the contents of the writable file and
    the two ACLs the server keeps. *)
Record sample_state := {
  tick : Z; contents : list Z; access_acl : list aclent; default_acl : list aclent }.

Definition no_time : nfstime3 := {| seconds := 0; nseconds := 0 |}.
Definition sample_attr (type mode size fileid : Z) : fattr3 := {|
  f3_type := type; f3_mode := mode; f3_nlink := 1; f3_uid := 1000; f3_gid := 100; f3_size := size;
  f3_used := size; f3_rdev_major := 0; f3_rdev_minor := 0; f3_fsid := 9; f3_fileid := fileid;
  f3_atime := no_time; f3_mtime := no_time; f3_ctime := no_time |}.
Definition dir_attr : fattr3 := sample_attr NF3DIR 0x1ed 4096 100.
Definition file_attr : fattr3 := sample_attr NF3REG 0x1a4 5 200.
Definition subdir_attr : fattr3 := sample_attr NF3DIR 0x1ed 4096 400.

Definition sample_entries : list entry3 :=
  [{| e_fileid := 200; e_name := "f"; e_cookie := 1 |};
   {| e_fileid := 300; e_name := "g"; e_cookie := 2 |}].

Definition sample_plus : list entryplus3 :=
  [{| ep_entry := {| e_fileid := 200; e_name := "f"; e_cookie := 1 |};
      ep_name_attributes := Some file_attr; ep_name_handle := Some [2] |};
   {| ep_entry := {| e_fileid := 400; e_name := "d"; e_cookie := 2 |};
      ep_name_attributes := Some subdir_attr; ep_name_handle := Some [4] |}].

(** The server: handle [[1]] is the root, [[2]] the file "f".  It transfers at most
    two bytes a call.  The handle 7 is refused until the third tick. *)
Definition sample_call (R : Type) (clnt : Z) (call : nfs3_call R) (t : Z * Z) (e : sample_state) :
    clnt_stat R * sample_state :=
  if (clnt =? 7) && (tick e <? 3) then (RPC_FAILED EAGAIN, e <| tick ::= Z.add 1 |>) else
  match call in nfs3_call R return clnt_stat R * sample_state with
  | NFSPROC3_NULL => (RPC_SUCCESS tt, e)
  | NFSPROC3_GETATTR fh => (RPC_SUCCESS (Res_ok (if bool_decide (fh = [1]) then dir_attr else file_attr)), e)
  | NFSPROC3_SETATTR fh a => (RPC_SUCCESS (Res_ok (Some file_attr)), e)
  | NFSPROC3_LOOKUP what =>
      (RPC_SUCCESS
        (if bool_decide (do_name what = "f")
         then Res_ok {| lk_object := [2]; lk_obj_attributes := Some file_attr |}
         else if bool_decide (do_name what = "bare")
         then Res_ok {| lk_object := [3]; lk_obj_attributes := None |}
         else Res_fail 2), e)
  | NFSPROC3_READ fh off count =>
      let d := take (Z.to_nat (Z.min count 2)) (drop (Z.to_nat off) (contents e)) in
      (RPC_SUCCESS (Res_ok {| rd_count := Z.of_nat (length d);
         rd_eof := if Z.of_nat (length (contents e)) <=? off + Z.of_nat (length d) then 1 else 0; rd_data := d |}), e)
  | NFSPROC3_WRITE fh off count stable d =>
      let k := Nat.min 2 (length d) in
      (RPC_SUCCESS (Res_ok {| wr_count := Z.of_nat k |}),
       e <| contents ::= λ c, write_at c (Z.to_nat off) (take k d) |>)
  | NFSPROC3_LINK fh l => (RPC_SUCCESS (Res_ok (Some file_attr)), e)
  | NFSPROC3_READDIR fh cookie verf count =>
      (RPC_SUCCESS (Res_ok {| rr_dir_attributes := Some dir_attr; rr_cookieverf := 77;
                              rr_entries := filter (λ en, cookie < e_cookie en) sample_entries |}), e)
  | NFSPROC3_ACCESS _ _ => (RPC_SUCCESS (Res_fail 13), e)
  | NFSPROC3_READLINK _ => (RPC_SUCCESS (Res_fail 22), e)
  | NFSPROC3_CREATE _ _ => (RPC_SUCCESS (Res_fail 30), e)
  | NFSPROC3_MKDIR _ _ =>
      (RPC_SUCCESS (Res_ok {| dr_obj := Some [4]; dr_obj_attributes := Some subdir_attr |}), e)
  | NFSPROC3_SYMLINK _ _ _ => (RPC_SUCCESS (Res_fail 30), e)
  | NFSPROC3_MKNOD _ _ => (RPC_SUCCESS (Res_fail 30), e)
  | NFSPROC3_REMOVE _ => (RPC_SUCCESS (Res_fail 30), e)
  | NFSPROC3_RMDIR _ => (RPC_SUCCESS (Res_fail 30), e)
  | NFSPROC3_RENAME _ _ => (RPC_SUCCESS (Res_fail 30), e)
  | NFSPROC3_READDIRPLUS fh cookie verf count maxcount =>
      (RPC_SUCCESS (Res_ok {| rp_dir_attributes := Some dir_attr; rp_cookieverf := 77;
         rp_entries := filter (λ en, cookie < e_cookie (ep_entry en)) sample_plus |}), e)
  | NFSPROC3_FSSTAT _ => (RPC_SUCCESS (Res_fail 5), e)
  | NFSPROC3_FSINFO _ => (RPC_SUCCESS (Res_fail 5), e)
  | NFSPROC3_PATHCONF _ => (RPC_SUCCESS (Res_fail 5), e)
  | ACLPROC3_GETACL _ _ =>
      (RPC_SUCCESS (Res_ok {| sc_mask := 15; sc_aclcnt := Z.of_nat (length (access_acl e));
         sc_aclent := access_acl e; sc_dfaclcnt := Z.of_nat (length (default_acl e));
         sc_dfaclent := default_acl e |}), e)
  | ACLPROC3_SETACL _ acl =>
      (RPC_SUCCESS (Res_ok tt),
       e <| access_acl ::= λ old, if flag (sc_mask acl) NFS_ACL then sc_aclent acl else old |>
         <| default_acl ::= λ old, if flag (sc_mask acl) NFS_DFACL then sc_dfaclent acl else old |>)
  end.

Definition zero_fattr : nfs_fattr := {|
  fa_valid := 0; fa_mode := 0; fa_nlink := 0; fa_uid := 0; fa_gid := 0; fa_rdev := 0; fa_size := 0;
  fa_du := 0; fa_fsid_major := 0; fa_fsid_minor := 0; fa_fileid := 0;
  fa_atime := zero_time; fa_mtime := zero_time; fa_ctime := zero_time |}.

(** The next slot of an arena. *)
Definition slots (n : nat) : list Z := (λ k : nat, 65536 + 512 * Z.of_nat k) <$> seq 0 n.
Definition sample_malloc (size_ : Z) (used : gset Z) (e : sample_state) : option Z * sample_state :=
  (match list.head (filter (λ a, a ∉ used) (slots (S (size used)))) with
   | Some a => if a <? 2 ^ 46 then Some a else None
   | None => None
   end, e <| tick ::= Z.add 1 |>).
Lemma sample_malloc_fresh sz used e a e' : sample_malloc sz used e = (Some a, e') → a ∉ used ∧ 65536 <= a < 2 ^ 46.
Proof.
  unfold sample_malloc. destruct (filter _ _) as [|b l] eqn:Hl; cbn; [done|].
  assert (b ∈ filter (λ a, a ∉ used) (slots (S (size used)))) as Hb by (rewrite Hl; left).
  apply list_elem_of_filter in Hb as [Hb (k & -> & _)%list_elem_of_fmap].
  destruct (Z.ltb_spec (65536 + 512 * Z.of_nat k) (2 ^ 46)) as [Hlt|]; [|done]. intros [= <- _].
  split; [done|]. split; [lia|done].
Qed.
(** One of more slots than are in use is free. *)
Lemma sample_malloc_some sz used e : (size used <= 1000)%nat → is_Some (sample_malloc sz used e).1.
Proof.
  intros Hu. unfold sample_malloc. cbn [fst].
  destruct (filter (λ a, a ∉ used) (slots (S (size used)))) as [|b l] eqn:Hl; cbn [list.head].
  - exfalso. assert (list_to_set (slots (S (size used))) ⊆ used) as Hsub.
    { intros x Hx. destruct (decide (x ∈ used)) as [|Hn]; [done|].
      assert (x ∈ filter (λ a, a ∉ used) (slots (S (size used)))) as Hf by (apply list_elem_of_filter; by rewrite elem_of_list_to_set in Hx).
      rewrite Hl in Hf. by apply elem_of_nil in Hf. }
    apply subseteq_size in Hsub. rewrite size_list_to_set in Hsub.
    + unfold slots in Hsub. rewrite length_fmap, length_seq in Hsub. lia.
    + apply NoDup_fmap_2; [intros x y ?; lia|apply list.NoDup_seq].
  - assert (b ∈ filter (λ a, a ∉ used) (slots (S (size used)))) as Hb by (rewrite Hl; left).
    apply list_elem_of_filter in Hb as [_ (k & -> & Hk)%list_elem_of_fmap]. apply elem_of_seq in Hk.
    rewrite (proj2 (Z.ltb_lt _ _)); [by eexists|]. change (2 ^ 46) with 0x400000000000. lia.
Qed.
Definition sample_create (tcp : bool) (addr : clnt_addr_t) (s r : Z) (used : gset Z)
    (e : sample_state) : option Z * sample_state :=
  let c := 50 + tick e in
  (if bool_decide (c ∉ used ∧ c ≠ 0) then Some c else None, e <| tick ::= Z.add 1 |>).

Definition sample_env : Env := {|
  est := sample_state; sb_addr := 0x8000; bad_hsfs_inode := 0x600000000000;
  env_malloc := sample_malloc; env_clnt_create := sample_create;
  env_authunix_create := λ e, (true, e); env_clnt_call := sample_call;
  stack_fattr := zero_fattr; stack_fh := {| fh_size := 0; fh_data := replicate 128 0 |};
  stack_stat := zero_stat; stack_iattr := zero_iattr; heap_junk := zero_nfs_inode; heap_byte := 0;
  direntry_size := λ name, 24 + strlen name; direntry_plus_size := λ name, 152 + strlen name |}.
#[local] Existing Instance sample_env.

#[local] Instance sample_ok : EnvOk sample_env.
Proof.
  split.
  - vm_compute. split; congruence.
  - intros sz used e a e' [Hf Ha]%sample_malloc_fresh. split; [done|].
    change (2 ^ 46) with 0x400000000000 in Ha. cbn. lia.
  - intros t addr s r used e a e'. cbn. unfold sample_create.
    case_bool_decide as Hf; [|done]. by intros [= <- _].
  - done.
Qed.

(** ** The client's state *)

Definition sample_addr : clnt_addr_t := {|
  ca_saddr := {| sin_addr := 0x7f000001; sin_port := 0 |};
  ca_pmap := {| pm_prog := NFS_PROGRAM; pm_vers := 3; pm_prot := IPPROTO_TCP; pm_port := 2049 |} |}.
Definition sample_super : hsfs_super := {|
  fh_table := replicate (2 ^ 10) []; id_table := replicate (2 ^ 10) []; curr_id := 0; clntp := 5;
  acl_clntp := 0; sb_flags := 0; rsize := 2; wsize := 3; timeo := 600; retrans := 2; acregmin := 3;
  acregmax := 60; acdirmin := 30; acdirmax := 60; sb_saddr := ca_saddr sample_addr; namlen := 255;
  dtsize := 4096; bsize := 4096; bsize_bits := 12; sb_root := 65536; rtmax := 0; rtpref := 0;
  rtmult := 0; wtmax := 0; wtpref := 0; wtmult := 0; dtpref := 0; maxfilesize := 0;
  time_delta := no_time; properties := 0; tbytes := 10000; fbytes := 4096; abytes := 0; tfiles := 7;
  ffiles := 3; afiles := 3 |}.
(** Before anything is cached. *)
Definition world0 : world := {|
  w_heap := ∅; w_sb := sample_super; w_clients := {[5; 7]}; nfs_server_bak := sample_addr;
  acl_server_bak := sample_addr; ssize_bak := 0; rsize_bak := 0; w_page_size := 4096;
  w_replies := []; w_est := {| tick := 0; contents := [1; 2; 3]; access_acl := []; default_acl := [] |} |}.

Definition root_fh : nfs_fh := {| fh_size := 1; fh_data := 1 :: replicate 127 0 |}.
Definition file_fh : nfs_fh := {| fh_size := 1; fh_data := 2 :: replicate 127 0 |}.

(** Where a run ends. *)
Definition final {A} (r : res (A * world)) : world :=
  match r with Ok (_, w) => w | _ => world0 end.
Definition returns {A} (r : res (A * world)) : bool := match r with Ok _ => true | _ => false end.
Definition result (r : res (Z * world)) : Z := match r with Ok (a, _) => a | _ => 0 end.
Lemma returns_result r : returns r = true → r = Ok (result r, final r).
Proof. by destruct r as [[a w]| | |]. Qed.
Lemma returns_unit (r : res (unit * world)) : returns r = true → r = Ok (tt, final r).
Proof. by destruct r as [[[] w]| | |]. Qed.
Definition present {A} (o : option A) : bool := match o with Some _ => true | None => false end.
Lemma present_default {A} (d : A) o : present o = true → o = Some (default d o).
Proof. by destruct o. Qed.
(** Evaluates a closed test. *)
Ltac evaluate := vm_compute; reflexivity.

(** The root is cached, with number 1; then the file "f" has been looked up. *)
Definition world1 : world := final (hsi_nfs_fhget hsi_nfs_sop root_fh (fattr_of dir_attr) world0).
Definition world2 : world := final (hsfs_oper (Req_lookup 1 "f") world1).
Definition root_inode : nfs_inode := default zero_nfs_inode (w_heap world2 !! 65536).
Definition file_inode : nfs_inode := default zero_nfs_inode (w_heap world2 !! 66048).

Lemma empty_wf : icache_wf world0.
Proof.
  assert (∀ key : nfs_inode → Z, table_ok key ∅ (replicate (2 ^ 10) [])) as Ht.
  { intros key. split; [apply length_replicate| |by intros a n ?%lookup_empty_Some].
    intros b l a [-> _]%lookup_replicate Ha. by apply elem_of_nil in Ha. }
  split; [apply Ht|apply Ht|apply map_Forall_empty| | |cbn; lia|cbn; lia];
    intros a1 a2 n1 n2 H1; cbn in H1; by apply lookup_empty_Some in H1.
Qed.
Lemma root_fh_ok : fh_ok root_fh.
Proof. split; [cbn; unfold NFS_MAXFHSIZE; lia|done]. Qed.
Lemma file_fh_ok : fh_ok file_fh.
Proof. split; [cbn; unfold NFS_MAXFHSIZE; lia|done]. Qed.

Lemma oper_wf w req w' : icache_wf w → hsfs_oper req w = Ok (tt, w') → icache_wf w'.
Proof.
  intros Hwf Hrun. destruct (icache_wf_Inv w Hwf) as (P & HI & _).
  pose proof (hsfs_oper_answers req P (w_replies w) w HI) as Ha. unfold wlp in Ha.
  rewrite Hrun in Ha. destruct Ha as (rs & _ & HI'). apply HI'.
Qed.

Lemma world1_wf : icache_wf world1.
Proof.
  destruct (fhget_run hsi_nfs_sop world0 root_fh (fattr_of dir_attr) empty_wf root_fh_ok)
    as [(r & w' & Hrun & Hwf & _)|[Hrun _]].
  - unfold world1. rewrite Hrun. exact Hwf.
  - exfalso. assert (returns (hsi_nfs_fhget hsi_nfs_sop root_fh (fattr_of dir_attr) world0) = true)
      as Hok by evaluate. by rewrite Hrun in Hok.
Qed.
Lemma world2_run : hsfs_oper (Req_lookup 1 "f") world1 = Ok (tt, world2).
Proof. apply returns_unit. evaluate. Qed.
Lemma world2_wf : icache_wf world2.
Proof. exact (oper_wf _ _ _ world1_wf world2_run). Qed.
Lemma root_at : w_heap world2 !! 65536 = Some root_inode.
Proof. apply present_default. evaluate. Qed.
Lemma root_ino : ino_of root_inode = 1.
Proof. evaluate. Qed.
Lemma file_cached : w_heap world2 !! 66048 = Some file_inode.
Proof. apply present_default. evaluate. Qed.
Lemma file_ino : ino_of file_inode = 2.
Proof. evaluate. Qed.

Lemma root_at_ino : at_ino world2 1 root_inode.
Proof. exists 65536. split; [apply root_at|apply root_ino]. Qed.

(** A lookup the server refuses, and one more of the file. *)
Definition world3 : world := final (hsfs_oper (Req_lookup 1 "none") world2).
Definition world4 : world := final (hsfs_oper (Req_lookup 1 "f") world3).
Definition world5 : world := final (hsfs_oper (Req_forget 2 1) world4).
Lemma world3_run : hsfs_oper (Req_lookup 1 "none") world2 = Ok (tt, world3).
Proof. apply returns_unit. evaluate. Qed.
Lemma world4_run : hsfs_oper (Req_lookup 1 "f") world3 = Ok (tt, world4).
Proof. apply returns_unit. evaluate. Qed.
Lemma world5_run : hsfs_oper (Req_forget 2 1) world4 = Ok (tt, world5).
Proof. apply returns_unit. evaluate. Qed.

#[local] Opaque world0 world1 world2 world3 world4 world5 root_inode file_inode.

(** The replies of a request. *)
Definition new_replies (w w' : world) : list fuse_reply :=
  take (length (w_replies w') - length (w_replies w)) (w_replies w').
Definition sample_trace : list (request * list fuse_reply) :=
  [(Req_lookup 1 "none", new_replies world2 world3); (Req_lookup 1 "f", new_replies world3 world4);
   (Req_forget 2 1, new_replies world4 world5)].
Lemma sample_session : session sample_trace world2 world5.
Proof.
  eapply session_cons; [apply world3_run|evaluate|].
  eapply session_cons; [apply world4_run|evaluate|].
  eapply session_cons; [apply world5_run|evaluate|]. apply session_nil.
Qed.

(** ** Instances of the properties *)

Lemma requests_keep_the_cache_witness : icache_wf world2 ∧ icache_wf world5.
Proof.
  split; [exact world2_wf|].
  exact (requests_keep_the_cache world2 sample_trace world5 world2_wf sample_session).
Defined.


(** Decides a closed proposition. *)
Ltac decided := refine (bool_decide_eq_true_1 _ _); evaluate.

Lemma lookup_counts_follow_the_kernel_witness :
  ∃ P R', Inv P (w_replies world2) world2 ∧
    Inv (λ i, P i + total (λ _, granted) sample_trace i - total (λ req _, forgotten req) sample_trace i)
      R' world5.
Proof.
  destruct (icache_wf_Inv world2 world2_wf) as (P & HI & _).
  destruct (lookup_counts_follow_the_kernel world2 sample_trace world5 P _ HI sample_session) as [R' HI'].
  - intros req rs Hin. unfold sample_trace in Hin.
    repeat (apply elem_of_cons in Hin as [Heq|Hin];
      [apply (f_equal fst) in Heq; cbn [fst] in Heq; subst req; exact I|]). by apply elem_of_nil in Hin.
  - exists P, R'. split; [exact HI|exact HI'].
Defined.

Definition none_call : nfs3_call (nfs3res lookup3resok) := NFSPROC3_LOOKUP (in_dir root_inode "none").
Definition world3' : world := final (hsi_nfs3_clnt_call 5 none_call world2).
Lemma none_fails : fails world2 none_call ENOENT world3'.
Proof.
  split_and!; [decided..|]. right. exists 2. split_and!; [done|done|].
  assert (clntp (w_sb world2) ∈ w_clients world2) as Hl by decided.
  assert (env_clnt_call (clntp (w_sb world2)) none_call (call_timeout (w_sb world2)) (w_est world2) =
    (RPC_SUCCESS (Res_fail 2), w_est world2)) as Hc by done.
  rewrite (nfs3_call_success _ _ _ _ _ Hl Hc). unfold world3'.
  change 5 with (clntp (w_sb world2)). by rewrite (nfs3_call_success _ _ _ _ _ Hl Hc).
Qed.

(** The server answers. *)
Lemma sample_served {A} w (call : nfs3_call A) out e :
  bool_decide (clntp (w_sb w) ∈ w_clients w) = true →
  sample_call A (clntp (w_sb w)) call (call_timeout (w_sb w)) (w_est w) = (RPC_SUCCESS out, e) →
  served w call out e.
Proof. intros H1%bool_decide_eq_true_1 H2. by split. Qed.

Lemma lookup_replies_entry_witness :
  ∃ w' a n, hsx_fuse_lookup 1 "f" world2 = Ok (tt, w') ∧
    w_heap w' = <[a := add_lookup n]> (w_heap world2) ∧ ident n = (200, [2]) ∧
    w_replies w' = reply_entry (entry_of world2 (add_lookup n) stack_stat) :: w_replies world2.
Proof.
  destruct (lookup_replies_entry world2 1 root_inode "f" [2] file_attr (w_est world2) world2_wf root_at_ino)
    as (w' & a & n & Hrun & _ & Hh & Hid & Hr & _).
  - apply sample_served; [evaluate|done].
  - vm_compute. discriminate.
  - vm_compute. discriminate.
  - eexists. evaluate.
  - vm_compute. discriminate.
  - exists w', a, n. split; [exact Hrun|]. split; [exact Hh|]. split; [exact Hid|exact Hr].
Defined.

Lemma creation_replies_entry_witness :
  ∃ w' a n, hsfs_oper (Req_mkdir 1 "d" 0x1ed) world2 = Ok (tt, w') ∧ ident n = (400, [4]) ∧
    w_heap w' = <[a := first_lookup n]> (w_heap world2) ∧
    w_replies w' = reply_entry (entry_of world2 (first_lookup n) zero_stat) :: w_replies world2.
Proof.
  destruct (creation_replies_entry world2 (Req_mkdir 1 "d" 0x1ed) world2 _ zero_stat reply_entry [4] subdir_attr
    (w_est world2) world2_wf (creation_mkdir world2 1 root_inode "d" 0x1ed root_at_ino)) as (a & n & Hid & Hcase & Hfin).
  - apply sample_served; [evaluate|reflexivity].
  - vm_compute. discriminate.
  - vm_compute. discriminate.
  - eexists. evaluate.
  - vm_compute. discriminate.
  - assert (map_Forall (λ _ m, ident m ≠ (400, [4])) (w_heap world2)) as Hnew by decided.
    destruct (w_heap world2 !! a) as [n0|] eqn:Ha; [by destruct (Hnew _ _ Ha (proj1 Hcase))|].
    destruct Hcase as [_ Hp]. rewrite Hp in Hfin. destruct Hfin as (w' & Hrun & _ & Hh & Hr).
    exists w', a, n. split; [exact Hrun|]. split; [exact Hid|]. split; [exact Hh|exact Hr].
Defined.

Lemma sample_serves t : serves_file 5 t (fh_bytes (n_fh file_inode)) (λ _, True) contents.
Proof.
  split; [|done].
  intros off count e _ Hoff Hcount. cbn [sample_env env_clnt_call]. unfold sample_call. cbn [Z.eqb Pos.eqb andb].
  set (c := contents e). set (d := take (Z.to_nat (Z.min count 2)) (drop (Z.to_nat off) c)).
  assert (length d = Nat.min (Z.to_nat (Z.min count 2)) (length c - Z.to_nat off)) as Hd
    by (unfold d; by rewrite length_take, length_drop).
  eexists d, _, e. split; [reflexivity|]. split_and!.
  - rewrite Hd. unfold d. rewrite <-(take_take (drop _ _)). f_equal.
    by rewrite (firstn_all2 (n := (length c - _)%nat)) by (by rewrite length_drop).
  - lia.
  - destruct (Z.leb_spec (Z.of_nat (length c)) (off + Z.of_nat (length d))); [done|]. intros _ Hnil. rewrite Hnil in Hd.
    cbn [length] in Hd. lia.
  - by destruct (Z.leb_spec (Z.of_nat (length c)) (off + Z.of_nat (length d))).
  - done.
  - done.
Qed.
Lemma read_returns_file_witness :
  ∃ w', hsfs_oper (Req_read 2 10 1) world2 = Ok (tt, w') ∧ w_heap w' = w_heap world2 ∧
    contents (w_est w') = contents (w_est world2) ∧ w_replies w' = reply_buf [2; 3] :: w_replies world2.
Proof.
  apply (read_returns_file world2 2 66048 file_inode 10 1 (λ _, True) contents world2_wf file_cached file_ino);
    [eexists; evaluate|decided|evaluate|apply sample_serves|done|lia..].
Defined.

Lemma sample_stores t stable :
  stores_file 5 t (fh_bytes (n_fh file_inode)) stable (λ _, True) contents.
Proof.
  split; [|done]. intros off d e _ Hoff Hd _. exists (Nat.min 2 (length d)). eexists. split; [reflexivity|].
  split; [|by split]. destruct d as [|x d]; [done|]. cbn [length]. split; [|apply Nat.le_min_r].
  destruct (length d); cbn; lia.
Qed.
Lemma write_stores_buffer_witness :
  ∃ w', hsfs_oper (Req_write 2 [7; 8; 9; 6; 5] 2 {| fi_flags := 0; fi_fh := 0; fi_direct_io := true |})
      world2 = Ok (tt, w') ∧ w_heap w' = w_heap world2 ∧
    contents (w_est w') = [1; 2; 7; 8; 9; 6; 5] ∧
    w_replies w' = reply_write 5 :: w_replies world2.
Proof.
  apply (write_stores_buffer world2 2 66048 file_inode [7; 8; 9; 6; 5] 2
    {| fi_flags := 0; fi_fh := 0; fi_direct_io := true |} (λ _, True) contents world2_wf file_cached file_ino);
    [eexists; evaluate|decided|evaluate|apply sample_stores|done|done|evaluate|lia|evaluate].
Defined.

Lemma sample_plenty : memory_plenty (dom (w_heap world2)).
Proof. intros sz e. apply sample_malloc_some. apply Nat.leb_le. evaluate. Qed.
Lemma written_data_is_read_witness :
  ∃ w1 w2, hsfs_oper (Req_write 2 [7; 8; 9; 6; 5] 2 {| fi_flags := 0; fi_fh := 0; fi_direct_io := true |})
      world2 = Ok (tt, w1) ∧ hsfs_oper (Req_read 2 5 2) w1 = Ok (tt, w2) ∧
    w_replies w2 = reply_buf [7; 8; 9; 6; 5] :: reply_write 5 :: w_replies world2.
Proof.
  apply (written_data_is_read world2 2 66048 file_inode [7; 8; 9; 6; 5] 2
    {| fi_flags := 0; fi_fh := 0; fi_direct_io := true |} (λ _, True) contents world2_wf file_cached file_ino sample_plenty);
    [decided|evaluate|evaluate|apply sample_stores|apply sample_serves|done|done|evaluate|lia|evaluate].
Defined.

(** The file as long as the cache says. *)
Definition world2_full : world := world2 <| w_est ::= λ e, e <| contents := [1; 2; 3; 4; 5] |> |>.
Lemma world2_full_cache : icache_wf world2_full ∧ w_heap world2_full = w_heap world2.
Proof. unfold world2_full. generalize world2_wf. generalize world2. intros w Hw. by split. Qed.
Lemma truncation_after_write_lost_witness :
  ∃ w1 w2 st t, hsfs_oper (Req_write 2 [7; 8; 9] 4 {| fi_flags := 0; fi_fh := 0; fi_direct_io := true |})
      world2_full = Ok (tt, w1) ∧
    hsfs_oper (Req_setattr 2 (zero_stat <| st_size := 5 |>) FUSE_SET_ATTR_SIZE) w1 = Ok (tt, w2) ∧
    w_replies w2 = reply_attr st t :: reply_write 3 :: w_replies world2_full ∧ st_size st = 5 ∧
    Z.of_nat (length (contents (w_est w2))) = 7.
Proof.
  apply (truncation_after_write_lost world2_full 2 66048 file_inode [7; 8; 9] 4
    {| fi_flags := 0; fi_fh := 0; fi_direct_io := true |} (λ _, True) contents (zero_stat <| st_size := 5 |>)
    (proj1 world2_full_cache) (eq_trans (f_equal (.!! 66048) (proj2 world2_full_cache)) file_cached) file_ino);
    [rewrite (proj2 world2_full_cache); exact sample_plenty|decided|evaluate|apply sample_stores|done|done|evaluate|lia|evaluate|evaluate|evaluate|evaluate].
Defined.

Lemma ilookup_refines_witness :
  ∃ A r, represents world2 A ∧ hsfs_ilookup 2 world2 = Ok (r, world2) ∧
    match A !! 2 with
    | None => r = 0
    | Some k => ∃ n, w_heap world2 !! r = Some n ∧ ino_of n = 2 ∧ ident n = k
    end.
Proof.
  destruct (represents_exists world2 world2_wf) as [A HA].
  destruct (ilookup_refines world2 A 2 HA) as (r & Hr & Hres).
  exists A, r. split; [exact HA|]. split; [exact Hr|exact Hres].
Defined.

Lemma fhget_refines_witness :
  ∃ A r w', represents world2 A ∧
    hsi_nfs_fhget hsi_nfs_sop root_fh (fattr_of dir_attr) world2 = Ok (r, w') ∧
    ((∃ n A', w_heap w' !! r = Some n ∧ represents w' A' ∧ spec_get A (100, [1]) (ino_of n) A' ∧
        ident n = (100, [1])) ∨ (r = bad_hsfs_inode + ENOMEM ∧ represents w' A)).
Proof.
  destruct (represents_exists world2 world2_wf) as [A HA].
  destruct (fhget_refines world2 A root_fh (fattr_of dir_attr) HA root_fh_ok) as (r & w' & Hrun & Hres);
    [evaluate|vm_compute; discriminate|].
  exists A, r, w'. split; [exact HA|]. split; [exact Hrun|exact Hres].
Defined.

Lemma inode_numbers_never_run_out_witness :
  ∃ c, pick_id (S (size (w_heap world2))) world2 = Ok (tt, world2 <| w_sb ::= λ s, s <| curr_id := c |> |>) ∧
    0 < c < 2 ^ 64 ∧ ∀ a n, w_heap world2 !! a = Some n → ino_of n ≠ c.
Proof. apply (inode_numbers_never_run_out world2 world2_wf). vm_compute. discriminate. Defined.

Definition world7 : world := final (hsfs_iput hsi_nfs_sop 66048 world2).
Lemma iput_never_frees_witness :
  dom (w_heap world7) = dom (w_heap world2) ∧ w_sb world7 = w_sb world2 ∧
  i_count (n_inode file_inode) <= 0 ∧ (ino_of <$> w_heap world7 !! 66048) = Some (ino_of file_inode).
Proof.
  apply (iput_never_frees world2 66048 file_inode world7 world2_wf file_cached).
  apply returns_unit. evaluate.
Defined.


Definition to_set_all : Z := 2 ^ 9 - 1.
Definition sample_stat : stat := zero_stat <| st_mode := 0x1a4 |> <| st_size := 9 |>.
Lemma setattr_replies_attributes_witness :
  ∃ w', hsx_fuse_setattr 2 sample_stat to_set_all world2 = Ok (tt, w') ∧
    w_heap w' = <[66048 := with_fattr (fattr_of file_attr) file_inode]> (w_heap world2).
Proof.
  destruct (setattr_replies_attributes world2 2 66048 file_inode sample_stat to_set_all (Some file_attr)
    (w_est world2) world2_wf file_cached file_ino) as (w' & Hrun & _ & Hh & _).
  - vm_compute. discriminate.
  - apply sample_served; [evaluate|reflexivity].
  - exists w'. split; [exact Hrun|].
    assert (same_object file_inode (fattr_of file_attr) = true) as Hs by evaluate.
    rewrite Hs in Hh. exact Hh.
Defined.

(** Truncation to the present size. *)

Lemma readdir_replies_entries_witness :
  ∃ w' k, hsx_fuse_readdir 1 50 0 world2 = Ok (tt, w') ∧ (k <= 2)%nat ∧
    w_replies w' = reply_dirbuf (dirent_of <$> (ctx_of <$> take k sample_entries))
      (dir_bytes (ctx_of <$> take k sample_entries)) :: w_replies world2 ∧
    dir_bytes (ctx_of <$> take k sample_entries) < 50.
Proof.
  destruct (readdir_replies_entries world2 1 65536 root_inode 50 0 (Some dir_attr) 77 sample_entries
    (w_est world2) world2_wf root_at root_ino sample_plenty) as (w' & k & Hrun & Hk & Hr & Hlt & _).
  - lia.
  - evaluate.
  - apply sample_served; [evaluate|reflexivity].
  - exists w', k. split; [exact Hrun|]. split; [exact Hk|]. split; [exact Hr|exact Hlt].
Defined.

Lemma sample_lists t : serves_dir 5 t root_inode sample_entries 77 50.
Proof.
  intros i verf e Hi _. exists 2%nat, (Some dir_attr), e. split_and!; [|lia|evaluate].
  do 3 (destruct i as [|i]; [reflexivity|]). cbn in Hi. lia.
Qed.
Lemma directory_is_listed_witness :
  ∃ w', list_directory 3 1 50 0 world2 = Ok ([Dirent "f" 200 1; Dirent "g" 300 2], w') ∧ icache_wf w'.
Proof.
  apply (directory_is_listed world2 1 65536 root_inode 50 77 sample_entries 3 world2_wf root_at root_ino sample_plenty).
  - decided.
  - lia.
  - apply sample_lists.
  - unfold sample_entries. rewrite !list.Forall_cons. repeat split; first [apply Forall_nil|vm_compute; congruence].
  - cbn. lia.
Defined.

Lemma sample_room : room world2 2.
Proof.
  intros used _ Hs sz e. apply sample_malloc_some.
  assert (size (dom (w_heap world2)) = 2%nat) as H2 by evaluate. rewrite H2 in Hs. lia.
Qed.

Lemma file_count (P : Z → Z) R : Inv P R world2 → (∀ i, in_range 64 (P i)) → P 2 = 1.
Proof.
  intros HI Hr. pose proof (cnt_used _ _ (inv_counts _ _ _ HI) _ _ file_cached) as Hc.
  rewrite file_ino, wrap_small in Hc by apply Hr. rewrite <-Hc. evaluate.
Qed.
Lemma forget_within_count_returns_witness :
  ∃ P w', hsx_fuse_forget 2 1 world2 = Ok (tt, w') ∧
    Inv (bump P 2 (- 1)) (reply_none :: w_replies world2) w'.
Proof.
  destruct (icache_wf_Inv world2 world2_wf) as (P & HI & Hr). exists P.
  pose proof (file_count P _ HI Hr) as HP.
  apply (forget_within_count_returns world2 P _ 2 1 66048 file_inode HI file_cached file_ino);
    [lia|apply Hr|vm_compute; discriminate].
Defined.

Definition world8 : world := final (hsx_fuse_link 2 1 "l" world2).
Definition link_entry : fuse_entry_param :=
  match w_replies world8 with reply_entry e :: _ => e | _ => entry_of world0 zero_nfs_inode zero_stat end.
Lemma link_entry_breaks_forget_witness :
  fe_ino link_entry = 2 ∧ hsx_fuse_forget 2 2 world8 = Abort.
Proof.
  split; [evaluate|]. destruct (icache_wf_Inv world2 world2_wf) as (P & HI & Hr).
  pose proof (file_count P _ HI Hr) as HP.
  assert (hsx_fuse_link 2 1 "l" world2 = Ok (tt, world8)) as Hrun by (apply returns_unit; evaluate).
  assert (w_replies world8 = reply_entry link_entry :: w_replies world2) as Hrep by evaluate.
  pose proof (link_entry_breaks_forget world2 P _ 2 1 "l" world8 link_entry HI (Hr 2) Hrun Hrep) as Ha.
  rewrite HP, granted_one in Ha. cbn [grants] in Ha. rewrite occurrences_one, Z.eqb_refl in Ha. exact Ha.
Defined.

Lemma lookup_without_attributes_undefined_witness : hsx_fuse_lookup 1 "bare" world2 = UB.
Proof.
  apply (lookup_without_attributes_undefined world2 1 root_inode "bare" [3] (w_est world2) world2_wf
    root_at_ino); [apply sample_served; [evaluate|reflexivity]|vm_compute; discriminate|evaluate].
Defined.

(** The busy port: three refusals, then an answer. *)
Definition busy_world : world := world0 <| w_sb ::= λ s, s <| clntp := 7 |> |>.
Definition ticked (k : Z) : sample_state := {| tick := k; contents := [1; 2; 3]; access_acl := []; default_acl := [] |}.
Lemma retry_bounded_witness :
  hsi_nfs3_clnt_call 7 NFSPROC3_NULL busy_world = Ok (inl tt, busy_world <| w_est := ticked 3 |>).
Proof.
  destruct (retry_bounded busy_world 7 NFSPROC3_NULL 3 (ticked 3)) as [Hok _].
  - decided.
  - exists (ticked 1). split; [evaluate|]. exists (ticked 2). split; [evaluate|].
    exists (ticked 3). split; [evaluate|reflexivity].
  - apply (Hok tt (ticked 3)); [lia|evaluate].
Defined.


Lemma err_ptr_not_recognised_witness :
  ∃ p, ERR_PTR (- ENOENT) world0 = Ok (p, world0) ∧ PTR_ERR p = ENOENT ∧ IS_ERR p = false.
Proof. apply (err_ptr_not_recognised ENOENT world0). vm_compute. done. Defined.

(** *** Conversions *)

Lemma stat_mode_agrees_with_cache_witness :
  st_mode (hsi_nfs3_fattr2stat file_attr zero_stat).2 = fa_mode (hsi_nfs3_fattr2fattr file_attr zero_fattr).
Proof.
  destruct (stat_mode_agrees_with_cache file_attr zero_fattr zero_stat) as [Hok _].
  - split; vm_compute; done.
  - destruct Hok as (_ & Hm & _); [vm_compute; split; discriminate|exact Hm].
Defined.
Lemma block_size_bounds_witness :
  ∃ k, 10 <= k <= 20 ∧ hsfs_block_size 70000 true = (2 ^ k, Some k) ∧ 2 ^ k <= 70000 < 2 * 2 ^ k.
Proof.
  destruct (block_size_bounds 70000 true) as (k & Hk & He & _ & _ & Hb).
  exists k. split; [exact Hk|]. split; [exact He|]. apply Hb. vm_compute. split; [discriminate|reflexivity].
Defined.
Lemma statvfs_blocks_round_up_witness :
  ∃ v, hsi_super2statvfs sample_super = Some v ∧ (f_blocks v - 1) * 4096 < 10000 <= f_blocks v * 4096.
Proof.
  destruct (statvfs_blocks_round_up sample_super) as (v & Hv & _ & _ & Hb & _);
    [cbn; lia|reflexivity|discriminate|cbn; lia..|].
  exists v. split; [exact Hv|exact Hb].
Defined.

(** *** Words *)

Lemma ilog2_arms_agree_witness :
  ilog2 true false 1000 = Some (Z.log2 1000) ∧ ilog2 false false 1000 = Some (Z.log2 1000).
Proof. apply (ilog2_arms_agree 1000). lia. Defined.

(** *** Hash lists: a table of two heads at 0 and 1, and two nodes. *)

Definition loose : hlist_node := {| next := NNull; pprev := SNull |}.
Definition mem0 : hmem := {|
  heads := {[0 := NPoison1; 1 := NPoison1]}; nodes := {[10 := loose; 11 := loose]} |}.
Definition hfinal {A} (r : res (A * hmem)) : hmem := match r with Ok (_, m) => m | _ => mem0 end.
Definition mem1 : hmem := hfinal (hash_init 0 1 mem0).
Lemma mem1_table : table mem1 0 1 [[]; []].
Proof.
  assert (chains mem0 (map_seqZ 0 [])) as HC by (split; [apply map_Forall_empty|set_solver]).
  destruct (wp_run _ _ _ (hash_init_loop_chains 0 2 mem0 [] HC ltac:(cbn; intros [|[|j]] Hj;
    [eexists; evaluate|eexists; evaluate|lia]))) as ([] & m' & Hrun & HC').
  assert (hash_init 0 1 mem0 = Ok (tt, m')) as Hi by exact Hrun.
  split; [done|]. unfold mem1. rewrite Hi. exact HC'.
Qed.

(** Both nodes in the bucket of head 1. *)
Definition mem2 : hmem := hfinal (hlist_add_head 10 1 mem1).
Definition mem3 : hmem := hfinal (hlist_add_head 11 1 mem2).
Lemma mem3_table : table mem3 0 1 [[]; [11; 10]].
Proof.
  destruct mem1_table as [_ HC].
  destruct (hlist_add_head_refines mem1 _ 10 1 [] HC) as (m2 & H2 & HC2); [evaluate|eexists; evaluate| |].
  { intros h l [_ Hl]%lookup_map_seqZ_Some. by repeat (destruct l; [set_solver|]); destruct (Z.to_nat _) as [|[|?]]. }
  assert (mem2 = m2) as <- by (unfold mem2; by rewrite H2).
  destruct (hlist_add_head_refines mem2 _ 11 1 [10] HC2) as (m3 & H3 & HC3);
    [evaluate|eexists; evaluate| |].
  { intros h l [[<- <-]|[_ [_ Hl]%lookup_map_seqZ_Some]]%lookup_insert_Some; [set_solver|].
    destruct (Z.to_nat _) as [|[|?]]; cbn in Hl; simplify_eq; set_solver. }
  assert (mem3 = m3) as <- by (unfold mem3; by rewrite H3).
  split; [done|]. exact HC3.
Qed.
Lemma hash_del_refines_witness :
  ∃ m', hash_del 11 mem3 = Ok (tt, m') ∧ chains m' (<[1 := [10]]> (map_seqZ 0 [[]; [11; 10]])) ∧
        hash_hashed 11 mem3 = Ok (true, mem3) ∧ hash_hashed 11 m' = Ok (false, m') ∧
        hash_del 11 m' = Ok (tt, m').
Proof.
  apply (hash_del_refines mem3 (map_seqZ 0 [[]; [11; 10]]) 11 1 [] [10]); [apply mem3_table|evaluate].
Defined.

(** ** ACLs *)

(** The client with an ACL service, on the file and on the root. *)
Definition acl_world : world := world2 <| w_sb ::= λ s, s <| acl_clntp := 5 |> |>.
Definition sample_acl : posix_acl :=
  [{| e_tag := ACL_USER_OBJ; e_perm := 6; e_id := ACL_UNDEFINED_ID |};
   {| e_tag := ACL_USER; e_perm := 4; e_id := 1001 |};
   {| e_tag := ACL_OTHER; e_perm := 0; e_id := ACL_UNDEFINED_ID |}].
Lemma sample_acl_ok : acl_ok sample_acl.
Proof.
  split; [|split; [done|cbn; lia]].
  constructor; [|constructor; [|constructor; [|constructor]]]; (split; [done|]).
  - left. split; [decided|done].
  - right. split; [decided|split; [done|done]].
  - left. split; [decided|done].
Qed.
Lemma sample_acl_server fh t : acl_server 5 t fh access_acl default_acl.
Proof.
  split.
  - intros sec e. eexists. split; [reflexivity|done].
  - intros mask e. eexists _, _. split; [reflexivity|]. split_and!; done.
  - done.
Qed.
Lemma acl_file_with w c a n access dflt :
  icache_wf w → w_heap w !! a = Some n → c ≠ 0 → c ∈ w_clients w → memory_plenty (dom (w_heap w)) →
  acl_server c (call_timeout (w_sb w)) (fh_bytes (n_fh n)) access dflt →
  acl_file (w <| w_sb ::= λ s, s <| acl_clntp := c |> |>) a n access dflt.
Proof. intros Hwf Hn Hc Hl Hm Hs. split; done. Qed.
Lemma acl_file_sample a n : w_heap world2 !! a = Some n → acl_file acl_world a n access_acl default_acl.
Proof.
  intros Hn. apply acl_file_with; [exact world2_wf|exact Hn|done|decided|exact sample_plenty|].
  apply sample_acl_server.
Qed.
Lemma acl_world_plenty : memory_plenty (dom (w_heap acl_world)).
Proof. exact (af_memory _ _ _ _ _ (acl_file_sample _ _ root_at)). Qed.
#[local] Opaque acl_world.

Lemma acl_xattr_roundtrip_witness :
  ∃ real b' e, posix_acl_to_xattr sample_acl (Some (replicate 40 0)) 40 = Some (real, b') ∧
    length b' = 40%nat ∧
    posix_acl_from_xattr (take (Z.to_nat real) b') acl_world = Ok (Some sample_acl, acl_world <| w_est := e |>).
Proof.
  destruct (acl_xattr_roundtrip acl_world sample_acl (replicate 40 0) acl_world_plenty sample_acl_ok) as [H _].
  apply H. vm_compute. discriminate.
Defined.
Lemma acl_set_then_get_witness :
  ∃ w1 w2, hsfs_oper (Req_setxattr 2 POSIX_ACL_XATTR_ACCESS (xattr_bytes sample_acl)) acl_world = Ok (tt, w1) ∧
    w_replies w1 = [reply_err 0; reply_err 0] ++ w_replies acl_world ∧
    hsfs_oper (Req_getxattr 2 POSIX_ACL_XATTR_ACCESS 100) w1 = Ok (tt, w2) ∧
    w_replies w2 = reply_buf (xattr_bytes sample_acl) :: w_replies w1.
Proof.
  exact (acl_set_then_get acl_world 66048 file_inode 2 access_acl default_acl sample_acl 100
    (acl_file_sample _ _ file_cached) file_ino sample_acl_ok ltac:(lia)).
Defined.
Lemma directory_default_overwritten_witness :
  ∃ w', hsfs_oper (Req_setxattr 1 POSIX_ACL_XATTR_ACCESS (xattr_bytes sample_acl)) acl_world = Ok (tt, w') ∧
    access_acl (w_est w') = wire_of_acl sample_acl ∧
    default_acl (w_est w') = wire_of_acl (acl_of_wire 0 (access_acl (w_est acl_world))).
Proof.
  exact (directory_default_overwritten acl_world 65536 root_inode 1 access_acl default_acl sample_acl
    (acl_file_sample _ _ root_at) root_ino sample_acl_ok ltac:(evaluate)).
Defined.

(** ** The tables on pointers *)

Definition heads0 : hmem := {| heads := map_seqZ 0 (replicate (2 ^ 10) NPoison1); nodes := ∅ |}.
Lemma empty_heads : ∃ m, table m 0 10 (id_table (w_sb world0)).
Proof.
  destruct (hash_init_refines heads0 0 10) as (m & _ & Hm); [|by exists m].
  intros j Hj. exists NPoison1. apply lookup_map_seqZ_Some. split; [lia|].
  apply lookup_replicate. split; [done|]. lia.
Qed.
Lemma cache_tables_on_pointers_witness :
  ∃ m, table m 0 10 (id_table (w_sb world0)) ∧
    ∃ r, __id_ifind 1 world0 = Ok (r, world0) ∧
      hash_for_each_possible 1 0 10 (λ a, bool_decide (ino_of <$> w_heap world0 !! a = Some 1)) 1 m =
        Ok (if r =? 0 then NNull else NNode r, m).
Proof.
  destruct empty_heads as [m Hm]. exists m. split; [exact Hm|].
  destruct (cache_tables_on_pointers world0 m 0 1 1 empty_wf Hm) as [Hfind _]; [|exact Hfind].
  assert (Forall (λ l, length l < 1)%nat (replicate (2 ^ 10) ([] : list Z))) as Hall
    by (apply Forall_replicate; cbn; lia). exact Hall.
Defined.

(** ** Threads *)

Lemma sample_miss a n : w_heap world1 !! a = Some n → ident n ≠ (fa_fileid (fattr_of file_attr), fh_bytes file_fh).
Proof.
  intros Hn. assert (map_Forall (λ _ n, ident n ≠ (fa_fileid (fattr_of file_attr), fh_bytes file_fh))
    (w_heap world1)) as Hall by decided. exact (Hall a n Hn).
Qed.
Lemma unlocked_lookups_duplicate_witness :
  ∃ r1 r2 w', rtc (ustep file_fh (fattr_of file_attr)) ([T_start; T_start], world1)
      ([T_done r1; T_done r2], w') ∧ r1 ≠ r2 ∧ ¬ icache_wf w'.
Proof.
  destruct (unlocked_lookups_duplicate file_fh (fattr_of file_attr) file_fh_ok world1 world1_wf sample_miss)
    as (r1 & r2 & w' & Hsteps & Hne & _ & _ & _ & _ & Hbad).
  - eexists. evaluate.
  - intros r1 w1 Hrun.
    assert (present (match make file_fh (fattr_of file_attr) world1 with
      | Ok (_, w) => (env_malloc sizeof_nfs_inode (dom (w_heap w)) (w_est w)).1 | _ => None end) = true)
      as Hp by evaluate.
    rewrite Hrun in Hp. unfold memory. exact (ex_intro _ _ (present_default 0 _ Hp)).
  - vm_compute. discriminate.
  - exists r1, r2, w'. split; [exact Hsteps|]. split; [exact Hne|exact Hbad].
Defined.

(** Two threads one after the other. *)
Definition called : world := final (call file_fh (fattr_of file_attr) world1).
Definition called2 : world := final (call file_fh (fattr_of file_attr) called).
Lemma locked_steps :
  rtc (lstep file_fh (fattr_of file_attr)) (replicate 2 T_start, world1)
    ([T_done (result (call file_fh (fattr_of file_attr) world1));
      T_done (result (call file_fh (fattr_of file_attr) called))], called2).
Proof.
  eapply rtc_l; [apply (lstep_call _ _ _ _ 0%nat); [done|apply returns_result; evaluate]|].
  eapply rtc_l; [apply (lstep_call _ _ _ _ 1%nat); [done|apply returns_result; evaluate]|]. done.
Qed.
Lemma locked_lookups_agree_witness :
  icache_wf called2 ∧
  result (call file_fh (fattr_of file_attr) world1) = result (call file_fh (fattr_of file_attr) called).
Proof.
  apply (locked_lookups_agree file_fh (fattr_of file_attr) file_fh_ok 2 world1 _ called2 0%nat 1%nat _ _
    world1_wf locked_steps); [reflexivity|reflexivity|vm_compute; discriminate|vm_compute; discriminate].
Defined.
