(* ===== verification/WitnessMount.v ===== *)
(** * A sample mount

    An outside world whose server exports a directory, and one whose mount service
    refuses it: instances of the properties of device names, options and mounts. *)

From S2P Require Import Prelude CString Bitops Hash HList Types ErrPtr Icache NfsInode Rpc.
From S2P Require Import ParseDev Options Nfs3 Acl Fuse Mount CacheSpec Attrs Lookups Failures Entries.
From S2P Require Import Mntent Mounted Io Dirs Witness.

(** ** The outside world *)

Definition sample_fsinfo : fsinfo3resok := {|
  fi_obj_attributes := Some dir_attr; fi_rtmax := 32768; fi_rtpref := 32768; fi_rtmult := 512;
  fi_wtmax := 32768; fi_wtpref := 32768; fi_wtmult := 512; fi_dtpref := 4096;
  fi_maxfilesize := 2 ^ 40; fi_time_delta := no_time; fi_properties := 27 |}.
(** The server of [Witness] without its busy port, with the directory's data. *)
Definition export_call (R : Type) (clnt : Z) (call : nfs3_call R) (t : Z * Z) (e : sample_state) :
    clnt_stat R * sample_state :=
  match call in nfs3_call R return clnt_stat R * sample_state with
  | NFSPROC3_FSINFO _ => (RPC_SUCCESS (Res_ok sample_fsinfo), e)
  | NFSPROC3_PATHCONF _ => (RPC_SUCCESS (Res_ok 255), e)
  | call => sample_call _ 1 call t e
  end.
(** A handle above all that are in use. *)
Definition next_handle (used : gset Z) : Z := 1 + foldr Z.max 0 (elements used).

Definition export_env : Env := {|
  est := sample_state; sb_addr := 0x8000; bad_hsfs_inode := 0x600000000000;
  env_malloc := sample_malloc; env_clnt_create := λ _ _ _ _ used e, (Some (next_handle used), e);
  env_authunix_create := λ e, (true, e); env_clnt_call := export_call;
  stack_fattr := zero_fattr; stack_fh := {| fh_size := 0; fh_data := replicate 128 0 |};
  stack_stat := zero_stat; stack_iattr := zero_iattr; heap_junk := zero_nfs_inode; heap_byte := 0;
  direntry_size := λ name, 24 + strlen name; direntry_plus_size := λ name, 152 + strlen name |}.
#[local] Existing Instance export_env.

#[local] Instance export_ok : EnvOk export_env.
Proof.
  split; [exact (@bad_inode_user _ sample_ok)|exact (@malloc_fresh _ sample_ok)| |done].
  intros t addr s r used e a e'. cbn. intros [= <- _]. unfold next_handle.
  assert (∀ l, 0 <= foldr Z.max 0 l ∧ Forall (λ x, x <= foldr Z.max 0 l) l) as Hmax.
  { induction l as [|x l [H1 H2]]; cbn; [split; [lia|constructor]|]. split; [lia|].
    constructor; [lia|]. eapply Forall_impl; [|exact H2]. cbn. lia. }
  destruct (Hmax (elements used)) as [H0 Hall]. split; [|lia].
  intros Hin%elem_of_elements. rewrite list.Forall_forall in Hall. specialize (Hall _ Hin). lia.
Qed.

Definition localhost : list ascii := chars "127.0.0.1".
Definition sample_mount (status : Z) (fh : list Z) : MountEnv export_env := {|
  env_inet_aton := λ h, if bool_decide (h = localhost) then Some 0x0100007f else None;
  env_gethostbyname := λ _ e, (inr 2, e);
  env_mnt_call := λ _ _ _ e, (inl {| fhs_status := status; fhandle := fh |}, e);
  env_umnt_call := λ _ _ _ e, (0, e); env_time := λ e, (1000, e); env_createerr := λ e, ((0, 0), e) |}.
Definition accepting : MountEnv export_env := sample_mount 0 [1].
Definition refusing : MountEnv export_env := sample_mount 13 [].

(** The process as it starts. *)
Definition zero_super : hsfs_super := {|
  fh_table := []; id_table := []; curr_id := 0; clntp := 0; acl_clntp := 0; sb_flags := 0;
  rsize := 0; wsize := 0; timeo := 0; retrans := 0; acregmin := 0; acregmax := 0; acdirmin := 0;
  acdirmax := 0; sb_saddr := zero_saddr; namlen := 0; dtsize := 0; bsize := 0; bsize_bits := 0;
  sb_root := 0; rtmax := 0; rtpref := 0; rtmult := 0; wtmax := 0; wtpref := 0; wtmult := 0;
  dtpref := 0; maxfilesize := 0; time_delta := no_time; properties := 0; tbytes := 0; fbytes := 0;
  abytes := 0; tfiles := 0; ffiles := 0; afiles := 0 |}.
Definition start_world : world := {|
  w_heap := ∅; w_sb := zero_super; w_clients := ∅;
  nfs_server_bak := {| ca_saddr := zero_saddr; ca_pmap := zero_pmap |};
  acl_server_bak := {| ca_saddr := zero_saddr; ca_pmap := zero_pmap |};
  ssize_bak := 0; rsize_bak := 0; w_page_size := 0; w_replies := [];
  w_est := {| tick := 0; contents := []; access_acl := []; default_acl := [] |} |}.

Lemma sample_up : server_up.
Proof.
  split; [intros; by eexists|done|]. intros c t e. by eexists.
Qed.
Lemma sample_exports : exports [1] dir_attr sample_fsinfo 255.
Proof.
  split; [done|done|unfold NFS_MAXFHSIZE; cbn; lia|..]; intros c t e; by eexists.
Qed.
Lemma empty_plenty : memory_plenty ∅.
Proof. intros size_ e. by eexists. Qed.

(** ** The command line *)

Definition sample_settings : list setting :=
  [(("timeo", λ v, on_super (λ s, s <| timeo := v |>)), 70);
   (("acregmin", λ v, on_super (λ s, s <| acregmin := v |>)), 5)]%string.
Lemma sample_settings_valid : Forall valid_setting sample_settings.
Proof.
  repeat constructor; cbn; try lia; unfold numeric; repeat (apply list_elem_of_here || apply list_elem_of_further).
Qed.
Lemma sample_devname : devname (chars "127.0.0.1:/export") localhost (chars "/export").
Proof.
  apply (devname_simple localhost (chars "/export")); [done|decided|decided|decided|vm_compute; lia..].
Qed.
Definition sample_options (ME : MountEnv export_env) : mount_opts :=
  fold_left apply_setting sample_settings
    (initial_opts ((w_sb start_world) <| sb_saddr ::= λ a, a <| sin_addr := 0x0100007f |> |>)).
Lemma sample_invocation status fh :
  @invocation export_env (sample_mount status fh) start_world "127.0.0.1:/export" "timeo=70,acregmin=5"
    (chars "/export") (sample_options (sample_mount status fh)).
Proof.
  apply (invocation_intro _ _ _ localhost _ 0x0100007f sample_settings);
    [decided|vm_compute; lia|exact sample_devname|evaluate|exact sample_settings_valid|cbn; lia|
     evaluate|done|done|done].
Qed.

(** ** Instances of the properties *)

Lemma devname_parsed_witness :
  ∃ r e, nfs_parse_devname (Some "127.0.0.1:/export") start_world = Ok (r, start_world <| w_est := e |>) ∧
    r = Some (localhost, chars "/export").
Proof.
  destruct (devname_parsed start_world "127.0.0.1:/export" empty_plenty) as (r & e & Hrun & Hr); [decided|].
  exists r, e. split; [exact Hrun|]. apply Hr. exact sample_devname.
Defined.

Lemma options_applied_witness :
  ∃ e, hsi_nfs3_parse_options (ME := accepting) "timeo=70,acregmin=5" zero_saddr (initial_opts zero_super) start_world =
      Ok ((0, zero_saddr, fold_left apply_setting sample_settings (initial_opts zero_super)),
          start_world <| w_est := e |>) ∧
    mo_new (fold_left apply_setting sample_settings (initial_opts zero_super)) =
      chars "timeo=70,acregmin=5,".
Proof.
  destruct (@options_applied _ accepting start_world "timeo=70,acregmin=5" sample_settings zero_saddr zero_super
    empty_plenty sample_settings_valid) as (e & Hrun & Hnew); [cbn; lia|evaluate|].
  exists e. split; [exact Hrun|]. etransitivity; [exact Hnew|]. evaluate.
Defined.

Lemma mount_succeeds_witness :
  ∃ w', hsfs_do_mount (ME := accepting) 1 "127.0.0.1:/export" (Some "timeo=70,acregmin=5"%string) true
      start_world = Ok (0, w') ∧ mounted_root [1] dir_attr w' ∧
    policy (w_sb w') = (70, 3, (5, 60), (30, 60)).
Proof.
  destruct (@mount_succeeds _ export_ok accepting sample_up start_world _ _ _ _ true 0 [1] dir_attr
    sample_fsinfo 255 eq_refl empty_plenty (sample_invocation 0 [1])) as (w' & Hrun & Hroot & Hpol).
  - intros c t e. by eexists.
  - exact sample_exports.
  - exists w'. split; [exact Hrun|]. split; [exact Hroot|exact Hpol].
Defined.

Lemma refused_mount_reports_success_witness :
  ∃ w', hsfs_do_mount (ME := refusing) 1 "127.0.0.1:/export" (Some "timeo=70,acregmin=5"%string) true
      start_world = Ok (0, w') ∧ w_heap w' = ∅.
Proof.
  destruct (@refused_mount_reports_success _ export_ok refusing sample_up start_world _ _ _ _ true 0 13
    eq_refl empty_plenty (sample_invocation 13 [])) as (w' & Hrun & Hh & _).
  - discriminate.
  - intros c t e. by eexists.
  - exists w'. split; [exact Hrun|exact Hh].
Defined.

(** The process starts, looks a file up and forgets it. *)
Definition started : res (bool * world) :=
  hsfs_start (ME := accepting) 1 4096 "127.0.0.1:/export" None true [1; 2] 3 0 start_world.
Definition after {A} (r : res (A * world)) : world :=
  match r with Ok (_, w) => w | _ => start_world end.
Definition serving : world := after started.
Definition looked_up : world := after (hsfs_oper (Req_lookup 1 "f") serving).
Definition forgot : world := after (hsfs_oper (Req_forget 2 1) looked_up).
Definition returned {A} (r : res (A * world)) : bool := match r with Ok _ => true | _ => false end.
Lemma returned_unit (r : res (unit * world)) : returned r = true → r = Ok (tt, after r).
Proof. by destruct r as [[[] w]| | |]. Qed.
Lemma started_run : started = Ok (true, serving).
Proof.
  assert (match started with Ok (b, _) => b | _ => false end = true) as H by evaluate.
  unfold serving. destruct started as [[[] w]| | |]; done.
Qed.
Definition start_trace : list (request * list fuse_reply) :=
  [(Req_lookup 1 "f", w_replies looked_up); (Req_forget 2 1, take 1 (w_replies forgot))].
Lemma start_session : session start_trace serving forgot.
Proof.
  eapply session_cons; [apply returned_unit; evaluate|evaluate|].
  eapply session_cons; [apply returned_unit; evaluate|evaluate|]. apply session_nil.
Qed.
Lemma counts_since_the_start_witness :
  ∃ R', Inv (λ i, (if i =? 1 then 1 else 0) + total counted start_trace i -
                  total (λ req _, forgotten req) start_trace i) R' forgot.
Proof.
  exact (@counts_since_the_start _ export_ok accepting 1 4096 "127.0.0.1:/export" None true [1; 2] 3 0
    start_world serving start_trace forgot eq_refl started_run start_session).
Defined.

(** ** A mount table *)

Definition sample_mntent : nfs_mntent_t := {|
  mnt_fsname := chars "server:/export dir"; mnt_dir := chars "/mnt/my\disk"; mnt_type := chars "hsfs";
  mnt_opts := chars "rw,timeo=70"; mnt_freq := 0; mnt_passno := 12 |}.
Lemma sample_mntent_ok : mntent_ok sample_mntent.
Proof. split; try (split; [done|decided]); try (vm_compute; lia); try done; vm_compute; split; congruence. Qed.
Lemma mount_table_roundtrip_witness :
  read_entries 3 (nfs_setmntent (written [sample_mntent; sample_mntent])) = Some [sample_mntent; sample_mntent].
Proof.
  apply (mount_table_roundtrip [sample_mntent; sample_mntent]).
  constructor; [exact sample_mntent_ok|]. constructor; [exact sample_mntent_ok|constructor].
Defined.
