(* ===== verification/WitnessSession.v ===== *)
(** * A sample session

    A file server that keeps a file system in memory, transfers two bytes a call and makes
    directories, links and files; a client that has it mounted; and an instance of the
    session theorem: a kernel that looks a file up, writes and reads it, and makes a
    directory. *)

From S2P Require Import Prelude CString Bitops Hash HList Types ErrPtr Icache NfsInode Rpc Nfs3 Acl Fuse CacheSpec.
From S2P Require Import ParseDev Options Mount Attrs Lookups Failures Entries Mounted Io Creations Dirs DirsPlus.
From S2P Require Import FileServer Session Serving Witness WitnessMount.

(** ** The server *)

Definition fresh_handle (F : fsys) : list Z := [10 + Z.of_nat (size F)].
Definition made_object (F : fsys) (type mode : Z) (link : string) (major minor : Z) : object := {|
  o_attr := (sample_attr type mode 0 (1000 + Z.of_nat (size F)))
    <| f3_rdev_major := major |> <| f3_rdev_minor := minor |>; o_data := []; o_names := ∅; o_link := link |}.
Definition renamed (g : gmap string (list Z) → gmap string (list Z)) (p : object) : object :=
  with_attr (o_attr p) (p <| o_names ::= g |>).

Definition serve_make (F : fsys) (where_ : diropargs3) (type : Z) (a : sattr3) (link : string)
    (major minor : Z) : nfs3res diropres3ok * fsys :=
  let h := fresh_handle F in
  let mode := default 0x1ed (sa_mode a) in
  let o := made_object F type mode link major minor in
  match F !! do_dir where_ with
  | Some (Some p) =>
      if bool_decide (o_names p !! do_name where_ = None) && bool_decide (F !! h = None) &&
         (0 <=? mode) && (mode <? 2 ^ 12) && (NF3REG <=? type) && (type <=? NF3FIFO)
      then (Res_ok {| dr_obj := Some h; dr_obj_attributes := Some (o_attr o) |},
            <[h := Some o]> (<[do_dir where_ := Some (renamed <[do_name where_ := h]> p)]> F))
      else (Res_fail 17, F)
  | _ => (Res_fail 70, F)
  end.

Definition serve_read (F : fsys) (h : list Z) (off count : Z) : nfs3res read3resok :=
  match F !! h with
  | Some (Some o) =>
      let d := take (Z.to_nat (Z.min count 2)) (drop (Z.to_nat off) (o_data o)) in
      Res_ok {| rd_count := Z.of_nat (length d);
                rd_eof := if Z.of_nat (length (o_data o)) <=? off + Z.of_nat (length d) then 1 else 0; rd_data := d |}
  | _ => Res_fail 70
  end.
Definition rewritten (off : Z) (d : list Z) (o : object) : object :=
  let c := write_at (o_data o) (Z.to_nat off) (take (Nat.min 2 (length d)) d) in
  with_attr ((o_attr o) <| f3_size := Z.of_nat (length c) |>) (o <| o_data := c |>).
Definition serve_write (F : fsys) (h : list Z) (off : Z) (d : list Z) : nfs3res write3resok * fsys :=
  match F !! h with
  | Some (Some o) =>
      if (type_of o =? NF3REG) && (0 <=? off) && negb (bool_decide (d = [])) && (off + Z.of_nat (length d) <? 2 ^ 63)
      then (Res_ok {| wr_count := Z.of_nat (Nat.min 2 (length d)) |}, <[h := Some (rewritten off d o)]> F)
      else (Res_fail 22, F)
  | _ => (Res_fail 70, F)
  end.
Definition serve_remove (F : fsys) (what : diropargs3) : nfs3res unit * fsys :=
  match F !! do_dir what with
  | Some (Some p) =>
      let F1 := <[do_dir what := Some (renamed (delete (do_name what)) p)]> F in
      match o_names p !! do_name what ≫= (F1 !!.) with
      | Some (Some o) => if type_of o =? NF3DIR then (Res_fail 21, F) else (Res_ok tt, F1)
      | _ => (Res_fail 2, F)
      end
  | _ => (Res_fail 70, F)
  end.

Definition serve_setattr (F : fsys) (h : list Z) (a : sattr3) : nfs3res (option fattr3) * fsys :=
  match F !! h with
  | Some (Some o) =>
      let f := (o_attr o) <| f3_mode := default (f3_mode (o_attr o)) (sa_mode a) |>
        <| f3_uid := default (f3_uid (o_attr o)) (sa_uid a) |> <| f3_gid := default (f3_gid (o_attr o)) (sa_gid a) |> in
      if (0 <=? f3_mode f) && (f3_mode f <? 2 ^ 12)
      then (Res_ok (Some f), <[h := Some (with_attr f o)]> F) else (Res_fail 22, F)
  | _ => (Res_fail 70, F)
  end.

Definition serve (R : Type) (call : nfs3_call R) (F : fsys) : R * fsys :=
  match call in nfs3_call R return R * fsys with
  | NFSPROC3_NULL => (tt, F)
  | NFSPROC3_GETATTR h =>
      (match F !! h with Some (Some o) => Res_ok (o_attr o) | _ => Res_fail NFS3ERR_STALE end, F)
  | NFSPROC3_LOOKUP what =>
      (match F !! do_dir what with
       | Some (Some d) =>
           match o_names d !! do_name what with
           | Some h => match F !! h with
                       | Some (Some o) => Res_ok {| lk_object := h; lk_obj_attributes := Some (o_attr o) |}
                       | _ => Res_fail NFS3ERR_STALE
                       end
           | None => Res_fail NFS3ERR_NOENT
           end
       | _ => Res_fail NFS3ERR_STALE
       end, F)
  | NFSPROC3_READLINK h =>
      (match F !! h with
       | Some (Some o) => if type_of o =? NF3LNK then Res_ok (o_link o) else Res_fail NFS3ERR_INVAL
       | _ => Res_fail NFS3ERR_STALE
       end, F)
  | NFSPROC3_READ h off count => (serve_read F h off count, F)
  | NFSPROC3_WRITE h off count stable d => serve_write F h off d
  | NFSPROC3_CREATE where_ (CREATE_ATTR _ a) => serve_make F where_ NF3REG a "" 0 0
  | NFSPROC3_MKDIR where_ a => serve_make F where_ NF3DIR a "" 0 0
  | NFSPROC3_SYMLINK where_ a link => serve_make F where_ NF3LNK a link 0 0
  | NFSPROC3_REMOVE what => serve_remove F what
  | NFSPROC3_SETATTR h a => serve_setattr F h a
  | NFSPROC3_ACCESS _ _ => (Res_fail 30, F)
  | NFSPROC3_CREATE _ _ => (Res_fail 30, F)
  | NFSPROC3_MKNOD where_ (MKNOD_DEVICE type a major minor) => serve_make F where_ type a "" major minor
  | NFSPROC3_MKNOD where_ (MKNOD_PIPE type a) => serve_make F where_ type a "" 0 0
  | NFSPROC3_MKNOD _ (MKNOD_OTHER _) => (Res_fail 30, F)
  | NFSPROC3_RMDIR _ => (Res_fail 30, F)
  | NFSPROC3_RENAME _ _ => (Res_fail 30, F)
  | NFSPROC3_LINK _ _ => (Res_fail 30, F)
  | NFSPROC3_READDIR _ _ _ _ => (Res_fail 30, F)
  | NFSPROC3_READDIRPLUS _ _ _ _ _ => (Res_fail 30, F)
  | NFSPROC3_FSSTAT _ => (Res_fail 30, F)
  | NFSPROC3_FSINFO _ => (Res_ok sample_fsinfo, F)
  | NFSPROC3_PATHCONF _ => (Res_ok 255, F)
  | ACLPROC3_GETACL _ _ => (Res_fail 30, F)
  | ACLPROC3_SETACL _ _ => (Res_fail 30, F)
  end.

(** *** It serves by the rules *)

Lemma with_attr_id o : with_attr (o_attr o) o = o.
Proof. by destruct o. Qed.
Lemma changed_id (F : fsys) h o : alive F h o → changed F h o id F.
Proof. intros Ho. exists (o_attr o). split; [apply same_file_refl|]. by rewrite with_attr_id, insert_id. Qed.
Lemma take_own_length {A : Type} (l : list A) n : take n l = take (length (take n l)) l.
Proof. rewrite length_take. destruct (Nat.min_spec n (length l)) as [[_ ->]|[Hle ->]]; [done|]. by rewrite !take_ge. Qed.

Lemma serve_read_ok (F : fsys) h off count : fsys_ok F → nfs3_spec F (NFSPROC3_READ h off count) (serve_read F h off count) F.
Proof.
  intros HF o Ho Ht Hoff Hc. unfold serve_read. unfold alive in Ho. rewrite Ho.
  set (d := take _ _). eexists d, _. split; [done|]. split_and!.
  - apply take_own_length.
  - unfold d. rewrite length_take. lia.
  - destruct (Z.leb_spec (Z.of_nat (length (o_data o))) (off + Z.of_nat (length d))) as [|Hlt]; [done|]. intros _ Hd.
    unfold d in Hd, Hlt. rewrite length_take, length_drop in Hlt. apply (f_equal length) in Hd.
    rewrite length_take, length_drop in Hd. cbn in Hd. lia.
  - by destruct (Z.leb_spec (Z.of_nat (length (o_data o))) (off + Z.of_nat (length d))).
  - by apply changed_id.
Qed.

Lemma serve_write_ok (F : fsys) h off count stable d : fsys_ok F →
  nfs3_spec F (NFSPROC3_WRITE h off count stable d) (serve_write F h off d).1 (serve_write F h off d).2 ∧
  fsys_ok (serve_write F h off d).2.
Proof.
  intros HF. unfold serve_write. destruct (F !! h) as [[o|]|] eqn:Ho; cycle 1.
  { split; [|done]. intros o Ho'. unfold alive in Ho'. congruence. }
  { split; [|done]. intros o Ho'. unfold alive in Ho'. congruence. }
  destruct ((type_of o =? NF3REG) && (0 <=? off) && negb (bool_decide (d = [])) && (off + Z.of_nat (length d) <? 2 ^ 63)) eqn:Hg;
    cycle 1.
  { split; [|done]. intros o' Ho' Ht Hoff Hd Hlen. unfold alive in Ho'. rewrite Ho in Ho'. injection Ho' as <-.
    rewrite Ht, (proj2 (Z.leb_le 0 off) Hoff), bool_decide_eq_false_2, (proj2 (Z.ltb_lt _ _) Hlen) in Hg by done. done. }
  apply andb_prop in Hg as [[[Ht%Z.eqb_eq Hoff%Z.leb_le]%andb_prop Hd%negb_true_iff]%andb_prop Hlen%Z.ltb_lt].
  apply bool_decide_eq_false in Hd. assert (0 < length d)%nat as Hd0 by (destruct d; [done|cbn; lia]).
  destruct (fs_attr F HF h o Ho) as [Hty Hm Hl Hsz]. pose proof (fs_size F HF h o Ho Ht) as Hs.
  assert (length (write_at (o_data o) (Z.to_nat off) (take (Nat.min 2 (length d)) d)) <
          Z.to_nat (2 ^ 63))%nat as Hnew.
  { rewrite length_write_at, length_take. unfold in_range in Hsz. lia. }
  cbn [fst snd]. split.
  - intros o' Ho' _ _ _ _. unfold alive in Ho'. rewrite Ho in Ho'. injection Ho' as <-.
    exists (Nat.min 2 (length d)). split; [done|]. split; [lia|].
    exists (o_attr (rewritten off d o)). split; [by split|]. reflexivity.
  - apply fsys_ok_insert; [done|by eapply fs_handle|split; [exact Hty|exact Hm|exact Hl|]|done|].
    + unfold in_range, rewritten, with_attr. cbn -[write_at Nat.min Z.pow]. unfold const. lia.
    + intros name h' Hn. right. by eapply fs_names.
Qed.

(** A new handle, when the one it would get is not used yet. *)
Lemma serve_make_ok (F : fsys) where_ type a link major minor : fsys_ok F →
  let r := serve_make F where_ type a link major minor in
  makes F where_ (λ o, as_asked type a link o ∧ has_device major minor o) r.1 r.2 ∧ fsys_ok r.2.
Proof.
  intros HF. unfold serve_make. set (h := fresh_handle F). set (mode := default 0x1ed (sa_mode a)).
  set (o := made_object F type mode link major minor). set (good := λ o, as_asked type a link o ∧ _).
  assert (∀ st, st ≠ 0 → makes F where_ good (Res_fail st) F) as Hno.
  { intros st Hst. left. split; [done|]. by exists st. }
  destruct (F !! do_dir where_) as [[p|]|] eqn:Hp; [|by split; [apply Hno|]..].
  destruct (_ && _ && _ && _ && _ && _) eqn:Hg; [|by split; [apply Hno|]]. cbv zeta. cbn [fst snd].
  apply andb_prop in Hg as [[[[[Hname%bool_decide_eq_true Hh%bool_decide_eq_true]%andb_prop Hm0%Z.leb_le]%andb_prop
    Hm1%Z.ltb_lt]%andb_prop Ht0%Z.leb_le]%andb_prop Ht1%Z.leb_le].
  set (d := do_dir where_) in *. set (p' := renamed <[do_name where_ := h]> p). split.
  - right. exists h, o. split_and!; [|split; [split_and!; try done|done]|done].
    + exists p, (<[d := Some p']> F). split_and!; [done..| |done]. exists (o_attr p). by split; [apply same_file_refl|].
    + intros m Hm. cbn. unfold mode. by rewrite Hm.
  - assert (h ≠ d) as Hhd by congruence. rewrite insert_insert_ne by done.
    assert (fsys_ok (<[h := Some o]> F)) as HF1.
    { apply fsys_ok_insert; [done|cbn; unfold NFS3_FHSIZE; lia|split; try done; cbn; unfold in_range; lia|done|].
      intros name h' Hn. cbn in Hn. by apply lookup_empty_Some in Hn. }
    assert (∀ h' x, alive F h' x → alive (<[h := Some o]> F) h' x) as Hkeep.
    { intros h' x Hx. unfold alive in *. rewrite lookup_insert_ne by congruence. done. }
    apply fsys_ok_insert; [done|apply (fs_handle F HF d _ Hp)|by eapply (fs_attr F HF d p)|by apply (fs_size F HF d p)|].
    intros name h' Hn. change (<[do_name where_ := h]> (o_names p) !! name = Some h') in Hn.
    apply lookup_insert_Some in Hn as [[_ <-]|[_ Hn]]; right.
    + exists o. unfold alive. by rewrite lookup_insert_eq.
    + destruct (fs_names F HF d p name h' Hp Hn) as [x Hx]. exists x. by apply Hkeep.
Qed.
(** Without a device number. *)
Lemma serve_make_plain (F : fsys) where_ type a link : fsys_ok F →
  let r := serve_make F where_ type a link 0 0 in makes F where_ (as_asked type a link) r.1 r.2 ∧ fsys_ok r.2.
Proof.
  intros HF r. destruct (serve_make_ok F where_ type a link 0 0 HF) as [Hm Hok]. split; [|done].
  eapply makes_mono, Hm. by intros o [Ho _].
Qed.

Lemma serve_setattr_ok (F : fsys) h a : fsys_ok F →
  nfs3_spec F (NFSPROC3_SETATTR h a) (serve_setattr F h a).1 (serve_setattr F h a).2 ∧ fsys_ok (serve_setattr F h a).2.
Proof.
  intros HF. unfold serve_setattr.
  assert (∀ st, st ≠ 0 → nfs3_spec F (NFSPROC3_SETATTR h a) (Res_fail st) F) as Hno.
  { intros st Hst _. left. split; [done|]. by exists st. }
  destruct (F !! h) as [[o|]|] eqn:Ho; [|by split; [apply Hno|]..]. cbv zeta. set (f := _ <| f3_gid := _ |>).
  destruct (_ && _) eqn:Hg; [|by split; [apply Hno|]]. apply andb_prop in Hg as [H0%Z.leb_le H1%Z.ltb_lt].
  destruct (fs_attr F HF h o Ho) as [Hty Hm Hl Hsz]. cbn [fst snd]. split.
  - intros _. right. exists o, f. split_and!; [done| |done|done]. split_and!; try done. cbn. by destruct (sa_mode a).
  - apply fsys_ok_insert; [done|by eapply fs_handle|split; [exact Hty|by split|exact Hl|exact Hsz]|exact (fs_size F HF h o Ho)|].
    intros name h' Hn. right. by eapply (fs_names F HF h o).
Qed.

Lemma serve_remove_ok (F : fsys) what : fsys_ok F →
  nfs3_spec F (NFSPROC3_REMOVE what) (serve_remove F what).1 (serve_remove F what).2 ∧ fsys_ok (serve_remove F what).2.
Proof.
  intros HF. unfold serve_remove. set (d := do_dir what). set (name := do_name what).
  assert (∀ st, st ≠ 0 → nfs3_spec F (NFSPROC3_REMOVE what) (Res_fail st) F) as Hno.
  { intros st Hst. left. split; [done|]. by exists st. }
  destruct (F !! d) as [[p|]|] eqn:Hp; [|by split; [apply Hno|]..].
  set (F1 := <[d := Some (renamed (delete name) p)]> F).
  destruct (o_names p !! name) as [h|] eqn:Hname; cbn [mbind option_bind]; [|by split; [apply Hno|]].
  destruct (F1 !! h) as [[o|]|] eqn:Ho; [|by split; [apply Hno|]..].
  destruct (Z.eqb_spec (type_of o) NF3DIR) as [Ht|Ht]; [by split; [apply Hno|]|]. cbn [fst snd]. split.
  - right. split; [done|]. exists h, F1, o. split_and!; [|done|done|right; by apply changed_id].
    exists p. split_and!; [done..|]. exists (o_attr p). by split; [apply same_file_refl|].
  - apply fsys_ok_insert; [done|by eapply fs_handle|by eapply (fs_attr F HF d p)|by apply (fs_size F HF d p)|].
    intros nm h' Hn. change (delete name (o_names p) !! nm = Some h') in Hn.
    apply lookup_delete_Some in Hn as [_ Hn]. right. by eapply fs_names.
Qed.

Lemma serve_ok (R : Type) (call : nfs3_call R) (F : fsys) : fsys_ok F →
  nfs3_spec F call (serve R call F).1 (serve R call F).2 ∧ fsys_ok (serve R call F).2.
Proof.
  intros HF. destruct call; cbn [serve]; try (by split).
  - (* GETATTR *) cbn. split; [|done]. by destruct (F !! fh) as [[o|]|].
  - by apply serve_setattr_ok.
  - (* LOOKUP *) cbn. split; [|done]. destruct (F !! do_dir what) as [[d|]|] eqn:Hd; [|done..]. split; [done|].
    destruct (o_names d !! do_name what) as [h|] eqn:Hn; [|done].
    destruct (fs_names F HF _ _ _ _ Hd Hn) as [x Hx]. exists x. unfold alive in Hx |- *. by rewrite Hx.
  - (* READLINK *) cbn. split; [|done]. by destruct (F !! fh) as [[o|]|].
  - split; [by apply serve_read_ok|done].
  - by apply serve_write_ok.
  - destruct how as [mode a|]; [|by split]. destruct (serve_make_plain F where_ NF3REG a "" HF) as [Hm Hok].
    split; [by left|done].
  - by apply serve_make_plain.
  - by apply serve_make_plain.
  - destruct what as [type a major minor|type a|]; [by apply serve_make_ok|by apply serve_make_plain|].
    split; [|done]. split; [done|]. by exists 30.
  - by apply serve_remove_ok.
  - split; [|done]. left. split; [done|]. by exists 30.
  - split; [|done]. left. split; [done|]. by exists 30.
Qed.

(** ** The outside world *)

Definition no_state : sample_state := {| tick := 0; contents := []; access_acl := []; default_acl := [] |}.
Definition file_env : Env := {|
  est := fsys; sb_addr := 0x8000; bad_hsfs_inode := 0x600000000000;
  env_malloc := λ size_ used e, ((sample_malloc size_ used no_state).1, e);
  env_clnt_create := λ _ _ _ _ used e, (Some (next_handle used), e);
  env_authunix_create := λ e, (true, e);
  env_clnt_call := λ R _ call _ e, let '(out, e') := serve R call e in (RPC_SUCCESS out, e');
  stack_fattr := zero_fattr; stack_fh := {| fh_size := 0; fh_data := replicate 128 0 |};
  stack_stat := zero_stat; stack_iattr := zero_iattr; heap_junk := zero_nfs_inode; heap_byte := 0;
  direntry_size := λ name, 24 + strlen name; direntry_plus_size := λ name, 152 + strlen name |}.
#[local] Existing Instance file_env.
#[local] Instance file_env_ok : EnvOk file_env.
Proof.
  split; [exact (@bad_inode_user _ sample_ok)| | |done].
  - intros sz used e a e' Ha. apply (f_equal fst) in Ha.
    apply (@malloc_fresh _ sample_ok sz used no_state a (sample_malloc sz used no_state).2).
    rewrite (surjective_pairing (env_malloc _ _ _)). f_equal. exact Ha.
  - intros t addr s r used e a e'. cbn. intros [= <- _].
    exact (@create_fresh _ export_ok t addr s r used no_state _ no_state eq_refl).
Qed.

Definition file_mount : MountEnv file_env := {|
  env_inet_aton := λ h, if bool_decide (h = localhost) then Some 0x0100007f else None;
  env_gethostbyname := λ _ e, (inr 2, e);
  env_mnt_call := λ _ _ _ e, (inl {| fhs_status := 0; fhandle := [1] |}, e);
  env_umnt_call := λ _ _ _ e, (0, e); env_time := λ e, (1000, e); env_createerr := λ e, ((0, 0), e) |}.
#[local] Existing Instance file_mount.

(** The state of the outside world is the file system. *)
Definition files_of (e : @est file_env) : fsys := e.
Lemma file_server_ok c t : nfs_server c t files_of.
Proof.
  split; [|done]. intros A call F HF. destruct (serve_ok A call F HF) as [Hs Hok].
  exists (serve A call F).1, (serve A call F).2. split_and!; [|done..]. cbn. by destruct (serve A call F).
Qed.
Lemma file_aside : aside files_of.
Proof. by split. Qed.
Lemma file_server_up : server_up.
Proof. split; [intros; by eexists|done|]. intros c t e. by eexists. Qed.
Lemma file_exports : exports [1] dir_attr sample_fsinfo 255.
Proof. split; [done|done|unfold NFS_MAXFHSIZE; cbn; lia|..]; intros c t e; by eexists. Qed.

(** The directory: a file "f" of three bytes. *)
Definition root_object : object :=
  {| o_attr := dir_attr; o_data := []; o_names := {["f"%string := [2]]}; o_link := "" |}.
Definition file_object : object :=
  {| o_attr := sample_attr NF3REG 0x1a4 3 200; o_data := [1; 2; 3]; o_names := ∅; o_link := "" |}.
Definition files0 : fsys := <[[1] := Some root_object]> {[[2] := Some file_object]}.
Lemma files0_ok : fsys_ok files0.
Proof.
  assert (fsys_ok ∅) as H0 by (split; intros h x; intros; exfalso; eapply (lookup_empty_Some (M := gmap (list Z))); eassumption).
  unfold files0. rewrite <-insert_empty. apply fsys_ok_insert; [apply fsys_ok_insert; [done|..]|..].
  - cbn. unfold NFS3_FHSIZE. lia.
  - by split; vm_compute; try split; try congruence.
  - done.
  - intros name h' Hn. cbn in Hn. by apply lookup_empty_Some in Hn.
  - cbn. unfold NFS3_FHSIZE. lia.
  - by split; vm_compute; try split; try congruence.
  - done.
  - intros name h' Hn. change (({["f"%string := [2]]} : gmap string (list Z)) !! name = Some h') in Hn.
    apply lookup_singleton_Some in Hn as [_ <-]. right. exists file_object.
    unfold alive. by rewrite lookup_insert_eq.
Qed.

(** ** The conversation *)

(** Look "f" up, write over its end, read it back, and make a directory. *)
Definition no_flags : fuse_file_info := {| fi_flags := 0; fi_fh := 0; fi_direct_io := false |}.
Definition sample_kernel (rs : list fuse_reply) : request :=
  match length rs, list.last rs with
  | 0%nat, _ => Req_lookup 1 "f"
  | 1%nat, Some (reply_entry e) => Req_write (fe_ino e) [9; 8; 7] 2 no_flags
  | 2%nat, Some (reply_entry e) => Req_read (fe_ino e) 10 0
  | _, _ => Req_mkdir 1 "d" 0x1ed
  end.
Definition state0 : fstate := mounted_state files0 dir_attr [1].

(** Number [j] is the regular file behind [[2]], and the root is known. *)
Definition sees_file (S : fstate) (j : Z) : Prop :=
  known S 1 ∧ ∃ o, file_at S j [2] o ∧ type_of o = NF3REG.
Lemma sees_file_changed S j o g F' :
  sees_file S j → file_at S j [2] o → changed (fs_files S) [2] o g F' →
  sees_file (S <| fs_files := F' |>) j.
Proof.
  intros [H1 (o1 & [Hn Ho1] & Ht)] [_ Ho] (f & [Hf _] & ->). split; [done|]. unfold alive in *. rewrite Ho1 in Ho.
  injection Ho as <-. exists (with_attr f (g o1)). split; [split; [done|]|].
  - exact (lookup_insert_eq (fs_files S) [2] _).
  - change (f3_type f = NF3REG). by rewrite Hf.
Qed.

(** What the specification lets the kernel see at each step. *)
Lemma sees_looked_up r S : fs_step state0 (Req_lookup 1 "f") r S →
  ∃ e, r = reply_entry e ∧ sees_file S (fe_ino e).
Proof.
  intros Hs. assert (∀ d, numbered_as state0 1 d → d = [1]) as Hroot.
  { intros d (fid & Hd). cbn in Hd. apply lookup_singleton_Some in Hd as [_ [= _ <-]]. done. }
  assert (∀ o, alive (fs_files state0) [1] o → o = root_object) as Halive
    by (intros o Ho; apply (inj Some), (inj Some); symmetry; exact Ho).
  assert (o_names root_object !! "f"%string = Some [2]) as Hf0 by reflexivity.
  inversion Hs as [p name d o h x e S' [Hd Ho] Hn Hx He|p name d o [Hd Ho] Hn|req i Hask (d & Hd & Hg)| | | | | | |
    req p name good mk d h o F' e S' Hc| | | |req st Hch| | | |]; subst.
  - apply Hroot in Hd as ->. apply Halive in Ho as ->. rewrite Hf0 in Hn. injection Hn as <-.
    assert (x = file_object) as -> by (apply (inj Some), (inj Some); symmetry; exact Hx). destruct He as (_ & Hget & Hf & _). exists e. split; [done|]. split.
    + unfold known. destruct Hget as [[_ ->]|(_ & _ & _ & ->)]; [by eexists|]. apply lookup_insert_is_Some'. right. by eexists.
    + exists file_object. split; [split|done]; [|by rewrite Hf]. exists 200.
      by destruct Hget as [[Hk ->]|(_ & _ & _ & ->)]; [|rewrite lookup_insert_eq].
  - apply Hroot in Hd as ->. apply Halive in Ho as ->. by rewrite Hf0 in Hn.
  - destruct Hask. by apply Hroot in Hd as ->.
  - inversion Hc.
  - destruct Hch.
Qed.
Lemma sees_written S j buf off fi r S' : sees_file S j → fs_step S (Req_write j buf off fi) r S' → sees_file S' j.
Proof.
  intros Hsee Hs. pose proof Hsee as [_ (o1 & [Hn1 _] & _)].
  inversion Hs as [| |req i Hask| | | | | |i b off' fi' h o F' [Hn Ho] Hc|req p name good mk d h o F' e S2 Hc| | | |
    req st Hch| | | |]; subst.
  - destruct Hask.
  - destruct Hn as [fid Hn], Hn1 as [fid1 Hn1]. rewrite Hn1 in Hn. injection Hn as <- <-.
    eapply sees_file_changed; [done| |exact Hc]. split; [by eexists|done].
  - inversion Hc.
  - destruct Hch.
Qed.
Lemma sees_read S j size off r S' : sees_file S j → fs_step S (Req_read j size off) r S' → sees_file S' j.
Proof.
  intros Hsee Hs. pose proof Hsee as [_ (o1 & [Hn1 _] & _)].
  inversion Hs as [| |req i Hask| | | | |i sz off' h o F' [Hn Ho] Hc| |req p name good mk d h o F' e S2 Hc| | | |
    req st Hch| | | |]; subst.
  - destruct Hask.
  - destruct Hn as [fid Hn], Hn1 as [fid1 Hn1]. rewrite Hn1 in Hn. injection Hn as <- <-.
    eapply sees_file_changed; [done| |exact Hc]. split; [by eexists|done].
  - inversion Hc.
  - destruct Hch.
Qed.
Lemma sample_obedient : obedient sample_kernel 4 [] state0.
Proof.
  split; [by eexists|]. intros r1 S1 (e & -> & H1)%sees_looked_up. cbn [sample_kernel].
  assert (∀ S k off, sees_file S (fe_ino e) → 0 <= k <= 10 → 0 <= off <= 10 → transfer_ok S (fe_ino e) k off) as Htr.
  { intros S k off [_ (o & Ho & Ht)] Hk Hoff. split_and!; try lia. by exists [2], o. }
  split; [split; [apply Htr; [done|cbn; lia..]|done]|]. intros r2 S2 H2%sees_written; [|done]. cbn [sample_kernel].
  split; [apply Htr; [done|lia..]|]. intros r3 S3 H3%sees_read; [|done].
  split; [apply H3|done].
Qed.

(** ** Instances of the properties *)

Definition start_files : world := {|
  w_heap := ∅; w_sb := zero_super; w_clients := ∅;
  nfs_server_bak := {| ca_saddr := zero_saddr; ca_pmap := zero_pmap |};
  acl_server_bak := {| ca_saddr := zero_saddr; ca_pmap := zero_pmap |};
  ssize_bak := 0; rsize_bak := 0; w_page_size := 0; w_replies := []; w_est := files0 |}.
Definition file_options : mount_opts :=
  fold_left apply_setting sample_settings
    (initial_opts (zero_super <| sb_saddr ::= λ a, a <| sin_addr := 0x0100007f |> |>)).
Lemma file_invocation :
  invocation start_files "127.0.0.1:/export" "timeo=70,acregmin=5" (chars "/export") file_options.
Proof.
  apply (invocation_intro _ _ _ localhost _ 0x0100007f sample_settings);
    [decided|vm_compute; lia|exact sample_devname|evaluate|exact sample_settings_valid|cbn; lia|
     evaluate|done|done|done].
Qed.
Lemma file_memory used : (size used <= 1 + 4)%nat → memory_plenty used.
Proof. intros Hu sz e. apply sample_malloc_some. lia. Qed.



(** The replies of that conversation, newest first. *)
Example sample_replies :
  match hsfs_start 1 4096 "127.0.0.1:/export" (Some "timeo=70,acregmin=5"%string) true [1; 2] 3 0 start_files with
  | Ok (true, w1) =>
      match converse sample_kernel 4 w1 with
      | Ok (_, w') => match w_replies w' with
                      | [reply_entry d; reply_buf buf; reply_write k; reply_entry f] => (fe_ino d, buf, k, fe_ino f)
                      | _ => (0, [], 0, 0)
                      end
      | _ => (0, [], 0, 0)
      end
  | _ => (0, [], 0, 0)
  end = (3, [1; 2; 9; 8; 7], 3, 2).
Proof. vm_compute. reflexivity. Qed.
