(* ===== verification/WitnessMain.v ===== *)
(** * Samples of the rest of the program

    Instances of the properties of linked lists, of the mount table, of the command
    line and of the types of the mount data. *)

From S2P Require Import Prelude CString Bitops Hash HList Types ErrPtr Icache NfsInode Rpc.
From S2P Require Import ParseDev Options Nfs3 Acl Fuse Mount CacheSpec Attrs Lookups Failures Entries.
From S2P Require Import DList Mntent Fstab Mtab MntFlags Mounted CmdLine Typed Witness WitnessMount.

(** ** Lists *)

(** The head at 1 with the nodes 2 and 3, the empty list at 5, and a spare node. *)
Definition sample_links : dmem :=
  link 6 6 (link 5 5 (link 3 1 (link 2 3 (link 1 2 {| d_next := ∅; d_prev := ∅ |})))).
Definition sample_rings : gmap Z (list Z) := {[1 := [2; 3]; 5 := []]}.
Lemma sample_rings_lookup h l : sample_rings !! h = Some l → h = 1 ∧ l = [2; 3] ∨ h = 5 ∧ l = [].
Proof.
  unfold sample_rings. rewrite lookup_insert_Some. intros [[<- <-]|[_ Hl]]; [by left|right].
  apply lookup_singleton_Some in Hl as [<- <-]. done.
Qed.
Lemma sample_rings_ok : rings sample_links sample_rings.
Proof.
  split.
  - intros h l [[-> ->]|[-> ->]]%sample_rings_lookup; (split; [decided|]); by repeat split.
  - intros h1 h2 l1 l2 a [[-> ->]|[-> ->]]%sample_rings_lookup [[-> ->]|[-> ->]]%sample_rings_lookup; try done;
      rewrite !elem_of_cons, !elem_of_nil; lia.
Qed.
Lemma sample_spare : spare sample_links sample_rings 6.
Proof.
  split; [split; by eexists|].
  intros h l [[-> ->]|[-> ->]]%sample_rings_lookup; rewrite !elem_of_cons, !elem_of_nil; lia.
Qed.
Lemma list_operations_refine_witness :
  (∃ m', list_add 6 1 sample_links = Ok (tt, m') ∧ rings m' (<[1 := [6; 2; 3]]> sample_rings)) ∧
  (∃ m', list_splice_init 1 5 sample_links = Ok (tt, m') ∧ rings m' (<[1 := []]> (<[5 := [2; 3]]> sample_rings))) ∧
  list_for_each_prev 3 1 sample_links = Ok ([3; 2], sample_links).
Proof.
  destruct (list_operations_refine sample_links sample_rings 1 [2; 3] 6 sample_rings_ok eq_refl)
    as (Hadd & _ & Hsplice & _ & Hprev).
  split; [exact (proj1 (Hadd sample_spare))|]. split; [|exact Hprev].
  exact (Hsplice 5 [] eq_refl ltac:(discriminate)).
Defined.

(** ** The mount table *)

Definition working : MtabEnv := {|
  sys_errno := λ _, 0; new_addr := λ X, 1 + foldr Z.max 0 (elements X) |}.
Definition other_entry : nfs_mntent_t := sample_mntent <| mnt_dir := chars "/other" |>.
Definition sample_mst : mst := {|
  ms_links := {| d_next := ∅; d_prev := ∅ |}; ms_ents := ∅;
  ms_mtab := Some (written [sample_mntent; other_entry]); ms_symlink := false; ms_temp := None;
  ms_proc := None; ms_fstab := None; ms_calls := 0; have_mtab_info := false;
  var_mtab_does_not_exist := false; var_mtab_is_a_symlink := false; got_mtab := false; got_fstab := false;
  mounttable := 0; fstab := 0; we_created_lockfile := false; lock_tries := 0 |}.
#[local] Existing Instance working.
#[local] Instance working_ok : MtabEnvOk working.
Proof.
  assert (∀ l, 0 <= foldr Z.max 0 l ∧ Forall (λ x, x <= foldr Z.max 0 l) l) as Hmax.
  { induction l as [|x l [H1 H2]]; cbn; [split; [lia|constructor]|]. split; [lia|].
    constructor; [lia|]. eapply Forall_impl; [|exact H2]. cbn. lia. }
  split; intros X; cbn; destruct (Hmax (elements X)) as [H0 Hall]; [|lia].
  intros Hin%elem_of_elements. rewrite list.Forall_forall in Hall. specialize (Hall _ Hin). lia.
Qed.

(** ** Flags and options *)

Lemma mount_flags_roundtrip_witness :
  ∃ o, hsi_parse_opts (λ _, false) (hsi_fix_opts_string None 11 []) 0 = Some o ∧ po_flags o = 11 ∧ po_extra o = [].
Proof.
  apply (mount_flags_roundtrip (λ _, false) 11); [|lia|reflexivity].
  apply list.Forall_forall. intros n _. reflexivity.
Defined.

Definition sample_lib : FuseLib := {|
  fuse_opt_events := λ args, (λ a, if bool_decide (String.get 0 a = Some "1"%char) || bool_decide (String.get 0 a = Some "/"%char)
                                   then Ev_key FUSE_OPT_KEY_NONOPT a
                                   else if bool_decide (a = "-f"%string) then Ev_key KEY_f a
                                   else Ev_key FUSE_OPT_KEY_OPT a) <$> args;
  fuse_opt_add_opt := add_option;
  fuse_parse_cmdline := λ kept, Some {| fc_mountpoint := snd <$> list.head kept; fc_show_help := false; fc_show_version := false |} |}.
#[local] Existing Instance sample_lib.
#[local] Instance sample_lib_ok : FuseLibOk sample_lib.
Proof. by split. Qed.
Definition sample_args : list string := ["127.0.0.1:/export"; "/mnt"; "-f"; "timeo=70"; "ro"; "rw"]%string.


Lemma ro_unsupported : unsupported (chars "ro").
Proof. split; [decided|done|decided|vm_compute; lia|]. intros o. reflexivity. Qed.
Lemma unsupported_flag_refuses_mount_witness :
  ∃ w', hsfs_main (ME := accepting) 1 4096 sample_args None [1] 1 0 start_world = Ok (1, w') ∧
    w_heap w' = ∅ ∧ w_replies w' = [].
Proof.
  apply (@unsupported_flag_refuses_mount export_env accepting sample_lib sample_lib_ok 1 4096 sample_args None [1] 1 0 start_world
    {| fc_mountpoint := Some "/mnt"%string; fc_show_help := false; fc_show_version := false |}
    "127.0.0.1:/export" localhost (chars "/export") 0x0100007f
    [(("timeo", λ v, on_super (λ s, s <| timeo := v |>)), 70)]%string (chars "ro") [chars "rw"] empty_plenty);
    try reflexivity.
  - by eexists.
  - decided.
  - vm_compute. lia.
  - exact sample_devname.
  - repeat constructor; cbn; try lia; unfold numeric; repeat (apply list_elem_of_here || apply list_elem_of_further).
  - cbn. lia.
  - exact ro_unsupported.
  - repeat constructor; decided.
Defined.

(** ** Types *)

Lemma zero_typed : typed_opts (initial_opts zero_super).
Proof. split; [split|..|split|split]; vm_compute; split; congruence. Qed.
Lemma sample_fsinfo_typed : typed_fsinfo sample_fsinfo.
Proof. split; vm_compute; split; congruence. Qed.
(** An [rsize] beyond every integer type. *)
Definition wild_options : string := "rsize=99999999999999999999,timeo=4294967297,acl".
#[local] Abbreviation wild_run :=
  (hsi_nfs3_parse_options (ME := accepting) wild_options zero_saddr (initial_opts zero_super) start_world).
Definition opts_of (r : res (Z * sockaddr_in * mount_opts * world (E := export_env))) : mount_opts :=
  match r with Ok (_, _, o, _) => o | _ => initial_opts zero_super end.
Lemma opts_of_run r : returned r = true → ∃ ret addr w, r = Ok ((ret, addr, opts_of r), w).
Proof. destruct r as [[[[ret addr] o] w]| | |]; [|done..]. intros _. by eexists _, _, _. Qed.
